(* ===== verification/_CoqProject ===== *)
-Q . S2P
Prelude.v
RustStr.v
Kinds.v
TestCase.v
Ticket.v
Lifecycle.v
State.v
DepGraph.v
StateOps.v
Questions.v
Goals.v
Ledgers.v
Selection.v
Backlog.v
SprintFacts.v
Ports.v
Shards.v
Integrity.v
Store.v
ShardStore.v
MergeLock.v
Outbox.v
FileSys.v
JsonStore.v
Spool.v
AuditChain.v
Totp.v
Auth.v
AccessGate.v
Titles.v
Board.v
AddTicket.v
Claims.v
Channels.v
Approval.v
ApprovalDesk.v
MergePolicy.v
Split.v
Escalation.v
Effects.v
Engine.v
Gates.v
Failures.v
Focus.v
DevPorts.v
Wip.v
RunDev.v
RunDevFacts.v
RunDevCases.v
Runner.v
RunnerFacts.v
Metering.v
Scorecard.v
CyclePorts.v
Deploys.v
Cycle.v
CycleFacts.v
DeployFacts.v
CycleCases.v
Calendar.v
Brakes.v
