(* ===== verification/Prelude.v ===== *)
(** * CoXAgent: a verification library of the agent team's hub

    CoXAgent (src/) runs a team of language-model agents on a software project:
    a board of tickets, sprints, pull requests, approvals and chat, one state
    document per project, and a cycle that moves work through roles. The crates
    are domain (the ticket aggregate and value objects), application (the project
    state, use cases and ports), infrastructure (stores, leases, audit, engines,
    git and forge adapters) and presentation (HTTP). This library models the
    parts that decide: what a ticket may do, what the state holds and refuses,
    what is worked on next, who may approve, and what concurrent writers of the
    stored document can do to each other. Integers keep their width (wrap or
    saturation written out), strings are their UTF-8 bytes, f64 is IEEE binary64
    of SpecFloat, BTreeMap and HashMap are gmap (iterated in key order where the
    code iterates), a Vec is a list.

    ** How the parts meet

    The domain crate gives tickets and their legal moves ([Kinds], [TestCase],
    [Ticket]). A [ProjectState] ([State]) is one document: tickets, ledgers,
    questions, goals, sprints, channels, approvals. Its own methods change it
    ([StateOps], [Questions], [Goals], [Channels], [Ledgers]); [DepGraph] and
    [Integrity] say which states are accepted for saving. The use cases read a
    state and return the state they save: choosing work ([Selection]), sprints
    ([Backlog], [SprintFacts]), filing tickets ([Titles], [Board], [AddTicket]),
    claims ([Claims]), approvals ([Approval], [ApprovalDesk]), pull requests
    ([MergePolicy]) and rescue ([Split], [Escalation]). The use cases that call engines
    and git are programs over ports ([Effects]): the developer pass ([RunDev]), the
    cycle that runs the roles ([Cycle]) with its deploy leg ([Deploys]) and its
    books ([Metering], [Scorecard]), and the loop that drives cycles ([Runner]). The stores load and save
    the document under a revision ([Shards], [Store], [ShardStore]), and the
    processes that share it run as interleaved clients; leases ([MergeLock]), the
    outbox ([Outbox]), the audit trail ([AuditChain]) and the second factor
    ([Totp]) stand beside it. In front of everything stand the accounts with
    their sessions and tokens ([Auth]) and the middleware that lets a caller
    reach a route ([AccessGate]). Everything a use case does to a state between a
    load and a save is a function; concurrency enters only in the store files,
    where [mutate_state] is the loop that runs such a function.

    ** Files, and the code each one models

    - [Prelude]: the error monad ([result] with [let?]), capped logs, first-match
      writes, stable sorting, integer widths, tactics and hint databases.
    - [RustStr]: chars, trim, lines, split, parse and format of &str and String.
    - [Kinds]: domain/src/kinds.rs, ids.rs, error.rs, transitions.rs.
    - [TestCase]: domain/src/test_case.rs, coverage.rs. [Ticket]: ticket.rs and
      wip_checkpoint.rs, one function per mutator, guards first, [Err] for a
      refusal. [Lifecycle]: the mutators as operations, the steps they generate.
    - [State]: application/src/state/mod.rs and the records of its siblings, all
      fields of [ProjectState]. [DepGraph]: [validate] and the iterative cycle
      search. [StateOps], [Questions], [Goals], [Ledgers]: the methods of
      state/mod.rs, goals.rs, governance.rs, drift.rs. [Channels]: the channel
      operations and the predicates of state/chat.rs.
    - [Selection]: application/src/selection.rs. [Backlog], [SprintFacts]:
      backlog_scoping.rs and sprint.rs.
    - [Ports], [Shards], [Integrity], [Store], [ShardStore]: error.rs,
      state/shards.rs, state/integrity.rs, the write gate of
      infrastructure/src/state/quarantine.rs, sql_store.rs, sql_shards.rs,
      tombstone.rs and the retry loops of ports/outbound/state_store.rs. A
      client's program counter is [Pc]; one step is one database statement with
      the code up to the next.
    - [MergeLock]: kv_merge_lock.rs over the class [KvDoc] of [Ports], whose
      laws kv_doc.rs ([PgKvDoc]) is shown to satisfy; use_cases/merge_gate.rs.
    - [FileSys]: the file calls of the standard library over a directory of
      inodes with advisory locks, and programs as trees of calls, interleaved by
      a machine in which calls fail, writes are cut short and processes die.
      [JsonStore]: infrastructure/src/state/json_store.rs, each operation the
      program of its calls ([save_blocking], [claim_blocking], ...).
    - [Outbox]: state/outbox.rs. [Spool]: infrastructure/src/outbox.rs,
      ports/outbound/outbox.rs and the delivery pass of notifier.rs. [AuditChain]: audit_chain.rs, audit_sink.rs.
      [Totp]: totp.rs.
    - [Auth]: application/src/auth.rs (roles) and infrastructure/src/auth.rs
      ([FileAuthService]: files, throttle, sessions, tokens, accounts); a
      history is a list of served calls and restarts. [AccessGate]: [auth_mw]
      and the account and token endpoints of presentation/src/server.
    - [Titles]: the title part of parsing.rs. [Board]: the invariant of a list of
      tickets the use cases share. [AddTicket]: use_cases/add_ticket.rs.
    - [Claims]: use_cases/claims.rs. [Approval]: approval_risk.rs,
      approval_memory.rs, approval_policy.rs and the pass of cycle/audits.rs.
      [ApprovalDesk]: the decision endpoints of presentation/src/server.
    - [MergePolicy]: merge_policy.rs, merge_sweep.rs, open_hold_round of
      cycle/forge_review.rs. [Split], [Escalation]: cycle/escalation.rs.
    - [Effects]: a use case as the finite tree of its port calls, each continued
      for every reply, with monitors over the calls ([every]) and worlds ([run]).
      [Engine]: ports/outbound/engine.rs, faults.rs, engine_provenance.rs and
      infrastructure/src/engine/failover.rs. [Gates], [Failures], [Wip]: gates.rs
      (with verify_cache.rs), failures.rs and wip.rs of use_cases/run_dev.
      [Focus]: question_batching.rs, the focus and SLA passes of
      cycle/escalation.rs and the windows of config.rs. [DevPorts]: the calls and
      the writes of use_cases/run_dev/mod.rs, [RunDev] its program,
      [RunDevFacts] its protocol, [RunDevCases] scripted runs. [Runner],
      [RunnerFacts]: use_cases/runner.rs, one [turn] per pass of its loop.
    - [Metering]: infrastructure/src/engine/metering.rs and [drain_meter] of
      cycle/scrum.rs. [Scorecard]: the counter of cycle/mod.rs, the rest of scrum.rs
      and metrics_gate.rs. [CyclePorts]: the configuration, writes ([CycleMutation],
      [apply_cycle]) and calls ([CycleCall]) of use_cases/cycle. [Deploys]:
      cycle/ops.rs, the health gate of ports/outbound/deploy.rs and the deploy leg of
      [run_cycle]. [Cycle]: [run_cycle] of cycle/mod.rs, with recovery.rs and the
      backpressure of forge.rs. [CycleFacts], [DeployFacts]: their laws, [CycleCases]
      scripted cycles.
    - [Calendar]: [days_back] of metrics.rs. [Brakes]: the evals and policy of
      metrics.rs, metrics_burndown.rs, metrics_brakes.rs, [self_tune] of
      cycle/ceremonies.rs and server/tunecockpit.rs; the pass that plans on one load
      and writes on another takes both states.
    A field keeps its Rust name where two records do not clash and a prefix
    otherwise ([t_] ticket, [sp_] sprint, [ph_] open hold, ...). A function the
    code writes inline (a loop body, a filter) is a definition named after what
    it does; PROJECT.json maps each to its lines.

    ** What is shown

    - Tickets: the aggregate invariant, separation of duties (with the two repairs
      of [System] that do not ask the transition table), exclusive claims, field
      ownership and the coverage gate ([Lifecycle]).
    - State: the cycle search and [validate] are exact ([DepGraph]); the ledgers,
      questions and channels keep their bounds and keys; the audit finds what its
      rules say and the heal repairs exactly the dangling references
      ([Integrity]); sharding loses nothing ([Shards]).
    - Work: a running sprint with a scope is fed from eligible work and its
      commitments stay sound ([SprintFacts]), selection takes the best eligible ticket and the blockers
      it reports are the reasons it did not take others ([Selection]); filing
      adds exactly one fresh ticket or says why not ([AddTicket]) by a duplicate
      predicate that is exact over words ([Titles]); the drive and the ladder
      keep the board sound, move each ticket as stated and pay for every rescue; what
      the drive does to a ticket a person put on hold with a reason is a finding and
      not part of the statement ([Escalation], [Split]).
    - People: takeover and handback return a ticket to the loop ([Claims]), the
      approval panel shows what the pass does and an undo sticks ([Approval],
      [ApprovalDesk]), a private channel is seen by invitation only ([Channels]).
    - Runs: a run fails over in order and keeps its trail ([Engine], the tag of an
      exhausted chain apart), a failed attempt
      moves a ticket one rung ([Failures]); a developer pass reports only what its
      gates saw pass, lets go of what it claims and costs at most eight engine
      runs, whatever the ports reply ([RunDevFacts], by the monitors of
      [Effects]); the runner's breaker counts what it says, a runner nobody
      resumes runs one cycle per step and after a cycle within its budget the
      engine's incident is open when the cycle had a fault, or when it was open and
      there was no sign of life ([RunnerFacts]); the questions due at the end of a
      window go out in one digest per owner and are released ([Focus]) and live work keeps its ref
      ([Wip]).
    - Cycles: the calls that are due once per project need the lease (every runner
      drains queued jobs), a pause seen ends the cycle, an open incident leaves
      one probe, and the leader's cycle that finds the merge queue in recovery stops
      proposing, designing and testing ([CycleFacts]); a build is promoted or reverted
      only on evidence, with what an unreadable git or suite counts as stated, and a
      failed deploy is announced and, when the store answers, recorded
      ([DeployFacts]); the scorecard rises and holds the healthy cycles, under the
      counter when it loads and the runner's own number when not ([Scorecard]); what
      is metered is in the state, in the meter, or lost with a drain that was not
      saved ([Metering]).
    - Brakes: an operator's hold rules its brake until its bound whatever the loop
      does, and nothing is claimed of the brake's value after it ([Brakes]), and the days its evals count back are the calendar's
      ([Calendar]).
    - Pull requests: the sweep merges exactly what may land, closing a twin costs
      no file, and no hold outlives its rounds ([MergePolicy]).
    - Stores: guarded saves never lose a committed write, a deleted project stays
      deleted, and the Postgres store refines one atomic register ([Store],
      [ShardStore]); the file-backed store is one atomic object whatever fails or
      dies, a ticket is won once, a lease passes on only when it ran out, and a
      damaged document costs one save ([JsonStore], by the serializability of
      lock-holding programs of [FileSys]; [delete], which takes no lock, and other
      writers of the directory, such as the alert spool with its shared temporary
      file, are outside these theorems and have runs of their own); at most one client holds a merge lease
      ([MergeLock]).
    - Access: a session leads back to a login with right credentials, five
      guesses lock an account, what is revoked stays revoked and a relaunch
      signs nobody out ([Auth]); the routes of a project ask for the rights
      their documentation names ([AccessGate]).
    - Trails: the audit chain is tamper evident and its verifier exact
      ([AuditChain]); base32 round trips and a code is accepted in its window
      only ([Totp]); the outbox gives up after eight attempts on schedule
      ([Outbox]); no POST follows one whose success was recorded, and the recorded
      failures of each life of an alert are at most eight, replays and flushers that
      die before they record included ([Spool]).
    The theorems named in the findings of PROJECT.json show where the code does
    not do what its documentation says; each is a closed run of the model.

    ** Bounds and fuel

    Recursion that is not structural has fuel computed from its input: the cycle
    search one unit per node and per edge ([dfs_fuel], proved enough in
    [cycle_search_exact]), the search for a fresh goal id the number of goals.
    Schedules of clients are arbitrary lists, so safety holds at every prefix.
    Programs are finite trees, so running one needs no fuel. File calls fail as the
    schedule says, the reads of the state document and its backups included; only
    the reads of the coordination file are assumed to work in JsonStore's theorems
    (what a failed one does is a finding), and [Path::exists] is truthful.
    The comparison of two title similarities is checked on every quotient of up
    to sixty-four words ([max_words]).

    ** Parameters

    What the code calls and does not contain: Unicode case folding and
    alphanumerics, the RFC 3339 parser, serde_json, SHA-256, HMAC-SHA1 and Argon2, the
    text of an f64, minted ids and clocks, engine replies and the forge. They are
    section variables or arguments, with their laws as hypotheses where a theorem
    needs one, and the witnesses instantiate them. Of serde_json a theorem asks only
    that the states at hand read back up to its rounding of an f64, which those with
    finite numbers do ([SerdeJson] of [JsonStore]). The stored JSON of Postgres is
    the document it decodes to: its renormalised text (JSONB) and a document that
    does not decode are not distinguished ([ShardStore], [PgKvDoc]).

    ** Not modelled

    The passes of the other roles (run_sa, run_ba, run_test, reviews, chat
    replies) and the ceremonies, sweeps and reviews of a cycle: [Cycle] calls them
    (the constructors of [Phase] and the role calls of [CycleCall]) and its theorems
    hold whatever they reply. The deploy and forge adapters, prompts, the
    HTTP plumbing (JSON views, sockets), the Postgres account store, the REST store,
    the leases in Postgres and Redis, the keepalive and heartbeat tasks of the
    runner, and the desktop and web clients: their effect is input and output, and
    the state changes they make go through the operations above. *)
From stdpp Require Export base decidable list strings gmap sets pretty.
From coqutil Require Export Datatypes.RecordSetters.
From Stdlib Require Export Ascii Lia.
From Stdlib Require Import Sorted Permutation.
Export TriangleBracketNotations.

#[global] Set Default Goal Selector "!".

(** ** The error monad of the crates ([Result<T, E>]) *)

Inductive result (E A : Type) : Type :=
| Ok (a : A)
| Err (e : E).
Arguments Ok {E A} a.
Arguments Err {E A} e.

#[export] Instance result_eq_dec {E A} `{EqDecision E, EqDecision A} : EqDecision (result E A).
Proof. solve_decision. Defined.

Declare Scope cox_scope.
Delimit Scope cox_scope with cox.
Open Scope cox_scope.

Definition result_bind {E A B} (m : result E A) (k : A -> result E B) : result E B :=
  match m with Ok a => k a | Err e => Err e end.

Definition result_map {E A B} (f : A -> B) (m : result E A) : result E B :=
  match m with Ok a => Ok (f a) | Err e => Err e end.

(** [let? x := m in k] is the source's [let x = m?; k]. *)
Notation "'let?' x := m 'in' k" := (result_bind m (fun x => k))
  (at level 10, x name, m at level 100, k at level 200) : cox_scope.

Lemma result_bind_ok {E A B} (m : result E A) (k : A -> result E B) b :
  result_bind m k = Ok b <-> exists a, m = Ok a /\ k a = Ok b.
Proof. destruct m; simpl; naive_solver. Qed.

Lemma result_map_ok {E A B} (f : A -> B) (m : result E A) b :
  result_map f m = Ok b <-> exists a, m = Ok a /\ b = f a.
Proof. destruct m; simpl; naive_solver. Qed.

(** A check that only applies under a condition. *)
Lemma guard_when_ok {E} (P : Prop) `{Decision P} (m : result E unit) :
  (if decide P then m else Ok tt) = Ok tt <-> (P -> m = Ok tt).
Proof. case_decide; naive_solver. Qed.

Definition is_ok {E A} (m : result E A) : bool :=
  match m with Ok _ => true | Err _ => false end.

Definition result_ok {E A} (m : result E A) : option A :=
  match m with Ok a => Some a | Err _ => None end.

(** ** Unsigned machine integers

    [u32]/[u64] values are [N]; the release profile wraps on overflow
    ([Cargo.toml] sets no [overflow-checks]), [saturating_*] clamps. *)

Definition u32_max : N := 4294967295.
Definition u64_max : N := 18446744073709551615.
Definition u32_wrap (n : N) : N := (n mod 4294967296)%N.
Definition u64_wrap (n : N) : N := (n mod 18446744073709551616)%N.
Definition u32_sat_add (a b : N) : N := N.min (a + b) u32_max.
Definition u64_sat_add (a b : N) : N := N.min (a + b) u64_max.

(** ** Tactics *)

(** Case analysis on every [if]/[match] scrutinee of the goal or hypotheses. *)
Ltac case_matches :=
  repeat (case_match; simplify_eq/=; try done).

(** Case analysis on a finite value, closing the goals that compute. *)
Ltac finite_cases :=
  repeat match goal with x : _ |- _ => destruct x end; cbn in *; try done.

Create HintDb cox discriminated.
Create Rewrite HintDb cox_str.
Create Rewrite HintDb cox_case.

(** ** Capped logs: [v.push(x); v.drain(0..v.len().saturating_sub(n))] *)
Section CappedLog.
Context {A : Type}.
Implicit Types (l : list A) (x : A) (n : nat).

  (** What [drain(0..overflow)] leaves: the newest [n] entries. *)
Definition keep_last n l : list A := drop (length l - n) l.

Definition push_capped n x l : list A := keep_last n (l ++ [x]).

Lemma length_keep_last n l : length (keep_last n l) = length l `min` n.
  Proof. unfold keep_last. rewrite length_drop. lia. Qed.

Lemma keep_last_le n l : length (keep_last n l) <= n.
  Proof. rewrite length_keep_last. lia. Qed.

Lemma keep_last_id n l : length l <= n -> keep_last n l = l.
  Proof. intros. unfold keep_last. replace (length l - n) with 0 by lia. done. Qed.

Lemma keep_last_suffix n l : keep_last n l `suffix_of` l.
  Proof. exists (take (length l - n) l). unfold keep_last. by rewrite take_drop. Qed.

Lemma keep_last_Forall (P : A -> Prop) n l : Forall P l -> Forall P (keep_last n l).
  Proof. apply Forall_drop. Qed.

Lemma push_capped_le n x l : length (push_capped n x l) <= n.
  Proof. apply keep_last_le. Qed.

Lemma length_push_capped n x l :
    length (push_capped n x l) = S (length l) `min` n.
  Proof. unfold push_capped. rewrite length_keep_last, length_app. cbn [length]. lia. Qed.

Lemma push_capped_under n x l : length l < n -> push_capped n x l = l ++ [x].
  Proof. intros. apply keep_last_id. rewrite length_app. simpl. lia. Qed.

  (** A full log drops exactly its oldest entry. *)
Lemma push_capped_full n x y l :
    S (length l) = n -> push_capped n x (y :: l) = l ++ [x].
  Proof.
    intros Hn. unfold push_capped, keep_last. simpl. rewrite length_app. simpl.
    replace (S (length l + 1) - n) with 1 by lia. done.
  Qed.

Lemma push_capped_last n x l : 0 < n -> last (push_capped n x l) = Some x.
  Proof.
    intros. unfold push_capped, keep_last. rewrite length_app. simpl.
    rewrite drop_app_le by lia. apply last_snoc.
  Qed.

Lemma push_capped_Forall (P : A -> Prop) n x l :
    P x -> Forall P l -> Forall P (push_capped n x l).
  Proof. intros. apply keep_last_Forall, Forall_app. auto. Qed.
End CappedLog.

#[export] Hint Resolve push_capped_le keep_last_le push_capped_Forall : cox.

(** ** First-match access: [iter().find] and [iter_mut().find] *)
Section FirstMatch.
Context {A : Type}.
Implicit Types (p : A -> bool) (f : A -> A) (l : list A).

  (** The write through [iter_mut().find(p)]: only the first match changes. *)
Fixpoint update_first p f l : list A :=
    match l with
    | [] => []
    | x :: l' => if p x then f x :: l' else x :: update_first p f l'
    end.

Lemma length_update_first p f l : length (update_first p f l) = length l.
  Proof. induction l as [|x l IH]; simpl; [done|]. destruct (p x); simpl; auto. Qed.

Lemma update_first_none p f l : List.find p l = None -> update_first p f l = l.
  Proof.
    induction l as [|x l IH]; simpl; [done|].
    destruct (p x); intros; [done|]. f_equal. auto.
  Qed.

Lemma find_update_first p f l :
    (forall x, p x = true -> p (f x) = true) ->
    List.find p (update_first p f l) = f <$> List.find p l.
  Proof.
    intros Hp. induction l as [|x l IH]; simpl; [done|].
    destruct (p x) eqn:E; simpl; [by rewrite Hp|]. by rewrite E.
  Qed.

Lemma update_first_Forall (P : A -> Prop) p f l :
    (forall x, P x -> p x = true -> P (f x)) -> Forall P l -> Forall P (update_first p f l).
  Proof.
    intros Hf. induction 1 as [|x l Hx Hl IH]; simpl; [done|].
    destruct (p x) eqn:E; constructor; auto.
  Qed.

  (** Every entry after the update is an old entry or the image of one. *)
Lemma elem_of_update_first p f l y :
    y ∈ update_first p f l -> y ∈ l \/ exists x, List.find p l = Some x /\ y = f x.
  Proof.
    induction l as [|x l IH]; simpl; [auto|].
    destruct (p x); rewrite !elem_of_cons.
    - intros [->|?]; eauto.
    - intros [->|?]; [auto|]. destruct IH as [?|(z & ? & ?)]; eauto.
  Qed.

Lemma find_elem p l x : List.find p l = Some x -> x ∈ l /\ p x = true.
  Proof. intros H%List.find_some. by rewrite list_elem_of_In. Qed.

Lemma find_is_none p l : List.find p l = None -> forall x, x ∈ l -> p x = false.
  Proof. intros H x Hx. apply (List.find_none p l H). by rewrite <- list_elem_of_In. Qed.

  (** The write hits the entry [find] returns, and nothing else. *)
(** A write through the first match only sees that element. *)
Lemma update_first_const p f l x :
    List.find p l = Some x -> update_first p f l = update_first p (fun _ => f x) l.
  Proof.
    induction l as [|y l IH]; cbn; [done|]. destruct (p y); [by intros [= ->]|]. intros H. by rewrite IH.
  Qed.

Lemma update_first_app p f l k x :
    List.find p l = Some x -> update_first p f (l ++ k) = update_first p f l ++ k.
  Proof.
    induction l as [|y l IH]; cbn; [done|]. destruct (p y); [done|]. intros H. by rewrite IH.
  Qed.

Lemma update_first_found p f l x :
    List.find p l = Some x ->
    exists l1 l2, l = l1 ++ x :: l2 /\ update_first p f l = l1 ++ f x :: l2.
  Proof.
    induction l as [|y l IH]; cbn; [done|]. destruct (p y).
    - intros [= ->]. by exists [], l.
    - intros (l1 & l2 & -> & E)%IH. exists (y :: l1), l2. by rewrite E.
  Qed.

  (** Mapping a projection the update preserves sees no change. *)
Lemma map_update_first {B} (g : A -> B) p f l :
    (forall x, p x = true -> g (f x) = g x) -> g <$> update_first p f l = g <$> l.
  Proof.
    intros Hg. induction l as [|x l IH]; simpl; [done|].
    destruct (p x) eqn:E; rewrite !fmap_cons; [by rewrite Hg|]. by rewrite IH.
  Qed.
End FirstMatch.

(** ** Lists with distinct keys *)
Section Keyed.
Context {A K : Type} (key : A -> K).

(** Two entries of a list with distinct keys are the same entry as soon as
    their keys agree. *)
Lemma keyed_inj (l : list A) x y :
  NoDup (key <$> l) -> x ∈ l -> y ∈ l -> key x = key y -> x = y.
Proof.
  induction l as [|z l IH]; [by intros _ ?%elem_of_nil|].
  rewrite fmap_cons, NoDup_cons. intros [Hn Hnd] [->|Hx]%elem_of_cons [->|Hy]%elem_of_cons E; auto.
  - exfalso. apply Hn. rewrite E. by apply list_elem_of_fmap_2.
  - exfalso. apply Hn. rewrite <- E. by apply list_elem_of_fmap_2.
Qed.

(** Looking an entry up by its own key finds it. *)
Lemma keyed_find (p : A -> bool) (l : list A) x :
  NoDup (key <$> l) -> x ∈ l -> p x = true -> (forall y, p y = true -> key y = key x) ->
  List.find p l = Some x.
Proof.
  intros Hnd Hx Hp Hk. destruct (List.find p l) as [y|] eqn:E.
  - apply find_elem in E as [Hy Hpy]. f_equal. eapply keyed_inj; eauto.
  - rewrite (find_is_none _ _ E x Hx) in Hp. done.
Qed.
End Keyed.

(** ** Stable sorting: [v.sort_by(cmp)], with [le x y] for [cmp(x, y) != Greater] *)
Section SortBy.
Context {A : Type} (le : A -> A -> bool).

Fixpoint insert_by (x : A) (l : list A) : list A :=
  match l with
  | [] => [x]
  | y :: l' => if le x y then x :: l else y :: insert_by x l'
  end.

Definition sort_by (l : list A) : list A := foldr insert_by [] l.

Lemma insert_by_perm x l : insert_by x l ≡ₚ x :: l.
Proof.
  induction l as [|y l IH]; cbn; [done|]. destruct (le x y); [done|].
  rewrite IH. apply Permutation_swap.
Qed.

Lemma sort_by_perm l : sort_by l ≡ₚ l.
Proof. induction l as [|x l IH]; cbn; [done|]. by rewrite insert_by_perm, IH. Qed.

Lemma elem_of_sort_by x l : x ∈ sort_by l <-> x ∈ l.
Proof. by rewrite sort_by_perm. Qed.

Context (Htotal : forall x y, le x y = true \/ le y x = true).
Context (Htrans : forall x y z, le x y = true -> le y z = true -> le x z = true).

Lemma insert_by_sorted x l :
  StronglySorted (fun a b => le a b = true) l -> StronglySorted (fun a b => le a b = true) (insert_by x l).
Proof.
  induction 1 as [|y l Hl IH Hy]; cbn; [by repeat constructor|].
  destruct (le x y) eqn:E.
  - constructor; [by constructor|]. constructor; [done|].
    eapply Forall_impl; [exact Hy|]. intros z. by apply Htrans.
  - constructor; [done|]. rewrite insert_by_perm. constructor; [|done].
    destruct (Htotal x y); congruence.
Qed.

Lemma sort_by_sorted l : StronglySorted (fun a b => le a b = true) (sort_by l).
Proof. induction l; cbn; [constructor|by apply insert_by_sorted]. Qed.

(** The element above all others is the last. *)
Lemma sort_by_last l x :
  x ∈ l -> (forall y, y ∈ l -> y = x \/ le x y = false) -> last (sort_by l) = Some x.
Proof.
  intros Hx Hmax. destruct (last (sort_by l)) as [z|] eqn:E.
  - f_equal. pose proof (sort_by_sorted l) as Hs. apply last_Some in E as [k E]. rewrite E in Hs.
    rewrite <- (elem_of_sort_by x), E in Hx.
    apply elem_of_app in Hx as [Hx|Hx%list_elem_of_singleton]; [|done].
    assert (le x z = true) as Hle.
    { clear E. induction k as [|y k IH]; [by apply elem_of_nil in Hx|]. cbn in Hs. inversion Hs as [|? ? Hk Hy]; subst.
      apply elem_of_cons in Hx as [->|Hx]; [|by apply IH].
      eapply Forall_forall in Hy; [exact Hy|]. apply elem_of_app. right. by apply list_elem_of_singleton. }
    destruct (Hmax z) as [->|Hf]; [|done|congruence].
    rewrite <- (elem_of_sort_by z l), E. apply elem_of_app. right. by apply list_elem_of_singleton.
  - apply last_None in E. rewrite <- (elem_of_sort_by x), E in Hx. by apply elem_of_nil in Hx.
Qed.

(** The head of a sorted list is a least element. *)
Lemma sort_by_head l x :
  head (sort_by l) = Some x -> x ∈ l /\ forall y, y ∈ l -> y = x \/ le x y = true.
Proof.
  intros H. pose proof (sort_by_sorted l) as Hs. pose proof (sort_by_perm l) as Hp.
  destruct (sort_by l) as [|z m]; [done|]. injection H as ->.
  inversion Hs as [|? ? ? Hf]; subst. split; [rewrite <- Hp; left|].
  intros y Hy. rewrite <- Hp in Hy. apply elem_of_cons in Hy as [->|Hy]; [by left|].
  right. by eapply Forall_forall in Hf.
Qed.
End SortBy.

(** [iter().filter(p)] respects reordering. *)
#[export] Instance filter_bool_Permutation {A} (p : A -> bool) :
  Proper (Permutation ==> Permutation) (List.filter p).
Proof.
  induction 1; cbn; [done|..].
  - destruct (p x); [by constructor|done].
  - destruct (p x), (p y); try done. apply Permutation_swap.
  - by etrans.
Qed.

Lemma filter_filter_and {A} (p q : A -> bool) (l : list A) :
  List.filter p (List.filter q l) = List.filter (fun x => q x && p x) l.
Proof.
  induction l as [|x l IH]; cbn; [done|]. destruct (q x); cbn; [|done]. destruct (p x); by rewrite IH.
Qed.

Lemma filter_map_key {A B} (f : A -> B) (p : B -> bool) (l : list A) :
  List.filter p (f <$> l) = f <$> List.filter (fun x => p (f x)) l.
Proof. induction l as [|x l IH]; cbn; [done|]. destruct (p (f x)); cbn; by rewrite IH. Qed.

Lemma elem_of_filter_bool {A} (p : A -> bool) (l : list A) x :
  x ∈ List.filter p l <-> x ∈ l /\ p x = true.
Proof. by rewrite !list_elem_of_In, List.filter_In. Qed.

Lemma imap_pair_fmap {A B} (h : A -> B) (l : list A) :
  ((fun '(_, x) => h x) <$> imap (fun i x => (i, x)) l) = h <$> l.
Proof.
  apply list_eq. intros i. rewrite !list_lookup_fmap, list_lookup_imap. by destruct (l !! i).
Qed.

Lemma filter_bool_sublist {A} (p : A -> bool) (l : list A) : List.filter p l `sublist_of` l.
Proof. induction l as [|x l IH]; cbn; [done|]. destruct (p x); by constructor. Qed.

(** A filtered list of keyed entries keeps its keys distinct. *)
Lemma filter_keys_NoDup {A K} (key : A -> K) (p : A -> bool) (l : list A) :
  NoDup (key <$> l) -> NoDup (key <$> List.filter p l).
Proof.
  intros H. eapply sublist_NoDup; [exact H|]. apply fmap_sublist, filter_bool_sublist.
Qed.

Lemma fold_left_invariant {A B} (I : A -> Prop) (f : A -> B -> A) (l : list B) (a : A) :
  (forall a b, I a -> I (f a b)) -> I a -> I (fold_left f l a).
Proof. intros Hf. revert a. induction l as [|b l IH]; intros a H; [done|]. apply IH, Hf, H. Qed.

Lemma elem_of_take_sub {A} n (l : list A) x : x ∈ take n l -> x ∈ l.
Proof. intros H. rewrite <- (take_drop n l). apply elem_of_app. by left. Qed.

Lemma sublist_Forall {A} (P : A -> Prop) (l k : list A) : l `sublist_of` k -> Forall P k -> Forall P l.
Proof. induction 1; [done| |]; intros [? ?]%Forall_cons; auto. Qed.

Lemma keep_last_sublist {A} n (l : list A) : keep_last n l `sublist_of` l.
Proof. unfold keep_last. apply sublist_drop. Qed.

Lemma keep_last_keys {A K} (key : A -> K) n (l : list A) :
  NoDup (key <$> l) -> NoDup (key <$> keep_last n l).
Proof. intros H. eapply sublist_NoDup; [exact H|]. apply fmap_sublist, keep_last_sublist. Qed.

Lemma push_capped_keys {A K} (key : A -> K) n x (l : list A) :
  NoDup (key <$> l) -> key x ∉ (key <$> l) -> NoDup (key <$> push_capped n x l).
Proof.
  intros H Hx. apply keep_last_keys. rewrite fmap_app. apply NoDup_app.
  split_and!; [done| |apply NoDup_singleton]. by intros y Hy ->%list_elem_of_singleton.
Qed.

(** No entry of a keyed list has the key: what a failed lookup by key shows. *)
Lemma find_none_key {A K} `{EqDecision K} (key : A -> K) (k : K) (l : list A) :
  List.find (fun x => bool_decide (key x = k)) l = None -> k ∉ (key <$> l).
Proof.
  intros H (x & -> & Hx)%list_elem_of_fmap. pose proof (find_is_none _ _ H x Hx) as Hf.
  cbv beta in Hf. by rewrite bool_decide_true in Hf.
Qed.

Lemma last_push_capped {A} n (x : A) l : 0 < n -> last (push_capped n x l) = Some x.
Proof.
  intros Hn. unfold push_capped, keep_last. rewrite length_app. cbn [length].
  rewrite drop_app_le by lia. apply last_snoc.
Qed.

Lemma fmap_nil_iff {A B} (f : A -> B) (l : list A) : f <$> l = [] <-> l = [].
Proof. by destruct l. Qed.

Lemma app_nil_iff {A} (l k : list A) : l ++ k = [] <-> l = [] /\ k = [].
Proof. destruct l; naive_solver. Qed.

Lemma filter_nil_iff {A} (p : A -> bool) l : List.filter p l = [] <-> forall x, x ∈ l -> p x = false.
Proof.
  split.
  - intros H x Hx. destruct (p x) eqn:E; [|done]. exfalso.
    apply (not_elem_of_nil x). rewrite <- H. by apply elem_of_filter_bool.
  - intros H. destruct (List.filter p l) as [|x l'] eqn:E; [done|].
    assert (x ∈ List.filter p l) as [Hx Hp]%elem_of_filter_bool by (rewrite E; left).
    by rewrite H in Hp.
Qed.

#[export] Hint Resolve keep_last_keys push_capped_keys : cox.
