(* ===== verification/RustStr.v ===== *)
(** * Rust strings

    A [&str]/[String] is its UTF-8 byte sequence, a [string] of bytes: equality,
    ordering, [starts_with] and [len] are bytewise, exactly as in Rust.
    [chars] cuts the bytes at the non-continuation bytes, which is the sequence
    of Unicode scalar values of a valid string; [trim] removes the characters of
    the Unicode [White_Space] property, as [str::trim] does. *)
From S2P Require Import Prelude.

#[global] Open Scope string_scope.
#[global] Open Scope nat_scope.
#[global] Open Scope list_scope.

(** ** Characters *)

(** A UTF-8 continuation byte, [0b10xx_xxxx]. *)
Definition is_cont (a : ascii) : bool :=
  match a with Ascii _ _ _ _ _ _ b6 b7 => b7 && negb b6 end.

(** The continuation bytes a suffix starts with, and the characters after them. *)
Fixpoint chars_aux (s : string) : string * list string :=
  match s with
  | EmptyString => ("", [])
  | String a s' =>
      let '(p, cs) := chars_aux s' in
      if is_cont a then (String a p, cs) else ("", String a p :: cs)
  end.

(** [s.chars()], each character as its own bytes. *)
Definition chars (s : string) : list string :=
  let '(p, cs) := chars_aux s in
  match p with EmptyString => cs | _ => p :: cs end.

Definition unchars (cs : list string) : string := foldr String.append "" cs.

(** The Unicode [White_Space] characters, in UTF-8. *)
Definition whitespace_chars : list string :=
  let c1 a := String a "" in
  let c2 a b := String a (String b "") in
  let c3 a b c := String a (String b (String c "")) in
  [ c1 "009"; c1 "010"; c1 "011"; c1 "012"; c1 "013"; c1 "032";
    c2 "194" "133"; c2 "194" "160"; c3 "225" "154" "128";
    c3 "226" "128" "128"; c3 "226" "128" "129"; c3 "226" "128" "130";
    c3 "226" "128" "131"; c3 "226" "128" "132"; c3 "226" "128" "133";
    c3 "226" "128" "134"; c3 "226" "128" "135"; c3 "226" "128" "136";
    c3 "226" "128" "137"; c3 "226" "128" "138"; c3 "226" "128" "168";
    c3 "226" "128" "169"; c3 "226" "128" "175"; c3 "226" "129" "159";
    c3 "227" "128" "128" ]%char.

Definition is_whitespace (c : string) : bool := bool_decide (c ∈ whitespace_chars).

Fixpoint drop_while (p : string -> bool) (l : list string) : list string :=
  match l with
  | [] => []
  | c :: l' => if p c then drop_while p l' else l
  end.

Definition drop_while_end (p : string -> bool) (l : list string) : list string :=
  reverse (drop_while p (reverse l)).

Definition trim (s : string) : string :=
  unchars (drop_while_end is_whitespace (drop_while is_whitespace (chars s))).

(** [s.trim_start()] *)
Definition trim_start (s : string) : string := unchars (drop_while is_whitespace (chars s)).

(** [s.trim().is_empty()] *)
Definition blank (s : string) : bool := bool_decide (trim s = "").

(** [s.chars().take(n).collect::<String>()] *)
Definition take_chars (n : nat) (s : string) : string := unchars (take n (chars s)).

(** A double quote. *)
Definition dquote : string := String "034" "".

Definition opt_nonempty (s : string) : option string :=
  if bool_decide (s = "") then None else Some s.

(** ** Searching and splitting *)

Definition starts_with (p s : string) : bool := String.prefix p s.

Fixpoint strip_prefix (p s : string) : option string :=
  match p, s with
  | EmptyString, _ => Some s
  | String a p', String b s' => if bool_decide (a = b) then strip_prefix p' s' else None
  | String _ _, EmptyString => None
  end.

(** [s.contains(sub)] *)
Fixpoint contains (sub s : string) : bool :=
  String.prefix sub s ||
  match s with EmptyString => false | String _ s' => contains sub s' end.

(** [s.split(sep).next()]: the part before the first separator byte. *)
Fixpoint split_first (sep : ascii) (s : string) : string :=
  match s with
  | EmptyString => ""
  | String a s' => if bool_decide (a = sep) then "" else String a (split_first sep s')
  end.

(** [s.split_once(sep)] for a one-byte separator. *)
Fixpoint split_once (sep : ascii) (s : string) : option (string * string) :=
  match s with
  | EmptyString => None
  | String a s' =>
      if bool_decide (a = sep) then Some ("", s')
      else prod_map (String a) id <$> split_once sep s'
  end.

(** [s.ends_with(suffix)] *)
Fixpoint ends_with (suffix s : string) : bool :=
  String.eqb s suffix || match s with EmptyString => false | String _ s' => ends_with suffix s' end.

(** ["\n"] *)
Definition newline : string := String "010" "".

(** [xs.join(sep)] *)
Fixpoint join (sep : string) (xs : list string) : string :=
  match xs with
  | [] => ""
  | [x] => x
  | x :: xs' => x +:+ sep +:+ join sep xs'
  end.

(** [s.is_char_boundary(n)] *)
Fixpoint is_char_boundary (n : nat) (s : string) : bool :=
  match n, s with
  | O, EmptyString => true
  | O, String a _ => negb (is_cont a)
  | S n', String _ s' => is_char_boundary n' s'
  | S _, EmptyString => false
  end.

(** [s.get(..n)]; a string starts at a boundary even when its first byte is not
    a lead byte. *)
Definition str_get_to (n : nat) (s : string) : option string :=
  if (n =? 0) || is_char_boundary n s then Some (String.substring 0 n s) else None.

(** [s.rsplit(sep).next()]: the part after the last separator byte. *)
Fixpoint split_last (sep : ascii) (s : string) : string :=
  match s with
  | EmptyString => ""
  | String a s' =>
      if bool_decide (a = sep) then split_last sep s'
      else if contains (String sep "") s' then split_last sep s' else String a s'
  end.

(** [s.replace(from, to)] for one-byte patterns and replacements. *)
Fixpoint replace_byte (from to : ascii) (s : string) : string :=
  match s with
  | EmptyString => ""
  | String a s' => String (if bool_decide (a = from) then to else a) (replace_byte from to s')
  end.

(** [s.trim_matches(c)] for a one-byte character. *)
Definition trim_matches (c : ascii) (s : string) : string :=
  let p x := bool_decide (x = String c "") in
  unchars (drop_while_end p (drop_while p (chars s))).

(** [char::is_ascii_alphanumeric] and [to_ascii_lowercase] on a byte. *)
Definition is_ascii_alnum (a : ascii) : bool :=
  let n := nat_of_ascii a in
  ((48 <=? n) && (n <=? 57)) || ((65 <=? n) && (n <=? 90)) || ((97 <=? n) && (n <=? 122)).

Definition ascii_lower (a : ascii) : ascii :=
  let n := nat_of_ascii a in
  if (65 <=? n) && (n <=? 90) then ascii_of_nat (n + 32) else a.

Fixpoint str_map (f : ascii -> ascii) (s : string) : string :=
  match s with EmptyString => "" | String a s' => String (f a) (str_map f s') end.

(** [str::to_ascii_lowercase] *)
Definition ascii_lowercase : string -> string := str_map ascii_lower.

(** Byte order, Rust's [Ord for str]. *)
Definition str_le (a b : string) : bool :=
  match String.compare a b with Gt => false | _ => true end.
Definition str_lt (a b : string) : bool :=
  match String.compare a b with Lt => true | _ => false end.

(** Decimal text of an unsigned integer, [n.to_string()]. *)
Definition dec (n : N) : string := pretty n.
Definition dec_nat (n : nat) : string := pretty n.

(** [format!("{n:03}")] *)
Fixpoint zeros (n : nat) : string :=
  match n with O => "" | S n' => String "0" (zeros n') end.
Definition dec_pad (width : nat) (n : nat) : string :=
  let d := dec_nat n in zeros (width - String.length d) +:+ d.

(** The value of a string of decimal digits. *)
Definition digit_val (a : ascii) : N := N_of_ascii a - 48.
Fixpoint undec_acc (acc : N) (s : string) : N :=
  match s with
  | EmptyString => acc
  | String a s' => undec_acc (acc * 10 + digit_val a) s'
  end.
Definition undec (s : string) : N := undec_acc 0 s.

(** [format!("{n:03}")] of an unsigned machine integer, with any width. *)
Definition pad_dec (width : nat) (n : N) : string :=
  let d := dec n in zeros (width - String.length d) +:+ d.

Fixpoint all_bytes (p : ascii -> bool) (s : string) : bool :=
  match s with EmptyString => true | String a s' => p a && all_bytes p s' end.

Definition is_digit (a : ascii) : bool :=
  let n := nat_of_ascii a in (48 <=? n)%nat && (n <=? 57)%nat.

(** [s.parse::<u64>()], and the same for the other unsigned widths: an optional
    plus sign, at least one digit, and no overflow. *)
Definition parse_uint (max : N) (s : string) : option N :=
  let digits := match s with String "+" r => r | _ => s end in
  if bool_decide (digits = "") || negb (all_bytes is_digit digits) then None
  else if (undec digits <=? max)%N then Some (undec digits) else None.

Definition parse_u64 : string -> option N := parse_uint u64_max.

(** From the first [c] on, and through the last [c]. *)
Fixpoint from_byte (c : ascii) (s : string) : option string :=
  match s with
  | EmptyString => None
  | String a s' => if bool_decide (a = c) then Some s else from_byte c s'
  end.

Fixpoint upto_last (c : ascii) (s : string) : option string :=
  match s with
  | EmptyString => None
  | String a s' =>
      match upto_last c s' with
      | Some p => Some (String a p)
      | None => if bool_decide (a = c) then Some (String a "") else None
      end
  end.

(** [s.split(sep)] for a one-byte separator. *)
Fixpoint split_byte (sep : ascii) (s : string) : list string :=
  match s with
  | EmptyString => [""]
  | String a s' =>
      if bool_decide (a = sep) then "" :: split_byte sep s'
      else match split_byte sep s' with
           | [] => [String a ""]
           | x :: xs => String a x :: xs
           end
  end.

(** A line that ended in a line feed loses the carriage return before it. *)
Fixpoint strip_cr (s : string) : string :=
  match s with
  | EmptyString => ""
  | String a EmptyString => if bool_decide (a = "013"%char) then "" else s
  | String a s' => String a (strip_cr s')
  end.

Fixpoint line_pieces (pieces : list string) : list string :=
  match pieces with
  | [] => []
  | [x] => if bool_decide (x = "") then [] else [x]
  | x :: xs => strip_cr x :: line_pieces xs
  end.

(** [s.lines()] *)
Definition lines (s : string) : list string := line_pieces (split_byte "010" s).

(** The longest prefix of bytes that satisfy [p]. *)
Fixpoint take_bytes (p : ascii -> bool) (s : string) : string :=
  match s with
  | EmptyString => ""
  | String a s' => if p a then String a (take_bytes p s') else ""
  end.

(** [s.split_whitespace()], over the characters. *)
Fixpoint split_ws (cs : list string) (cur : string) : list string :=
  match cs with
  | [] => if bool_decide (cur = "") then [] else [cur]
  | c :: cs' =>
      if is_whitespace c then (if bool_decide (cur = "") then [] else [cur]) ++ split_ws cs' ""
      else split_ws cs' (cur +:+ c)
  end.
Definition split_whitespace (s : string) : list string := split_ws (chars s) "".

(** [s.matches(sub).count()]: the non-overlapping occurrences; [skip] bytes of
    the last one are still ahead. *)
Fixpoint count_matches (sub : string) (skip : nat) (s : string) : nat :=
  match s with
  | EmptyString => 0
  | String _ s' =>
      match skip with
      | S n => count_matches sub n s'
      | 0 => if String.prefix sub s then S (count_matches sub (String.length sub - 1) s')
             else count_matches sub 0 s'
      end
  end.

(** The strings of a [BTreeSet], in its order. *)
Definition btree_set (l : list string) : list string := sort_by str_le (remove_dups l).

(** [BTreeMap::keys] and [BTreeSet::iter]: in byte order. *)
Definition btree_keys {V} (m : gmap string V) : list string := sort_by str_le (map_to_list m).*1.
Definition btree_elements (s : gset string) : list string := sort_by str_le (elements s).

(** ** Lemmas *)

#[local] Arguments String.append !_ _ / : simpl nomatch.

Lemma app_assoc_str (a b c : string) : (a +:+ b) +:+ c = a +:+ (b +:+ c).
Proof. induction a as [|x a IH]; cbn; [done|]. by rewrite IH. Qed.

Lemma app_nil_r_str (a : string) : a +:+ "" = a.
Proof. induction a as [|x a IH]; cbn; [done|]. by rewrite IH. Qed.

Lemma unchars_app l1 l2 : unchars (l1 ++ l2) = unchars l1 +:+ unchars l2.
Proof. induction l1; simpl; [done|]. by rewrite IHl1, app_assoc_str. Qed.

(** A character: a lead byte followed by continuation bytes. *)
Fixpoint all_cont (s : string) : bool :=
  match s with EmptyString => true | String a s' => is_cont a && all_cont s' end.

Definition well_char (c : string) : Prop :=
  match c with EmptyString => False | String a p => is_cont a = false /\ all_cont p = true end.

(** The cut of a string: well-formed characters, behind a run of continuation
    bytes when the string does not start at a boundary. *)
Definition well_chars (cs : list string) : Prop :=
  match cs with
  | [] => True
  | c :: cs' => (well_char c \/ (c <> "" /\ all_cont c = true)) /\ Forall well_char cs'
  end.

Lemma chars_aux_spec s :
  let '(p, cs) := chars_aux s in
  all_cont p = true /\ Forall well_char cs /\ s = p +:+ unchars cs.
Proof.
  induction s as [|a s IH]; simpl; [auto|].
  destruct (chars_aux s) as [p cs]. destruct IH as (Hp & Hcs & ->).
  destruct (is_cont a) eqn:E; simpl; rewrite ?E; (split; [by auto|]).
  - by split.
  - split; [constructor; [by split | done] | done].
Qed.

Lemma chars_well s : well_chars (chars s).
Proof.
  unfold chars. pose proof (chars_aux_spec s) as H. destruct (chars_aux s) as [p cs].
  destruct H as (Hp & Hcs & _). destruct p as [|a p]; simpl.
  - destruct Hcs; simpl; auto.
  - split; [right; split; [done|exact Hp] | done].
Qed.

Lemma unchars_chars s : unchars (chars s) = s.
Proof.
  unfold chars. pose proof (chars_aux_spec s) as H. destruct (chars_aux s) as [p cs].
  destruct H as (_ & _ & ->). by destruct p.
Qed.

Lemma chars_aux_cont p s :
  all_cont p = true ->
  chars_aux (p +:+ s) = let '(q, cs) := chars_aux s in (p +:+ q, cs).
Proof.
  induction p as [|a p IH]; simpl; [by destruct (chars_aux s)|].
  intros [-> Hp]%andb_prop. rewrite IH by done. by destruct (chars_aux s).
Qed.

Lemma chars_aux_unchars cs : Forall well_char cs -> chars_aux (unchars cs) = ("", cs).
Proof.
  induction 1 as [|c cs Hc _ IH]; [done|]. destruct c as [|a p]; [done|].
  destruct Hc as [Ha Hp]. unfold unchars. cbn [foldr]. fold (unchars cs).
  change (String a p +:+ unchars cs) with (String a (p +:+ unchars cs)).
  cbn [chars_aux]. rewrite chars_aux_cont by done. rewrite IH, Ha. by rewrite app_nil_r_str.
Qed.

(** Cutting the concatenation of a cut gives the cut back. *)
Lemma chars_unchars cs : well_chars cs -> chars (unchars cs) = cs.
Proof.
  destruct cs as [|c cs]; [done|]. intros [[Hc|[Hne Hc]] Hcs]; unfold chars.
  - by rewrite chars_aux_unchars by auto.
  - cbn [unchars foldr]. rewrite chars_aux_cont by done.
    fold (unchars cs). rewrite chars_aux_unchars by done.
    rewrite app_nil_r_str. by destruct c.
Qed.

Lemma well_chars_Forall_tail c cs : well_chars (c :: cs) -> well_chars cs.
Proof. intros [_ H]. destruct H; simpl; auto. Qed.

Lemma well_chars_drop_while p cs : well_chars cs -> well_chars (drop_while p cs).
Proof.
  induction cs as [|c cs IH]; simpl; [done|].
  destruct (p c); [|done]. intros. apply IH. by eapply well_chars_Forall_tail.
Qed.

Lemma well_chars_prefix l1 l2 : well_chars (l1 ++ l2) -> well_chars l1.
Proof. destruct l1; simpl; [done|]. intros [? [? ?]%Forall_app]. auto. Qed.

Lemma drop_while_split p l : exists l1, l = l1 ++ drop_while p l.
Proof.
  induction l as [|c l [l1 IH]]; simpl; [by exists []|].
  destruct (p c); [|by exists []]. exists (c :: l1). simpl. by f_equal.
Qed.

Lemma drop_while_end_split p l : exists l2, l = drop_while_end p l ++ l2.
Proof.
  unfold drop_while_end. destruct (drop_while_split p (reverse l)) as [l1 H].
  exists (reverse l1). rewrite <- reverse_app, <- H. by rewrite reverse_involutive.
Qed.

Lemma drop_while_idemp p l : drop_while p (drop_while p l) = drop_while p l.
Proof. induction l as [|c l IH]; simpl; [done|]. destruct (p c) eqn:E; simpl; [done|]. by rewrite E. Qed.

Lemma drop_while_end_idemp p l : drop_while_end p (drop_while_end p l) = drop_while_end p l.
Proof. unfold drop_while_end. by rewrite reverse_involutive, drop_while_idemp. Qed.

Lemma drop_while_of_end p l :
  drop_while p l = l -> drop_while p (drop_while_end p l) = drop_while_end p l.
Proof.
  intros H. destruct (drop_while_end_split p l) as [l2 Hl].
  destruct (drop_while_end p l) as [|c m] eqn:E; [done|].
  rewrite Hl in H. simpl in H |- *. destruct (p c); [|done].
  exfalso. destruct (drop_while_split p (m ++ l2)) as [l1 H1].
  rewrite H in H1. apply (f_equal length) in H1. rewrite (length_app l1) in H1. cbn [length] in H1. lia.
Qed.

Lemma well_chars_trim s :
  well_chars (drop_while_end is_whitespace (drop_while is_whitespace (chars s))).
Proof.
  destruct (drop_while_end_split is_whitespace (drop_while is_whitespace (chars s))) as [l2 Hl].
  apply (well_chars_prefix _ l2). rewrite <- Hl. apply well_chars_drop_while, chars_well.
Qed.

Lemma chars_trim s :
  chars (trim s) = drop_while_end is_whitespace (drop_while is_whitespace (chars s)).
Proof. unfold trim. by rewrite chars_unchars by apply well_chars_trim. Qed.

(** [s.trim().trim() == s.trim()] *)
Lemma trim_idemp s : trim (trim s) = trim s.
Proof.
  unfold trim at 1. rewrite chars_trim.
  rewrite drop_while_of_end by apply drop_while_idemp. by rewrite drop_while_end_idemp.
Qed.

Lemma blank_trim s : blank (trim s) = blank s.
Proof. unfold blank. by rewrite trim_idemp. Qed.

Lemma blank_false s : blank s = false <-> trim s <> "".
Proof. unfold blank. by rewrite bool_decide_eq_false. Qed.

Lemma trim_nonblank s : trim s <> "" -> blank (trim s) = false.
Proof. intros. by rewrite blank_trim, blank_false. Qed.

Lemma unchars_nil cs : well_chars cs -> unchars cs = "" -> cs = [].
Proof. intros Hw H. rewrite <- (chars_unchars cs Hw), H. done. Qed.

Lemma drop_while_head p l c l' : drop_while p l = c :: l' -> p c = false.
Proof. induction l as [|x l IH]; cbn; [done|]. destruct (p x) eqn:E; [done|]. by intros [= <- _]. Qed.

(** The first character of a trimmed string is not white space. *)
Lemma trim_first s c l : chars (trim s) = c :: l -> is_whitespace c = false.
Proof.
  rewrite chars_trim. intros H.
  destruct (drop_while_end_split is_whitespace (drop_while is_whitespace (chars s))) as [l2 Hl].
  rewrite H in Hl. by eapply drop_while_head.
Qed.

Lemma drop_while_end_keep p c l : p c = false -> drop_while_end p (c :: l) <> [].
Proof.
  intros Hc H. unfold drop_while_end in H. apply (f_equal reverse) in H.
  rewrite reverse_involutive, reverse_cons in H. cbn in H.
  revert H. generalize (reverse l). intros m. induction m as [|x m IH]; cbn.
  - by rewrite Hc.
  - by destruct (p x).
Qed.

(** A string whose first character is not white space is not blank. *)
Lemma blank_first c l :
  well_chars (c :: l) -> is_whitespace c = false -> blank (unchars (c :: l)) = false.
Proof.
  intros Hw Hc. apply blank_false. unfold trim. rewrite chars_unchars by done. cbn [drop_while].
  rewrite Hc. intros H. apply unchars_nil in H.
  - by eapply drop_while_end_keep.
  - destruct (drop_while_end_split is_whitespace (c :: l)) as [l2 Hl].
    apply (well_chars_prefix _ l2). by rewrite <- Hl.
Qed.

(** A non-empty cut of a trimmed text is still not blank. *)
Lemma take_chars_nonblank n s : 0 < n -> trim s <> "" -> blank (take_chars n (trim s)) = false.
Proof.
  intros Hn Hs. unfold take_chars. destruct (chars (trim s)) as [|c l] eqn:E.
  - exfalso. apply Hs. by rewrite <- (unchars_chars (trim s)), E.
  - pose proof (trim_first _ _ _ E) as Hc. pose proof (chars_well (trim s)) as Hw. rewrite E in Hw.
    destruct n as [|n]; [lia|]. cbn [take]. apply blank_first; [|done].
    apply (well_chars_prefix _ (drop n l)). cbn [app]. by rewrite take_drop.
Qed.

(** Taking characters never lengthens a string past the bound. *)
Lemma length_chars_take n s : length (chars (take_chars n s)) <= n.
Proof.
  unfold take_chars. rewrite chars_unchars.
  - rewrite length_take. lia.
  - apply (well_chars_prefix _ (drop n (chars s))). rewrite take_drop. apply chars_well.
Qed.

Lemma take_chars_short n s : length (chars s) <= n -> take_chars n s = s.
Proof. intros. unfold take_chars. rewrite take_ge by done. apply unchars_chars. Qed.

Lemma strip_prefix_spec p s r : strip_prefix p s = Some r <-> s = p +:+ r.
Proof.
  revert s. induction p as [|a p IH]; intros [|b s]; simpl; try (split; congruence).
  case_bool_decide; [subst; rewrite IH|]; split; congruence.
Qed.

(** *** Byte order *)

Lemma ascii_compare_spec a b :
  Ascii.compare a b = N.compare (N_of_ascii a) (N_of_ascii b).
Proof. done. Qed.

Lemma ascii_compare_eq a b : Ascii.compare a b = Eq -> a = b.
Proof. intros H%Ascii.compare_eq_iff. done. Qed.

Lemma str_compare_trans a b c :
  String.compare a b <> Gt -> String.compare b c <> Gt -> String.compare a c <> Gt.
Proof.
  revert b c. induction a as [|x a IH]; intros [|y b] [|z c]; cbn; try done.
  destruct (Ascii.compare x y) eqn:E1; [..|done]; destruct (Ascii.compare y z) eqn:E2; try done.
  - apply ascii_compare_eq in E1 as ->. rewrite E2. apply IH.
  - apply ascii_compare_eq in E1 as ->. by rewrite E2.
  - apply ascii_compare_eq in E2 as <-. by rewrite E1.
  - rewrite ascii_compare_spec in *. intros _ _.
    assert (N.compare (N_of_ascii x) (N_of_ascii z) = Lt) as ->; [|done].
    rewrite N.compare_lt_iff in *. lia.
Qed.

Lemma str_le_spec a b : str_le a b = true <-> String.compare a b <> Gt.
Proof. unfold str_le. by destruct (String.compare a b). Qed.

Lemma str_le_trans a b c : str_le a b = true -> str_le b c = true -> str_le a c = true.
Proof. rewrite !str_le_spec. apply str_compare_trans. Qed.

Lemma str_le_total a b : str_le a b = true \/ str_le b a = true.
Proof.
  rewrite !str_le_spec, (String.compare_antisym a b). destruct (String.compare b a);
    [by left|by right|by left].
Qed.

Lemma str_le_refl a : str_le a a = true.
Proof. by destruct (str_le_total a a). Qed.

Lemma str_le_antisym a b : str_le a b = true -> str_le b a = true -> a = b.
Proof.
  rewrite !str_le_spec, (String.compare_antisym a b). intros H1 H2.
  apply String.compare_eq_iff. rewrite (String.compare_antisym a b).
  by destruct (String.compare b a).
Qed.

(** *** Decimal text *)

Lemma undec_pretty_go x s : undec_acc 0 (pretty_N_go x s) = undec_acc x s.
Proof.
  revert s. induction (N.lt_wf_0 x) as [x _ IH]. intros s.
  destruct (decide (x = 0)%N) as [->|Hx]; [by rewrite pretty_N_go_0|].
  rewrite pretty_N_go_step by lia. rewrite IH by (apply N.div_lt; lia). cbn [undec_acc]. f_equal.
  assert (Hd : (digit_val (pretty_N_char (x mod 10)) = x mod 10)%N).
  { pose proof (N.mod_lt x 10 ltac:(lia)) as Hm. revert Hm. generalize (x mod 10)%N. intros d Hd.
    assert (Hall : forallb (fun d => (digit_val (pretty_N_char d) =? d)%N)
              [0; 1; 2; 3; 4; 5; 6; 7; 8; 9]%N = true) by reflexivity.
    rewrite List.forallb_forall in Hall. apply N.eqb_eq, Hall. cbn. lia. }
  rewrite Hd. pose proof (N.div_mod x 10 ltac:(lia)). lia.
Qed.

Lemma undec_dec n : undec (dec n) = n.
Proof.
  unfold undec, dec, pretty, pretty_N. case_decide as H; [by subst|]. apply undec_pretty_go.
Qed.

Lemma undec_zeros k s : undec (zeros k +:+ s) = undec s.
Proof. induction k as [|k IH]; cbn; [done|]. exact IH. Qed.

Lemma undec_dec_pad w n : undec (dec_pad w n) = N.of_nat n.
Proof. unfold dec_pad. rewrite undec_zeros. apply undec_dec. Qed.

Lemma all_bytes_app p s s' : all_bytes p (s +:+ s') = all_bytes p s && all_bytes p s'.
Proof. induction s as [|a s IH]; cbn; [done|]. by rewrite IH, andb_assoc. Qed.

Lemma all_digits_dec n : all_bytes is_digit (dec n) = true.
Proof.
  assert (Hgo : forall x s, all_bytes is_digit s = true -> all_bytes is_digit (pretty_N_go x s) = true).
  { intros x. induction (N.lt_wf_0 x) as [x _ IH]. intros s Hs.
    destruct (decide (x = 0)%N) as [->|Hx]; [by rewrite pretty_N_go_0|].
    rewrite pretty_N_go_step by lia. apply IH; [apply N.div_lt; lia|]. cbn [all_bytes]. rewrite Hs, andb_true_r.
    pose proof (N.mod_lt x 10 ltac:(lia)) as Hm. revert Hm. generalize (x mod 10)%N. intros d Hd.
    assert (Hall : forallb (fun d => is_digit (pretty_N_char d)) [0; 1; 2; 3; 4; 5; 6; 7; 8; 9]%N = true)
      by reflexivity.
    rewrite List.forallb_forall in Hall. apply Hall. cbn. lia. }
  unfold dec, pretty, pretty_N. case_decide; [done|by apply Hgo].
Qed.

Lemma all_digits_zeros k : all_bytes is_digit (zeros k) = true.
Proof. by induction k. Qed.

Lemma undec_pad_dec w n : undec (pad_dec w n) = n.
Proof. unfold pad_dec. rewrite undec_zeros. apply undec_dec. Qed.

Lemma all_digits_pad_dec w n : all_bytes is_digit (pad_dec w n) = true.
Proof. unfold pad_dec. by rewrite all_bytes_app, all_digits_zeros, all_digits_dec. Qed.

Lemma pad_dec_first w n : exists a s, pad_dec w n = String a s /\ is_digit a = true.
Proof.
  pose proof (all_digits_pad_dec w n) as H. destruct (pad_dec w n) as [|a s] eqn:E.
  - exfalso. pose proof (all_digits_dec n) as Hd. unfold pad_dec in E.
    destruct (dec n) as [|a d] eqn:En; [|by destruct (w - _)].
    revert En. unfold dec, pretty, pretty_N. case_decide as Hn; [done|].
    rewrite pretty_N_go_step by lia. intros En. apply (f_equal String.length) in En.
    revert En. generalize (n `div` 10)%N, (pretty_N_char (n `mod` 10)). intros x c.
    assert (Hlen : forall y s, String.length s <= String.length (pretty_N_go y s)).
    { intros y. induction (N.lt_wf_0 y) as [y _ IH]. intros s.
      destruct (decide (y = 0)%N) as [->|Hy]; [by rewrite pretty_N_go_0|].
      rewrite pretty_N_go_step by lia. etrans; [|apply IH, N.div_lt; lia]. cbn. lia. }
    specialize (Hlen x (String c "")). cbn in *. lia.
  - exists a, s. split; [done|]. cbn in H. by apply andb_prop in H as [? _].
Qed.

(** What [format!] writes, [parse] reads back. *)
Lemma parse_pad_dec max w n : (n <= max)%N -> parse_uint max (pad_dec w n) = Some n.
Proof.
  intros Hn. unfold parse_uint. destruct (pad_dec_first w n) as (a & s & E & Ha).
  assert (Hm : match pad_dec w n with String "+" r => r | _ => pad_dec w n end = pad_dec w n).
  { rewrite E. destruct a as [[] [] [] [] [] [] [] []]; done. }
  rewrite Hm, bool_decide_false by by rewrite E.
  rewrite all_digits_pad_dec, undec_pad_dec. cbn. by apply N.leb_le in Hn as ->.
Qed.

(** A byte that is a character of its own and not white space. *)
Definition plain (a : ascii) : bool := negb (is_cont a) && negb (is_whitespace (String a "")).

Lemma chars_plain s :
  Forall (fun a => plain a = true) (String.list_ascii_of_string s) ->
  Forall (fun c => is_whitespace c = false) (chars s).
Proof.
  induction s as [|a s IH]; cbn; [constructor|]. intros [Ha Hs]%Forall_cons. specialize (IH Hs).
  apply andb_true_iff in Ha as [Hc%negb_true_iff Hw%negb_true_iff].
  assert (Haux : fst (chars_aux s) = "").
  { destruct s as [|b s]; [done|]. apply Forall_cons in Hs as [[Hb%negb_true_iff _]%andb_true_iff _].
    cbn. destruct (chars_aux s). by rewrite Hb. }
  unfold chars in *. cbn. destruct (chars_aux s) as [p cs]. cbn in Haux. subst p. rewrite Hc.
  by constructor.
Qed.

Lemma drop_while_none p l : Forall (fun c => p c = false) l -> drop_while p l = l.
Proof. destruct 1 as [|c l Hc _]; cbn; [done|]. by rewrite Hc. Qed.

(** A text of such bytes is its own [trim]. *)
Lemma trim_plain s :
  Forall (fun a => plain a = true) (String.list_ascii_of_string s) -> trim s = s.
Proof.
  intros H%chars_plain. unfold trim, drop_while_end. rewrite (drop_while_none _ _ H).
  rewrite drop_while_none by (by apply Forall_reverse). rewrite reverse_involutive. apply unchars_chars.
Qed.

(** *** ASCII texts *)

Definition bytes (s : string) : list ascii := String.list_ascii_of_string s.

Lemma bytes_app s s' : bytes (s +:+ s') = bytes s ++ bytes s'.
Proof. unfold bytes. induction s as [|a s IH]; cbn; [done|]. by rewrite IH. Qed.

Lemma all_bytes_Forall p s : all_bytes p s = true <-> Forall (fun a => p a = true) (bytes s).
Proof.
  unfold bytes. induction s as [|a s IH]; cbn; [by split|]. by rewrite andb_true_iff, Forall_cons, IH.
Qed.

Lemma chars_ascii s :
  Forall (fun a => is_cont a = false) (bytes s) -> chars s = (fun a => String a "") <$> bytes s.
Proof.
  unfold bytes. intros H. assert (Haux : chars_aux s = ("", (fun a => String a "") <$> String.list_ascii_of_string s)).
  { induction s as [|a s IH]; cbn in *; [done|]. apply Forall_cons in H as [Ha Hs].
    rewrite IH by done. by rewrite Ha. }
  unfold chars. by rewrite Haux.
Qed.

Lemma drop_while_end_snoc p l c :
  drop_while_end p (l ++ [c]) = if p c then drop_while_end p l else l ++ [c].
Proof.
  unfold drop_while_end. rewrite reverse_snoc. cbn [drop_while]. destruct (p c); [done|].
  by rewrite <- reverse_snoc, reverse_involutive.
Qed.

(** A text whose first and last bytes are plain stays whole, and loses a space
    after it. *)
Lemma trim_inner s a b l l' e :
  Forall (fun a => is_cont a = false) (bytes s) -> bytes s = a :: l -> bytes s = l' ++ [b] ->
  plain a = true -> plain b = true -> e = "" \/ e = " " -> trim (s +:+ e) = s.
Proof.
  intros Hs Ha Hb Hpa Hpb He.
  apply andb_true_iff in Hpa as [_ Hwa%negb_true_iff]. apply andb_true_iff in Hpb as [_ Hwb%negb_true_iff].
  assert (Hstart : forall tl, drop_while is_whitespace (((fun a => String a "") <$> bytes s) ++ tl)
                              = ((fun a => String a "") <$> bytes s) ++ tl).
  { intros tl. rewrite Ha. cbn. by rewrite Hwa. }
  assert (Hend : drop_while_end is_whitespace ((fun a => String a "") <$> bytes s) = (fun a => String a "") <$> bytes s).
  { rewrite Hb, fmap_app. cbn. by rewrite drop_while_end_snoc, Hwb. }
  assert (Hchars : chars (s +:+ e) = ((fun a => String a "") <$> bytes s) ++ ((fun a => String a "") <$> bytes e)).
  { rewrite chars_ascii; [by rewrite bytes_app, fmap_app|]. rewrite bytes_app. apply Forall_app. split; [done|].
    destruct He as [->| ->]; repeat constructor. }
  unfold trim. rewrite Hchars, Hstart. destruct He as [->| ->]; cbn.
  - rewrite app_nil_r, Hend, <- chars_ascii by done. apply unchars_chars.
  - rewrite drop_while_end_snoc. change (is_whitespace " ") with true. cbn.
    rewrite Hend, <- chars_ascii by done. apply unchars_chars.
Qed.

Lemma chars_snoc s a : is_cont a = false -> chars (s +:+ String a "") = chars s ++ [String a ""].
Proof.
  intros Ha.
  assert (Haux : chars_aux (s +:+ String a "") = (fst (chars_aux s), snd (chars_aux s) ++ [String a ""])).
  { induction s as [|b s IH].
    - cbn. by rewrite Ha.
    - change (String b s +:+ String a "") with (String b (s +:+ String a "")). cbn [chars_aux]. rewrite IH.
      destruct (chars_aux s) as [p cs]. cbn [fst snd]. by destruct (is_cont b). }
  unfold chars. rewrite Haux. by destruct (chars_aux s) as [[] cs].
Qed.

(** A string that ends with an ordinary letter is not blank. *)
Lemma blank_last s a : plain a = true -> blank (s +:+ String a "") = false.
Proof.
  intros [Hc%negb_true_iff Hw%negb_true_iff]%andb_true_iff. apply blank_false. unfold trim.
  rewrite chars_snoc by done. intros H.
  assert (Hd : forall l, exists l2, drop_while is_whitespace (l ++ [String a ""]) = l2 ++ [String a ""]).
  { induction l as [|c l IH]; cbn; [exists []; by rewrite Hw|]. destruct (is_whitespace c); [done|].
    by exists (c :: l). }
  destruct (Hd (chars s)) as [l2 Hl2]. rewrite Hl2, drop_while_end_snoc, Hw, unchars_app in H.
  destruct (unchars l2); by cbn in H.
Qed.

(** A string that starts with an ordinary letter is not blank. *)
Lemma blank_lead a s :
  is_cont a = false -> (forall p, String a p ∉ whitespace_chars) -> blank (String a s) = false.
Proof.
  intros Ha Hw. pose proof (chars_aux_spec s) as Hs. destruct (chars_aux s) as [p cs] eqn:E.
  destruct Hs as (Hp & Hcs & ->).
  change (String a (p +:+ unchars cs)) with (unchars (String a p :: cs)). apply blank_first.
  - split; [left; by split|done].
  - unfold is_whitespace. rewrite bool_decide_false; [done|apply Hw].
Qed.

(** *** Searching in concatenations *)

Lemma length_append (a b : string) : String.length (a +:+ b) = String.length a + String.length b.
Proof. induction a as [|x a IH]; cbn; [done|]. by rewrite IH. Qed.

Lemma prefix_app_same p s : String.prefix p (p +:+ s) = true.
Proof. induction p as [|a p IH]; cbn; [by destruct s|]. by destruct (ascii_dec a a). Qed.

Lemma contains_prefix sub s : String.prefix sub s = true -> contains sub s = true.
Proof. destruct s; cbn; by intros ->. Qed.

Lemma contains_app_r sub a s : contains sub s = true -> contains sub (a +:+ s) = true.
Proof. intros H. induction a as [|x a IH]; cbn; [done|]. by rewrite IH, orb_true_r. Qed.

Lemma contains_middle sub a s : contains sub (a +:+ sub +:+ s) = true.
Proof. apply contains_app_r, contains_prefix, prefix_app_same. Qed.

(** A pattern that starts with [c] is not found where no [c] is. *)
Definition byte_free (c : ascii) (s : string) : bool := all_bytes (fun a => negb (Ascii.eqb a c)) s.

Lemma contains_skip c sub a s :
  byte_free c a = true -> contains (String c sub) (a +:+ s) = contains (String c sub) s.
Proof.
  induction a as [|x a IH]; [done|]. cbn [byte_free all_bytes]. intros [Hx Ha]%andb_true_iff.
  change (String x a +:+ s) with (String x (a +:+ s)). cbn [contains String.prefix].
  destruct (ascii_dec c x) as [->|_]; [by rewrite Ascii.eqb_refl in Hx|]. by rewrite IH.
Qed.

(** The last byte of a text decides what it can end with. *)
Fixpoint last_byte (s : string) : option ascii :=
  match s with
  | EmptyString => None
  | String a s => match last_byte s with Some b => Some b | None => Some a end
  end.

Lemma last_byte_app a b : last_byte (a +:+ b) = match last_byte b with Some c => Some c | None => last_byte a end.
Proof. induction a as [|x a IH]; cbn; [by case_match|]. rewrite IH. by destruct (last_byte b). Qed.

Lemma ends_with_spec suf s : ends_with suf s = true <-> exists p, s = p +:+ suf.
Proof.
  induction s as [|x s IH]; cbn [ends_with]; rewrite orb_true_iff, String.eqb_eq.
  - split; [intros [H|H]; [by exists ""|done]|]. intros [p Hp]. left. by destruct p.
  - rewrite IH. split.
    + intros [H|[p ->]]; [by exists ""|by exists (String x p)].
    + intros [[|y p] Hp]; [by left|]. right. exists p. by injection Hp.
Qed.

Lemma ends_with_last suf s : last_byte suf <> None -> last_byte s <> last_byte suf -> ends_with suf s = false.
Proof.
  intros Hn Hl. apply not_true_is_false. intros [p ->]%ends_with_spec. apply Hl.
  rewrite last_byte_app. by destruct (last_byte suf).
Qed.

Lemma split_first_free sep a s :
  byte_free sep a = true -> split_first sep (a +:+ String sep s) = a.
Proof.
  induction a as [|x a IH]; cbn; [by rewrite bool_decide_true|].
  intros [Hx Ha]%andb_true_iff. rewrite bool_decide_false, IH; [done|done|].
  intros ->. by rewrite Ascii.eqb_refl in Hx.
Qed.

Lemma split_once_free sep a s :
  byte_free sep a = true -> split_once sep (a +:+ String sep s) = Some (a, s).
Proof.
  induction a as [|x a IH]; cbn; [by rewrite bool_decide_true|].
  intros [Hx Ha]%andb_true_iff. rewrite bool_decide_false, IH; [done|done|].
  intros ->. by rewrite Ascii.eqb_refl in Hx.
Qed.

(** *** Ordered sets *)

Lemma elem_of_btree_set x l : x ∈ btree_set l <-> x ∈ l.
Proof. unfold btree_set. by rewrite elem_of_sort_by, elem_of_remove_dups. Qed.

Lemma NoDup_btree_set l : NoDup (btree_set l).
Proof. unfold btree_set. rewrite sort_by_perm. apply NoDup_remove_dups. Qed.

Lemma elem_of_btree_keys {V} (m : gmap string V) k : k ∈ btree_keys m <-> is_Some (m !! k).
Proof.
  unfold btree_keys. rewrite elem_of_sort_by, list_elem_of_fmap. split.
  - intros ([k' v] & -> & H%elem_of_map_to_list). by exists v.
  - intros [v H]. exists (k, v). split; [done|]. by apply elem_of_map_to_list.
Qed.

Lemma elem_of_btree_elements (s : gset string) k : k ∈ btree_elements s <-> k ∈ s.
Proof. unfold btree_elements. by rewrite elem_of_sort_by, elem_of_elements. Qed.

#[export] Hint Rewrite trim_idemp blank_trim unchars_chars : cox_str.
#[export] Hint Resolve chars_well trim_nonblank : cox.

(** *** Lines *)

Lemma split_byte_free sep a s :
  byte_free sep a = true -> split_byte sep (a +:+ String sep s) = a :: split_byte sep s.
Proof.
  induction a as [|x a IH]; [by cbn; rewrite bool_decide_true|]. cbn [byte_free all_bytes]. intros [Hx Ha]%andb_true_iff.
  change (String x a +:+ String sep s) with (String x (a +:+ String sep s)). cbn [split_byte].
  rewrite bool_decide_false, IH; [done|done|]. intros ->. by rewrite Ascii.eqb_refl in Hx.
Qed.

(** A text of whole lines. *)
Definition unlines (ls : list string) : string := foldr (fun l s => l +:+ String "010" s) "" ls.

Definition is_line (l : string) : bool := byte_free "010" l && byte_free "013" l.

Lemma strip_cr_free l : byte_free "013" l = true -> strip_cr l = l.
Proof.
  induction l as [|a l IH]; [done|]. cbn [byte_free all_bytes strip_cr]. intros [Ha Hl]%andb_true_iff.
  destruct l; [|by rewrite IH]. rewrite bool_decide_false; [done|]. intros ->. by rewrite Ascii.eqb_refl in Ha.
Qed.

Lemma lines_unlines ls : Forall (fun l => is_line l = true) ls -> lines (unlines ls) = ls.
Proof.
  unfold lines. induction 1 as [|l ls [Hn Hr]%andb_true_iff _ IH]; [done|]. cbn [unlines foldr].
  rewrite split_byte_free by done. change (foldr _ "" ls) with (unlines ls). cbn [line_pieces].
  rewrite strip_cr_free, IH by done. by destruct ls as [|l' ls]; [|cbn; destruct (split_byte _ _)].
Qed.

(** *** Bytes of a class *)

Lemma all_bytes_impl (p q : ascii -> bool) w :
  (forall a, p a = true -> q a = true) -> all_bytes p w = true -> all_bytes q w = true.
Proof. intros H. induction w as [|a w IH]; [done|]. cbn. intros [Ha Hw]%andb_true_iff. rewrite H by done. by apply IH. Qed.

Lemma pad_dec_free c w n : is_digit c = false -> byte_free c (pad_dec w n) = true.
Proof.
  intros Hc. apply (all_bytes_impl is_digit); [|apply all_digits_pad_dec]. intros a Ha.
  apply negb_true_iff, Ascii.eqb_neq. intros ->. congruence.
Qed.
