(* ===== verification/Kinds.v ===== *)
(** * Value objects of the domain crate

    [kinds.rs], [ids.rs], [error.rs] and the transition table and
    field-permission rules of [transitions.rs], with the facts about the table
    the ticket aggregate is proved from. *)
From S2P Require Import Prelude RustStr.

(** ** [kinds.rs] *)

Inductive TicketType := Feature | Bug | Chore.

Inductive InterventionKind :=
| ReadyApprove
| VerifyPass
| VerifySendBack
| CostApprove
| HumanPrReviewed
| HumanPrDismissed
| UndoAutoApprove.

Inductive Priority := Low | Medium | High.

Inductive Complexity := CSmall | CMedium | CLarge.

Inductive Status :=
| Pending | Ready | InProgress | Done | Documented
| Rejected | OnHold
| Open | Fixed | Verified.

Inductive Role :=
| Ba | Po | Sm | Sa | Pd | DevBug | DevFeature | Test | Docs | User | System.

#[export] Instance TicketType_eq_dec : EqDecision TicketType.
Proof. solve_decision. Defined.
#[export] Instance InterventionKind_eq_dec : EqDecision InterventionKind.
Proof. solve_decision. Defined.
#[export] Instance Priority_eq_dec : EqDecision Priority.
Proof. solve_decision. Defined.
#[export] Instance Complexity_eq_dec : EqDecision Complexity.
Proof. solve_decision. Defined.
#[export] Instance Status_eq_dec : EqDecision Status.
Proof. solve_decision. Defined.
#[export] Instance Role_eq_dec : EqDecision Role.
Proof. solve_decision. Defined.

(** [TicketType::key] *)
Definition ticket_type_key (t : TicketType) : string :=
  match t with Feature => "feature" | Bug => "bug" | Chore => "chore" end.

(** [InterventionKind::key] and [InterventionKind::ALL] *)
Definition intervention_key (k : InterventionKind) : string :=
  match k with
  | ReadyApprove => "ready_approve"
  | VerifyPass => "verify_pass"
  | VerifySendBack => "verify_send_back"
  | CostApprove => "cost_approve"
  | HumanPrReviewed => "human_pr_reviewed"
  | HumanPrDismissed => "human_pr_dismissed"
  | UndoAutoApprove => "undo_auto_approve"
  end.

Definition intervention_all : list InterventionKind :=
  [ReadyApprove; VerifyPass; VerifySendBack; CostApprove; HumanPrReviewed;
   HumanPrDismissed; UndoAutoApprove].

(** The derived [Ord] of [Priority]: declaration order. *)
Definition priority_ord (p : Priority) : nat :=
  match p with Low => 0 | Medium => 1 | High => 2 end.

Definition priority_lt (p q : Priority) : bool := priority_ord p <? priority_ord q.

(** ** [ids.rs]: opaque, non-blank strings *)

Abbreviation TicketId := string (only parsing).
Abbreviation GoalId := string (only parsing).
Abbreviation WorkerId := string (only parsing).

(** ** [error.rs] *)

Inductive DomainError :=
| Empty (field : string)
| InvalidTransition (ticket_type : TicketType) (from to : Status)
| FieldNotPermitted (role : Role) (field : string)
| TransitionNotPermitted (role : Role) (from to : Status)
| NotReady (missing : string)
| CoverageIncomplete (uncovered : nat) (first : string)
| InvalidVersion (raw : string)
| AlreadyClaimed (by_ : string).

#[export] Instance DomainError_eq_dec : EqDecision DomainError.
Proof. solve_decision. Defined.

Definition TicketId_new (raw : string) : result DomainError TicketId :=
  if blank raw then Err (Empty "ticket_id") else Ok raw.

Definition GoalId_new (raw : string) : result DomainError GoalId :=
  if blank raw then Err (Empty "goal_id") else Ok raw.

Definition WorkerId_new (raw : string) : result DomainError WorkerId :=
  if blank raw then Err (Empty "worker_id") else Ok raw.

(** ** [transitions.rs] *)

(** [matches!(x, A | B | ...)] *)
Definition one_of {A} `{EqDecision A} (x : A) (xs : list A) : bool := bool_decide (x ∈ xs).

(** Is [from -> to] a legal edge for this ticket type? *)
Definition transition_allowed (ticket_type : TicketType) (from to : Status) : bool :=
  if decide (from = to) then true
  else match ticket_type with
  | Feature | Chore =>
      match from, to with
      | Pending, (Ready | Rejected) => true
      | Ready, (InProgress | Pending | Rejected) => true
      | InProgress, Done => true
      | Done, Documented => true
      | (Pending | Ready), OnHold => true
      | OnHold, (Pending | Rejected) => true
      | (Done | Documented), Pending => true
      | _, _ => false
      end
  | Bug =>
      match from, to with
      | Open, (InProgress | Rejected | OnHold) => true
      | InProgress, (Fixed | Rejected) => true
      | Fixed, (Verified | Open) => true
      | OnHold, (Open | Rejected) => true
      | Verified, Open => true
      | _, _ => false
      end
  end.

(** Is [actor] allowed to perform the [from -> to] transition? *)
Definition can_transition (actor : Role) (from to : Status) : bool :=
  if decide (from = to) then true
  else if decide (actor = System) then true
  else match from, to with
  | Pending, Ready => one_of actor [Sa; Pd; User]
  | (Pending | Open | Ready | OnHold), Rejected => one_of actor [Po; User]
  | (Pending | Ready | Open), OnHold => one_of actor [Po; Sm; User]
  | OnHold, (Pending | Open) => one_of actor [Po; Sm; User]
  | (Done | Documented), Pending | Verified, Open => one_of actor [Po; User]
  | Ready, Pending => one_of actor [Po; User]
  | (Ready | Open), InProgress => one_of actor [DevBug; DevFeature]
  | InProgress, Done => one_of actor [DevFeature; DevBug]
  | InProgress, Fixed => bool_decide (actor = DevBug)
  | Fixed, (Verified | Open) => one_of actor [Test; User]
  | Done, Documented => bool_decide (actor = Docs)
  | _, _ => false
  end.

(** May [actor] write [field]? *)
Definition field_permitted (actor : Role) (field : string) : bool :=
  if decide (actor = System) then true
  else if decide (field = "priority") then one_of actor [Po; User]
  else if decide (field = "goal_id") then one_of actor [Po; User]
  else if decide (field = "service_tag") then one_of actor [Ba; Po; User; Sa]
  else if decide (field ∈ ["design.technical"; "depends_on"; "parent_id"])
    then bool_decide (actor = Sa)
  else if decide (field = "design.ux") then one_of actor [Pd; Sa]
  else false.

(** ** Facts about the tables *)

(** The statuses of each lifecycle. *)
Definition status_legal (ticket_type : TicketType) (s : Status) : bool :=
  match ticket_type with
  | Bug => one_of s [Open; InProgress; Fixed; Verified; Rejected; OnHold]
  | Feature | Chore =>
      one_of s [Pending; Ready; InProgress; Done; Documented; Rejected; OnHold]
  end.

(** The status a new ticket of this type starts in ([Ticket::new]). *)
Definition initial_status (ticket_type : TicketType) : Status :=
  match ticket_type with Bug => Open | Feature | Chore => Pending end.

Lemma one_of_true {A} `{EqDecision A} (x : A) xs : one_of x xs = true <-> x ∈ xs.
Proof. apply bool_decide_eq_true. Qed.

Lemma initial_status_legal t : status_legal t (initial_status t) = true.
Proof. by destruct t. Qed.

Lemma transition_legal t from to :
  status_legal t from = true -> transition_allowed t from to = true -> status_legal t to = true.
Proof. destruct t, from; try done; destruct to; done. Qed.

Lemma transition_allowed_refl t s : transition_allowed t s s = true.
Proof. unfold transition_allowed. by rewrite decide_True. Qed.

(** [Rejected] has no way out. *)
Lemma transition_rejected_absorbing t to :
  transition_allowed t Rejected to = true -> to = Rejected.
Proof. by destruct t, to. Qed.

(** The only edges into the gated statuses. *)
Lemma transition_into_ready t from :
  transition_allowed t from Ready = true -> from <> Ready -> from = Pending /\ t <> Bug.
Proof. by destruct t, from. Qed.

Lemma transition_into_verified t from :
  transition_allowed t from Verified = true -> from <> Verified -> from = Fixed /\ t = Bug.
Proof. by destruct t, from. Qed.

Lemma transition_into_in_progress t from :
  transition_allowed t from InProgress = true -> from <> InProgress ->
  from = match t with Bug => Open | _ => Ready end.
Proof. by destruct t, from. Qed.

#[export] Hint Resolve initial_status_legal transition_legal transition_allowed_refl : cox.
