(* ===== verification/TestCase.v ===== *)
(** * Test cases and their coverage

    The data of [test_case.rs] and the list-level functions of [coverage.rs]:
    what a criterion's case records, the bound on its verdict history, and which
    criteria no passing case demonstrates. *)
From S2P Require Import Prelude RustStr Kinds.

(** ** [test_case.rs]: the data *)

Inductive TestCaseStatus := TCPending | TCPassed | TCFailed.

Inductive RecordKind := Verdict | EvidenceRefresh.

#[export] Instance TestCaseStatus_eq_dec : EqDecision TestCaseStatus.
Proof. solve_decision. Defined.
#[export] Instance RecordKind_eq_dec : EqDecision RecordKind.
Proof. solve_decision. Defined.

Definition MAX_VERDICT_HISTORY : nat := 12.

Record VerdictRecord := mkVerdictRecord {
  vr_kind : RecordKind;
  vr_status : TestCaseStatus;
  vr_note : option string;
  vr_image : option string;
  vr_at : string;
}.

Record CaseEvidence := mkCaseEvidence {
  ev_image : option string;
  ev_note : option string;
  ev_repro : option string;
  ev_at : string;
}.

Record TestCase := mkTestCase {
  tc_description : string;
  tc_status : TestCaseStatus;
  tc_evidence : option CaseEvidence;
  tc_sources : list string;
  tc_history : list VerdictRecord;
}.

#[export] Instance VerdictRecord_eq_dec : EqDecision VerdictRecord.
Proof. solve_decision. Defined.
#[export] Instance CaseEvidence_eq_dec : EqDecision CaseEvidence.
Proof. solve_decision. Defined.
#[export] Instance TestCase_eq_dec : EqDecision TestCase.
Proof. solve_decision. Defined.

(** [CaseEvidence::empty] *)
Definition CaseEvidence_empty : CaseEvidence := mkCaseEvidence None None None "".

(** A case no verdict has been rendered on: what [sync_test_cases_from_acceptance]
    adds for a new criterion. *)
Definition fresh_case (ac : string) : TestCase := mkTestCase ac TCPending None [] [].

Definition is_case (description : string) (c : TestCase) : bool :=
  bool_decide (tc_description c = description).

(** [cases.iter().find(|t| t.description == d)] *)
Definition find_case (description : string) (cases : list TestCase) : option TestCase :=
  List.find (is_case description) cases.

(** [tc.history.push(r)] followed by [trim_verdict_history]. *)
Definition trim_verdict_history (tc : TestCase) : TestCase :=
  tc <| tc_history ::= keep_last MAX_VERDICT_HISTORY |>.

Definition push_verdict (r : VerdictRecord) (tc : TestCase) : TestCase :=
  trim_verdict_history (tc <| tc_history ::= (fun h => h ++ [r]) |>).

(** The body of [set_test_case_result] on the matched case. *)
Definition record_result (passed : bool) (note image : option string) (at_ : string)
    (tc : TestCase) : TestCase :=
  let status := if passed then TCPassed else TCFailed in
  let keep_image := match image with
                    | Some i => Some i
                    | None => tc_evidence tc ≫= ev_image
                    end in
  let keep_repro := tc_evidence tc ≫= ev_repro in
  let tc1 := tc <| tc_status := status |>
                <| tc_evidence := Some (mkCaseEvidence keep_image note keep_repro at_) |> in
  push_verdict (mkVerdictRecord Verdict status note keep_image at_) tc1.

(** The body of [set_test_case_image] on the matched case. *)
Definition attach_image (image at_ : string) (tc : TestCase) : TestCase :=
  let note := tc_evidence tc ≫= ev_note in
  let repro := tc_evidence tc ≫= ev_repro in
  let tc1 := tc <| tc_evidence := Some (mkCaseEvidence (Some image) note repro at_) |> in
  push_verdict (mkVerdictRecord EvidenceRefresh (tc_status tc) note (Some image) at_) tc1.

(** The body of [set_test_case_repro] on the matched case. *)
Definition attach_repro (repro : string) (tc : TestCase) : TestCase :=
  let e := default CaseEvidence_empty (tc_evidence tc) in
  tc <| tc_evidence := Some (mkCaseEvidence (ev_image e) (ev_note e) (Some repro) (ev_at e)) |>.

(** The body of [set_test_case_sources] on the matched case. *)
Definition attach_sources (sources : list string) (tc : TestCase) : TestCase :=
  tc <| tc_sources := sources |>.

(** [sync_test_cases_from_acceptance]: one case per criterion, the first
    existing case of that text kept whole. *)
Definition sync_cases (criteria : list string) (cases : list TestCase) : list TestCase :=
  (fun ac => default (fresh_case ac) (find_case ac cases)) <$> criteria.

(** The [in_sync] test of [ensure_test_cases_from_acceptance]. *)
Definition cases_in_sync (criteria : list string) (cases : list TestCase) : bool :=
  (length cases =? length criteria) &&
  forallb (fun '(tc, ac) => bool_decide (tc_description tc = ac)) (zip cases criteria).

(** ** [coverage.rs] *)

Inductive CoverageStatus := Covered | PartiallyCovered | NotTested.

#[export] Instance CoverageStatus_eq_dec : EqDecision CoverageStatus.
Proof. solve_decision. Defined.

Record CoverageEntry := mkCoverageEntry {
  ce_criterion : string;
  ce_status : CoverageStatus;
  ce_sources : list string;
}.

Definition status_of_case (case : option TestCase) : CoverageStatus :=
  match tc_status <$> case with
  | Some TCPassed => Covered
  | Some TCFailed => PartiallyCovered
  | Some TCPending | None => NotTested
  end.

Definition uncovered (criteria : list string) (cases : list TestCase) : list string :=
  List.filter
    (fun ac => negb (bool_decide (tc_status <$> find_case ac cases = Some TCPassed)))
    criteria.

(** [matrix_for], over the ticket's two lists. *)
Definition coverage_rows (criteria : list string) (cases : list TestCase) : list CoverageEntry :=
  (fun ac =>
     let case := find_case ac cases in
     mkCoverageEntry ac (status_of_case case) (default [] (tc_sources <$> case))) <$> criteria.

(** ** Lemmas *)

Lemma is_case_true d c : is_case d c = true <-> tc_description c = d.
Proof. unfold is_case. by rewrite bool_decide_eq_true. Qed.

Lemma find_case_description d cases c : find_case d cases = Some c -> tc_description c = d.
Proof. intros [_ H]%find_elem. by apply is_case_true. Qed.

Lemma record_result_description p n i a tc :
  tc_description (record_result p n i a tc) = tc_description tc.
Proof. by destruct tc. Qed.
Lemma attach_image_description i a tc : tc_description (attach_image i a tc) = tc_description tc.
Proof. by destruct tc. Qed.
Lemma attach_repro_description r tc : tc_description (attach_repro r tc) = tc_description tc.
Proof. by destruct tc. Qed.
Lemma attach_sources_description s tc : tc_description (attach_sources s tc) = tc_description tc.
Proof. by destruct tc. Qed.

(** A case's history stays within the cap. *)
Definition history_bounded (tc : TestCase) : Prop :=
  length (tc_history tc) <= MAX_VERDICT_HISTORY.

Lemma push_verdict_bounded r tc : history_bounded (push_verdict r tc).
Proof. apply keep_last_le. Qed.

Lemma push_verdict_history r tc :
  tc_history (push_verdict r tc) = push_capped MAX_VERDICT_HISTORY r (tc_history tc).
Proof. by destruct tc. Qed.

Lemma record_result_bounded p n i a tc : history_bounded (record_result p n i a tc).
Proof. apply push_verdict_bounded. Qed.
Lemma attach_image_bounded i a tc : history_bounded (attach_image i a tc).
Proof. apply push_verdict_bounded. Qed.
Lemma attach_repro_bounded r tc : history_bounded tc -> history_bounded (attach_repro r tc).
Proof. by destruct tc. Qed.
Lemma attach_sources_bounded s tc : history_bounded tc -> history_bounded (attach_sources s tc).
Proof. by destruct tc. Qed.

Lemma sync_cases_bounded criteria cases :
  Forall history_bounded cases -> Forall history_bounded (sync_cases criteria cases).
Proof.
  intros Hc. apply Forall_fmap, Forall_true. intros ac. simpl.
  destruct (find_case ac cases) as [c|] eqn:E; simpl.
  - apply find_elem in E as [Hin _]. by eapply Forall_forall in Hc.
  - unfold history_bounded. simpl. lia.
Qed.

Lemma length_sync_cases criteria cases : length (sync_cases criteria cases) = length criteria.
Proof. apply length_fmap. Qed.

(** After a sync there is exactly one case per criterion, in criteria order. *)
Lemma sync_cases_descriptions criteria cases :
  tc_description <$> sync_cases criteria cases = criteria.
Proof.
  unfold sync_cases. rewrite <- list_fmap_compose.
  rewrite <- (list_fmap_id criteria) at 2. apply list_fmap_ext. intros i ac _. simpl.
  destruct (find_case ac cases) eqn:E; simpl; [|done]. by eapply find_case_description.
Qed.

(** A surviving criterion keeps its case: verdict, evidence and history. *)
Lemma sync_cases_find criteria cases ac :
  ac ∈ criteria ->
  find_case ac (sync_cases criteria cases) = Some (default (fresh_case ac) (find_case ac cases)).
Proof.
  induction criteria as [|a cs IH]; [by intros ?%elem_of_nil|].
  intros [->|Hin]%elem_of_cons; unfold find_case at 1; simpl;
    set (c := default (fresh_case _) (find_case _ cases));
    assert (Hd : tc_description c = a) by
      (subst c; destruct (find_case a cases) eqn:E; simpl; [by eapply find_case_description|done]).
  - rewrite (proj2 (is_case_true _ _)) by done. done.
  - destruct (is_case ac c) eqn:Ec; [|by apply IH].
    apply is_case_true in Ec. rewrite Hd in Ec. by rewrite <- Ec.
Qed.

Lemma sync_cases_find_none criteria cases ac :
  ac ∉ criteria -> find_case ac (sync_cases criteria cases) = None.
Proof.
  intros Hn. destruct (find_case ac _) as [c|] eqn:E; [|done]. exfalso. apply Hn.
  rewrite <- (sync_cases_descriptions criteria cases).
  apply list_elem_of_fmap. exists c. apply find_elem in E as [? ?%is_case_true]. auto.
Qed.

(** Membership in [uncovered] and the matrix row of the same criterion agree. *)
Lemma elem_of_uncovered criteria cases ac :
  ac ∈ uncovered criteria cases <->
  ac ∈ criteria /\ status_of_case (find_case ac cases) <> Covered.
Proof.
  unfold uncovered. rewrite !list_elem_of_In, List.filter_In, negb_true_iff, bool_decide_eq_false.
  unfold status_of_case. destruct (find_case ac cases) as [[? [] ? ? ?]|]; simpl; naive_solver.
Qed.

Lemma uncovered_nil criteria cases :
  uncovered criteria cases = [] <->
  Forall (fun ac => exists c, find_case ac cases = Some c /\ tc_status c = TCPassed) criteria.
Proof.
  induction criteria as [|ac cs IH]; simpl; [by split|].
  rewrite Forall_cons, <- IH. case_bool_decide as E; simpl.
  - apply fmap_Some in E as (c & Hc & Hs). naive_solver.
  - split; [done|]. intros [(c & Hc & Hs) _]. exfalso. apply E. by rewrite Hc, <- Hs.
Qed.

(** The uncovered criteria are those of the rows that are not Covered, in order. *)
Lemma coverage_missing criteria cases :
  ce_criterion <$> List.filter (fun e => negb (bool_decide (ce_status e = Covered)))
                     (coverage_rows criteria cases)
  = uncovered criteria cases.
Proof.
  induction criteria as [|ac cs IH]; [done|]. cbn [coverage_rows uncovered fmap list_fmap List.filter].
  fold (coverage_rows cs cases). fold (uncovered cs cases). cbn [ce_status].
  unfold status_of_case.
  destruct (tc_status <$> find_case ac cases) as [[]|] eqn:E; rewrite <- IH; cbn; by rewrite ?E.
Qed.

(** A sync changes no verdict, so no row of the matrix. *)
Lemma coverage_rows_sync criteria cases :
  coverage_rows criteria (sync_cases criteria cases) = coverage_rows criteria cases.
Proof.
  unfold coverage_rows. apply list_fmap_ext. intros i ac Hi.
  rewrite sync_cases_find by (by eapply list_elem_of_lookup_2).
  by destruct (find_case ac cases).
Qed.

Lemma cases_in_sync_true criteria cases :
  cases_in_sync criteria cases = true <-> tc_description <$> cases = criteria.
Proof.
  unfold cases_in_sync. rewrite andb_true_iff, Nat.eqb_eq. split.
  - intros [Hl Hf]. revert criteria Hl Hf.
    induction cases as [|c cases IH]; intros [|ac cs] Hl; try done. cbn.
    intros [?%bool_decide_eq_true ?]%andb_prop. f_equal; [done|]. apply IH; [by injection Hl|done].
  - intros <-. rewrite length_fmap. split; [done|].
    induction cases as [|c cases IH]; [done|]. cbn. rewrite IH. by rewrite bool_decide_true.
Qed.

(** With distinct criteria, a list in sync is its own sync. *)
Lemma sync_cases_id cases :
  NoDup (tc_description <$> cases) -> sync_cases (tc_description <$> cases) cases = cases.
Proof.
  intros Hn. unfold sync_cases. rewrite <- list_fmap_compose.
  transitivity (id <$> cases); [|apply list_fmap_id]. apply list_fmap_ext. intros i c Hi. cbn.
  apply list_elem_of_lookup_2 in Hi. clear i.
  induction cases as [|c0 cases IH]; [by apply elem_of_nil in Hi|].
  cbn in Hn. apply NoDup_cons in Hn as [Hnin Hn]. unfold find_case. cbn.
  destruct (is_case (tc_description c) c0) eqn:E.
  - apply is_case_true in E. apply elem_of_cons in Hi as [->|Hi]; [done|].
    exfalso. apply Hnin. rewrite E. by apply list_elem_of_fmap_2.
  - apply elem_of_cons in Hi as [->|Hi]; [|by apply IH].
    by rewrite (proj2 (is_case_true _ _)) in E.
Qed.

#[export] Hint Resolve record_result_bounded attach_image_bounded attach_repro_bounded
  attach_sources_bounded sync_cases_bounded : cox.
#[export] Hint Rewrite record_result_description attach_image_description
  attach_repro_description attach_sources_description length_sync_cases : cox_case.
