(* ===== verification/Ticket.v ===== *)
(** * The [Ticket] aggregate

    [ticket.rs], with the [impl Ticket] blocks of [test_case.rs],
    [wip_checkpoint.rs] and [coverage.rs]. A mutator of the source that returns
    [Result<(), DomainError>] is a function to [result DomainError Ticket]: every
    one of them checks its guards before its first write, so an [Err] is returned
    with the ticket as it was. *)
From S2P Require Import Prelude RustStr Kinds TestCase.

Record TechnicalDesign := mkTechnicalDesign {
  td_approach : string;
  td_files : list string;
  td_api_contract : string;
  td_data_changes : string;
  td_test_plan : string;
  td_alternatives : string;
}.

Record UxDesign := mkUxDesign {
  ux_user_flow : string;
  ux_screens : list string;
  ux_component_states : list string;
  ux_responsive_notes : string;
}.

Record Design := mkDesign {
  d_technical : option TechnicalDesign;
  d_ux : option UxDesign;
}.

(** [wip_checkpoint.rs] *)
Record WipCheckpoint := mkWipCheckpoint {
  wip_ref_name : string;
  wip_sha : string;
  wip_note : string;
  wip_recorded_at : string;
}.

Definition MAX_WIP_CHECKPOINTS : nat := 3.

#[export] Instance TechnicalDesign_eq_dec : EqDecision TechnicalDesign.
Proof. solve_decision. Defined.
#[export] Instance UxDesign_eq_dec : EqDecision UxDesign.
Proof. solve_decision. Defined.
#[export] Instance Design_eq_dec : EqDecision Design.
Proof. solve_decision. Defined.
#[export] Instance WipCheckpoint_eq_dec : EqDecision WipCheckpoint.
Proof. solve_decision. Defined.

Record Ticket := mkTicket {
  t_id : TicketId;
  t_kind : TicketType;
  t_title : string;
  t_description : string;
  t_priority : Priority;
  t_complexity : Complexity;
  t_status : Status;
  t_has_ui : bool;
  t_design : Design;
  t_parent_id : option TicketId;
  t_depends_on : list TicketId;
  t_acceptance_criteria : list string;
  t_test_cases : list TestCase;
  t_claimed_by : option string;
  t_claimed_at : option string;
  t_assignee : option string;
  t_goal_id : option GoalId;
  t_created_at : option string;
  t_wip_checkpoints : list WipCheckpoint;
  t_service_tag : option string;
}.

#[export] Instance Ticket_eq_dec : EqDecision Ticket.
Proof. solve_decision. Defined.

(** [Ticket::new] *)
Definition Ticket_new (id : TicketId) (ticket_type : TicketType) (title description : string)
    (priority : Priority) (complexity : Complexity) (has_ui : bool) : result DomainError Ticket :=
  if blank title then Err (Empty "title")
  else Ok {|
    t_id := id; t_kind := ticket_type; t_title := title; t_description := description;
    t_priority := priority; t_complexity := complexity;
    t_status := initial_status ticket_type; t_has_ui := has_ui;
    t_design := mkDesign None None; t_parent_id := None; t_depends_on := [];
    t_acceptance_criteria := []; t_test_cases := [];
    t_claimed_by := None; t_claimed_at := None; t_assignee := None; t_goal_id := None;
    t_created_at := None; t_wip_checkpoints := []; t_service_tag := None |}.

(** ** Unguarded mutators *)

(** The criteria [set_acceptance_criteria] keeps. *)
Definition clean_criteria (criteria : list string) : list string :=
  take 5 (List.filter (fun c => negb (bool_decide (c = ""))) (trim <$> criteria)).

Definition set_acceptance_criteria (criteria : list string) (t : Ticket) : Ticket :=
  t <| t_acceptance_criteria := clean_criteria criteria |>.

Definition assign_to_human (username : string) (t : Ticket) : Ticket :=
  t <| t_assignee := opt_nonempty (trim username) |>.

Definition stamp_created_at (at_ : string) (t : Ticket) : Ticket :=
  match t_created_at t with
  | None => t <| t_created_at := Some at_ |>
  | Some _ => t
  end.

(** ** Role-guarded mutators *)

(** [if !field_permitted(actor, f) { return Err(FieldNotPermitted) }] *)
Definition guard_field (actor : Role) (field : string) (t : Ticket) : result DomainError Ticket :=
  if field_permitted actor field then Ok t else Err (FieldNotPermitted actor field).

Definition set_goal_id (actor : Role) (goal_id : GoalId) (t : Ticket) : result DomainError Ticket :=
  let? t := guard_field actor "goal_id" t in
  Ok (t <| t_goal_id := Some goal_id |>).

Definition set_service_tag (actor : Role) (tag : string) (t : Ticket) : result DomainError Ticket :=
  let? t := guard_field actor "service_tag" t in
  Ok (t <| t_service_tag := opt_nonempty (trim tag) |>).

Definition edit (actor : Role) (title description : string) (t : Ticket)
    : result DomainError Ticket :=
  if negb (one_of actor [Po; User]) then Err (FieldNotPermitted actor "title")
  else if blank title then Err (Empty "title")
  else Ok (t <| t_title := title |> <| t_description := description |>).

Definition clarify (actor : Role) (description : string) (t : Ticket)
    : result DomainError Ticket :=
  if negb (one_of actor [Ba; Po; User]) then Err (FieldNotPermitted actor "description")
  else if blank description then Err (Empty "description")
  else Ok (t <| t_description := trim description |>).

Definition set_priority (actor : Role) (priority : Priority) (t : Ticket)
    : result DomainError Ticket :=
  let? t := guard_field actor "priority" t in
  Ok (t <| t_priority := priority |>).

Definition set_technical_design (actor : Role) (design : TechnicalDesign) (t : Ticket)
    : result DomainError Ticket :=
  let? t := guard_field actor "design.technical" t in
  Ok (t <| t_design := mkDesign (Some design) (d_ux (t_design t)) |>).

Definition set_ux_design (actor : Role) (design : UxDesign) (t : Ticket)
    : result DomainError Ticket :=
  let? t := guard_field actor "design.ux" t in
  Ok (t <| t_design := mkDesign (d_technical (t_design t)) (Some design) |>).

Definition set_parent (actor : Role) (parent : TicketId) (t : Ticket)
    : result DomainError Ticket :=
  let? t := guard_field actor "parent_id" t in
  Ok (t <| t_parent_id := Some parent |>).

Definition remove_dependency (actor : Role) (on : string) (t : Ticket)
    : result DomainError Ticket :=
  let? t := guard_field actor "depends_on" t in
  Ok (t <| t_depends_on := List.filter (fun d => negb (bool_decide (d = on))) (t_depends_on t) |>).

Definition add_dependency (actor : Role) (on : TicketId) (t : Ticket)
    : result DomainError Ticket :=
  let? t := guard_field actor "depends_on" t in
  if one_of on (t_depends_on t) then Ok t
  else Ok (t <| t_depends_on ::= (fun ds => ds ++ [on]) |>).

(** ** Status transitions *)

(** [check_ready]: the definition of Ready. *)
Definition check_ready (t : Ticket) : result DomainError unit :=
  match d_technical (t_design t) with
  | None => Err (NotReady "design.technical")
  | Some _ =>
      if t_has_ui t && bool_decide (d_ux (t_design t) = None)
      then Err (NotReady "design.ux") else Ok tt
  end.

(** [check_covered]: the definition of Verified. *)
Definition check_covered (t : Ticket) : result DomainError unit :=
  match uncovered (t_acceptance_criteria t) (t_test_cases t) with
  | [] => Ok tt
  | (first :: _) as missing => Err (CoverageIncomplete (length missing) first)
  end.

Definition clear_claim (t : Ticket) : Ticket :=
  t <| t_claimed_by := None |> <| t_claimed_at := None |>.

Definition set_status (s : Status) (t : Ticket) : Ticket := t <| t_status := s |>.

Definition transition_to (actor : Role) (to : Status) (t : Ticket) : result DomainError Ticket :=
  let from := t_status t in
  if negb (transition_allowed (t_kind t) from to)
  then Err (InvalidTransition (t_kind t) from to)
  else if negb (can_transition actor from to)
  then Err (TransitionNotPermitted actor from to)
  else
    let? _ := if decide (to = Ready) then check_ready t else Ok tt in
    let? _ := if decide (to = Verified) then check_covered t else Ok tt in
    let t := set_status to t in
    Ok (if decide (to = InProgress) then t else clear_claim t).

Definition stamp_claim (worker now : string) (t : Ticket) : Ticket :=
  t <| t_claimed_by := Some worker |> <| t_claimed_at := Some now |>.

Definition claim (actor : Role) (worker now : string) (t : Ticket) : result DomainError Ticket :=
  match t_claimed_by t with
  | Some holder => Err (AlreadyClaimed holder)
  | None =>
      let? t := transition_to actor InProgress t in
      Ok (stamp_claim worker now t)
  end.

Definition release_claim (actor : Role) (t : Ticket) : result DomainError Ticket :=
  if decide (actor <> System) then Err (FieldNotPermitted actor "claim")
  else if decide (t_status t <> InProgress)
  then Err (InvalidTransition (t_kind t) (t_status t) (t_status t))
  else
    let s := match t_kind t with Bug => Open | Feature | Chore => Ready end in
    Ok (clear_claim (set_status s t)).

Definition misfiled (t : Ticket) : bool :=
  bool_decide (t_kind t = Bug) && one_of (t_status t) [Pending; Ready; Done; Documented].

(** Returns the ticket and whether a repair was made. *)
Definition reclaim_misfiled (actor : Role) (t : Ticket) : result DomainError (Ticket * bool) :=
  if decide (actor <> System) then Err (FieldNotPermitted actor "status")
  else if misfiled t then Ok (clear_claim (set_status Open t), true)
  else Ok (t, false).

(** Returns the ticket and the displaced holder. *)
Definition take_over (actor : Role) (worker now : string) (t : Ticket)
    : result DomainError (Ticket * option string) :=
  if decide (actor <> System) then Err (FieldNotPermitted actor "claim")
  else if decide (t_status t <> InProgress)
  then Err (InvalidTransition (t_kind t) (t_status t) (t_status t))
  else Ok (stamp_claim worker now t, t_claimed_by t).

(** ** Test cases ([impl Ticket] of [test_case.rs]) *)

Definition sync_test_cases_from_acceptance (t : Ticket) : Ticket :=
  t <| t_test_cases := sync_cases (t_acceptance_criteria t) (t_test_cases t) |>.

Definition ensure_test_cases_from_acceptance (t : Ticket) : Ticket :=
  if cases_in_sync (t_acceptance_criteria t) (t_test_cases t) then t
  else sync_test_cases_from_acceptance t.

(** Write through to the first case of that description; [false] when none is. *)
Definition with_case (description : string) (f : TestCase -> TestCase) (t : Ticket)
    : Ticket * bool :=
  match find_case description (t_test_cases t) with
  | None => (t, false)
  | Some _ => (t <| t_test_cases ::= update_first (is_case description) f |>, true)
  end.

Definition set_test_case_result (description : string) (passed : bool)
    (note image : option string) (at_ : string) (t : Ticket) : Ticket * bool :=
  with_case description (record_result passed note image at_) t.

Definition set_test_case_image (description image at_ : string) (t : Ticket) : Ticket * bool :=
  with_case description (attach_image image at_) t.

Definition set_test_case_repro (description repro : string) (t : Ticket) : Ticket * bool :=
  if blank repro then (t, false) else with_case description (attach_repro repro) t.

Definition set_test_case_sources (description : string) (sources : list string) (t : Ticket)
    : Ticket * bool :=
  with_case description (attach_sources sources) t.

Definition coverage_matrix (t : Ticket) : list CoverageEntry :=
  coverage_rows (t_acceptance_criteria t) (t_test_cases t).

(** ** Parked work ([impl Ticket] of [wip_checkpoint.rs]) *)

Definition record_wip_checkpoint (actor : Role) (cp : WipCheckpoint) (t : Ticket)
    : result DomainError Ticket :=
  let? t := guard_field actor "wip_checkpoints" t in
  Ok (t <| t_wip_checkpoints ::= push_capped MAX_WIP_CHECKPOINTS cp |>).

Definition clear_wip_checkpoints (actor : Role) (t : Ticket) : result DomainError Ticket :=
  let? t := guard_field actor "wip_checkpoints" t in
  Ok (t <| t_wip_checkpoints := [] |>).
