(* ===== verification/Lifecycle.v ===== *)
(** * The ticket lifecycle as a transition system

    Every public mutator of [Ticket] as an operation with its actor, the step
    relation they generate, and the invariant all reachable tickets satisfy. *)
From S2P Require Import Prelude RustStr Kinds TestCase Ticket.

(** ** Operations *)

Inductive TicketOp :=
| OpSetCriteria (criteria : list string)
| OpAssign (username : string)
| OpStampCreated (at_ : string)
| OpSetGoal (actor : Role) (goal : GoalId)
| OpSetServiceTag (actor : Role) (tag : string)
| OpEdit (actor : Role) (title description : string)
| OpClarify (actor : Role) (description : string)
| OpClaim (actor : Role) (worker now : string)
| OpSetPriority (actor : Role) (priority : Priority)
| OpSetTechnical (actor : Role) (design : TechnicalDesign)
| OpSetUx (actor : Role) (design : UxDesign)
| OpSetParent (actor : Role) (parent : TicketId)
| OpRemoveDep (actor : Role) (on : string)
| OpAddDep (actor : Role) (on : TicketId)
| OpTransition (actor : Role) (to : Status)
| OpRelease (actor : Role)
| OpReclaim (actor : Role)
| OpTakeOver (actor : Role) (worker now : string)
| OpSyncCases
| OpEnsureCases
| OpCaseResult (description : string) (passed : bool) (note image : option string) (at_ : string)
| OpCaseImage (description image at_ : string)
| OpCaseRepro (description repro : string)
| OpCaseSources (description : string) (sources : list string)
| OpRecordWip (actor : Role) (cp : WipCheckpoint)
| OpClearWip (actor : Role).

Definition apply_op (op : TicketOp) (t : Ticket) : result DomainError Ticket :=
  match op with
  | OpSetCriteria cs => Ok (set_acceptance_criteria cs t)
  | OpAssign u => Ok (assign_to_human u t)
  | OpStampCreated a => Ok (stamp_created_at a t)
  | OpSetGoal r g => set_goal_id r g t
  | OpSetServiceTag r tag => set_service_tag r tag t
  | OpEdit r ti d => edit r ti d t
  | OpClarify r d => clarify r d t
  | OpClaim r w n => claim r w n t
  | OpSetPriority r p => set_priority r p t
  | OpSetTechnical r d => set_technical_design r d t
  | OpSetUx r d => set_ux_design r d t
  | OpSetParent r p => set_parent r p t
  | OpRemoveDep r o => remove_dependency r o t
  | OpAddDep r o => add_dependency r o t
  | OpTransition r to => transition_to r to t
  | OpRelease r => release_claim r t
  | OpReclaim r => result_map fst (reclaim_misfiled r t)
  | OpTakeOver r w n => result_map fst (take_over r w n t)
  | OpSyncCases => Ok (sync_test_cases_from_acceptance t)
  | OpEnsureCases => Ok (ensure_test_cases_from_acceptance t)
  | OpCaseResult d p n i a => Ok (set_test_case_result d p n i a t).1
  | OpCaseImage d i a => Ok (set_test_case_image d i a t).1
  | OpCaseRepro d r => Ok (set_test_case_repro d r t).1
  | OpCaseSources d ss => Ok (set_test_case_sources d ss t).1
  | OpRecordWip r cp => record_wip_checkpoint r cp t
  | OpClearWip r => clear_wip_checkpoints r t
  end.

(** The role an operation runs as; the unguarded ones take none. *)
Definition op_actor (op : TicketOp) : option Role :=
  match op with
  | OpSetGoal r _ | OpSetServiceTag r _ | OpEdit r _ _ | OpClarify r _ | OpClaim r _ _
  | OpSetPriority r _ | OpSetTechnical r _ | OpSetUx r _ | OpSetParent r _
  | OpRemoveDep r _ | OpAddDep r _ | OpTransition r _ | OpRelease r | OpReclaim r
  | OpTakeOver r _ _ | OpRecordWip r _ | OpClearWip r => Some r
  | _ => None
  end.

Inductive ticket_step : Ticket -> TicketOp -> Ticket -> Prop :=
| step_op t op t' : apply_op op t = Ok t' -> ticket_step t op t'.

(** Tickets that exist: created by [Ticket::new], then mutated. *)
Inductive reachable : Ticket -> Prop :=
| reach_new id ty title d p c ui t :
    Ticket_new id ty title d p c ui = Ok t -> reachable t
| reach_step t op t' : reachable t -> ticket_step t op t' -> reachable t'.

(** Running a list of operations; a refused one leaves the ticket as it was. *)
Definition try_op (op : TicketOp) (t : Ticket) : Ticket :=
  match apply_op op t with Ok t' => t' | Err _ => t end.

Definition run_ops (ops : list TicketOp) (t : Ticket) : Ticket :=
  fold_left (fun t op => try_op op t) ops t.

(** ** What a mutator reports when it succeeds *)

Lemma guard_field_ok r f t t' : guard_field r f t = Ok t' -> t' = t /\ field_permitted r f = true.
Proof. unfold guard_field. intros. by case_matches. Qed.

Lemma check_ready_ok t :
  check_ready t = Ok tt <->
  d_technical (t_design t) <> None /\ (t_has_ui t = true -> d_ux (t_design t) <> None).
Proof.
  unfold check_ready. destruct (d_technical _); [|naive_solver].
  destruct (t_has_ui t); simpl; [case_bool_decide|]; naive_solver.
Qed.

Lemma check_covered_ok t :
  check_covered t = Ok tt <-> uncovered (t_acceptance_criteria t) (t_test_cases t) = [].
Proof. unfold check_covered. destruct (uncovered _ _); naive_solver. Qed.

(** The four conditions of a transition, and the ticket it yields. *)
Record transition_spec (actor : Role) (to : Status) (t t' : Ticket) : Prop := {
  tr_edge : transition_allowed (t_kind t) (t_status t) to = true;
  tr_role : can_transition actor (t_status t) to = true;
  tr_ready : to = Ready -> check_ready t = Ok tt;
  tr_verified : to = Verified -> check_covered t = Ok tt;
  tr_result : t' = if decide (to = InProgress) then set_status to t
                   else clear_claim (set_status to t);
}.

Lemma transition_to_ok actor to t t' :
  transition_to actor to t = Ok t' <-> transition_spec actor to t t'.
Proof.
  unfold transition_to. split.
  - intros H.
    destruct (transition_allowed _ _ _) eqn:E1; [|done].
    destruct (can_transition _ _ _) eqn:E2; [|done]. cbn [negb] in H.
    apply result_bind_ok in H as ([] & Hr & H).
    apply result_bind_ok in H as ([] & Hv & H).
    rewrite guard_when_ok in Hr, Hv.
    injection H as <-. by constructor.
  - intros [-> -> Hr Hv ->]. cbn [negb].
    apply result_bind_ok. exists tt. rewrite guard_when_ok. split; [done|].
    apply result_bind_ok. exists tt. by rewrite guard_when_ok.
Qed.

(** ** The aggregate's invariant *)

(** The statuses a feature or chore only reaches through the Ready gate. *)
Definition past_ready (s : Status) : bool := one_of s [Ready; InProgress; Done; Documented].

(** The gate of [check_ready], over the two fields it reads. *)
Definition designed (has_ui : bool) (d : Design) : Prop :=
  d_technical d <> None /\ (has_ui = true -> d_ux d <> None).

Record ticket_wf (t : Ticket) : Prop := {
  wf_title : blank (t_title t) = false;
  wf_status : status_legal (t_kind t) (t_status t) = true;
  wf_holder : is_Some (t_claimed_by t) -> t_status t = InProgress;
  wf_lease : is_Some (t_claimed_by t) <-> is_Some (t_claimed_at t);
  wf_criteria_len : length (t_acceptance_criteria t) <= 5;
  wf_criteria : Forall (fun c => trim c = c /\ c <> "") (t_acceptance_criteria t);
  wf_deps : NoDup (t_depends_on t);
  wf_wip : length (t_wip_checkpoints t) <= MAX_WIP_CHECKPOINTS;
  wf_history : Forall history_bounded (t_test_cases t);
  wf_design : t_kind t <> Bug -> past_ready (t_status t) = true ->
              designed (t_has_ui t) (t_design t);
  wf_tag : from_option (fun s => trim s = s /\ s <> "") True (t_service_tag t);
  wf_assignee : from_option (fun s => trim s = s /\ s <> "") True (t_assignee t);
}.

Lemma opt_trim_ok s : from_option (fun s => trim s = s /\ s <> "") True (opt_nonempty (trim s)).
Proof.
  unfold opt_nonempty. case_bool_decide; simpl; [done|]. by rewrite trim_idemp.
Qed.

Lemma clean_criteria_len cs : length (clean_criteria cs) <= 5.
Proof. unfold clean_criteria. rewrite length_take. lia. Qed.

Lemma clean_criteria_ok cs : Forall (fun c => trim c = c /\ c <> "") (clean_criteria cs).
Proof.
  apply Forall_take, Forall_forall. intros c. rewrite list_elem_of_In, List.filter_In.
  rewrite <- list_elem_of_In, list_elem_of_fmap, negb_true_iff, bool_decide_eq_false.
  intros [(x & -> & _) ?]. by rewrite trim_idemp.
Qed.

#[export] Hint Resolve opt_trim_ok clean_criteria_len clean_criteria_ok : cox.

(** The invariant only looks at the fields an operation leaves alone or writes
    with a value of the right shape. *)
Ltac wf_fields :=
  match goal with
  | H : ticket_wf ?t |- ticket_wf _ =>
      destruct t; destruct H; constructor; cbn in *; unfold constant in *;
      try assumption; auto with cox
  end.

Lemma wf_new id ty title d p c ui t : Ticket_new id ty title d p c ui = Ok t -> ticket_wf t.
Proof.
  unfold Ticket_new. destruct (blank title) eqn:E; [done|]. intros [= <-].
  constructor; cbn; eauto with cox; try by (split; intros []).
  - by intros [].
  - lia.
  - apply NoDup_nil_2.
  - unfold MAX_WIP_CHECKPOINTS. lia.
  - by destruct ty.
Qed.

Lemma check_ready_designed t : check_ready t = Ok tt <-> designed (t_has_ui t) (t_design t).
Proof. apply check_ready_ok. Qed.

(** Entering a status with the claim dropped, and entering [InProgress]. *)
Lemma wf_clear_set s t :
  ticket_wf t -> status_legal (t_kind t) s = true ->
  (t_kind t <> Bug -> past_ready s = true -> designed (t_has_ui t) (t_design t)) ->
  ticket_wf (clear_claim (set_status s t)).
Proof. intros H Hs Hd. wf_fields; solve [by intros [] | by split; intros []]. Qed.

Lemma wf_set_in_progress t :
  ticket_wf t -> (t_kind t <> Bug -> designed (t_has_ui t) (t_design t)) ->
  ticket_wf (set_status InProgress t).
Proof. intros H Hd. wf_fields. by destruct t_kind. Qed.

Lemma wf_stamp w n t : ticket_wf t -> t_status t = InProgress -> ticket_wf (stamp_claim w n t).
Proof. intros H Hs. wf_fields; by split. Qed.

(** Every edge into a gated status either starts past the gate or runs it. *)
Lemma past_ready_edge k from to :
  k <> Bug -> transition_allowed k from to = true -> past_ready to = true ->
  past_ready from = true \/ to = Ready.
Proof. destruct k, from, to; cbn; auto. Qed.

Lemma wf_transition r to t t' : ticket_wf t -> transition_to r to t = Ok t' -> ticket_wf t'.
Proof.
  intros Hwf [He _ Hr _ ->]%transition_to_ok.
  assert (Hd : t_kind t <> Bug -> past_ready to = true -> designed (t_has_ui t) (t_design t)).
  { intros Hk Hp. destruct (past_ready_edge _ _ _ Hk He Hp) as [Hf| ->].
    - by eapply wf_design.
    - by apply check_ready_designed, Hr. }
  case_decide as Hto; [subst|].
  - apply wf_set_in_progress; auto.
  - apply wf_clear_set; [done| |done]. eapply transition_legal; [by apply wf_status|done].
Qed.

Lemma wf_with_case d f t :
  (forall c, history_bounded c -> history_bounded (f c)) ->
  ticket_wf t -> ticket_wf (with_case d f t).1.
Proof.
  intros Hf H. unfold with_case. destruct (find_case _ _); [|done].
  wf_fields. apply update_first_Forall; auto.
Qed.

#[export] Hint Resolve wf_transition wf_with_case : cox.

(** ** Preservation by every operation *)

Lemma wf_claim r w n t t' : ticket_wf t -> claim r w n t = Ok t' -> ticket_wf t'.
Proof.
  intros Hwf. unfold claim. destruct (t_claimed_by t); [done|].
  intros (t1 & H & [= <-])%result_bind_ok. apply wf_stamp; [by eapply wf_transition|].
  apply transition_to_ok in H as [_ _ _ _ ->]. by destruct t.
Qed.

Lemma wf_release r t t' : ticket_wf t -> release_claim r t = Ok t' -> ticket_wf t'.
Proof.
  intros Hwf. unfold release_claim. case_decide; [done|]. case_decide as Hs; [done|].
  intros [= <-]. apply wf_clear_set; [done|by destruct (t_kind t)|].
  intros Hk _. eapply wf_design; [done..|]. by rewrite Hs.
Qed.

Lemma wf_reclaim r t p : ticket_wf t -> reclaim_misfiled r t = Ok p -> ticket_wf p.1.
Proof.
  intros Hwf. unfold reclaim_misfiled. case_decide; [done|].
  destruct (misfiled t) eqn:Hm; intros [= <-]; cbn; [|done].
  apply andb_prop in Hm as [Hk%bool_decide_eq_true _].
  apply wf_clear_set; [done|by rewrite Hk|done].
Qed.

Lemma wf_take_over r w n t p : ticket_wf t -> take_over r w n t = Ok p -> ticket_wf p.1.
Proof.
  intros Hwf. unfold take_over. case_decide; [done|]. case_decide as Hs; [done|].
  intros [= <-]. apply wf_stamp; [done|done].
Qed.

Lemma wf_add_dependency r on t t' :
  ticket_wf t -> add_dependency r on t = Ok t' -> ticket_wf t'.
Proof.
  intros H (t1 & [-> _]%guard_field_ok & Ha)%result_bind_ok.
  unfold one_of in Ha. case_bool_decide as Hin; injection Ha as <-; [done|].
  wf_fields. apply NoDup_app. split_and!; [done| |apply NoDup_singleton].
  by intros x Hx ->%list_elem_of_singleton.
Qed.

Lemma wf_sync t : ticket_wf t -> ticket_wf (sync_test_cases_from_acceptance t).
Proof. intros H. wf_fields. by apply sync_cases_bounded. Qed.

(** The field-guarded writes, each of one field the invariant reads as it is. *)
Lemma wf_guarded r f g t t' :
  ticket_wf t -> (let? t := guard_field r f t in Ok (g t)) = Ok t' -> ticket_wf (g t) ->
  ticket_wf t'.
Proof. intros _ (t1 & [-> _]%guard_field_ok & [= <-])%result_bind_ok. done. Qed.

Lemma wf_edit r ti d t t' : ticket_wf t -> edit r ti d t = Ok t' -> ticket_wf t'.
Proof.
  intros H. unfold edit. destruct (negb _); [done|]. destruct (blank ti) eqn:E; [done|].
  intros [= <-]. wf_fields.
Qed.

Lemma wf_clarify r d t t' : ticket_wf t -> clarify r d t = Ok t' -> ticket_wf t'.
Proof.
  intros H. unfold clarify. destruct (negb _); [done|]. destruct (blank d); [done|].
  intros [= <-]. wf_fields.
Qed.

(** [apply_op] keeps the invariant, whatever the operation and the actor. *)
Lemma wf_apply_op op t t' : ticket_wf t -> apply_op op t = Ok t' -> ticket_wf t'.
Proof.
  intros H. destruct op; cbn [apply_op]; intros Ho;
    try (injection Ho as <-);
    try (eapply wf_guarded; [exact H|exact Ho|]).
  - wf_fields.
  - wf_fields.
  - unfold stamp_created_at. destruct (t_created_at t); [done|wf_fields].
  - wf_fields.
  - wf_fields.
  - by eapply wf_edit.
  - by eapply wf_clarify.
  - by eapply wf_claim.
  - wf_fields.
  - wf_fields. intros Hk Hp. split; [done|]. by apply wf_design0.
  - wf_fields. intros Hk Hp. split; [|done]. by apply wf_design0.
  - wf_fields.
  - wf_fields. rewrite NoDup_ListNoDup. by apply List.NoDup_filter, NoDup_ListNoDup.
  - by eapply wf_add_dependency.
  - by eapply wf_transition.
  - by eapply wf_release.
  - apply result_map_ok in Ho as (p & Hp & ->). by eapply wf_reclaim.
  - apply result_map_ok in Ho as (p & Hp & ->). by eapply wf_take_over.
  - by apply wf_sync.
  - unfold ensure_test_cases_from_acceptance. destruct (cases_in_sync _ _); [done|by apply wf_sync].
  - apply wf_with_case; auto with cox.
  - apply wf_with_case; auto with cox.
  - unfold set_test_case_repro. destruct (blank repro); [done|]. apply wf_with_case; auto with cox.
  - apply wf_with_case; auto with cox.
  - wf_fields. apply keep_last_le.
  - wf_fields. unfold MAX_WIP_CHECKPOINTS. lia.
Qed.

(** ** Reachable tickets *)

Lemma reachable_wf t : reachable t -> ticket_wf t.
Proof.
  induction 1 as [id ty title d p c ui t Hn|t op t' _ IH Hs].
  - by eapply wf_new.
  - inversion Hs; subst. by eapply wf_apply_op.
Qed.

Lemma reachable_try_op op t : reachable t -> reachable (try_op op t).
Proof.
  intros H. unfold try_op. destruct (apply_op op t) eqn:E; [|done].
  by eapply reach_step; [|constructor].
Qed.

Lemma reachable_run_ops ops t : reachable t -> reachable (run_ops ops t).
Proof. revert t. induction ops as [|op ops IH]; intros t H; [done|]. by apply IH, reachable_try_op. Qed.

(** ** Who may move a ticket where *)

(** The roles that may bring a ticket into a status it is not already in. *)
Definition entry_roles (s : Status) : list Role :=
  match s with
  | Ready => [Sa; Pd; User; System]
  | Rejected => [Po; User; System]
  | OnHold => [Po; Sm; User; System]
  | Pending => [Po; Sm; User; System]
  | Open => [Po; Sm; Test; User; System]
  | InProgress => [DevBug; DevFeature; System]
  | Done => [DevFeature; DevBug; System]
  | Fixed => [DevBug; System]
  | Verified => [Test; User; System]
  | Documented => [Docs; System]
  end.

(** An [entry_roles] row is exactly the union of the rows of the code's table. *)
Lemma entry_roles_exact r s :
  r ∈ entry_roles s <->
  exists k from, from <> s /\ transition_allowed k from s = true /\ can_transition r from s = true.
Proof.
  split.
  - intros H. assert (Hb : bool_decide (r ∈ entry_roles s) = true) by by apply bool_decide_eq_true.
    destruct s, r; try discriminate Hb; clear;
      solve [ by exists Feature, Pending | by exists Feature, OnHold | by exists Feature, Done
            | by exists Bug, Verified | by exists Bug, OnHold | by exists Bug, Fixed
            | by exists Feature, Ready | by exists Bug, Open | by exists Feature, InProgress
            | by exists Bug, InProgress ].
  - intros (k & from & Hn & He & Hr). apply (bool_decide_eq_true (r ∈ _)).
    destruct k, from, s; try discriminate He; try done; destruct r; try discriminate Hr; done.
Qed.

(** What an operation can do to the status. *)
Inductive status_move (t : Ticket) : TicketOp -> Status -> Prop :=
| move_stay op : status_move t op (t_status t)
| move_transition r to :
    transition_spec r to t (if decide (to = InProgress) then set_status to t
                            else clear_claim (set_status to t)) ->
    status_move t (OpTransition r to) to
| move_claim r w n :
    transition_spec r InProgress t (set_status InProgress t) -> t_claimed_by t = None ->
    status_move t (OpClaim r w n) InProgress
| move_release : t_status t = InProgress ->
    status_move t (OpRelease System) (match t_kind t with Bug => Open | _ => Ready end)
| move_reclaim : misfiled t = true -> status_move t (OpReclaim System) Open.

Lemma status_with_case d f t : t_status (with_case d f t).1 = t_status t.
Proof. unfold with_case. destruct (find_case _ _); [|done]. by destruct t. Qed.

Lemma guarded_status r f g t t' :
  (let? t := guard_field r f t in Ok (g t)) = Ok t' -> t_status (g t) = t_status t ->
  t_status t' = t_status t.
Proof. by intros (t1 & [-> _]%guard_field_ok & [= <-])%result_bind_ok. Qed.

Lemma stay t op s : s = t_status t -> status_move t op s.
Proof. intros ->. constructor. Qed.

Lemma transition_move r to t t' : transition_to r to t = Ok t' -> status_move t (OpTransition r to) (t_status t').
Proof.
  intros [He Hr H1 H2 ->]%transition_to_ok.
  assert (t_status (if decide (to = InProgress) then set_status to t
                    else clear_claim (set_status to t)) = to) as ->
    by (case_decide; by destruct t).
  by constructor.
Qed.

Lemma claim_move r w n t t' : claim r w n t = Ok t' -> status_move t (OpClaim r w n) (t_status t').
Proof.
  unfold claim. destruct (t_claimed_by t) eqn:Hc; [done|].
  intros (t1 & H & [= <-])%result_bind_ok. pose proof H as Hs.
  apply transition_to_ok in Hs as [_ _ _ _ ->]. rewrite decide_True by done.
  rewrite transition_to_ok, decide_True in H by done.
  replace (t_status _) with InProgress by by destruct t. by constructor.
Qed.

Lemma op_status_move op t t' : apply_op op t = Ok t' -> status_move t op (t_status t').
Proof.
  intros Ho. destruct op; cbn [apply_op] in Ho;
    try (apply stay; eapply guarded_status; [exact Ho|by destruct t]);
    try (injection Ho as <-; apply stay; try apply status_with_case; by destruct t);
    try (apply stay; unfold edit, clarify in Ho; case_matches; by destruct t).
  - unfold stamp_created_at in Ho. injection Ho as <-. apply stay. by destruct (t_created_at t), t.
  - by apply claim_move.
  - apply result_bind_ok in Ho as (t1 & [-> _]%guard_field_ok & Ho). apply stay.
    destruct (one_of _ _); injection Ho as <-; by destruct t.
  - by apply transition_move.
  - unfold release_claim in Ho. case_decide; [done|]. case_decide; [done|].
    injection Ho as <-. destruct t; cbn in *; subst. by apply move_release.
  - unfold reclaim_misfiled in Ho. case_decide; [done|].
    destruct (misfiled t) eqn:E; injection Ho as <-; [|by apply stay].
    destruct t; cbn in *; subst. by apply move_reclaim.
  - unfold take_over in Ho. case_decide; [done|]. case_decide; [done|].
    injection Ho as <-. apply stay. by destruct t.
  - injection Ho as <-. apply stay. unfold ensure_test_cases_from_acceptance.
    destruct (cases_in_sync _ _); by destruct t.
  - injection Ho as <-. apply stay. unfold set_test_case_repro. destruct (blank _); [done|].
    apply status_with_case.
Qed.

(** ** Claims across operations *)

(** Every operation but a transition and the three [System] repairs of a claim
    ([release_claim], [reclaim_misfiled], [take_over]) keeps a held claim; whoever
    runs it, [System] too. *)
Definition keeps_claim (op : TicketOp) : bool :=
  match op with
  | OpTransition _ _ | OpRelease System | OpReclaim System | OpTakeOver System _ _ => false
  | _ => true
  end.

Lemma claim_with_case d f t : t_claimed_by (with_case d f t).1 = t_claimed_by t.
Proof. unfold with_case. destruct (find_case _ _); [|done]. by destruct t. Qed.

Lemma guarded_claim r f g t t' :
  (let? t := guard_field r f t in Ok (g t)) = Ok t' -> t_claimed_by (g t) = t_claimed_by t ->
  t_claimed_by t' = t_claimed_by t.
Proof. by intros (t1 & [-> _]%guard_field_ok & [= <-])%result_bind_ok. Qed.

Lemma keeps_claim_ok op t t' :
  keeps_claim op = true -> t_claimed_by t <> None -> apply_op op t = Ok t' ->
  t_claimed_by t' = t_claimed_by t.
Proof.
  intros Hk Hn Ho. destruct op; cbn [apply_op] in Ho; cbn in Hk; try done;
    try (eapply guarded_claim; [exact Ho|by destruct t]);
    try (injection Ho as <-; try apply claim_with_case; by destruct t);
    try (unfold edit, clarify in Ho; case_matches; by destruct t).
  - unfold stamp_created_at in Ho. injection Ho as <-. by destruct (t_created_at t), t.
  - unfold claim in Ho. by destruct (t_claimed_by t).
  - apply result_bind_ok in Ho as (t1 & [-> _]%guard_field_ok & Ho).
    destruct (one_of _ _); injection Ho as <-; by destruct t.
  - injection Ho as <-. unfold ensure_test_cases_from_acceptance.
    destruct (cases_in_sync _ _); by destruct t.
  - injection Ho as <-. unfold set_test_case_repro. destruct (blank _); [done|].
    apply claim_with_case.
Qed.

Lemma keeps_claim_run ops t w :
  forallb keeps_claim ops = true -> t_claimed_by t = Some w -> t_claimed_by (run_ops ops t) = Some w.
Proof.
  revert t. induction ops as [|op ops IH]; intros t Hk Hw; [done|].
  cbn in Hk. apply andb_prop in Hk as [Hk Hks]. cbn. apply IH; [done|].
  unfold try_op. destruct (apply_op op t) as [t'|] eqn:E; [|done].
  rewrite <- Hw. eapply keeps_claim_ok; [done| |done]. by rewrite Hw.
Qed.

Lemma claim_takes r w n t t' : claim r w n t = Ok t' -> t_claimed_by t' = Some w.
Proof.
  unfold claim. destruct (t_claimed_by t); [done|].
  intros (t1 & _ & [= <-])%result_bind_ok. by destruct t1.
Qed.

(** ** Properties *)

(** C1: a ticket created by [Ticket::new] and then put through any sequence of
    mutator calls, by any actors, always satisfies the aggregate's invariant:
    non-blank title, a status of its own lifecycle, a claim only while
    [InProgress] and always holder and lease together, at most five trimmed
    non-empty criteria, no duplicate dependency, at most three WIP checkpoints,
    bounded verdict histories, and a complete design whenever a feature or chore
    is Ready or beyond. *)
Theorem ticket_invariant id ty title d p c ui t ops :
  Ticket_new id ty title d p c ui = Ok t -> ticket_wf (run_ops ops t).
Proof. intros H. apply reachable_wf, reachable_run_ops. by eapply reach_new. Qed.

(** C2: separation of duties. An operation that changes a ticket's status is one
    of three things. (1) A [transition_to], or a [claim] (which then enters
    [InProgress] from no holder), run by a role of the new status's row (Done only
    by developers, Documented only by docs, Verified only by test, Ready never by
    a developer; [System], and for the human gates [User], besides), along an edge
    of the kind's transition table - [System] included - and with the gates met:
    Ready only with the design its [has_ui] asks for, Verified only with every
    criterion covered. (2) [release_claim] run by [System], which takes an
    [InProgress] ticket back to Open (a bug) or Ready (a feature or chore) and is
    the one way into Ready without asking for the design again. (3)
    [reclaim_misfiled] run by [System], which takes a bug filed under a status of
    the feature lifecycle (Pending, Ready, Done, Documented) to Open. The last two
    are the only moves that do not ask the table. *)
Theorem separation_of_duties t op t' :
  ticket_step t op t' -> t_status t' <> t_status t ->
  (exists r, (op = OpTransition r (t_status t') \/
              (exists w n, op = OpClaim r w n) /\ t_status t' = InProgress /\
                           t_claimed_by t = None) /\
     r ∈ entry_roles (t_status t') /\
     transition_allowed (t_kind t) (t_status t) (t_status t') = true /\
     (t_status t' = Ready -> designed (t_has_ui t) (t_design t)) /\
     (t_status t' = Verified -> uncovered (t_acceptance_criteria t) (t_test_cases t) = [])) \/
  (op = OpRelease System /\ t_status t = InProgress /\
   t_status t' = match t_kind t with Bug => Open | Feature | Chore => Ready end) \/
  (op = OpReclaim System /\ t_kind t = Bug /\
   t_status t ∈ [Pending; Ready; Done; Documented] /\ t_status t' = Open).
Proof.
  intros Hs Hne. inversion Hs as [t0 op0 t0' Ho]; subst.
  apply op_status_move in Ho. remember (t_status t') as s eqn:Es. clear Es Hs t'.
  destruct Ho as [op|r to [He Hr H1 H2 _]|r w n [He Hr H1 H2 _] Hc|Hp|Hm]; [done|..].
  - left. exists r. split_and!; [by left| |done|intros ->|intros ->].
    + apply entry_roles_exact. exists (t_kind t), (t_status t). auto.
    + by apply check_ready_designed, H1.
    + by apply check_covered_ok, H2.
  - left. exists r. split_and!; try done; [by eauto 10|].
    apply entry_roles_exact. exists (t_kind t), (t_status t). auto.
  - right; left. by destruct (t_kind t).
  - right; right. apply andb_prop in Hm as [Hk%bool_decide_eq_true Ho].
    split_and!; try done. by apply (bool_decide_eq_true (t_status t ∈ _)).
Qed.

(** [Rejected] is final. No sequence of operations by any actors, [System]'s
    repairs included, brings a rejected ticket back, and it never holds a claim. *)
Theorem rejected_is_final t ops :
  reachable t -> t_status t = Rejected ->
  t_status (run_ops ops t) = Rejected /\ t_claimed_by (run_ops ops t) = None.
Proof.
  intros Hr Hs.
  assert (Hj : t_status (run_ops ops t) = Rejected).
  { clear Hr. revert t Hs. induction ops as [|op ops IH]; intros t Hs; [done|]. cbn.
    apply IH. unfold try_op. destruct (apply_op op t) as [t'|] eqn:E; [|done].
    apply op_status_move in E. revert E. generalize (t_status t'). intros s E.
    destruct E as [op|r to [He _ _ _ _]|r w n [He _ _ _ _] _|Hp|Hm]; [done|..].
    - rewrite Hs in He. by eapply transition_rejected_absorbing.
    - rewrite Hs in He. by destruct (t_kind t).
    - by rewrite Hs in Hp.
    - unfold misfiled in Hm. rewrite Hs in Hm. by rewrite andb_false_r in Hm. }
  split; [done|]. destruct (t_claimed_by _) eqn:Hc; [|done].
  apply (reachable_run_ops ops), reachable_wf in Hr.
  apply wf_holder in Hr; [|by rewrite Hc]. by rewrite Hj in Hr.
Qed.

(** C3: at most one worker wins a ticket. After a successful claim every later
    claim, by whatever role, is refused with the winner's name as long as the
    mutators run in between are not a [transition_to] nor one of the three repairs
    [release_claim], [reclaim_misfiled] and [take_over] run by [System]; every
    other mutator, run by any role and [System] included (a WIP checkpoint, a
    priority, an unlinked dependency), keeps the claim. *)
Theorem claim_exclusive r1 w1 n1 t t1 ops r2 w2 n2 :
  claim r1 w1 n1 t = Ok t1 -> forallb keeps_claim ops = true ->
  claim r2 w2 n2 (run_ops ops t1) = Err (AlreadyClaimed w1).
Proof.
  intros H%claim_takes Hk. unfold claim. by rewrite (keeps_claim_run ops t1 w1).
Qed.

(** The fields only some roles may write, and those roles. *)
Record field_ownership (op : TicketOp) (t t' : Ticket) : Prop := {
  own_priority : t_priority t' <> t_priority t -> exists r, op_actor op = Some r /\ r ∈ [Po; User; System];
  own_goal : t_goal_id t' <> t_goal_id t -> exists r, op_actor op = Some r /\ r ∈ [Po; User; System];
  own_title : t_title t' <> t_title t -> exists r, op_actor op = Some r /\ r ∈ [Po; User];
  own_description : t_description t' <> t_description t ->
                    exists r, op_actor op = Some r /\ r ∈ [Ba; Po; User];
  own_technical : d_technical (t_design t') <> d_technical (t_design t) ->
                  exists r, op_actor op = Some r /\ r ∈ [Sa; System];
  own_ux : d_ux (t_design t') <> d_ux (t_design t) ->
           exists r, op_actor op = Some r /\ r ∈ [Pd; Sa; System];
  own_deps : t_depends_on t' <> t_depends_on t -> exists r, op_actor op = Some r /\ r ∈ [Sa; System];
  own_parent : t_parent_id t' <> t_parent_id t -> exists r, op_actor op = Some r /\ r ∈ [Sa; System];
  own_tag : t_service_tag t' <> t_service_tag t ->
            exists r, op_actor op = Some r /\ r ∈ [Ba; Po; User; Sa; System];
  own_wip : t_wip_checkpoints t' <> t_wip_checkpoints t ->
            exists r, op_actor op = Some r /\ r = System;
  own_identity : t_id t' = t_id t /\ t_kind t' = t_kind t /\ t_complexity t' = t_complexity t /\
                 t_has_ui t' = t_has_ui t;
}.

Lemma ownership_refl op t : field_ownership op t t.
Proof. by constructor. Qed.

(** An operation that writes no owned field. *)
Definition same_owned (t t' : Ticket) : Prop :=
  t' <| t_status := t_status t |> <| t_claimed_by := t_claimed_by t |>
     <| t_claimed_at := t_claimed_at t |> <| t_acceptance_criteria := t_acceptance_criteria t |>
     <| t_test_cases := t_test_cases t |> <| t_assignee := t_assignee t |>
     <| t_created_at := t_created_at t |> = t.

Lemma ownership_same op t t' : same_owned t t' -> field_ownership op t t'.
Proof.
  destruct t, t'. unfold same_owned. cbn. unfold constant. intros [=]; subst. by constructor.
Qed.

Ltac same_owned_step :=
  apply ownership_same; unfold same_owned, clear_claim, set_status, stamp_claim;
  match goal with t : Ticket |- _ => by destruct t end.

(** A guarded write of one owned field: the other fields are untouched, and the
    guard says who the actor is. *)
Ltac owned_write Hp :=
  match goal with t : Ticket |- _ => destruct t end;
  constructor; cbn; try done; intros _;
  match goal with r : Role |- _ =>
    exists r; split; [done|]; first [apply (bool_decide_eq_true (_ ∈ _)) | idtac];
    destruct r; solve [done | discriminate Hp]
  end.

Lemma same_owned_with_case d f t : same_owned t (with_case d f t).1.
Proof. unfold with_case, same_owned. destruct (find_case _ _); by destruct t. Qed.

Lemma op_ownership op t t' : apply_op op t = Ok t' -> field_ownership op t t'.
Proof.
  intros Ho. destruct op; cbn [apply_op] in Ho;
    try (apply result_bind_ok in Ho as (t1 & [-> Hp]%guard_field_ok & Ho));
    try (injection Ho as <-); try solve [same_owned_step]; try solve [owned_write Hp];
    try solve [apply ownership_same, same_owned_with_case].
  - unfold stamp_created_at. destruct (t_created_at t); [apply ownership_refl|same_owned_step].
  - unfold edit in Ho. destruct (one_of _ _) eqn:Hp; [|done]. destruct (blank _); [done|].
    injection Ho as <-. owned_write Hp.
  - unfold clarify in Ho. destruct (one_of _ _) eqn:Hp; [|done]. destruct (blank _); [done|].
    injection Ho as <-. owned_write Hp.
  - unfold claim in Ho. destruct (t_claimed_by t); [done|].
    apply result_bind_ok in Ho as (t1 & [_ _ _ _ ->]%transition_to_ok & [= <-]).
    same_owned_step.
  - destruct (one_of _ _); injection Ho as <-; [apply ownership_refl|owned_write Hp].
  - apply transition_to_ok in Ho as [_ _ _ _ ->]. case_decide; same_owned_step.
  - unfold release_claim in Ho. case_decide; [done|]. case_decide; [done|].
    injection Ho as <-. same_owned_step.
  - unfold reclaim_misfiled in Ho. case_decide; [done|].
    destruct (misfiled t); injection Ho as <-; [same_owned_step|apply ownership_refl].
  - unfold take_over in Ho. case_decide; [done|]. case_decide; [done|].
    injection Ho as <-. same_owned_step.
  - unfold ensure_test_cases_from_acceptance.
    destruct (cases_in_sync _ _); [apply ownership_refl|same_owned_step].
  - unfold set_test_case_repro. destruct (blank _); [apply ownership_refl|].
    apply ownership_same, same_owned_with_case.
Qed.

(** field ownership. An operation that succeeds and changes the priority or
    goal ran as the product owner or the user; the title, as those; the
    description, as those or the analyst; the technical design, the dependencies
    or the parent, as the architect; the UX design, as the product designer or
    the architect; the WIP checkpoints, as [System]. Nothing changes the id, the
    type, the complexity or the UI flag. *)
Theorem field_authority t op t' : ticket_step t op t' -> field_ownership op t t'.
Proof. intros H. inversion H; subst. by apply op_ownership. Qed.

(** the Verified gate is the coverage matrix. A fixed bug is verified by a
    role with the authority exactly when every row of its matrix is Covered;
    otherwise it is refused with the number of rows that are not and the first
    of their criteria. *)
Theorem verified_gate r t :
  t_kind t = Bug -> t_status t = Fixed -> r ∈ [Test; User; System] ->
  let missing := List.filter (fun e => negb (bool_decide (ce_status e = Covered))) (coverage_matrix t) in
  match transition_to r Verified t with
  | Ok t' => Forall (fun e => ce_status e = Covered) (coverage_matrix t) /\
             t' = clear_claim (set_status Verified t)
  | Err e => exists row rest, missing = row :: rest /\
             e = CoverageIncomplete (length missing) (ce_criterion row)
  end.
Proof.
  intros Hk Hs Hr missing. unfold transition_to. rewrite Hk, Hs.
  assert (can_transition r Fixed Verified = true) as ->
    by (apply (bool_decide_eq_true (_ ∈ _)) in Hr; by destruct r).
  cbn -[check_covered missing decide clear_claim set_status].
  rewrite decide_False, decide_True, decide_False by done. cbn [result_bind].
  unfold check_covered.
  assert (Hm : ce_criterion <$> missing = uncovered (t_acceptance_criteria t) (t_test_cases t))
    by apply coverage_missing.
  rewrite <- Hm. destruct missing as [|row rest] eqn:Em; cbn.
  - split; [|done]. apply Forall_forall. intros e He.
    destruct (decide (ce_status e = Covered)); [done|exfalso].
    assert (e ∈ missing) as Hin.
    { apply list_elem_of_In, List.filter_In.
      split; [by apply list_elem_of_In|by rewrite bool_decide_false]. }
    rewrite Em in Hin. by apply elem_of_nil in Hin.
  - exists row, rest. split; [done|]. do 3 f_equal. apply length_fmap.
Qed.

(** [ensure_test_cases_from_acceptance] skips the rebuild only when it would
    change nothing: with distinct criteria it equals the unconditional sync, it
    is idempotent, and neither changes any row of the coverage matrix. *)
Theorem ensure_is_sync t :
  (NoDup (t_acceptance_criteria t) ->
     ensure_test_cases_from_acceptance t = sync_test_cases_from_acceptance t) /\
  ensure_test_cases_from_acceptance (ensure_test_cases_from_acceptance t)
    = ensure_test_cases_from_acceptance t /\
  coverage_matrix (ensure_test_cases_from_acceptance t) = coverage_matrix t /\
  coverage_matrix (sync_test_cases_from_acceptance t) = coverage_matrix t.
Proof.
  assert (Hm : coverage_matrix (sync_test_cases_from_acceptance t) = coverage_matrix t)
    by (destruct t; apply coverage_rows_sync).
  assert (He : forall u, ensure_test_cases_from_acceptance u =
            if cases_in_sync (t_acceptance_criteria u) (t_test_cases u) then u
            else sync_test_cases_from_acceptance u) by done.
  rewrite (He t). destruct (cases_in_sync _ _) eqn:E; (split_and!; [| |done..]).
  - pose proof E as Hd%cases_in_sync_true. intros Hn.
    unfold sync_test_cases_from_acceptance. destruct t; cbn in *. unfold constant.
    subst. f_equal. symmetry. by apply sync_cases_id.
  - by rewrite He, E.
  - done.
  - rewrite He, (proj2 (cases_in_sync_true _ _)); [done|].
    destruct t. apply sync_cases_descriptions.
Qed.

(** recovery of a stale claim never strands a ticket. Releasing the claim of
    an in-progress ticket always succeeds for [System], and either developer role
    can claim the released ticket at once. *)
Theorem release_reclaimable t dev w n :
  t_status t = InProgress -> dev ∈ [DevBug; DevFeature] ->
  exists t1, release_claim System t = Ok t1 /\ t_claimed_by t1 = None /\
    exists t2, claim dev w n t1 = Ok t2 /\ t_claimed_by t2 = Some w /\ t_status t2 = InProgress.
Proof.
  intros Hs Hd. apply (bool_decide_eq_true (_ ∈ _)) in Hd. unfold release_claim.
  rewrite decide_False by auto. rewrite decide_False by auto.
  eexists. split; [done|]. destruct t as [? k]. cbn in *. subst.
  split; [done|]. destruct k, dev; try discriminate Hd; eexists; (split; [reflexivity|done]).
Qed.

(** the misfiled-bug repair is [System]'s alone, leaves every ticket the
    other operations can produce untouched, and brings a bug loaded from a store
    with a feature status back into the bug lifecycle, unclaimed. *)
Theorem reclaim_repairs t :
  (forall r, r <> System -> reclaim_misfiled r t = Err (FieldNotPermitted r "status")) /\
  (reachable t -> reclaim_misfiled System t = Ok (t, false)) /\
  (t_kind t = Bug -> exists t' b, reclaim_misfiled System t = Ok (t', b) /\
     status_legal Bug (t_status t') = true /\ (b = true <-> t_status t <> t_status t')).
Proof.
  assert (Hm : t_kind t = Bug -> misfiled t = negb (status_legal Bug (t_status t))).
  { intros Hk. unfold misfiled. rewrite Hk. by destruct (t_status t). }
  unfold reclaim_misfiled. split_and!.
  - intros r Hr. by rewrite decide_True.
  - intros Hr%reachable_wf%wf_status. rewrite decide_False by auto.
    assert (misfiled t = false) as ->; [|done].
    destruct (decide (t_kind t = Bug)) as [Hk|Hk].
    + rewrite Hm by done. rewrite Hk in Hr. by rewrite Hr.
    + unfold misfiled. by rewrite bool_decide_false.
  - intros Hk. rewrite decide_False by auto. rewrite Hm by done.
    destruct (status_legal Bug (t_status t)) eqn:E; cbn; eexists _, _; (split; [done|]).
    + by split.
    + destruct t; cbn in *. split; [done|]. split; [|done]. intros _ Heq. by rewrite Heq in E.
Qed.

(** ** Witnesses *)

Definition sample_design : TechnicalDesign :=
  mkTechnicalDesign "two layers" ["a.rs"] "" "" "unit" "".
Definition sample_feature : result DomainError Ticket :=
  Ticket_new "SAF-F001" Feature "Login" "" High CMedium false.
Definition sample_ops : list TicketOp :=
  [OpSetTechnical Sa sample_design; OpTransition Sa Ready; OpClaim DevFeature "alice@host" "t0"].
Definition sample_bug : result DomainError Ticket :=
  Ticket_new "SAF-B001" Bug "Crash" "" High CSmall false.

Definition unwrap_ticket (r : result DomainError Ticket) : Ticket :=
  match r with
  | Ok t => t
  | Err _ => mkTicket "" Bug "" "" Low CSmall Rejected false (mkDesign None None) None [] [] []
               None None None None None [] None
  end.

Definition claimed_feature : Ticket := run_ops sample_ops (unwrap_ticket sample_feature).
Definition ready_feature : Ticket := run_ops (take 2 sample_ops) (unwrap_ticket sample_feature).
Definition rejected_bug : Ticket := run_ops [OpTransition Po Rejected] (unwrap_ticket sample_bug).
Definition fixed_bug : Ticket :=
  run_ops [OpSetCriteria ["c"; " d "]; OpClaim DevBug "bob@host" "t0"; OpTransition DevBug Fixed]
    (unwrap_ticket sample_bug).

Lemma ticket_invariant_witness :
  t_status claimed_feature = InProgress /\ ticket_wf claimed_feature.
Proof. split; [reflexivity|]. apply (ticket_invariant "SAF-F001" Feature "Login" "" High CMedium false). reflexivity. Defined.

Lemma separation_of_duties_witness :
  transition_allowed Bug InProgress Fixed = true /\ DevBug ∈ entry_roles Fixed.
Proof.
  destruct (separation_of_duties
              (run_ops [OpClaim DevBug "bob@host" "t0"] (unwrap_ticket sample_bug))
              (OpTransition DevBug Fixed)
              (run_ops [OpClaim DevBug "bob@host" "t0"; OpTransition DevBug Fixed]
                 (unwrap_ticket sample_bug)))
    as [(r & Hop & Hin & He & _)|[(Hop & _)|(Hop & _)]]; try discriminate Hop.
  - constructor. reflexivity.
  - discriminate.
  - split; [exact He|]. destruct Hop as [Hop|((w & n & Hop) & _)]; [|discriminate Hop].
    injection Hop as <-. exact Hin.
Defined.

Lemma rejected_is_final_witness :
  t_status (run_ops [OpTransition System Open; OpReclaim System] rejected_bug) = Rejected.
Proof.
  apply (rejected_is_final rejected_bug [OpTransition System Open; OpReclaim System]).
  - apply reachable_run_ops. apply (reach_new "SAF-B001" Bug "Crash" "" High CSmall false). reflexivity.
  - reflexivity.
Defined.

Lemma claim_exclusive_witness :
  claim DevFeature "carol@host" "t9"
    (run_ops [OpAssign "dave"; OpSetPriority System High; OpClearWip System] claimed_feature)
  = Err (AlreadyClaimed "alice@host").
Proof.
  apply (claim_exclusive DevFeature "alice@host" "t0" ready_feature claimed_feature
           [OpAssign "dave"; OpSetPriority System High; OpClearWip System] DevFeature "carol@host" "t9").
  - vm_compute. reflexivity.
  - reflexivity.
Defined.

Lemma field_authority_witness :
  exists r, op_actor (OpSetPriority Po Low) = Some r /\ r ∈ [Po; User; System].
Proof.
  apply (own_priority _ _ _ (field_authority (unwrap_ticket sample_bug) (OpSetPriority Po Low)
    (run_ops [OpSetPriority Po Low] (unwrap_ticket sample_bug)) ltac:(constructor; reflexivity))).
  discriminate.
Defined.

Lemma verified_gate_witness :
  transition_to Test Verified fixed_bug = Err (CoverageIncomplete 2 "c").
Proof.
  pose proof (verified_gate Test fixed_bug eq_refl eq_refl
    ltac:(apply (proj1 (bool_decide_eq_true _)); reflexivity)) as H.
  vm_compute in H |- *. destruct H as (row & rest & E & ->). injection E as <- <-. reflexivity.
Defined.

Lemma release_reclaimable_witness :
  exists t1, release_claim System claimed_feature = Ok t1 /\ t_claimed_by t1 = None.
Proof.
  destruct (release_reclaimable claimed_feature DevBug "bob@host" "t5" eq_refl
    ltac:(apply (proj1 (bool_decide_eq_true _)); reflexivity)) as (t1 & H1 & H2 & _).
  exists t1. split; assumption.
Defined.

(** A bug loaded from a store with a feature's status. *)
Definition misfiled_bug : Ticket := (unwrap_ticket sample_bug) <| t_status := Ready |>.

Lemma reclaim_repairs_witness :
  reclaim_misfiled System misfiled_bug = Ok (unwrap_ticket sample_bug, true) /\
  exists t' b, reclaim_misfiled System misfiled_bug = Ok (t', b) /\ status_legal Bug (t_status t') = true.
Proof.
  split; [reflexivity|].
  destruct (reclaim_repairs misfiled_bug) as (_ & _ & H).
  destruct (H eq_refl) as (t' & b & E & Hl & _). exists t', b. split; assumption.
Defined.

Lemma ensure_is_sync_witness :
  ensure_test_cases_from_acceptance fixed_bug = sync_test_cases_from_acceptance fixed_bug.
Proof.
  apply (proj1 (ensure_is_sync fixed_bug)).
  vm_compute. repeat constructor; rewrite ?list_elem_of_In; cbn; intuition discriminate.
Defined.
