(* ===== verification/State.v ===== *)
(** * The project state: the data of [state/mod.rs] and its sub-modules

    [ProjectState] is the one aggregate every use case reads and rewrites. The
    record has every field of the source, each with its source type: a
    [BTreeMap] is a [gmap], a [BTreeSet] a [gset], an unsigned integer an [N]
    and [f64] the binary floating-point numbers of [SpecFloat]. Clocks and
    minted ids are arguments of the operations. *)
From Stdlib Require Import SpecFloat.
From S2P Require Import Prelude RustStr Kinds TestCase Ticket.

(** IEEE binary64. *)
Abbreviation f64 := spec_float (only parsing).
Definition f64_zero : f64 := S754_zero false.
Definition f64_add : f64 -> f64 -> f64 := SFadd 53 1024.
Definition f64_ltb : f64 -> f64 -> bool := SFltb.

(** [n as f64] *)
Definition f64_of_N (n : N) : f64 := binary_normalize 53 1024 (Z.of_N n) 0 false.

#[export] Instance f64_eq_dec : EqDecision spec_float.
Proof. solve_decision. Defined.

(** ** Logs, runs and deploys ([state/mod.rs], [state/ops.rs]) *)

Record ActivityEntry := mkActivityEntry {
  act_at : string;
  act_agent : string;
  act_action : string;
  act_ticket : option string;
}.

Record WorkspaceRun := mkWorkspaceRun {
  wr_running : bool;
  wr_by : string;
  wr_at : string;
  wr_reason : string;
}.

Definition WorkspaceRun_default : WorkspaceRun := mkWorkspaceRun true "" "" "".

Record SpendDay := mkSpendDay { sd_day : string; sd_usd : f64 }.

Record OperatorSpend := mkOperatorSpend {
  os_cost_usd : f64;
  os_input_tokens : N;
  os_output_tokens : N;
  os_runs : N;
}.

(** *** Step provenance ([state/provenance.rs]) *)

Record EngineAttempt := mkEngineAttempt { ea_engine : string; ea_model : option string }.

Record StepProvenance := mkStepProvenance {
  st_at : string;
  st_role : string;
  st_action : string;
  st_attempts : list EngineAttempt;
}.

Record MeteredStep := mkMeteredStep { mt_ticket : option string; mt_step : StepProvenance }.

Record Spend := mkSpend {
  sp_total_cost_usd : f64;
  sp_input_tokens : N;
  sp_output_tokens : N;
  sp_runs : N;
  sp_by_role : gmap string f64;
  sp_runs_by_role : gmap string N;
  sp_metered_cost_by_role : gmap string f64;
  sp_by_operator : gmap string OperatorSpend;
  sp_engine_by_role : gmap string string;
  sp_operator_by_role : gmap string string;
  sp_prompt_chars_by_role : gmap string N;
  sp_confined_runs : N;
  sp_unconfined_requested_runs : N;
  sp_sandbox_denied_runs : N;
  sp_last_sandbox_status : string;
  sp_step_provenance : list MeteredStep;
}.

Definition Spend_default : Spend := mkSpend f64_zero 0 0 0 ∅ ∅ ∅ ∅ ∅ ∅ ∅ 0 0 0 "" [].

Inductive RevertDecision := RevPending | RevApproved | RevDismissed.

#[export] Instance RevertDecision_eq_dec : EqDecision RevertDecision.
Proof. solve_decision. Defined.

Record RevertEvent := mkRevertEvent {
  rev_sha : string;
  rev_subject : string;
  rev_ticket : string;
  rev_role : string;
  rev_reverted_at : string;
  rev_detected_at : string;
  rev_decision : RevertDecision;
  rev_decided_at : option string;
  rev_decided_by : option string;
}.

Record EngineIncident := mkEngineIncident {
  ei_engine : string;
  ei_reason : string;
  ei_role : string;
  ei_since : string;
  ei_hits : N;
}.

Record KnownGoodDeploy := mkKnownGoodDeploy {
  kg_sha : string;
  kg_at : string;
  kg_deploy_index : N;
  kg_summary : string;
}.

(** [SemVer] is a newtype over [semver::Version]: its five public fields. *)
Record SemVer := mkSemVer {
  sv_major : N;
  sv_minor : N;
  sv_patch : N;
  sv_pre : string;
  sv_build : string;
}.

Definition SemVer_new (major minor patch : N) : SemVer := mkSemVer major minor patch "" "".
Definition SemVer_default : SemVer := SemVer_new 0 0 0.

Record DeployRecord := mkDeployRecord {
  dep_version : SemVer;
  dep_ticket : TicketId;
  dep_title : string;
  dep_at : string;
}.

Record HealthCheckResult := mkHealthCheckResult {
  hc_passed : bool;
  hc_http_status : option N;
  hc_response_time_ms : option N;
}.

Record ContainerLogTail := mkContainerLogTail { cl_service : string; cl_tail : string }.

Record DeployFailureBundle := mkDeployFailureBundle {
  fb_stderr_tail : string;
  fb_container_logs : list ContainerLogTail;
  fb_no_container_logs : bool;
}.

Record DeployStatus := mkDeployStatus {
  ds_at : string;
  ds_ok : bool;
  ds_summary : string;
  ds_commit_sha : option string;
  ds_health_check : option HealthCheckResult;
  ds_failure_bundle : option DeployFailureBundle;
}.

Record RollbackStatus := mkRollbackStatus {
  rb_at : string;
  rb_reason : string;
  rb_to_sha : string;
  rb_ok : bool;
  rb_summary : string;
  rb_stale : bool;
  rb_migration_blocked : bool;
  rb_failure_bundle : option DeployFailureBundle;
}.

Record IncidentRecord := mkIncidentRecord {
  in_at : string;
  in_reason : string;
  in_failed_sha : string;
  in_to_sha : string;
  in_ok : bool;
  in_summary : string;
  in_root_cause_ticket : option string;
  in_lesson : option string;
}.

(** [serde_json::Value], a document's free-form argument. *)
Inductive Json :=
| JNull
| JBool (b : bool)
| JUnsigned (n : N)
| JSigned (z : Z)
| JFloat (f : f64)
| JString (s : string)
| JArray (l : list Json)
| JObject (fields : list (string * Json)).

Record PendingJob := mkPendingJob {
  pj_id : string;
  pj_kind : string;
  pj_args : Json;
  pj_queued_at : string;
  pj_queued_by : string;
}.

Record StallEpisode := mkStallEpisode {
  se_since : string;
  se_worker : string;
  se_last_activity_at : string;
  se_last_alert_at : string;
  se_escalations : N;
}.

(** ** Work and sprints ([state/work.rs]) *)

Record Sprint := mkSprint {
  sp_number : N;
  sp_goal : string;
  sp_started_cycle : N;
  sp_length_cycles : N;
  sp_committed : list TicketId;
  sp_started_at : string;
  sp_bug_burn_floor : option Priority;
}.

Record PlannedSprint := mkPlannedSprint {
  pl_id : N;
  pl_goal : string;
  pl_tickets : list TicketId;
  pl_created_at : string;
  pl_by : string;
}.

Record SprintRecord := mkSprintRecord {
  sr_number : N;
  sr_goal : string;
  sr_committed : nat;
  sr_done : nat;
  sr_at : string;
}.

Record RoleHealth := mkRoleHealth {
  rh_errors : N;
  rh_timeouts : N;
  rh_last_error : string;
  rh_last_error_at : string;
}.

Record CycleScore := mkCycleScore {
  cs_cycle : N;
  cs_at : string;
  cs_runs : N;
  cs_useful : N;
  cs_cost_usd : f64;
  cs_shipped : N;
  cs_incidents : N;
  cs_errors : N;
  cs_grade : string;
  cs_phase_secs : gmap string N;
  cs_phase_cost : gmap string f64;
  cs_attention_by_area : gmap string N;
  cs_attention_by_kind : gmap string N;
}.

Inductive DebtSignalKind := LintRegression | DeadCodeSuspects | MissingModuleDocs.

Record DebtSignal := mkDebtSignal { dg_kind : DebtSignalKind; dg_count : N }.

Record BugSnapshot := mkBugSnapshot { bs_open : N; bs_fixed : N; bs_verified : N }.

Record BrakeHold := mkBrakeHold {
  bh_pinned_value : option bool;
  bh_reason : string;
  bh_actor : string;
  bh_at : string;
  bh_expires_at : string;
}.

(** [use_cases/approval_memory.rs] *)
Record ApprovalSample := mkApprovalSample {
  as_shape : string;
  as_decision : string;
  as_by : string;
  as_reason : string;
  as_at : string;
}.

(** [state/lessons.rs] *)
Record LessonRecurrence := mkLessonRecurrence {
  lr_at : string;
  lr_incident_at : string;
  lr_incident_reason : string;
}.

Record LessonEscalation := mkLessonEscalation {
  le_ticket : string;
  le_at : string;
  le_stage : string;
}.

Record LessonRecord := mkLessonRecord {
  ls_text : string;
  ls_at : string;
  ls_cycle : N;
  ls_re_recordings : N;
  ls_recurrences : list LessonRecurrence;
  ls_escalated : option LessonEscalation;
  ls_id : option string;
  ls_source : option string;
}.

Record DismissedMatch := mkDismissedMatch {
  dm_lesson : string;
  dm_incident_at : string;
  dm_incident_reason : string;
  dm_dismissed_at : string;
  dm_dismissed_by : string;
}.

Record PrReview := mkPrReview {
  rv_number : N;
  rv_decision : string;
  rv_summary : string;
  rv_at : string;
  rv_head_sha : string;
  rv_latency_secs : option N;
}.

Record PrOpen := mkPrOpen {
  po_number : N;
  po_title : string;
  po_head : string;
  po_base : string;
  po_url : string;
  po_author : string;
  po_ci : string;
  po_mergeable : bool;
  po_created : string;
}.

Record PrOpenHold := mkPrOpenHold {
  ph_reason : string;
  ph_rounds : N;
  ph_head_sha : string;
  ph_first_at : string;
  ph_last_at : string;
}.

Record TicketAttachment := mkTicketAttachment {
  ta_name : string;
  ta_key : string;
  ta_content_type : string;
  ta_by : string;
  ta_at : string;
}.

Record Milestone := mkMilestone {
  ms_name : string;
  ms_goal : string;
  ms_target_version : string;
  ms_goal_complete : bool;
  ms_fulfilled : bool;
}.

Inductive FailureLayer := LSpec | LGate | LDesign | LInfra.
#[export] Instance FailureLayer_eq_dec : EqDecision FailureLayer.
Proof. solve_decision. Defined.

Record AttemptFailure := mkAttemptFailure {
  af_attempt : N;
  af_layer : FailureLayer;
  af_gate : string;
  af_detail : string;
  af_files : list string;
}.

Record Evidence := mkEvidence {
  evd_kind : string;
  evd_label : string;
  evd_detail : string;
  evd_at : string;
  evd_source_gates : list string;
  evd_actor : string;
}.

Record Tuning := mkTuning {
  tn_bugs_first : bool;
  tn_skip_ba : bool;
  tn_burn_mode : bool;
  tn_burn_until_bugs_le : option N;
  tn_last_eval_day : string;
}.

Definition Tuning_default : Tuning := mkTuning false false false None "".

Record TuningAuditEntry := mkTuningAuditEntry {
  tu_at : string;
  tu_actor : string;
  tu_source : string;
  tu_brake : string;
  tu_from : bool;
  tu_to : bool;
  tu_reason : string;
  tu_until : option string;
}.

(** ** Conversations ([state/chat.rs]) and documents ([state/docs.rs]) *)

Record Attachment := mkAttachment {
  at_name : string;
  at_url : string;
  at_mime : string;
  at_size : N;
}.

Record Reaction := mkReaction { rx_emoji : string; rx_users : list string }.

Record Comment := mkComment {
  cm_id : string;
  cm_at : string;
  cm_author : string;
  cm_by : string;
  cm_body : string;
  cm_ticket : option string;
  cm_attachments : list Attachment;
  cm_reactions : list Reaction;
}.

Record ChatMsg := mkChatMsg {
  ch_id : string;
  ch_at : string;
  ch_user : string;
  ch_body : string;
  ch_edited : option string;
  ch_channel : string;
  ch_attachments : list Attachment;
  ch_reactions : list Reaction;
  ch_thread_id : option string;
  ch_reply_count : N;
  ch_deleted : bool;
}.

Record Channel := mkChannel {
  cn_id : string;
  cn_name : string;
  cn_owner : string;
  cn_members : list string;
  cn_inviters : list string;
  cn_created_at : string;
  cn_kind : string;
  cn_project : string;
  cn_topic : string;
  cn_parent : string;
  cn_open_invite : bool;
}.

Record AgentQuestion := mkAgentQuestion {
  q_id : string;
  q_ticket : string;
  q_from : string;
  q_to : string;
  q_body : string;
  q_answer : string;
  q_asked_at : string;
  q_answered_at : string;
  q_forwarded : bool;
  q_escalated : bool;
  q_deferred : bool;
}.

Record DesignSystem := mkDesignSystem {
  dsn_principles : string;
  dsn_palette : list string;
  dsn_typography : string;
  dsn_components : list string;
}.

Record DocRefreshMark := mkDocRefreshMark { dr_at : string; dr_fails : N }.

Record DocPage := mkDocPage {
  dp_id : string;
  dp_folder : string;
  dp_category : string;
  dp_title : string;
  dp_body : string;
  dp_updated_at : string;
  dp_updated_by : string;
}.

(** ** Goals ([goal.rs], [state/goals.rs]), governance and drift *)

Inductive GoalStatus := GActive | GRetired.

#[export] Instance GoalStatus_eq_dec : EqDecision GoalStatus.
Proof. solve_decision. Defined.

Record Goal := mkGoal {
  g_id : GoalId;
  g_title : string;
  g_status : GoalStatus;
}.

Record OutcomeLedgerEntry := mkOutcomeLedgerEntry {
  ol_ticket : TicketId;
  ol_goal : option GoalId;
  ol_capture_commit : option string;
  ol_verified_at : string;
}.

Record InterventionRecord := mkInterventionRecord {
  iv_kind : InterventionKind;
  iv_ticket : string;
  iv_area : option TicketType;
  iv_by : string;
  iv_at : string;
}.

Record DriftAlert := mkDriftAlert {
  da_area : string;
  da_message : string;
  da_ticket : string;
  da_at : string;
}.

#[export] Instance DriftAlert_eq_dec : EqDecision DriftAlert.
Proof. solve_decision. Defined.

(** ** The aggregate *)

#[projections(primitive)]
Record ProjectState := mkProjectState {
  schema_version : N;
  alias : string;
  display_name : option string;
  current_version : SemVer;
  tickets : list Ticket;
  history : list DeployRecord;
  reverted_work : list RevertEvent;
  activity : list ActivityEntry;
  spend : Spend;
  sprint : option Sprint;
  sprints : list SprintRecord;
  sprint_queue : list PlannedSprint;
  hold_reasons : gmap string string;
  role_health : gmap string RoleHealth;
  deploy : option DeployStatus;
  comments : list Comment;
  reviews : list PrReview;
  open_prs : list PrOpen;
  human_holds : gmap N string;
  ticket_attachments : gmap string (list TicketAttachment);
  chat : list ChatMsg;
  channels : list Channel;
  design_system : option DesignSystem;
  milestones : list Milestone;
  goals : list Goal;
  outcome_ledger : list OutcomeLedgerEntry;
  docs : list DocPage;
  doc_folders : list string;
  doc_refresh : gmap string DocRefreshMark;
  cycle_scores : list CycleScore;
  lessons : list string;
  lesson_records : list LessonRecord;
  dismissed_matches : list DismissedMatch;
  lesson_sweep_day : string;
  decisions : list string;
  refactor_mode : bool;
  sprint_cycle : N;
  cycle : N;
  sprint_goal : string;
  last_digest_day : string;
  pr_fix_attempts : gmap N N;
  pr_review_skips : gmap N N;
  pr_open_holds : gmap N PrOpenHold;
  pr_sessions : gmap N string;
  ticket_sessions : gmap string string;
  cost_holds : gmap string f64;
  clippy_baseline : option N;
  debt_signals : list DebtSignal;
  sweeps_done : list N;
  seen_merged_prs : gset N;
  ticket_last_merge : gmap string string;
  seen_closed_prs : gset N;
  swept_tickets : gset string;
  cost_approved : gset string;
  tuning : Tuning;
  tuning_overrides : gmap string BrakeHold;
  tuning_history : list TuningAuditEntry;
  ticket_evidence : gmap string (list Evidence);
  ticket_step_provenance : gmap string (list StepProvenance);
  repro_urls : gmap string string;
  queue_recovery : bool;
  last_memory_hygiene_day : string;
  jobs : list PendingJob;
  last_impediment_day : string;
  pr_rescues : gmap N N;
  ticket_redesigns : gmap string N;
  drain_notice_sprint : N;
  ticket_fail_attempts : gmap string N;
  pr_rescue_attempts : gmap string N;
  approval_samples : list ApprovalSample;
  auto_approved_at : gmap string string;
  ask_again_shapes : list string;
  ticket_journal : gmap string (list string);
  ticket_failures : gmap string (list AttemptFailure);
  questions : list AgentQuestion;
  engine_incidents : list EngineIncident;
  daily_jobs : gmap string string;
  member_services : gmap string (list string);
  ops_down : bool;
  workspace_run : WorkspaceRun;
  ops_down_streak : N;
  spend_today_usd : f64;
  spend_day : string;
  spend_history : list SpendDay;
  budget_warned_lifetime : bool;
  budget_warned_daily : bool;
  deploy_index : N;
  in_rollback : bool;
  last_good_deploy : option KnownGoodDeploy;
  last_rollback : option RollbackStatus;
  incidents : list IncidentRecord;
  rolled_back_commits : gset string;
  bug_snapshots : gmap string BugSnapshot;
  governance_interventions : list InterventionRecord;
  drift_alerts : list DriftAlert;
  liveness : option StallEpisode;
}.

Definition SCHEMA_VERSION : N := 1.

(** [ProjectState::default] *)
Definition ProjectState_default : ProjectState := {|
  schema_version := SCHEMA_VERSION; alias := ""; display_name := None;
  current_version := SemVer_default; tickets := []; history := []; reverted_work := [];
  activity := []; spend := Spend_default; sprint := None; sprints := []; sprint_queue := [];
  hold_reasons := ∅; role_health := ∅; deploy := None; comments := []; reviews := [];
  open_prs := []; human_holds := ∅; ticket_attachments := ∅; chat := []; channels := [];
  design_system := None; milestones := []; goals := []; outcome_ledger := []; docs := [];
  doc_folders := []; doc_refresh := ∅; cycle_scores := []; lessons := []; lesson_records := [];
  dismissed_matches := []; lesson_sweep_day := ""; decisions := []; refactor_mode := false;
  sprint_cycle := 0; cycle := 0; sprint_goal := ""; last_digest_day := ""; pr_fix_attempts := ∅;
  pr_review_skips := ∅; pr_open_holds := ∅; pr_sessions := ∅; ticket_sessions := ∅;
  cost_holds := ∅; clippy_baseline := None; debt_signals := []; sweeps_done := [];
  seen_merged_prs := ∅; ticket_last_merge := ∅; seen_closed_prs := ∅; swept_tickets := ∅;
  cost_approved := ∅; tuning := Tuning_default; tuning_overrides := ∅; tuning_history := [];
  ticket_evidence := ∅; ticket_step_provenance := ∅; repro_urls := ∅; queue_recovery := false;
  last_memory_hygiene_day := ""; jobs := []; last_impediment_day := ""; pr_rescues := ∅;
  ticket_redesigns := ∅; drain_notice_sprint := 0; ticket_fail_attempts := ∅;
  pr_rescue_attempts := ∅; approval_samples := []; auto_approved_at := ∅;
  ask_again_shapes := []; ticket_journal := ∅; ticket_failures := ∅; questions := [];
  engine_incidents := []; daily_jobs := ∅; member_services := ∅; ops_down := false;
  workspace_run := WorkspaceRun_default; ops_down_streak := 0; spend_today_usd := f64_zero;
  spend_day := ""; spend_history := []; budget_warned_lifetime := false;
  budget_warned_daily := false; deploy_index := 0; in_rollback := false;
  last_good_deploy := None; last_rollback := None; incidents := []; rolled_back_commits := ∅;
  bug_snapshots := ∅; governance_interventions := []; drift_alerts := []; liveness := None |}.

(** *** Field updates

    One setter per field, so that [st <| field := x |>] finds it by name: the
    state written out field by field, with that field replaced. *)

Definition state_eta (r : ProjectState) : ProjectState := {|
  schema_version := schema_version r; alias := alias r; display_name := display_name r;
  current_version := current_version r; tickets := tickets r; history := history r;
  reverted_work := reverted_work r; activity := activity r; spend := spend r;
  sprint := sprint r; sprints := sprints r; sprint_queue := sprint_queue r;
  hold_reasons := hold_reasons r; role_health := role_health r; deploy := deploy r;
  comments := comments r; reviews := reviews r; open_prs := open_prs r;
  human_holds := human_holds r; ticket_attachments := ticket_attachments r; chat := chat r;
  channels := channels r; design_system := design_system r; milestones := milestones r;
  goals := goals r; outcome_ledger := outcome_ledger r; docs := docs r;
  doc_folders := doc_folders r; doc_refresh := doc_refresh r; cycle_scores := cycle_scores r;
  lessons := lessons r; lesson_records := lesson_records r;
  dismissed_matches := dismissed_matches r; lesson_sweep_day := lesson_sweep_day r;
  decisions := decisions r; refactor_mode := refactor_mode r; sprint_cycle := sprint_cycle r;
  cycle := cycle r; sprint_goal := sprint_goal r; last_digest_day := last_digest_day r;
  pr_fix_attempts := pr_fix_attempts r; pr_review_skips := pr_review_skips r;
  pr_open_holds := pr_open_holds r; pr_sessions := pr_sessions r;
  ticket_sessions := ticket_sessions r; cost_holds := cost_holds r;
  clippy_baseline := clippy_baseline r; debt_signals := debt_signals r;
  sweeps_done := sweeps_done r; seen_merged_prs := seen_merged_prs r;
  ticket_last_merge := ticket_last_merge r; seen_closed_prs := seen_closed_prs r;
  swept_tickets := swept_tickets r; cost_approved := cost_approved r; tuning := tuning r;
  tuning_overrides := tuning_overrides r; tuning_history := tuning_history r;
  ticket_evidence := ticket_evidence r; ticket_step_provenance := ticket_step_provenance r;
  repro_urls := repro_urls r; queue_recovery := queue_recovery r;
  last_memory_hygiene_day := last_memory_hygiene_day r; jobs := jobs r;
  last_impediment_day := last_impediment_day r; pr_rescues := pr_rescues r;
  ticket_redesigns := ticket_redesigns r; drain_notice_sprint := drain_notice_sprint r;
  ticket_fail_attempts := ticket_fail_attempts r; pr_rescue_attempts := pr_rescue_attempts r;
  approval_samples := approval_samples r; auto_approved_at := auto_approved_at r;
  ask_again_shapes := ask_again_shapes r; ticket_journal := ticket_journal r;
  ticket_failures := ticket_failures r; questions := questions r;
  engine_incidents := engine_incidents r; daily_jobs := daily_jobs r;
  member_services := member_services r; ops_down := ops_down r;
  workspace_run := workspace_run r; ops_down_streak := ops_down_streak r;
  spend_today_usd := spend_today_usd r; spend_day := spend_day r;
  spend_history := spend_history r; budget_warned_lifetime := budget_warned_lifetime r;
  budget_warned_daily := budget_warned_daily r; deploy_index := deploy_index r;
  in_rollback := in_rollback r; last_good_deploy := last_good_deploy r;
  last_rollback := last_rollback r; incidents := incidents r;
  rolled_back_commits := rolled_back_commits r; bug_snapshots := bug_snapshots r;
  governance_interventions := governance_interventions r; drift_alerts := drift_alerts r;
  liveness := liveness r |}.

Ltac state_setter getter :=
  exact (fun u (r : ProjectState) => ltac:(
    let b := eval cbv beta delta [state_eta] in (state_eta r) in
    lazymatch b with
    | context C[getter r] => let b' := context C[u (getter r)] in exact b'
    end)).

#[export] Instance set_schema_version : Setter schema_version := ltac:(state_setter schema_version).
#[export] Instance set_alias : Setter alias := ltac:(state_setter alias).
#[export] Instance set_display_name : Setter display_name := ltac:(state_setter display_name).
#[export] Instance set_current_version : Setter current_version := ltac:(state_setter current_version).
#[export] Instance set_tickets : Setter tickets := ltac:(state_setter tickets).
#[export] Instance set_history : Setter history := ltac:(state_setter history).
#[export] Instance set_reverted_work : Setter reverted_work := ltac:(state_setter reverted_work).
#[export] Instance set_activity : Setter activity := ltac:(state_setter activity).
#[export] Instance set_spend : Setter spend := ltac:(state_setter spend).
#[export] Instance set_sprint : Setter sprint := ltac:(state_setter sprint).
#[export] Instance set_sprints : Setter sprints := ltac:(state_setter sprints).
#[export] Instance set_sprint_queue : Setter sprint_queue := ltac:(state_setter sprint_queue).
#[export] Instance set_hold_reasons : Setter hold_reasons := ltac:(state_setter hold_reasons).
#[export] Instance set_role_health : Setter role_health := ltac:(state_setter role_health).
#[export] Instance set_deploy : Setter deploy := ltac:(state_setter deploy).
#[export] Instance set_comments : Setter comments := ltac:(state_setter comments).
#[export] Instance set_reviews : Setter reviews := ltac:(state_setter reviews).
#[export] Instance set_open_prs : Setter open_prs := ltac:(state_setter open_prs).
#[export] Instance set_human_holds : Setter human_holds := ltac:(state_setter human_holds).
#[export] Instance set_ticket_attachments : Setter ticket_attachments := ltac:(state_setter ticket_attachments).
#[export] Instance set_chat : Setter chat := ltac:(state_setter chat).
#[export] Instance set_channels : Setter channels := ltac:(state_setter channels).
#[export] Instance set_design_system : Setter design_system := ltac:(state_setter design_system).
#[export] Instance set_milestones : Setter milestones := ltac:(state_setter milestones).
#[export] Instance set_goals : Setter goals := ltac:(state_setter goals).
#[export] Instance set_outcome_ledger : Setter outcome_ledger := ltac:(state_setter outcome_ledger).
#[export] Instance set_docs : Setter docs := ltac:(state_setter docs).
#[export] Instance set_doc_folders : Setter doc_folders := ltac:(state_setter doc_folders).
#[export] Instance set_doc_refresh : Setter doc_refresh := ltac:(state_setter doc_refresh).
#[export] Instance set_cycle_scores : Setter cycle_scores := ltac:(state_setter cycle_scores).
#[export] Instance set_lessons : Setter lessons := ltac:(state_setter lessons).
#[export] Instance set_lesson_records : Setter lesson_records := ltac:(state_setter lesson_records).
#[export] Instance set_dismissed_matches : Setter dismissed_matches := ltac:(state_setter dismissed_matches).
#[export] Instance set_lesson_sweep_day : Setter lesson_sweep_day := ltac:(state_setter lesson_sweep_day).
#[export] Instance set_decisions : Setter decisions := ltac:(state_setter decisions).
#[export] Instance set_refactor_mode : Setter refactor_mode := ltac:(state_setter refactor_mode).
#[export] Instance set_sprint_cycle : Setter sprint_cycle := ltac:(state_setter sprint_cycle).
#[export] Instance set_cycle : Setter cycle := ltac:(state_setter cycle).
#[export] Instance set_sprint_goal : Setter sprint_goal := ltac:(state_setter sprint_goal).
#[export] Instance set_last_digest_day : Setter last_digest_day := ltac:(state_setter last_digest_day).
#[export] Instance set_pr_fix_attempts : Setter pr_fix_attempts := ltac:(state_setter pr_fix_attempts).
#[export] Instance set_pr_review_skips : Setter pr_review_skips := ltac:(state_setter pr_review_skips).
#[export] Instance set_pr_open_holds : Setter pr_open_holds := ltac:(state_setter pr_open_holds).
#[export] Instance set_pr_sessions : Setter pr_sessions := ltac:(state_setter pr_sessions).
#[export] Instance set_ticket_sessions : Setter ticket_sessions := ltac:(state_setter ticket_sessions).
#[export] Instance set_cost_holds : Setter cost_holds := ltac:(state_setter cost_holds).
#[export] Instance set_clippy_baseline : Setter clippy_baseline := ltac:(state_setter clippy_baseline).
#[export] Instance set_debt_signals : Setter debt_signals := ltac:(state_setter debt_signals).
#[export] Instance set_sweeps_done : Setter sweeps_done := ltac:(state_setter sweeps_done).
#[export] Instance set_seen_merged_prs : Setter seen_merged_prs := ltac:(state_setter seen_merged_prs).
#[export] Instance set_ticket_last_merge : Setter ticket_last_merge := ltac:(state_setter ticket_last_merge).
#[export] Instance set_seen_closed_prs : Setter seen_closed_prs := ltac:(state_setter seen_closed_prs).
#[export] Instance set_swept_tickets : Setter swept_tickets := ltac:(state_setter swept_tickets).
#[export] Instance set_cost_approved : Setter cost_approved := ltac:(state_setter cost_approved).
#[export] Instance set_tuning : Setter tuning := ltac:(state_setter tuning).
#[export] Instance set_tuning_overrides : Setter tuning_overrides := ltac:(state_setter tuning_overrides).
#[export] Instance set_tuning_history : Setter tuning_history := ltac:(state_setter tuning_history).
#[export] Instance set_ticket_evidence : Setter ticket_evidence := ltac:(state_setter ticket_evidence).
#[export] Instance set_ticket_step_provenance : Setter ticket_step_provenance := ltac:(state_setter ticket_step_provenance).
#[export] Instance set_repro_urls : Setter repro_urls := ltac:(state_setter repro_urls).
#[export] Instance set_queue_recovery : Setter queue_recovery := ltac:(state_setter queue_recovery).
#[export] Instance set_last_memory_hygiene_day : Setter last_memory_hygiene_day := ltac:(state_setter last_memory_hygiene_day).
#[export] Instance set_jobs : Setter jobs := ltac:(state_setter jobs).
#[export] Instance set_last_impediment_day : Setter last_impediment_day := ltac:(state_setter last_impediment_day).
#[export] Instance set_pr_rescues : Setter pr_rescues := ltac:(state_setter pr_rescues).
#[export] Instance set_ticket_redesigns : Setter ticket_redesigns := ltac:(state_setter ticket_redesigns).
#[export] Instance set_drain_notice_sprint : Setter drain_notice_sprint := ltac:(state_setter drain_notice_sprint).
#[export] Instance set_ticket_fail_attempts : Setter ticket_fail_attempts := ltac:(state_setter ticket_fail_attempts).
#[export] Instance set_pr_rescue_attempts : Setter pr_rescue_attempts := ltac:(state_setter pr_rescue_attempts).
#[export] Instance set_approval_samples : Setter approval_samples := ltac:(state_setter approval_samples).
#[export] Instance set_auto_approved_at : Setter auto_approved_at := ltac:(state_setter auto_approved_at).
#[export] Instance set_ask_again_shapes : Setter ask_again_shapes := ltac:(state_setter ask_again_shapes).
#[export] Instance set_ticket_journal : Setter ticket_journal := ltac:(state_setter ticket_journal).
#[export] Instance set_ticket_failures : Setter ticket_failures := ltac:(state_setter ticket_failures).
#[export] Instance set_questions : Setter questions := ltac:(state_setter questions).
#[export] Instance set_engine_incidents : Setter engine_incidents := ltac:(state_setter engine_incidents).
#[export] Instance set_daily_jobs : Setter daily_jobs := ltac:(state_setter daily_jobs).
#[export] Instance set_member_services : Setter member_services := ltac:(state_setter member_services).
#[export] Instance set_ops_down : Setter ops_down := ltac:(state_setter ops_down).
#[export] Instance set_workspace_run : Setter workspace_run := ltac:(state_setter workspace_run).
#[export] Instance set_ops_down_streak : Setter ops_down_streak := ltac:(state_setter ops_down_streak).
#[export] Instance set_spend_today_usd : Setter spend_today_usd := ltac:(state_setter spend_today_usd).
#[export] Instance set_spend_day : Setter spend_day := ltac:(state_setter spend_day).
#[export] Instance set_spend_history : Setter spend_history := ltac:(state_setter spend_history).
#[export] Instance set_budget_warned_lifetime : Setter budget_warned_lifetime := ltac:(state_setter budget_warned_lifetime).
#[export] Instance set_budget_warned_daily : Setter budget_warned_daily := ltac:(state_setter budget_warned_daily).
#[export] Instance set_deploy_index : Setter deploy_index := ltac:(state_setter deploy_index).
#[export] Instance set_in_rollback : Setter in_rollback := ltac:(state_setter in_rollback).
#[export] Instance set_last_good_deploy : Setter last_good_deploy := ltac:(state_setter last_good_deploy).
#[export] Instance set_last_rollback : Setter last_rollback := ltac:(state_setter last_rollback).
#[export] Instance set_incidents : Setter incidents := ltac:(state_setter incidents).
#[export] Instance set_rolled_back_commits : Setter rolled_back_commits := ltac:(state_setter rolled_back_commits).
#[export] Instance set_bug_snapshots : Setter bug_snapshots := ltac:(state_setter bug_snapshots).
#[export] Instance set_governance_interventions : Setter governance_interventions := ltac:(state_setter governance_interventions).
#[export] Instance set_drift_alerts : Setter drift_alerts := ltac:(state_setter drift_alerts).
#[export] Instance set_liveness : Setter liveness := ltac:(state_setter liveness).

(** [ProjectState::ticket]: the first ticket with that id. *)
Definition is_ticket (id : TicketId) (t : Ticket) : bool := bool_decide (t_id t = id).

Definition find_ticket (id : TicketId) (ts : list Ticket) : option Ticket :=
  List.find (is_ticket id) ts.

Definition ticket (id : TicketId) (st : ProjectState) : option Ticket :=
  find_ticket id (tickets st).

(** A write through [ProjectState::ticket_mut]. *)
Definition set_ticket (id : TicketId) (f : Ticket -> Ticket) (st : ProjectState) : ProjectState :=
  st <| tickets ::= update_first (is_ticket id) f |>.

(** ** Lemmas *)

Lemma is_ticket_true id t : is_ticket id t = true <-> t_id t = id.
Proof. unfold is_ticket. by rewrite bool_decide_eq_true. Qed.

Lemma find_ticket_id id ts t : find_ticket id ts = Some t -> t_id t = id /\ t ∈ ts.
Proof. intros [Hin H%is_ticket_true]%find_elem. done. Qed.

Lemma find_ticket_none id ts : find_ticket id ts = None <-> id ∉ (t_id <$> ts).
Proof.
  split.
  - intros H Hin. apply list_elem_of_fmap in Hin as (t & -> & Hin).
    pose proof (find_is_none _ _ H t Hin) as Hf. by rewrite (proj2 (is_ticket_true _ _)) in Hf.
  - intros Hn. destruct (find_ticket id ts) as [t|] eqn:E; [|done]. exfalso.
    apply find_ticket_id in E as [<- Hin]. by apply Hn, list_elem_of_fmap_2.
Qed.

Lemma find_ticket_some id ts : is_Some (find_ticket id ts) <-> id ∈ (t_id <$> ts).
Proof.
  destruct (find_ticket id ts) as [t|] eqn:E.
  - split; [|done]. intros _. apply find_ticket_id in E as [<- Hin]. by apply list_elem_of_fmap_2.
  - split; [by intros []|]. by apply find_ticket_none in E.
Qed.

(** With distinct ids, [find] returns the ticket itself. *)
Lemma find_ticket_unique ts t :
  NoDup (t_id <$> ts) -> t ∈ ts -> find_ticket (t_id t) ts = Some t.
Proof.
  induction ts as [|u ts IH]; [by intros _ ?%elem_of_nil|].
  rewrite fmap_cons, NoDup_cons. intros [Hn Hnd] [->|Hin]%elem_of_cons; unfold find_ticket; cbn.
  - by rewrite (proj2 (is_ticket_true _ _)).
  - destruct (is_ticket (t_id t) u) eqn:E; [|by apply IH].
    apply is_ticket_true in E. exfalso. apply Hn. rewrite E. by apply list_elem_of_fmap_2.
Qed.

Lemma ticket_set id t t' st :
  ticket id st = Some t -> t_id t' = id -> ticket id (set_ticket id (fun _ => t') st) = Some t'.
Proof.
  intros H Hid. unfold ticket, set_ticket. change (tickets (st <| tickets ::= ?f |>)) with (f (tickets st)).
  unfold find_ticket, ticket, find_ticket in *. rewrite find_update_first.
  - by rewrite H.
  - intros x _. by apply is_ticket_true.
Qed.

Lemma ticket_set_other id other t' st :
  t_id t' = id -> other <> id -> ticket other (set_ticket id (fun _ => t') st) = ticket other st.
Proof.
  intros Hid Hne. unfold ticket, set_ticket. change (tickets (st <| tickets ::= ?f |>)) with (f (tickets st)).
  unfold find_ticket. induction (tickets st) as [|x l IH]; [done|]. cbn [update_first List.find].
  destruct (is_ticket id x) eqn:E; cbn [List.find].
  - apply is_ticket_true in E. unfold is_ticket. by rewrite !bool_decide_false by congruence.
  - by rewrite IH.
Qed.

(** *** One change to the tickets of a set of ids *)
Section ChangeAll.
Context (g : Ticket -> Ticket) (Hg : forall t, t_id (g t) = t_id t).
Implicit Types (ids : list TicketId) (ts : list Ticket).

Definition change_all ids ts : list Ticket := (fun u => if decide (t_id u ∈ ids) then g u else u) <$> ts.

Lemma change_all_nil ts : change_all [] ts = ts.
Proof.
  rewrite <- (list_fmap_id ts) at 2. apply list_fmap_ext. intros i u _. cbn.
  rewrite decide_False; [done|]. by intros ?%elem_of_nil.
Qed.

Lemma change_all_ids ids ts : t_id <$> change_all ids ts = t_id <$> ts.
Proof.
  unfold change_all. rewrite <- list_fmap_compose. apply list_fmap_ext. intros i u _. cbn.
  case_decide; [apply Hg|done].
Qed.

Lemma change_all_cons id ids ts :
  id ∉ ids -> change_all ids (change_all [id] ts) = change_all (id :: ids) ts.
Proof.
  intros Hid. unfold change_all. rewrite <- list_fmap_compose. apply list_fmap_ext. intros i u _. cbn.
  destruct (decide (t_id u ∈ [id])) as [Hu%list_elem_of_singleton|Hu].
  - rewrite Hg, Hu, decide_False by done. rewrite decide_True; [done|left].
  - rewrite list_elem_of_singleton in Hu. destruct (decide (t_id u ∈ ids)) as [Hi|Hi].
    + rewrite decide_True; [done|by right].
    + rewrite decide_False; [done|]. by intros [?|?]%elem_of_cons.
Qed.

(** A write through [ticket_mut] is the change of one id. *)
Lemma update_first_change id t ts :
  NoDup (t_id <$> ts) -> find_ticket id ts = Some t ->
  update_first (is_ticket id) (fun _ => g t) ts = change_all [id] ts.
Proof.
  unfold find_ticket, change_all. induction ts as [|u ts IH]; [done|]. rewrite !fmap_cons, NoDup_cons. cbn.
  intros [Hn Hnd]. unfold is_ticket at 1 3. case_bool_decide as E.
  - intros [= ->]. rewrite decide_True by (rewrite E; left). f_equal. symmetry.
    etrans; [|apply list_fmap_id]. apply list_fmap_ext. intros i v Hv. cbn.
    rewrite decide_False; [done|]. rewrite list_elem_of_singleton. intros Hvi. apply Hn. rewrite E, <- Hvi.
    by apply list_elem_of_fmap_2, (list_elem_of_lookup_2 _ i).
  - intros Hf. rewrite decide_False by (by rewrite list_elem_of_singleton). f_equal. by apply IH.
Qed.

Lemma find_change_other id ids ts :
  id ∉ ids -> find_ticket id (change_all ids ts) = find_ticket id ts.
Proof.
  intros Hid. unfold find_ticket, change_all. induction ts as [|u ts IH]; [done|]. cbn. rewrite IH.
  unfold is_ticket. case_decide as Hu; [|done]. rewrite Hg.
  rewrite !bool_decide_false; [done|..]; by intros <-.
Qed.
End ChangeAll.
