(* ===== verification/DepGraph.v ===== *)
(** * The dependency graph check of [ProjectState::validate]

    [validate] refuses a state with a duplicate ticket id, a dependency on an
    unknown ticket, or a dependency cycle; the cycle test is an iterative
    three-colour depth-first search over an explicit stack. The search is modelled
    step by step and proved to terminate, to report only nodes that lie on a
    cycle, and to miss none. *)
From S2P Require Import Prelude RustStr Kinds TestCase Ticket State.

Inductive Color := White | Grey | Black.

#[export] Instance Color_eq_dec : EqDecision Color.
Proof. solve_decision. Defined.

(** The search's [HashMap<&TicketId, Color>] and its stack of
    [(node, exiting)] frames, top first. *)
Abbreviation colors := (gmap string Color) (only parsing).
Abbreviation frames := (list (TicketId * bool)) (only parsing).

(** The inner loop over [t.depends_on()]: a grey dependency closes a cycle, a
    white or unknown one is pushed, a black one is skipped. *)
Fixpoint scan_deps (color : colors) (deps : list TicketId) (stack : frames)
    : TicketId + frames :=
  match deps with
  | [] => inr stack
  | dep :: deps' =>
      match color !! dep with
      | Some Grey => inl dep
      | Some White | None => scan_deps color deps' ((dep, false) :: stack)
      | Some Black => scan_deps color deps' stack
      end
  end.

(** [if let Some(t) = self.ticket(node) { t.depends_on() }]: an unknown node has none. *)
Definition deps_of (ts : list Ticket) (n : TicketId) : list TicketId :=
  match find_ticket n ts with Some t => t_depends_on t | None => [] end.

Inductive dfs_out :=
| DfsCycle (node : TicketId)
| DfsMore (color : colors) (stack : frames).

(** One turn of [while let Some((node, exiting)) = stack.pop()]. *)
Definition dfs_step (ts : list Ticket) (color : colors) (node : TicketId) (exiting : bool)
    (stack : frames) : dfs_out :=
  if exiting then DfsMore (<[node := Black]> color) stack
  else if decide (color !! node <> Some White) then DfsMore color stack
  else
    let color := <[node := Grey]> color in
    let stack := (node, true) :: stack in
    match scan_deps color (deps_of ts node) stack with
    | inl dep => DfsCycle dep
    | inr stack => DfsMore color stack
    end.

(** The [while] loop; [None] when the fuel runs out. *)
Fixpoint dfs_loop (fuel : nat) (ts : list Ticket) (color : colors) (stack : frames)
    : option (TicketId + colors) :=
  match stack with
  | [] => Some (inr color)
  | (node, exiting) :: stack' =>
      match fuel with
      | O => None
      | S fuel' =>
          match dfs_step ts color node exiting stack' with
          | DfsCycle d => Some (inl d)
          | DfsMore color' stack'' => dfs_loop fuel' ts color' stack''
          end
      end
  end.

(** The outer loop over the tickets. *)
Fixpoint dfs_all (fuel : nat) (ts : list Ticket) (starts : list TicketId) (color : colors)
    : option (option TicketId) :=
  match starts with
  | [] => Some None
  | start :: starts' =>
      if decide (color !! start <> Some White) then dfs_all fuel ts starts' color
      else match dfs_loop fuel ts color [(start, false)] with
           | None => None
           | Some (inl d) => Some (Some d)
           | Some (inr color') => dfs_all fuel ts starts' color'
           end
  end.

Definition initial_colors (ts : list Ticket) : colors :=
  foldr (fun t m => <[t_id t := White]> m) ∅ ts.

(** One frame per node and one per edge, which the search never exceeds. *)
Definition dfs_fuel (ts : list Ticket) : nat :=
  S (sum_list_with (fun n => S (length (deps_of ts n))) (t_id <$> ts)).

Definition first_dependency_cycle (ts : list Ticket) : option TicketId :=
  match dfs_all (dfs_fuel ts) ts (t_id <$> ts) (initial_colors ts) with
  | Some r => r
  | None => None
  end.

(** [validate], with the reason as data instead of its message. *)
Inductive ValidateError :=
| DuplicateTicketId (id : TicketId)
| UnknownDependency (id dep : TicketId)
| DependencyCycle (node : TicketId).

#[export] Instance ValidateError_eq_dec : EqDecision ValidateError.
Proof. solve_decision. Defined.

(** The first id that is already in [seen] when it is inserted. *)
Fixpoint first_duplicate (seen : gset string) (ids : list string) : option string :=
  match ids with
  | [] => None
  | id :: ids' => if decide (id ∈ seen) then Some id else first_duplicate ({[id]} ∪ seen) ids'
  end.

Definition first_unknown_dep (seen : gset string) (ts : list Ticket) : option (TicketId * TicketId) :=
  head (ts ≫= fun t =>
    (fun dep => (t_id t, dep)) <$> List.filter (fun d => bool_decide (d ∉ seen)) (t_depends_on t)).

Definition validate (ts : list Ticket) : result ValidateError unit :=
  match first_duplicate ∅ (t_id <$> ts) with
  | Some id => Err (DuplicateTicketId id)
  | None =>
      match first_unknown_dep (list_to_set (t_id <$> ts)) ts with
      | Some (id, dep) => Err (UnknownDependency id dep)
      | None =>
          match first_dependency_cycle ts with
          | Some node => Err (DependencyCycle node)
          | None => Ok tt
          end
      end
  end.

(** The text of [validate]'s error. *)
Definition validate_text (e : ValidateError) : string :=
  match e with
  | DuplicateTicketId id => "duplicate ticket id: " +:+ id
  | UnknownDependency id dep => "ticket " +:+ id +:+ " depends on unknown ticket " +:+ dep
  | DependencyCycle node => "dependency cycle involving ticket " +:+ node
  end.

(** ** The graph *)

(** The edge relation the search follows. *)
Definition dep_edge (ts : list Ticket) (a b : TicketId) : Prop := b ∈ deps_of ts a.

Definition acyclic (ts : list Ticket) : Prop := forall a, ~ tc (dep_edge ts) a a.

Section Search.
Context (ts : list Ticket).
Implicit Types (color : colors) (stack : frames) (n d : TicketId).

Definition known color n : Prop := is_Some (color !! n).
Definition settled color n : Prop := known color n -> color !! n = Some Black.

(** The nearest node below that is being processed. *)
Fixpoint top_open stack : option TicketId :=
  match stack with
  | [] => None
  | (n, true) :: _ => Some n
  | (_, false) :: stack' => top_open stack'
  end.

(** Every frame was pushed by the open node below it, and no node is open below
    one of its own frames. *)
Fixpoint path_ok stack : Prop :=
  match stack with
  | [] => True
  | (n, _) :: stack' =>
      ((n, true) ∉ stack') /\ from_option (fun p => dep_edge ts p n) True (top_open stack') /\
      path_ok stack'
  end.

(** What is left of an open node's dependencies is in the frames above it. *)
Fixpoint pending color (above : list TicketId) stack : Prop :=
  match stack with
  | [] => True
  | (n, b) :: stack' =>
      (b = true -> forall d, d ∈ deps_of ts n -> settled color d \/ d ∈ above) /\
      pending color (n :: above) stack'
  end.

Record dfs_inv color stack : Prop := {
  inv_dom : forall n, known color n <-> n ∈ (t_id <$> ts);
  inv_grey : forall n, color !! n = Some Grey <-> (n, true) ∈ stack;
  inv_path : path_ok stack;
  inv_pending : pending color [] stack;
  inv_closed : forall n d, color !! n = Some Black -> dep_edge ts n d -> settled color d;
  inv_acyclic : forall n, color !! n = Some Black -> ~ tc (dep_edge ts) n n;
}.

Lemma known_edge color n d : (forall n, known color n <-> n ∈ (t_id <$> ts)) ->
  dep_edge ts n d -> known color n.
Proof.
  intros Hd He. apply Hd. unfold dep_edge, deps_of in He.
  destruct (find_ticket n ts) eqn:E; [|by apply elem_of_nil in He].
  apply find_ticket_some. by rewrite E.
Qed.

(** *** Stacks *)

Lemma path_reaches stack n d :
  path_ok stack -> from_option (fun p => dep_edge ts p n) True (top_open stack) ->
  (d, true) ∈ stack -> tc (dep_edge ts) d n.
Proof.
  revert n. induction stack as [|[m []] stack IH]; intros n Hp Ht Hin; cbn in *.
  - by apply elem_of_nil in Hin.
  - destruct Hp as (Hn & He & Hp). apply elem_of_cons in Hin as [[= ->]|Hin].
    + by apply tc_once.
    + eapply tc_r; [by apply IH|done].
  - destruct Hp as (Hn & He & Hp). apply elem_of_cons in Hin as [[=]|Hin]. by apply IH.
Qed.

Lemma pending_mono color color' A A' stack :
  (forall d, settled color d -> settled color' d) -> (forall d, d ∈ A -> settled color' d \/ d ∈ A') ->
  pending color A stack -> pending color' A' stack.
Proof.
  intros Hc. revert A A'. induction stack as [|[n b] stack IH]; intros A A' HA; cbn; [done|].
  intros [H Hp]. split.
  - intros Hb d Hd. destruct (H Hb d Hd) as [?|?]; auto.
  - eapply IH; [|exact Hp]. intros d. rewrite !elem_of_cons. intros [->|Hd]; [auto|].
    destruct (HA d Hd); auto.
Qed.

Lemma scan_deps_cycle color deps stack d :
  scan_deps color deps stack = inl d -> d ∈ deps /\ color !! d = Some Grey.
Proof.
  revert stack. induction deps as [|x deps IH]; intros stack; cbn; [done|].
  rewrite elem_of_cons.
  destruct (color !! x) as [[]|] eqn:E; [|intros [= ->]; auto|..]; intros [??]%IH; auto.
Qed.

(** A scan that finds no grey dependency pushes every unsettled one. *)
Lemma scan_deps_push color deps stack stack' :
  scan_deps color deps stack = inr stack' ->
  exists ds, stack' = ((fun d => (d, false)) <$> ds) ++ stack /\ length ds <= length deps /\
    (forall d, d ∈ ds -> d ∈ deps /\ color !! d <> Some Grey) /\
    (forall d, d ∈ deps -> settled color d \/ d ∈ ds).
Proof.
  revert stack. induction deps as [|x deps IH]; intros stack; cbn.
  { intros [= <-]. exists []. split_and!; [done|cbn; lia|..]; by intros d ?%elem_of_nil. }
  intros H. destruct (decide (color !! x = Some Black)) as [Hb|Hb].
  - rewrite Hb in H. apply IH in H as (ds & -> & Hl & H1 & H2).
    exists ds. split_and!; [done|cbn; lia| |]; intros d.
    + intros [??]%H1. rewrite elem_of_cons. auto.
    + rewrite elem_of_cons. intros [->|Hd]; [left; intros _; done|auto].
  - assert (color !! x <> Some Grey /\ scan_deps color deps ((x, false) :: stack) = inr stack')
      as [Hg Hs] by (destruct (color !! x) as [[]|]; done).
    apply IH in Hs as (ds & -> & Hl & H1 & H2).
    exists (ds ++ [x]). rewrite length_app. split_and!.
    + by rewrite fmap_app, <- app_assoc.
    + cbn. lia.
    + intros d. rewrite elem_of_app, list_elem_of_singleton, elem_of_cons.
      intros [[??]%H1| ->]; auto.
    + intros d. rewrite elem_of_app, list_elem_of_singleton, elem_of_cons.
      intros [->|[?|?]%H2]; auto.
Qed.

Lemma top_open_pushed ds stack : top_open (((fun d => (d, false)) <$> ds) ++ stack) = top_open stack.
Proof. induction ds; cbn; auto. Qed.

Lemma elem_of_pushed ds stack n :
  (n, true) ∈ ((fun d => (d, false)) <$> ds) ++ stack <-> (n, true) ∈ stack.
Proof.
  rewrite elem_of_app, list_elem_of_fmap. split; [|auto]. by intros [(? & [=] & _)|?].
Qed.

Lemma path_pushed ds stack n :
  path_ok stack -> top_open stack = Some n ->
  (forall d, d ∈ ds -> dep_edge ts n d /\ (d, true) ∉ stack) ->
  path_ok (((fun d => (d, false)) <$> ds) ++ stack).
Proof.
  intros Hp Ht. induction ds as [|d ds IH]; intros H; cbn; [done|].
  destruct (H d) as [He Hn]; [by left|]. split_and!.
  - by rewrite elem_of_pushed.
  - rewrite top_open_pushed, Ht. done.
  - apply IH. intros d' Hd. apply H. by right.
Qed.

Lemma pending_pushed color A ds stack :
  pending color (rev ds ++ A) stack -> pending color A (((fun d => (d, false)) <$> ds) ++ stack).
Proof.
  revert A. induction ds as [|d ds IH]; intros A; cbn; [done|].
  intros H. split; [done|]. apply IH. by rewrite <- app_assoc in H.
Qed.

(** *** One turn keeps the invariant *)

Lemma inv_exit color n stack :
  dfs_inv color ((n, true) :: stack) -> dfs_inv (<[n := Black]> color) stack.
Proof.
  intros [Hd Hg [Hn [_ Hp]] [Hpend Hrest] Hc Ha].
  assert (Hgn : color !! n = Some Grey) by (apply Hg; left).
  assert (Hdeps : forall d, dep_edge ts n d -> settled color d).
  { intros d He. destruct (Hpend eq_refl d He) as [?|?%elem_of_nil]; done. }
  assert (Hmono : forall d, settled color d -> settled (<[n := Black]> color) d).
  { intros d Hs. unfold settled, known. destruct (decide (d = n)) as [->|].
    - by rewrite lookup_insert_eq.
    - by rewrite lookup_insert_ne. }
  constructor.
  - intros m. unfold known. destruct (decide (m = n)) as [->|].
    + rewrite lookup_insert_eq. split; [|done]. intros _. apply Hd. by (unfold known; rewrite Hgn).
    + rewrite lookup_insert_ne by done. apply Hd.
  - intros m. destruct (decide (m = n)) as [->|].
    + rewrite lookup_insert_eq. split; [done|by intros ?%Hn].
    + rewrite lookup_insert_ne by done. rewrite Hg, elem_of_cons. naive_solver.
  - done.
  - eapply pending_mono; [exact Hmono| |exact Hrest].
    intros d ->%list_elem_of_singleton. left. intros _. apply lookup_insert_eq.
  - intros m d. destruct (decide (m = n)) as [->|]; [auto|].
    rewrite lookup_insert_ne by done. eauto.
  - intros m. destruct (decide (m = n)) as [->|]; [|rewrite lookup_insert_ne by done; auto].
    intros _ Hcyc.
    (* everything reachable from a black node is black, and [n] is not *)
    assert (Hreach : forall a b, tc (dep_edge ts) a b -> color !! a = Some Black -> settled color b).
    { induction 1 as [a b He|a b c He Ht IH]; intros Hb; [by eapply Hc|].
      apply IH. eapply Hc; [done..|]. inversion Ht; by eapply known_edge. }
    assert (Hsn : ~ settled color n) by (intros Hs; rewrite Hs in Hgn; [done|by (unfold known; rewrite Hgn)]).
    inversion Hcyc as [? ? He|? d ? He Ht]; subst; [by apply Hsn, Hdeps|].
    apply Hsn. eapply Hreach; [done|]. apply Hdeps; [done|]. inversion Ht; by eapply known_edge.
Qed.

Lemma inv_skip color n stack :
  color !! n <> Some White -> dfs_inv color ((n, false) :: stack) -> dfs_inv color stack.
Proof.
  intros Hw [Hd Hg [Hn [_ Hp]] [_ Hrest] Hc Ha]. constructor; try done.
  - intros m. rewrite Hg, elem_of_cons. naive_solver.
  - eapply pending_mono; [done| |exact Hrest]. intros d ->%list_elem_of_singleton. left.
    intros [c Hk]. rewrite Hk in Hw |- *. destruct c; [done| |done].
    exfalso. apply Hn. apply Hg in Hk. apply elem_of_cons in Hk as [[=]|?]; done.
Qed.

(** Opening a white node, before its dependencies are scanned. *)
Lemma inv_open color n stack ds :
  color !! n = Some White -> dfs_inv color ((n, false) :: stack) ->
  (forall d, d ∈ ds -> d ∈ deps_of ts n /\ <[n := Grey]> color !! d <> Some Grey) ->
  (forall d, d ∈ deps_of ts n -> settled (<[n := Grey]> color) d \/ d ∈ ds) ->
  dfs_inv (<[n := Grey]> color) (((fun d => (d, false)) <$> ds) ++ (n, true) :: stack).
Proof.
  intros Hw [Hd Hg [Hn [Ht Hp]] [_ Hrest] Hc Ha] H1 H2.
  assert (Hmono : forall d, settled color d -> settled (<[n := Grey]> color) d).
  { intros d Hs. unfold settled, known. destruct (decide (d = n)) as [->|].
    - rewrite Hs in Hw; [done|]. by (unfold known; rewrite Hw).
    - by rewrite lookup_insert_ne. }
  assert (Hg' : forall m, <[n := Grey]> color !! m = Some Grey <-> (m, true) ∈ (n, true) :: stack).
  { intros m. rewrite elem_of_cons. destruct (decide (m = n)) as [->|].
    - rewrite lookup_insert_eq. split; [by left|done].
    - rewrite lookup_insert_ne, Hg, elem_of_cons by done. naive_solver. }
  constructor.
  - intros m. unfold known. destruct (decide (m = n)) as [->|].
    + rewrite lookup_insert_eq. split; [|done]. intros _. apply Hd. by (unfold known; rewrite Hw).
    + rewrite lookup_insert_ne by done. apply Hd.
  - intros m. by rewrite elem_of_pushed.
  - apply (path_pushed ds ((n, true) :: stack) n); cbn; [done|done|].
    intros d [Hin Hng]%H1. split; [done|]. by rewrite <- Hg'.
  - apply pending_pushed. cbn. split.
    + intros _ d [?|?]%H2; [by left|right]. rewrite app_nil_r.
      by apply list_elem_of_In, (proj1 (List.in_rev _ _)), list_elem_of_In.
    + eapply pending_mono; [exact Hmono| |exact Hrest].
      intros d ->%list_elem_of_singleton. right. left.
  - intros m d Hm. destruct (decide (m = n)) as [->|]; [by rewrite lookup_insert_eq in Hm|].
    rewrite lookup_insert_ne in Hm by done. intros He. eapply Hmono, Hc; done.
  - intros m Hm. destruct (decide (m = n)) as [->|]; [by rewrite lookup_insert_eq in Hm|].
    rewrite lookup_insert_ne in Hm by done. by apply Ha.
Qed.

Lemma dfs_step_inv color n b stack :
  dfs_inv color ((n, b) :: stack) ->
  match dfs_step ts color n b stack with
  | DfsCycle d => tc (dep_edge ts) d d
  | DfsMore color' stack' => dfs_inv color' stack'
  end.
Proof.
  intros H. unfold dfs_step. destruct b; [by apply inv_exit|].
  case_decide as Hw; [by eapply inv_skip|].
  destruct (scan_deps _ _ _) as [d|stack'] eqn:E.
  - apply scan_deps_cycle in E as [He Hg].
    destruct H as [Hd Hgr [Hn [Ht Hp]] _ _ _].
    destruct (decide (d = n)) as [->|Hne]; [by apply tc_once|].
    rewrite lookup_insert_ne in Hg by done. apply Hgr in Hg.
    apply elem_of_cons in Hg as [[=]|Hg].
    eapply tc_r; [by eapply path_reaches|done].
  - apply scan_deps_push in E as (ds & -> & _ & H1 & H2). by apply inv_open.
Qed.

(** *** Termination *)

Definition frame_bound color : nat :=
  sum_list_with (fun n => if decide (color !! n = Some White) then S (length (deps_of ts n)) else 0)
    (t_id <$> ts).

Lemma frame_bound_grey color n :
  n ∈ (t_id <$> ts) -> color !! n = Some White ->
  frame_bound (<[n := Grey]> color) + S (length (deps_of ts n)) <= frame_bound color.
Proof.
  unfold frame_bound. intros Hin Hw.
  assert (Hle : forall l, sum_list_with (fun m => if decide (<[n := Grey]> color !! m = Some White)
              then S (length (deps_of ts m)) else 0) l
            <= sum_list_with (fun m => if decide (color !! m = Some White)
              then S (length (deps_of ts m)) else 0) l).
  { induction l as [|m l IH]; cbn; [lia|]. destruct (decide (m = n)) as [->|].
    - rewrite lookup_insert_eq. rewrite decide_False by done. lia.
    - rewrite lookup_insert_ne by done. lia. }
  induction (t_id <$> ts) as [|m l IH]; [by apply elem_of_nil in Hin|].
  cbn. apply elem_of_cons in Hin as [<-|Hin].
  - rewrite lookup_insert_eq, decide_False, (decide_True _ _ Hw) by done. specialize (Hle l). lia.
  - specialize (IH Hin). destruct (decide (m = n)) as [->|].
    + rewrite lookup_insert_eq, decide_False by done. lia.
    + rewrite lookup_insert_ne by done. lia.
Qed.

Lemma frame_bound_black color n :
  color !! n <> Some White -> frame_bound (<[n := Black]> color) = frame_bound color.
Proof.
  intros Hw. unfold frame_bound. induction (t_id <$> ts) as [|m l IH]; [done|]. cbn. rewrite IH.
  destruct (decide (m = n)) as [->|].
  - rewrite lookup_insert_eq. by rewrite !decide_False.
  - by rewrite lookup_insert_ne.
Qed.

(** Fewer white nodes bound fewer frames. *)
Lemma frame_bound_le color color' :
  (forall m, color !! m <> Some White -> color' !! m <> Some White) ->
  frame_bound color' <= frame_bound color.
Proof.
  intros H. unfold frame_bound. induction (t_id <$> ts) as [|m l IH]; cbn; [lia|].
  specialize (H m). repeat case_decide; try lia. naive_solver.
Qed.

Lemma scan_deps_length color deps stack stack' :
  scan_deps color deps stack = inr stack' -> length stack' <= length deps + length stack.
Proof.
  intros (ds & -> & Hl & _)%scan_deps_push. rewrite length_app, length_fmap. lia.
Qed.

(** A turn shrinks the bound, never whitens a node, and leaves the popped one
    not white. *)
Lemma dfs_step_progress color n b stack color' stack' :
  dfs_inv color ((n, b) :: stack) -> dfs_step ts color n b stack = DfsMore color' stack' ->
  length stack' + frame_bound color' < S (length stack) + frame_bound color /\
  (forall m, color !! m <> Some White -> color' !! m <> Some White) /\
  color' !! n <> Some White /\ (forall m, (m, false) ∈ stack -> (m, false) ∈ stack').
Proof.
  intros H. unfold dfs_step. destruct b; [|case_decide as Hw].
  - intros [= <- <-]. assert (Hg : color !! n = Some Grey) by (apply H; left).
    rewrite frame_bound_black by by rewrite Hg.
    split_and!; [lia| |by rewrite lookup_insert_eq|done].
    intros m. destruct (decide (m = n)) as [->|]; [by rewrite lookup_insert_eq|].
    by rewrite lookup_insert_ne.
  - intros [= <- <-]. split_and!; [lia|done..].
  - destruct (scan_deps _ _ _) as [d|st] eqn:E; [done|]. intros [= <- <-].
    assert (Hin : n ∈ (t_id <$> ts)) by (apply H; unfold known; by rewrite Hw).
    pose proof (frame_bound_grey _ _ Hin Hw). split_and!.
    + apply scan_deps_length in E. cbn in E. lia.
    + intros m. destruct (decide (m = n)) as [->|]; [by rewrite lookup_insert_eq|].
      by rewrite lookup_insert_ne.
    + by rewrite lookup_insert_eq.
    + intros m Hm. apply scan_deps_push in E as (ds & -> & _). apply elem_of_app. right. by right.
Qed.

Lemma dfs_loop_total fuel color stack :
  dfs_inv color stack -> length stack + frame_bound color <= fuel ->
  exists r, dfs_loop fuel ts color stack = Some r /\
    match r with
    | inl d => tc (dep_edge ts) d d
    | inr color' => dfs_inv color' [] /\
        (forall m, color !! m <> Some White -> color' !! m <> Some White) /\
        (forall m, (m, false) ∈ stack -> color' !! m <> Some White)
    end.
Proof.
  revert color stack. induction fuel as [|fuel IH]; intros color [|[n b] stack] Hinv Hf.
  1, 3: exists (inr color); split_and!; [done..|by intros m ?%elem_of_nil].
  - cbn in Hf. lia.
  - cbn [dfs_loop]. pose proof (dfs_step_inv _ _ _ _ Hinv) as Hs.
    destruct (dfs_step ts color n b stack) as [d|color' stack'] eqn:E; [by exists (inl d)|].
    destruct (dfs_step_progress _ _ _ _ _ _ Hinv E) as (Hlt & Hm & Hn & Hk).
    cbn [length] in Hf. destruct (IH color' stack' Hs ltac:(lia)) as (r & Hr & Hspec).
    exists r. split; [done|]. destruct r as [d|color'']; [done|].
    destruct Hspec as (H1 & H2 & H3). split_and!; [done|auto|].
    intros m [[= -> <-]|Hin]%elem_of_cons; auto.
Qed.

Lemma dfs_all_total fuel starts color :
  dfs_inv color [] -> S (frame_bound color) <= fuel ->
  exists r, dfs_all fuel ts starts color = Some r /\
    match r with
    | Some d => tc (dep_edge ts) d d
    | None => exists color', dfs_inv color' [] /\
        (forall m, color !! m <> Some White -> color' !! m <> Some White) /\
        forall m, m ∈ starts -> color' !! m <> Some White
    end.
Proof.
  revert color. induction starts as [|start starts IH]; intros color Hinv Hf; cbn.
  { exists None. split; [done|]. exists color. split_and!; [done..|]. by intros m ?%elem_of_nil. }
  case_decide as Hw.
  - destruct (IH color Hinv Hf) as (r & Hr & Hs). exists r. split; [done|].
    destruct r; [done|]. destruct Hs as (color' & H1 & H2 & H3). exists color'.
    split_and!; [done..|]. intros m [->|?]%elem_of_cons; auto.
  - assert (Hstart : dfs_inv color [(start, false)]).
    { destruct Hinv as [Hd Hg _ _ Hc Ha]. constructor; [done| | | |done|done].
      - intros m. rewrite Hg, elem_of_cons. split; [by intros ?%elem_of_nil|].
        intros [[=]|?%elem_of_nil]; done.
      - cbn. split_and!; [by intros ?%elem_of_nil|done..].
      - done. }
    destruct (dfs_loop_total fuel color _ Hstart) as ([d|color'] & -> & Hs); [cbn; lia| |].
    { by exists (Some d). }
    destruct Hs as (H1 & H2 & H3).
    destruct (IH color' H1) as (r & Hr & Hs).
    { pose proof (frame_bound_le color color' H2). lia. }
    exists r. split; [done|]. destruct r; [done|]. destruct Hs as (c & I1 & I2 & I3).
    exists c. split_and!; [done|auto|]. intros m [->|?]%elem_of_cons; [|auto].
    apply I2, H3. left.
Qed.

Lemma initial_inv : dfs_inv (initial_colors ts) [].
Proof.
  assert (Hl : forall l n, foldr (fun t m => <[t_id t := White]> m) (∅ : colors) l !! n
            = if decide (n ∈ (t_id <$> l)) then Some White else None).
  { induction l as [|t l IH]; intros n; cbn; [done|]. destruct (decide (n = t_id t)) as [->|].
    - rewrite lookup_insert_eq, decide_True; [done|]. left.
    - rewrite lookup_insert_ne, IH by done.
      destruct (decide (n ∈ (t_id <$> l))) as [Hi|Hi].
      + rewrite decide_True; [done|]. by right.
      + rewrite decide_False; [done|]. by intros [?|?]%elem_of_cons. }
  unfold initial_colors. constructor; cbn; try done.
  - intros n. unfold known. rewrite Hl. case_decide; split; try done; by intros [].
  - intros n. rewrite Hl. split; [by case_decide|by intros ?%elem_of_nil].
  - intros n d. rewrite Hl. by case_decide.
  - intros n. rewrite Hl. by case_decide.
Qed.

Lemma frame_bound_initial : S (frame_bound (initial_colors ts)) <= dfs_fuel ts.
Proof.
  unfold frame_bound, dfs_fuel. induction (t_id <$> ts) as [|n l IH]; cbn; [lia|].
  case_decide; cbn; lia.
Qed.

(** The search answers, a node it names lies on a cycle, and it stays silent
    exactly on acyclic graphs. *)
Lemma dfs_all_spec :
  exists r, dfs_all (dfs_fuel ts) ts (t_id <$> ts) (initial_colors ts) = Some r /\
    match r with Some d => tc (dep_edge ts) d d | None => acyclic ts end.
Proof.
  destruct (dfs_all_total (dfs_fuel ts) (t_id <$> ts) (initial_colors ts) initial_inv
              frame_bound_initial) as (r & Hr & Hs).
  exists r. split; [done|]. destruct r as [d|]; [done|]. destruct Hs as (c & [Hd Hg _ _ _ Ha] & _ & H).
  intros a Hcyc. assert (Hk : known c a).
  { inversion Hcyc; subst; by eapply known_edge. }
  destruct Hk as [k Hk]. destruct k.
  - apply (H a); [|done]. apply Hd. unfold known. by rewrite Hk.
  - apply Hg in Hk. by apply elem_of_nil in Hk.
  - by eapply Ha.
Qed.
End Search.

Lemma first_cycle_spec ts :
  match first_dependency_cycle ts with
  | Some d => tc (dep_edge ts) d d
  | None => acyclic ts
  end.
Proof.
  unfold first_dependency_cycle. destruct (dfs_all_spec ts) as (r & -> & H). done.
Qed.

(** ** The id checks *)

Lemma first_duplicate_spec seen ids :
  match first_duplicate seen ids with
  | Some id => id ∈ ids /\ ~ (NoDup ids /\ forall x, x ∈ ids -> x ∉ seen)
  | None => NoDup ids /\ forall x, x ∈ ids -> x ∉ seen
  end.
Proof.
  revert seen. induction ids as [|id ids IH]; intros seen; cbn.
  { split; [apply NoDup_nil_2|]. by intros x ?%elem_of_nil. }
  case_decide as Hs.
  - split; [by left|]. intros [_ H]. apply (H id); [by left|done].
  - specialize (IH ({[id]} ∪ seen)). destruct (first_duplicate _ ids).
    + destruct IH as [Hin Hn]. split; [by right|]. intros [Hnd H]. apply Hn.
      apply NoDup_cons in Hnd as [Hni Hnd]. split; [done|]. intros x Hx.
      rewrite elem_of_union, elem_of_singleton. intros [->|?]; [done|]. by apply (H x); [right|].
    + destruct IH as [Hnd H]. split.
      * apply NoDup_cons. split; [|done]. intros Hin. apply (H id Hin). set_solver.
      * intros x [->|Hx]%elem_of_cons; [done|]. specialize (H x Hx). set_solver.
Qed.

Lemma first_unknown_dep_spec seen ts :
  match first_unknown_dep seen ts with
  | Some (id, dep) => exists t, t ∈ ts /\ t_id t = id /\ dep ∈ t_depends_on t /\ dep ∉ seen
  | None => forall t dep, t ∈ ts -> dep ∈ t_depends_on t -> dep ∈ seen
  end.
Proof.
  unfold first_unknown_dep.
  destruct (head _) as [[id dep]|] eqn:E.
  - apply head_Some_elem_of, list_elem_of_bind in E as (t & Hf & Ht).
    apply list_elem_of_fmap in Hf as (d & [= -> ->] & Hd).
    apply list_elem_of_In, List.filter_In in Hd as [Hd Hs%bool_decide_eq_true].
    exists t. split_and!; [done..|by apply list_elem_of_In|done].
  - intros t dep Ht Hd. destruct (decide (dep ∈ seen)) as [|Hn]; [done|exfalso].
    apply head_None in E. eapply not_elem_of_nil. rewrite <- E.
    apply list_elem_of_bind. exists t. split; [|done]. apply list_elem_of_fmap. exists dep.
    split; [done|]. apply list_elem_of_In, List.filter_In. split; [by apply list_elem_of_In|].
    by apply bool_decide_eq_true.
Qed.

(** The duplicate reported is the first id that repeats an earlier one. *)
Lemma first_duplicate_at ids : forall seen id,
  first_duplicate seen ids = Some id ->
  exists j, ids !! j = Some id /\ (id ∈ take j ids \/ id ∈ seen) /\ NoDup (take j ids) /\
    forall x, x ∈ take j ids -> x ∉ seen.
Proof.
  induction ids as [|x ids IH]; intros seen id; cbn; [done|]. case_decide as Hs.
  - intros [= <-]. exists 0. split_and!; [done|by right|constructor|]. by intros y ?%elem_of_nil.
  - intros (j & Hj & Hin & Hnd & Hseen)%IH. exists (S j). cbn. split_and!; [done| | |].
    + rewrite elem_of_cons. set_solver.
    + apply NoDup_cons. split; [|done]. intros Hx. apply (Hseen x Hx). set_solver.
    + intros y [->|Hy]%elem_of_cons; [done|]. specialize (Hseen y Hy). set_solver.
Qed.

(** A state [validate] accepts. *)
Definition sound_graph (ts : list Ticket) : Prop :=
  NoDup (t_id <$> ts) /\
  (forall t dep, t ∈ ts -> dep ∈ t_depends_on t -> dep ∈ (t_id <$> ts)) /\ acyclic ts.

Lemma validate_ok ts : validate ts = Ok tt <-> sound_graph ts.
Proof.
  unfold validate, sound_graph. pose proof (first_duplicate_spec ∅ (t_id <$> ts)) as H1.
  pose proof (first_unknown_dep_spec (list_to_set (t_id <$> ts)) ts) as H2.
  pose proof (first_cycle_spec ts) as H3.
  destruct (first_duplicate _ _) as [id|].
  { split; [done|]. intros (Hn & _). destruct H1 as [_ H1]. exfalso. apply H1. split; [done|]. set_solver. }
  destruct (first_unknown_dep _ _) as [[id dep]|].
  { split; [done|]. intros (_ & Hk & _). destruct H2 as (t & Ht & _ & Hd & Hn). exfalso.
    apply Hn, elem_of_list_to_set. by eapply Hk. }
  destruct (first_dependency_cycle ts) as [d|]; split; try done.
  - intros (_ & _ & Ha). by apply Ha in H3.
  - intros _. split_and!; [apply H1| |done]. intros t dep Ht Hd.
    apply (elem_of_list_to_set (C:=gset string)). by eapply H2.
Qed.

(** *** New tickets *)

Lemma deps_of_snoc ts t n : t_id t ∉ (t_id <$> ts) ->
  deps_of (ts ++ [t]) n = if decide (n = t_id t) then t_depends_on t else deps_of ts n.
Proof.
  intros Hf. unfold deps_of, find_ticket. induction ts as [|u ts IH]; cbn.
  - unfold is_ticket. case_bool_decide as E; case_decide; congruence.
  - rewrite fmap_cons, not_elem_of_cons in Hf. destruct Hf as [Hu Hf]. unfold is_ticket at 1 3.
    case_bool_decide as E; [rewrite decide_False by congruence; done|by apply IH].
Qed.

(** A new ticket whose dependencies are known keeps the graph sound. *)
Lemma sound_graph_snoc ts t :
  sound_graph ts -> t_id t ∉ (t_id <$> ts) -> (forall d, d ∈ t_depends_on t -> d ∈ (t_id <$> ts)) ->
  sound_graph (ts ++ [t]).
Proof.
  intros (Hnd & Hk & Ha) Hf Hd. unfold sound_graph. rewrite fmap_app. split_and!.
  - apply NoDup_app. split_and!; [done| |apply NoDup_singleton].
    by intros x Hx ->%list_elem_of_singleton.
  - intros u dep [Hu|Hu%list_elem_of_singleton]%elem_of_app Hdep; apply elem_of_app; left; [by eapply Hk|].
    apply Hd. by rewrite <- Hu.
  - assert (Hedge : forall a b, dep_edge (ts ++ [t]) a b -> b ∈ (t_id <$> ts) /\ (a = t_id t \/ dep_edge ts a b)).
    { intros a b. unfold dep_edge. rewrite deps_of_snoc by done. case_decide as E.
      - intros Hb. split; [by apply Hd|by left].
      - intros Hb. split; [|by right]. unfold deps_of in Hb. destruct (find_ticket a ts) as [u|] eqn:Eu.
        + apply find_ticket_id in Eu as [_ Hu]. by eapply Hk.
        + by apply elem_of_nil in Hb. }
    assert (Hold : forall a b, tc (dep_edge (ts ++ [t])) a b -> a ∈ (t_id <$> ts) -> tc (dep_edge ts) a b).
    { induction 1 as [a b He|a b c He Htc IH]; intros Hin; apply Hedge in He as [Hb [->|He]]; try done.
      - by apply tc_once.
      - eapply tc_l; [done|by apply IH]. }
    intros a Hcyc. assert (Hin : a ∈ (t_id <$> ts)).
    { clear -Hcyc Hedge. remember a as b eqn:Eb in Hcyc at 2. rewrite <- Eb. clear Eb.
      induction Hcyc as [a b He|a b c He Htc IH]; [by apply Hedge in He as [? _]|exact IH]. }
    by apply (Ha a), Hold.
Qed.

(** Soundness only looks at ids and dependencies. *)
Definition node_of (t : Ticket) : TicketId * list TicketId := (t_id t, t_depends_on t).

Lemma sound_graph_ext ts ts' :
  node_of <$> ts = node_of <$> ts' -> sound_graph ts -> sound_graph ts'.
Proof.
  intros He. assert (Hids : t_id <$> ts = t_id <$> ts').
  { assert (Hid : forall l : list Ticket, t_id <$> l = fst <$> (node_of <$> l)).
    { intros l. by rewrite <- list_fmap_compose. }
    by rewrite !Hid, He. }
  assert (Hdeps : forall n, deps_of ts' n = deps_of ts n).
  { intros n. unfold deps_of, find_ticket. clear Hids. revert ts' He.
    induction ts as [|u ts IH]; intros [|u' ts'] He; try done.
    injection He as Hu Hdu He. cbn. unfold is_ticket at 1 3. rewrite <- Hu.
    case_bool_decide; [done|by apply IH]. }
  intros (Hnd & Hk & Ha). unfold sound_graph. rewrite <- Hids. split_and!; [done| |].
  - intros t dep Ht Hdep. assert (Hin : node_of t ∈ (node_of <$> ts)).
    { rewrite He. by apply list_elem_of_fmap_2. }
    apply list_elem_of_fmap in Hin as (u & [= Hi Hdu] & Hu). eapply Hk; [done|]. by rewrite <- Hdu.
  - intros a Hcyc. apply (Ha a). revert Hcyc. clear -Hdeps. unfold dep_edge. generalize a at 1 3. intros b.
    induction 1 as [x y Hxy|x y z Hxy _ IH]; rewrite Hdeps in Hxy; [by apply tc_once|by eapply tc_l].
Qed.

(** ** Properties *)

(** C4: the cycle search is complete and exact. On any ticket list, whatever its
    duplicate ids and unknown dependencies, it ends within its fuel, it returns
    nothing exactly when no ticket reaches itself through dependencies, and the
    ticket it returns does reach itself. *)
Theorem cycle_search_exact ts :
  dfs_all (dfs_fuel ts) ts (t_id <$> ts) (initial_colors ts)
    = Some (first_dependency_cycle ts) /\
  (first_dependency_cycle ts = None <-> acyclic ts) /\
  (forall d, first_dependency_cycle ts = Some d -> tc (dep_edge ts) d d).
Proof.
  pose proof (first_cycle_spec ts) as H. split_and!.
  - unfold first_dependency_cycle. by destruct (dfs_all_spec ts) as (r & -> & _).
  - destruct (first_dependency_cycle ts) as [d|]; [|done]. split; [done|]. intros Ha. by apply Ha in H.
  - intros d E. by rewrite E in H.
Qed.

(** [validate] refuses for a reason and misses none. It accepts a ticket list
    exactly when its ids are distinct, every dependency names a ticket and the
    dependency graph has no cycle. A refusal names the first id that repeats an
    earlier one; or, when the ids are distinct, a ticket and a dependency of it
    that is no ticket; or, when those are all known, a ticket that reaches
    itself. *)
Theorem validate_exact ts :
  match validate ts with
  | Ok _ => sound_graph ts
  | Err (DuplicateTicketId id) =>
      exists j, (t_id <$> ts) !! j = Some id /\ id ∈ take j (t_id <$> ts) /\ NoDup (take j (t_id <$> ts))
  | Err (UnknownDependency id dep) =>
      NoDup (t_id <$> ts) /\ exists t, t ∈ ts /\ t_id t = id /\ dep ∈ t_depends_on t /\ dep ∉ (t_id <$> ts)
  | Err (DependencyCycle n) =>
      NoDup (t_id <$> ts) /\
      (forall t dep, t ∈ ts -> dep ∈ t_depends_on t -> dep ∈ (t_id <$> ts)) /\ tc (dep_edge ts) n n
  end.
Proof.
  destruct (validate ts) as [[]|e] eqn:Ev; [by apply validate_ok|]. revert Ev. unfold validate.
  pose proof (first_duplicate_spec ∅ (t_id <$> ts)) as H1.
  pose proof (first_unknown_dep_spec (list_to_set (t_id <$> ts)) ts) as H2.
  pose proof (first_cycle_spec ts) as H3.
  destruct (first_duplicate _ _) as [id|] eqn:E1.
  { intros [= <-]. apply first_duplicate_at in E1 as (j & Hj & [Hin|?%elem_of_empty] & Hnd & _); [|done].
    by exists j. }
  assert (Hmem : forall x, x ∈ (list_to_set (t_id <$> ts) : gset string) <-> x ∈ (t_id <$> ts))
    by (intros x; apply elem_of_list_to_set).
  destruct (first_unknown_dep _ _) as [[id dep]|].
  { intros [= <-]. split; [apply H1|]. destruct H2 as (t & Ht & Hi & Hd & Hn). exists t. by rewrite <- Hmem. }
  destruct (first_dependency_cycle ts) as [d|]; intros [= <-]. split_and!; [apply H1| |done].
  intros t dep Ht Hd. apply Hmem. by eapply H2.
Qed.

(** ** Witnesses *)

Definition dep_ticket (id : string) (deps : list string) : Ticket :=
  mkTicket id Feature "t" "" Low CSmall Pending false (mkDesign None None) None deps [] []
    None None None None None [] None.

Definition diamond : list Ticket :=
  [dep_ticket "A" ["B"; "C"]; dep_ticket "B" ["D"]; dep_ticket "C" ["D"]; dep_ticket "D" []].
Definition ring : list Ticket :=
  [dep_ticket "A" ["B"]; dep_ticket "B" ["D"; "C"]; dep_ticket "C" ["A"]; dep_ticket "D" []].

Example diamond_valid : validate diamond = Ok tt.
Proof. vm_compute. reflexivity. Qed.
Example ring_refused : validate ring = Err (DependencyCycle "A").
Proof. vm_compute. reflexivity. Qed.
