(* ===== verification/StateOps.v ===== *)
(** * Operations on the project state's ledgers

    The [impl ProjectState] methods of [state/mod.rs] that append to, cap or
    edit the state's ledgers. [now] is [now_rfc3339()], [new_id] is [mint_id()]. *)
From Stdlib Require Import SpecFloat.
From S2P Require Import Prelude RustStr Kinds TestCase Ticket State.

Definition MAX_ACTIVITY : nat := 60.
Definition MAX_COMMENTS : nat := 500.
Definition MAX_CHAT : nat := 500.
Definition MAX_SPEND_HISTORY : nat := 60.
Definition MAX_REVERT_EVENTS : nat := 100.
Definition MAX_TUNING_HISTORY : nat := 500.

(** [map.entry(k).or_default()] followed by a push and a drain to the newest [cap]. *)
Definition push_entry {A} (cap : nat) (k : string) (x : A) (m : gmap string (list A))
    : gmap string (list A) :=
  <[k := push_capped cap x (default [] (m !! k))]> m.

(** ** Activity, reverts, evidence, failures *)

Definition log_activity (now agent action : string) (tk : option string) (st : ProjectState)
    : ProjectState :=
  st <| activity ::= push_capped MAX_ACTIVITY (mkActivityEntry now agent action tk) |>.

Definition record_revert (ev : RevertEvent) (st : ProjectState) : ProjectState * bool :=
  if existsb (fun e => bool_decide (rev_sha e = rev_sha ev)) (reverted_work st) then (st, false)
  else (st <| reverted_work ::= push_capped MAX_REVERT_EVENTS ev |>, true).

Definition is_pending_revert (sha : string) (e : RevertEvent) : bool :=
  bool_decide (rev_sha e = sha) && bool_decide (rev_decision e = RevPending).

Definition decide_revert (now sha : string) (decision : RevertDecision) (by_ : string)
    (st : ProjectState) : ProjectState * bool :=
  match List.find (is_pending_revert sha) (reverted_work st) with
  | None => (st, false)
  | Some _ =>
      (st <| reverted_work ::= update_first (is_pending_revert sha)
              (fun ev => ev <| rev_decision := decision |> <| rev_decided_at := Some now |>
                            <| rev_decided_by := Some by_ |>) |>, true)
  end.

Definition add_evidence_for (now tk kind label detail : string) (source_gates : list string)
    (actor : string) (st : ProjectState) : ProjectState :=
  let ev := mkEvidence kind (take_chars 120 label) (take_chars 1200 detail) now source_gates actor in
  st <| ticket_evidence ::= push_entry 6 tk ev |>.

Definition add_evidence (now tk kind label detail : string) (st : ProjectState) : ProjectState :=
  add_evidence_for now tk kind label detail [] "" st.

Definition record_attempt_failure (tk : string) (failure : AttemptFailure) (st : ProjectState)
    : ProjectState :=
  st <| ticket_failures ::= push_entry 6 tk failure |>.

Definition attempt_failures (tk : string) (st : ProjectState) : list AttemptFailure :=
  default [] (ticket_failures st !! tk).

Definition record_tuning_change (entry : TuningAuditEntry) (st : ProjectState) : ProjectState :=
  st <| tuning_history ::= push_capped MAX_TUNING_HISTORY entry |>.

Definition journal_note (tk note : string) (st : ProjectState) : ProjectState :=
  let entry := take_chars 500 (trim note) in
  if bool_decide (entry = "") then st
  else st <| ticket_journal ::= push_entry 4 tk entry |>.

(** ** Engine incidents *)

Definition is_incident (engine : string) (i : EngineIncident) : bool :=
  bool_decide (ei_engine i = engine).

Definition open_engine_incident (now engine role reason : string) (st : ProjectState)
    : ProjectState :=
  let reason := take_chars 300 (trim reason) in
  match List.find (is_incident engine) (engine_incidents st) with
  | Some _ =>
      st <| engine_incidents ::= update_first (is_incident engine)
              (fun inc => inc <| ei_hits ::= fun h => u32_sat_add h 1 |> <| ei_reason := reason |>) |>
  | None =>
      st <| engine_incidents ::= fun l => l ++ [mkEngineIncident engine reason role now 1] |>
  end.

(** [v.remove(v.iter().position(p)?)] *)
Fixpoint remove_first {A} (p : A -> bool) (l : list A) : list A :=
  match l with
  | [] => []
  | x :: l' => if p x then l' else x :: remove_first p l'
  end.

Definition close_engine_incident (engine : string) (st : ProjectState)
    : ProjectState * option EngineIncident :=
  match List.find (is_incident engine) (engine_incidents st) with
  | None => (st, None)
  | Some inc => (st <| engine_incidents ::= remove_first (is_incident engine) |>, Some inc)
  end.

(** ** Spend *)

Definition add_daily_spend (now : string) (usd : f64) (st : ProjectState) : ProjectState * f64 :=
  let today := default "" (str_get_to 10 now) in
  let st :=
    if decide (spend_day st = today) then st
    else
      let st :=
        if decide (spend_day st = "") then st
        else st <| spend_history ::=
                     push_capped MAX_SPEND_HISTORY (mkSpendDay (spend_day st) (spend_today_usd st)) |>
      in
      st <| spend_day := today |> <| spend_today_usd := f64_zero |>
         <| budget_warned_daily := false |> in
  let st := st <| spend_today_usd ::= fun s => f64_add s usd |> in
  (st, spend_today_usd st).

(** ** Comments, chat, reviews, open PRs *)

Definition post_comment_att (new_id now author body : string) (tk : option string)
    (atts : list Attachment) (st : ProjectState) : ProjectState :=
  st <| comments ::= push_capped MAX_COMMENTS (mkComment new_id now author "" body tk atts []) |>.

Definition post_comment (new_id now author body : string) (tk : option string) (st : ProjectState)
    : ProjectState :=
  post_comment_att new_id now author body tk [] st.

Definition post_comment_by (new_id now author by_ body : string) (tk : option string)
    (st : ProjectState) : ProjectState :=
  st <| comments ::= push_capped MAX_COMMENTS (mkComment new_id now author by_ body tk [] []) |>.

Definition post_chat_in (new_id now user body channel : string) (atts : list Attachment)
    (st : ProjectState) : ProjectState :=
  st <| chat ::= push_capped MAX_CHAT
          (mkChatMsg new_id now user body None channel atts [] None 0 false) |>.

Definition GENERAL_CHANNEL : string := "general".

Definition post_chat_att (new_id now user body : string) (atts : list Attachment) (st : ProjectState)
    : ProjectState :=
  post_chat_in new_id now user body GENERAL_CHANNEL atts st.

Definition post_chat (new_id now user body : string) (st : ProjectState) : ProjectState :=
  post_chat_att new_id now user body [] st.

Definition chat_in (channel : string) (st : ProjectState) : list ChatMsg :=
  List.filter (fun m => bool_decide (ch_channel m = channel)) (chat st).

(** The reaction list after [user] toggles [emoji]. *)
Definition toggle_reaction (user emoji : string) (rs : list Reaction) : list Reaction :=
  let hit r := bool_decide (rx_emoji r = emoji) in
  let rs :=
    match List.find hit rs with
    | Some r =>
        if one_of user (rx_users r)
        then update_first hit
               (fun r => r <| rx_users ::= remove_first (fun u => bool_decide (u = user)) |>) rs
        else update_first hit (fun r => r <| rx_users ::= fun us => us ++ [user] |>) rs
    | None => rs ++ [mkReaction emoji [user]]
    end in
  List.filter (fun r => negb (bool_decide (rx_users r = []))) rs.

Definition react_comment (id user emoji : string) (st : ProjectState)
    : ProjectState * option Comment :=
  let hit c := bool_decide (cm_id c = id) in
  match List.find hit (comments st) with
  | None => (st, None)
  | Some c =>
      let f c := c <| cm_reactions ::= toggle_reaction user emoji |> in
      (st <| comments ::= update_first hit f |>, Some (f c))
  end.

Definition is_review (number : N) (r : PrReview) : bool := bool_decide (rv_number r = number).
Definition is_pr (number : N) (p : PrOpen) : bool := bool_decide (po_number p = number).

(** [pr_age created] is the whole seconds since a parseable RFC 3339 stamp, when
    they fit a [u64] (the [time] crate and the clock). *)
Definition upsert_review (pr_age : string -> option N) (now : string) (number : N)
    (decision summary head_sha : string) (st : ProjectState) : ProjectState :=
  let latency :=
    match List.find (is_pr number) (open_prs st) ≫= (fun p => pr_age (po_created p)) with
    | Some s => Some s
    | None => List.find (is_review number) (reviews st) ≫= rv_latency_secs
    end in
  let review := mkPrReview number decision summary now head_sha latency in
  let rs :=
    match List.find (is_review number) (reviews st) with
    | Some _ =>
        update_first (is_review number)
          (fun r => review <| rv_latency_secs :=
                     match rv_latency_secs r with Some s => Some s | None => latency end |>)
          (reviews st)
    | None => reviews st ++ [review]
    end in
  st <| reviews := keep_last 50 rs |>.

Definition upsert_open_pr (pr : PrOpen) (st : ProjectState) : ProjectState :=
  let prs :=
    match List.find (is_pr (po_number pr)) (open_prs st) with
    | Some _ => update_first (is_pr (po_number pr)) (fun _ => pr) (open_prs st)
    | None => open_prs st ++ [pr]
    end in
  st <| open_prs := keep_last 50 prs |>.

Definition set_open_prs (prs : list PrOpen) (st : ProjectState) : ProjectState :=
  let v := take 50 prs in
  st <| open_prs := v |>
     <| human_holds ::= filter (fun '(n, _) => existsb (is_pr n) v = true) |>.

(** ** Documents and decisions *)

Definition is_doc (id : string) (d : DocPage) : bool := bool_decide (dp_id d = id).

Definition upsert_doc (new_id now id folder category title body author : string)
    (st : ProjectState) : ProjectState * DocPage :=
  match List.find (is_doc id) (docs st) with
  | Some p =>
      let f p := mkDocPage (dp_id p) folder category title body now author in
      (st <| docs ::= update_first (is_doc id) f |>, f p)
  | None =>
      let page := mkDocPage (if decide (id = "") then new_id else id)
                    folder category title body now author in
      (st <| docs ::= fun l => l ++ [page] |>, page)
  end.

Definition remove_doc (id : string) (st : ProjectState) : ProjectState * bool :=
  let kept := List.filter (fun d => negb (is_doc id d)) (docs st) in
  (st <| docs := kept |>, negb (length kept =? length (docs st))).

Definition add_decision (decision : string) (st : ProjectState) : ProjectState :=
  let d := trim (replace_byte "010" " " (trim decision)) in
  if bool_decide (d = "") || one_of d (decisions st) then st
  else st <| decisions ::= push_capped 20 d |>.

Definition clean_path (path : string) : string := trim_matches "/" (trim path).

Definition add_doc_folder (path : string) (st : ProjectState) : ProjectState :=
  let path := clean_path path in
  if bool_decide (path = "") || one_of path (doc_folders st) then st
  else st <| doc_folders ::= fun l => l ++ [path] |>.

Definition STANDARD_DOC_FOLDERS : list string :=
  ["Product"; "Architecture"; "Design"; "Engineering"; "QA"; "Release Notes"; "Operations"; "Team"].

Definition ensure_standard_folders (st : ProjectState) : ProjectState :=
  fold_left (fun st f => add_doc_folder f st) STANDARD_DOC_FOLDERS st.

(** [standard_doc_folder] ([state/docs.rs]) *)
Definition standard_doc_folder (ty : TicketType) : string :=
  match ty with Feature => "Product" | Chore | Bug => "Engineering" end.

(** The folder [normalize_doc_folders] routes a feature page to. *)
Definition doc_route (st : ProjectState) (d : DocPage) : option (string * string) :=
  raw ← strip_prefix "feat-" (dp_id d);
  tid ← result_ok (TicketId_new raw);
  t ← ticket tid st;
  Some (dp_id d, standard_doc_folder (t_kind t)).

Definition normalize_doc_folders (st : ProjectState) : ProjectState :=
  fold_left (fun st '(id, folder) =>
      st <| docs ::= update_first (is_doc id) (fun p => p <| dp_folder := folder |>) |>)
    (omap (doc_route st) (docs st)) st.

Definition under_folder (path f : string) : bool :=
  bool_decide (f = path) || starts_with (path +:+ "/") f.

Definition remove_doc_folder (path : string) (st : ProjectState) : ProjectState * list string :=
  let path := clean_path path in
  if bool_decide (path = "") then (st, [])
  else
    let under d := under_folder path (dp_folder d) in
    (st <| doc_folders ::= List.filter (fun f => negb (under_folder path f)) |>
        <| docs ::= List.filter (fun d => negb (under d)) |>,
     dp_id <$> List.filter under (docs st)).

Definition move_doc (now id folder : string) (st : ProjectState) : ProjectState * bool :=
  let folder := clean_path folder in
  match List.find (is_doc id) (docs st) with
  | None => (st, false)
  | Some _ =>
      (st <| docs ::= update_first (is_doc id)
              (fun p => p <| dp_folder := folder |> <| dp_updated_at := now |>) |>, true)
  end.

Definition open_refactor_count (st : ProjectState) : nat :=
  length (List.filter (fun t => starts_with "Refactor:" (t_title t) &&
                                negb (one_of (t_status t) [Done; Documented])) (tickets st)).
