(* ===== verification/Questions.v ===== *)
(** * The agents' question ledger

    [ask_question], [forward_question] and [answer_question] of [state/mod.rs]
    over the bounded list of questions the agents put to people and to each
    other. *)
From S2P Require Import Prelude RustStr Kinds TestCase Ticket State StateOps.

Definition MAX_QUESTIONS : nat := 40.

(** [AgentQuestion::is_open] *)
Definition is_open (q : AgentQuestion) : bool := blank (q_answer q).

Definition open_on (tk : string) (q : AgentQuestion) : bool :=
  bool_decide (q_ticket q = tk) && is_open q.

Definition open_question (tk : string) (qs : list AgentQuestion) : option AgentQuestion :=
  List.find (open_on tk) qs.

Definition answered_questions (tk : string) (qs : list AgentQuestion) : list AgentQuestion :=
  List.filter (fun q => bool_decide (q_ticket q = tk) && negb (is_open q)) qs.

(** One turn of the eviction loop: an answered question goes first. *)
Definition evict_one (qs : list AgentQuestion) : list AgentQuestion :=
  if existsb (fun q => negb (is_open q)) qs
  then remove_first (fun q => negb (is_open q)) qs
  else drop 1 qs.

(** [while self.questions.len() > 40 { ... }], one question per turn. *)
Fixpoint evict (fuel : nat) (qs : list AgentQuestion) : list AgentQuestion :=
  match fuel with
  | O => qs
  | S fuel' => if MAX_QUESTIONS <? length qs then evict fuel' (evict_one qs) else qs
  end.

Definition question_key (tk : string) : string := if decide (tk = "") then "open" else tk.

Definition question_id (tk : string) (qs : list AgentQuestion) : string :=
  question_key tk +:+ "#" +:+
  dec_nat (S (length (List.filter (fun q => bool_decide (q_ticket q = tk)) qs))).

Definition ask (now tk from to body : string) (qs : list AgentQuestion)
    : list AgentQuestion * bool :=
  let body := trim body in
  if bool_decide (body = "") || bool_decide (is_Some (open_question tk qs)) then (qs, false)
  else
    let q := mkAgentQuestion (question_id tk qs) tk from to (take_chars 600 body) "" now ""
               false false false in
    let qs := qs ++ [q] in
    (evict (length qs) qs, true).

Definition is_question (id : string) (q : AgentQuestion) : bool := bool_decide (q_id q = id).

Definition forward (id to : string) (qs : list AgentQuestion) : list AgentQuestion * bool :=
  match List.find (is_question id) qs with
  | None => (qs, false)
  | Some q =>
      if q_forwarded q || bool_decide (q_to q = to) || negb (is_open q) then (qs, false)
      else (update_first (is_question id) (fun q => q <| q_to := to |> <| q_forwarded := true |>) qs,
            true)
  end.

Definition answer (now id text : string) (qs : list AgentQuestion) : list AgentQuestion * bool :=
  let text := trim text in
  if bool_decide (text = "") then (qs, false)
  else match List.find (is_question id) qs with
  | None => (qs, false)
  | Some _ =>
      (update_first (is_question id)
         (fun q => q <| q_answer := take_chars 1500 text |> <| q_answered_at := now |>) qs, true)
  end.

Definition on_questions (f : list AgentQuestion -> list AgentQuestion * bool) (st : ProjectState)
    : ProjectState * bool :=
  let '(qs, b) := f (questions st) in (st <| questions := qs |>, b).

Definition ask_question (now tk from to body : string) : ProjectState -> ProjectState * bool :=
  on_questions (ask now tk from to body).
Definition forward_question (id to : string) : ProjectState -> ProjectState * bool :=
  on_questions (forward id to).
Definition answer_question (now id text : string) : ProjectState -> ProjectState * bool :=
  on_questions (answer now id text).

(** ** The ledger as a machine *)

Inductive QuestionOp :=
| QAsk (now tk from to body : string)
| QForward (id to : string)
| QAnswer (now id text : string).

Definition question_step (op : QuestionOp) (qs : list AgentQuestion) : list AgentQuestion :=
  match op with
  | QAsk now tk from to body => (ask now tk from to body qs).1
  | QForward id to => (forward id to qs).1
  | QAnswer now id text => (answer now id text qs).1
  end.

Definition run_questions (ops : list QuestionOp) (qs : list AgentQuestion) : list AgentQuestion :=
  fold_left (fun qs op => question_step op qs) ops qs.

(** The tickets with an open question, once per open question. *)
Definition open_tickets (qs : list AgentQuestion) : list string :=
  q_ticket <$> List.filter is_open qs.

(** At most forty questions, and at most one open per ticket. *)
Record questions_wf (qs : list AgentQuestion) : Prop := {
  qw_len : length qs <= MAX_QUESTIONS;
  qw_open : NoDup (open_tickets qs);
}.

(** ** Lemmas *)

Lemma filter_remove_first {A} (p : A -> bool) (l : list A) :
  List.filter (fun x => negb (p x)) (remove_first p l) = List.filter (fun x => negb (p x)) l.
Proof. induction l as [|x l IH]; cbn; [done|]. destruct (p x) eqn:E; cbn; rewrite ?E; cbn; [done|]. by rewrite IH. Qed.

Lemma remove_first_app {A} (p : A -> bool) (l k : list A) :
  existsb p l = true -> remove_first p (l ++ k) = remove_first p l ++ k.
Proof. induction l as [|x l IH]; cbn; [done|]. destruct (p x); cbn; [done|]. intros. by rewrite IH. Qed.

Lemma length_remove_first {A} (p : A -> bool) (l : list A) :
  existsb p l = true -> S (length (remove_first p l)) = length l.
Proof. induction l as [|x l IH]; cbn; [done|]. destruct (p x); cbn; [done|]. intros. by rewrite IH. Qed.

Lemma length_evict_one qs : length (evict_one qs) = length qs - 1.
Proof.
  unfold evict_one. destruct (existsb _ qs) eqn:E; [|by rewrite length_drop].
  apply length_remove_first in E. lia.
Qed.

(** Eviction takes an open question only when every question is open. *)
Lemma evict_one_open qs :
  existsb (fun q => negb (is_open q)) qs = true ->
  List.filter is_open (evict_one qs) = List.filter is_open qs.
Proof.
  intros H. unfold evict_one. rewrite H.
  pose proof (filter_remove_first (fun q => negb (is_open q)) qs) as Hf.
  assert (Heq : forall l, List.filter (fun q => negb (negb (is_open q))) l = List.filter is_open l)
    by (intros l; apply List.filter_ext; intros q; apply negb_involutive).
  by rewrite !Heq in Hf.
Qed.

Lemma evict_one_sublist qs : evict_one qs `sublist_of` qs.
Proof.
  unfold evict_one. destruct (existsb _ qs).
  - induction qs as [|q qs IH]; cbn; [done|]. destruct (negb _); [by constructor|by constructor].
  - apply sublist_drop.
Qed.

Lemma evict_sublist fuel qs : evict fuel qs `sublist_of` qs.
Proof.
  revert qs. induction fuel as [|fuel IH]; intros qs; cbn; [done|].
  case_match; [|done]. etrans; [apply IH|apply evict_one_sublist].
Qed.

Lemma evict_len fuel qs : length qs - fuel <= MAX_QUESTIONS -> length (evict fuel qs) <= MAX_QUESTIONS.
Proof.
  revert qs. induction fuel as [|fuel IH]; intros qs H; cbn [evict]; [lia|].
  destruct (Nat.ltb_spec MAX_QUESTIONS (length qs)); [|lia].
  apply IH. rewrite length_evict_one. lia.
Qed.

Lemma filter_sublist {A} (p : A -> bool) (l k : list A) :
  l `sublist_of` k -> List.filter p l `sublist_of` List.filter p k.
Proof. induction 1; cbn; [done| |]; destruct (p x); first [done | by constructor]. Qed.

Lemma open_tickets_sublist qs qs' :
  qs `sublist_of` qs' -> NoDup (open_tickets qs') -> NoDup (open_tickets qs).
Proof. intros H Hn. eapply sublist_NoDup; [exact Hn|]. by apply fmap_sublist, filter_sublist. Qed.

Lemma open_question_none tk qs : open_question tk qs = None <-> tk ∉ open_tickets qs.
Proof.
  unfold open_tickets. split.
  - intros H Hin. apply list_elem_of_fmap in Hin as (q & -> & Hq).
    apply list_elem_of_In, List.filter_In in Hq as [Hq Ho]. apply list_elem_of_In in Hq.
    pose proof (find_is_none _ _ H q Hq) as Hf. unfold open_on in Hf.
    by rewrite bool_decide_true, Ho in Hf.
  - intros Hn. destruct (open_question tk qs) as [q|] eqn:E; [|done]. exfalso. apply Hn.
    apply find_elem in E as [Hq [<-%bool_decide_eq_true Ho]%andb_prop].
    apply list_elem_of_fmap_2, list_elem_of_In, List.filter_In.
    split; [by apply list_elem_of_In|done].
Qed.

(** *** The invariant under each operation *)

Lemma ask_wf now tk from to body qs :
  questions_wf qs -> questions_wf (ask now tk from to body qs).1.
Proof.
  intros [Hl Ho]. unfold ask. destruct (_ || _) eqn:E; [done|]. cbn [fst].
  apply orb_false_elim in E as [_ E%bool_decide_eq_false].
  constructor; [apply evict_len; lia|].
  eapply open_tickets_sublist; [apply evict_sublist|].
  unfold open_tickets. rewrite List.filter_app, fmap_app. cbn.
  apply NoDup_app. split_and!; [done| |apply NoDup_singleton].
  intros x Hx ->%list_elem_of_singleton. apply E.
  destruct (open_question tk qs) eqn:Eo; [done|]. by apply open_question_none in Eo.
Qed.

Lemma update_questions_wf p f qs :
  (forall q, q_ticket (f q) = q_ticket q) -> (forall q, is_open (f q) = true -> is_open q = true) ->
  questions_wf qs -> questions_wf (update_first p f qs).
Proof.
  intros Ht Hf [Hl Ho]. constructor; [by rewrite length_update_first|]. clear Hl. revert Ho.
  unfold open_tickets. induction qs as [|q qs IH]; cbn [update_first]; [done|].
  destruct (p q); cbn [List.filter].
  - specialize (Hf q). destruct (is_open (f q)), (is_open q); cbn; try done.
    + by rewrite Ht.
    + by specialize (Hf eq_refl).
    + by intros [_ ?]%NoDup_cons.
  - assert (Hsub : forall x, x ∈ q_ticket <$> List.filter is_open (update_first p f qs) ->
              x ∈ q_ticket <$> List.filter is_open qs).
    { clear IH. induction qs as [|r qs IH]; cbn; [done|]. intros x. destruct (p r); cbn.
      - specialize (Hf r). destruct (is_open (f r)), (is_open r); cbn; rewrite ?Ht; try done.
        + by specialize (Hf eq_refl).
        + intros H. by right.
      - destruct (is_open r); cbn; [|apply IH]. rewrite !elem_of_cons. intros [->|H]; auto. }
    destruct (is_open q); cbn; [|by apply IH].
    intros [Hn Hnd]%NoDup_cons. apply NoDup_cons. split; [|by apply IH]. by intros H%Hsub.
Qed.

Lemma answer_closes now text q :
  trim text <> "" ->
  is_open (q <| q_answer := take_chars 1500 (trim text) |> <| q_answered_at := now |>) = false.
Proof. intros H. destruct q. unfold is_open. cbn -[take_chars trim]. apply take_chars_nonblank; [lia|done]. Qed.

Lemma question_step_wf op qs : questions_wf qs -> questions_wf (question_step op qs).
Proof.
  intros H. destruct op; cbn [question_step].
  - by apply ask_wf.
  - unfold forward. case_match; [|done]. destruct (_ || _); [done|]. cbn [fst].
    apply update_questions_wf; [by intros []|by intros []|done].
  - unfold answer. case_bool_decide as Ht; [done|]. case_match; [|done]. cbn [fst].
    apply update_questions_wf; [by intros []| |done].
    intros q Hq. by rewrite answer_closes in Hq.
Qed.

(** ** Properties *)

(** from an empty ledger, any sequence of asks, forwards and answers keeps at
    most forty questions and at most one open question per ticket. *)
Theorem questions_invariant ops : questions_wf (run_questions ops []).
Proof.
  assert (H : forall qs, questions_wf qs -> questions_wf (run_questions ops qs)).
  { induction ops as [|op ops IH]; intros qs Hq; [done|]. apply IH, question_step_wf, Hq. }
  apply H. constructor; cbn; [unfold MAX_QUESTIONS; lia|apply NoDup_nil_2].
Qed.

(** asking is never lost. A non-blank question on a ticket with none open is
    appended open, under the ticket's next ordinal, as the newest entry, and while
    any question is already answered no open question is evicted to make room. *)
Theorem ask_keeps_open now tk from to body qs :
  questions_wf qs -> trim body <> "" -> tk ∉ open_tickets qs ->
  let qs' := (ask now tk from to body qs).1 in
  (ask now tk from to body qs).2 = true /\
  (exists q, last qs' = Some q /\ q_id q = question_id tk qs /\ q_ticket q = tk /\
     q_body q = take_chars 600 (trim body) /\ is_open q = true) /\
  (existsb (fun q => negb (is_open q)) qs = true -> open_tickets qs' = open_tickets qs ++ [tk]).
Proof.
  intros [Hl _] Hb Hn. cbn zeta. unfold ask.
  rewrite bool_decide_false by done. apply open_question_none in Hn. rewrite Hn. cbn [orb].
  rewrite bool_decide_false by (by intros []). cbn [fst snd].
  set (q := mkAgentQuestion _ _ _ _ _ _ _ _ _ _ _).
  assert (Hev : evict (length (qs ++ [q])) (qs ++ [q])
            = if MAX_QUESTIONS <? length (qs ++ [q]) then evict_one (qs ++ [q]) else qs ++ [q]).
  { rewrite length_app. cbn [length]. rewrite Nat.add_1_r. cbn [evict].
    rewrite length_app. cbn [length]. rewrite Nat.add_1_r.
    destruct (Nat.ltb_spec MAX_QUESTIONS (S (length qs))); [|done].
    destruct (length qs) as [|n] eqn:E; [unfold MAX_QUESTIONS in *; lia|]. cbn [evict].
    rewrite length_evict_one, length_app. cbn [length].
    destruct (Nat.ltb_spec MAX_QUESTIONS (length qs + 1 - 1)); [lia|done]. }
  rewrite Hev. split_and!; [done| |].
  - exists q. split; [|done]. destruct (Nat.ltb_spec MAX_QUESTIONS (length (qs ++ [q]))) as [Hlt|];
      [|apply last_snoc].
    unfold evict_one. rewrite List.existsb_app. cbn [existsb].
    assert (is_open q = true) as -> by done. rewrite orb_false_r.
    destruct (existsb _ qs) eqn:E.
    + rewrite remove_first_app by done. apply last_snoc.
    + rewrite length_app in Hlt. cbn in Hlt.
      destruct qs as [|q0 qs]; [unfold MAX_QUESTIONS in *; cbn in *; lia|]. cbn. apply last_snoc.
  - intros He. assert (Hq : open_tickets (qs ++ [q]) = open_tickets qs ++ [tk])
      by (unfold open_tickets; by rewrite List.filter_app, fmap_app).
    destruct (_ <? _); [|done]. unfold open_tickets. rewrite evict_one_open; [done|].
    rewrite List.existsb_app, He. done.
Qed.

(** answering closes exactly one question when its id is unique, so the
    ticket can be asked about again. *)
Theorem answer_frees_ticket now text id q qs :
  questions_wf qs -> NoDup (q_id <$> qs) -> q ∈ qs -> q_id q = id -> is_open q = true ->
  trim text <> "" ->
  (answer now id text qs).2 = true /\ q_ticket q ∉ open_tickets (answer now id text qs).1.
Proof.
  intros [_ Ho] Hid Hq <- Hopen Ht. unfold answer. rewrite bool_decide_false by done.
  assert (Hp : is_question (q_id q) q = true) by by apply bool_decide_eq_true.
  rewrite (keyed_find q_id _ qs q) by (done || by intros y ?%bool_decide_eq_true).
  cbn [fst snd]. split; [done|].
  set (f := fun q => _). intros Hin. apply list_elem_of_fmap in Hin as (r & Htk & Hr).
  apply list_elem_of_In, List.filter_In in Hr as [Hr Hro]. apply list_elem_of_In in Hr.
  assert (Hf : forall x, is_open (f x) = false) by (intros x; by apply answer_closes).
  assert (Hrq : r = q).
  { pose proof Hr as Hr'. apply elem_of_update_first in Hr' as [Hin|(x & _ & ->)];
      [|by rewrite Hf in Hro].
    apply (keyed_inj q_ticket (List.filter is_open qs)); [exact Ho| | |done];
      apply list_elem_of_In, List.filter_In; split; try done; by apply list_elem_of_In. }
  subst r. assert (Hfq : f q ∈ update_first (is_question (q_id q)) f qs).
  { clear -Hq Hid Hp. revert Hq Hid. induction qs as [|x qs IH]; [by intros ?%elem_of_nil|].
    rewrite fmap_cons, NoDup_cons. cbn [update_first]. intros [->|Hq]%elem_of_cons [Hn Hnd].
    - rewrite Hp. left.
    - destruct (is_question (q_id q) x) eqn:E; [|right; by apply IH].
      apply bool_decide_eq_true in E. exfalso. apply Hn. rewrite E. by apply list_elem_of_fmap_2. }
  assert (Hsame : q = f q).
  { apply (keyed_inj q_id (update_first (is_question (q_id q)) f qs)); [|done..|by destruct q].
    by rewrite map_update_first by by intros []. }
  rewrite Hsame, Hf in Hopen. done.
Qed.

(** ** The ids are not unique *)

(** Three answered questions on "T", then thirty-eight on other tickets: the
    first of "T" is evicted, and the next one asked gets the id the third has. *)
Definition collide_ops : list QuestionOp :=
  [QAsk "t" "T" "dev" "ba" "one?"; QAnswer "t" "T#1" "yes";
   QAsk "t" "T" "dev" "ba" "two?"; QAnswer "t" "T#2" "no";
   QAsk "t" "T" "dev" "ba" "three?"; QAnswer "t" "T#3" "maybe"] ++
  ((fun n => QAsk "t" ("U" +:+ dec_nat n) "dev" "ba" "x?") <$> seq 0 38) ++
  [QAsk "t" "T" "dev" "ba" "four?"].

(** An id is minted from the number of questions the ledger still holds, so
    after an eviction it can repeat: a reachable ledger has two questions "T#3",
    the answer meant for the open one is reported as recorded but overwrites the
    older answered one, and the ticket stays blocked on its open question. *)
Theorem question_id_collision :
  exists qs, qs = run_questions collide_ops [] /\ ~ NoDup (q_id <$> qs) /\
    (answer "t" "T#3" "please do" qs).2 = true /\
    open_question "T" (answer "t" "T#3" "please do" qs).1 = open_question "T" qs /\
    is_Some (open_question "T" qs).
Proof.
  eexists. split; [reflexivity|]. split_and!.
  - intros Hn. assert (Hd : bool_decide (NoDup (q_id <$> run_questions collide_ops [])) = false)
      by (vm_compute; reflexivity).
    by apply bool_decide_eq_false in Hd.
  - vm_compute. reflexivity.
  - vm_compute. reflexivity.
  - vm_compute. eauto.
Qed.

(** ** Witnesses *)

Definition one_question : list AgentQuestion :=
  run_questions [QAsk "t" "T" "dev" "ba" "one?"] [].

Lemma ask_keeps_open_witness :
  (ask "t" "U" "dev" "ba" " why? " one_question).2 = true.
Proof.
  apply (ask_keeps_open "t" "U" "dev" "ba" " why? " one_question).
  - constructor; [vm_compute; lia|vm_compute; repeat constructor; by intros ?%elem_of_nil].
  - vm_compute. discriminate.
  - vm_compute. intros [H|H%elem_of_nil]%elem_of_cons; [discriminate H|done].
Defined.

Lemma answer_frees_ticket_witness :
  (answer "t" "T#1" "yes" one_question).2 = true.
Proof.
  apply (answer_frees_ticket "t" "yes" "T#1" (mkAgentQuestion "T#1" "T" "dev" "ba" "one?" "" "t" ""
           false false false) one_question).
  - constructor; [vm_compute; lia|vm_compute; repeat constructor; by intros ?%elem_of_nil].
  - vm_compute. repeat constructor. by intros ?%elem_of_nil.
  - vm_compute. left.
  - reflexivity.
  - vm_compute. reflexivity.
  - vm_compute. discriminate.
Defined.
