(* ===== verification/Goals.v ===== *)
(** * Goals, attention and drift

    [goal.rs] and the goal operations of [state/goals.rs], the human-attention
    ledger of [state/governance.rs] and the alert sync of [state/drift.rs]. *)
From S2P Require Import Prelude RustStr Kinds TestCase Ticket State StateOps.

(** ** [goal.rs] *)

Definition Goal_new (id : GoalId) (title : string) : result DomainError Goal :=
  if blank title then Err (Empty "goal_title") else Ok (mkGoal id (trim title) GActive).

Definition goal_rename (title : string) (g : Goal) : result DomainError Goal :=
  if blank title then Err (Empty "goal_title") else Ok (g <| g_title := trim title |>).

Definition goal_retire (g : Goal) : Goal := g <| g_status := GRetired |>.

Definition goal_is_active (g : Goal) : bool := bool_decide (g_status g = GActive).

(** ** [state/goals.rs] *)

Definition is_goal (id : GoalId) (g : Goal) : bool := bool_decide (g_id g = id).

(** [format!("G{n:03}")] *)
Definition goal_label (n : nat) : string := "G" +:+ dec_pad 3 n.

(** [while goals.iter().any(|g| g.id == id) { n += 1; id = ... }]; [None] when
    the fuel runs out. *)
Fixpoint fresh_goal (fuel n : nat) (gs : list Goal) : option (result DomainError GoalId) :=
  match GoalId_new (goal_label n) with
  | Err e => Some (Err e)
  | Ok id =>
      if existsb (is_goal id) gs
      then match fuel with O => None | S fuel' => fresh_goal fuel' (S n) gs end
      else Some (Ok id)
  end.

Definition add_goal (title : string) (gs : list Goal)
    : option (result DomainError (list Goal * GoalId)) :=
  match fresh_goal (length gs) (S (length gs)) gs with
  | None => None
  | Some r => Some (
      let? id := r in
      let? goal := Goal_new id title in
      Ok (gs ++ [goal], id))
  end.

Definition rename_goal (id : GoalId) (title : string) (gs : list Goal)
    : result DomainError (list Goal * bool) :=
  match List.find (is_goal id) gs with
  | None => Ok (gs, false)
  | Some g =>
      let? g' := goal_rename title g in
      Ok (update_first (is_goal id) (fun _ => g') gs, true)
  end.

Definition retire_goal (id : GoalId) (gs : list Goal) : list Goal * bool :=
  match List.find (is_goal id) gs with
  | None => (gs, false)
  | Some _ => (update_first (is_goal id) goal_retire gs, true)
  end.

Definition MAX_OUTCOME_LEDGER : nat := 500.

Definition record_verified_outcome (now tk : string) (st : ProjectState) : ProjectState * bool :=
  match ticket tk st with
  | None => (st, false)
  | Some t =>
      (st <| outcome_ledger ::= push_capped MAX_OUTCOME_LEDGER
               (mkOutcomeLedgerEntry (t_id t) (t_goal_id t) (deploy st ≫= ds_commit_sha) now) |>, true)
  end.

Record GoalOutcome := mkGoalOutcome {
  go_goal_id : string;
  go_title : string;
  go_status : GoalStatus;
  go_contributions : N;
}.

(** The reason texts of [outcome_report], as data. *)
Inductive UnattributedReason :=
| GoalNotInList (gid : GoalId)
| VerifiedWithoutGoal
| VerifiedBeforeTracking.

Record UnattributedOutcome := mkUnattributedOutcome {
  uo_ticket : string;
  uo_title : string;
  uo_reason : UnattributedReason;
}.

(** The newest ledger entry of a ticket: [iter().rev().find(..)]. *)
Definition ledger_entry (tk : TicketId) (st : ProjectState) : option OutcomeLedgerEntry :=
  List.find (fun e => bool_decide (ol_ticket e = tk)) (reverse (outcome_ledger st)).

Definition declared_goal (st : ProjectState) (t : Ticket) : option GoalId :=
  match t_goal_id t with
  | Some g => Some g
  | None => ledger_entry (t_id t) st ≫= ol_goal
  end.

Definition is_outcome (gid : GoalId) (g : GoalOutcome) : bool := bool_decide (go_goal_id g = gid).

(** One turn of the loop over the tickets. *)
Definition report_ticket (st : ProjectState) (acc : list GoalOutcome * list UnattributedOutcome)
    (t : Ticket) : list GoalOutcome * list UnattributedOutcome :=
  let '(gs, un) := acc in
  if decide (t_status t <> Verified) then acc
  else match declared_goal st t with
  | Some gid =>
      match List.find (is_outcome gid) gs with
      | Some _ =>
          (update_first (is_outcome gid) (fun g => g <| go_contributions ::= fun c => u32_wrap (c + 1) |>) gs,
           un)
      | None => (gs, un ++ [mkUnattributedOutcome (t_id t) (t_title t) (GoalNotInList gid)])
      end
  | None =>
      let reason := match ledger_entry (t_id t) st with
                    | Some _ => VerifiedWithoutGoal
                    | None => VerifiedBeforeTracking
                    end in
      (gs, un ++ [mkUnattributedOutcome (t_id t) (t_title t) reason])
  end.

Definition outcome_report (st : ProjectState) : list GoalOutcome * list UnattributedOutcome :=
  fold_left (report_ticket st) (tickets st)
    ((fun g => mkGoalOutcome (g_id g) (g_title g) (g_status g) 0) <$> goals st, []).

(** ** [state/governance.rs] *)

Definition MAX_GOVERNANCE_INTERVENTIONS : nat := 500.

Definition push_intervention (rec : InterventionRecord) (st : ProjectState) : ProjectState :=
  st <| governance_interventions ::= push_capped MAX_GOVERNANCE_INTERVENTIONS rec |>.

(** The area of a ticket id, when it names a ticket. *)
Definition ticket_area (tk : string) (st : ProjectState) : option TicketType :=
  tid ← result_ok (TicketId_new tk); t_kind <$> ticket tid st.

Definition record_intervention (now : string) (kind : InterventionKind) (tk by_ : string)
    (st : ProjectState) : ProjectState :=
  push_intervention (mkInterventionRecord kind tk (ticket_area tk st) by_ now) st.

Definition record_pr_intervention (now : string) (kind : InterventionKind) (number : N)
    (by_ : string) (st : ProjectState) : ProjectState :=
  let head := default "" (po_head <$> List.find (is_pr number) (open_prs st)) in
  let tk := split_last "/" head in
  push_intervention (mkInterventionRecord kind tk (ticket_area tk st) by_ now) st.

(** [decision_identity]: the second the decision was taken in, not its fraction. *)
Definition decision_identity (r : InterventionRecord) : string * string * string * string :=
  (intervention_key (iv_kind r), iv_ticket r, iv_by r, default (iv_at r) (str_get_to 19 (iv_at r))).

(** [*map.entry(k).or_insert(0) += 1] *)
Definition count_key (k : string) (m : gmap string N) : gmap string N :=
  <[k := u64_wrap (default 0%N (m !! k) + 1)]> m.

Fixpoint attention_loop (since : string) (recs : list InterventionRecord)
    (seen : list (string * string * string * string)) (by_area by_kind : gmap string N)
    : gmap string N * gmap string N :=
  match recs with
  | [] => (by_area, by_kind)
  | rec :: recs' =>
      if str_le (iv_at rec) since then attention_loop since recs' seen by_area by_kind
      else if bool_decide (decision_identity rec ∈ seen)
      then attention_loop since recs' seen by_area by_kind
      else
        attention_loop since recs' (decision_identity rec :: seen)
          (match iv_area rec with Some a => count_key (ticket_type_key a) by_area | None => by_area end)
          (count_key (intervention_key (iv_kind rec)) by_kind)
  end.

Definition attention_delta_since (since : string) (st : ProjectState)
    : gmap string N * gmap string N :=
  attention_loop since (governance_interventions st) [] ∅ ∅.

(** ** [state/drift.rs] *)

Record Violation := mkViolation { v_area : string; v_message : string }.

Definition is_alert (v : Violation) (a : DriftAlert) : bool :=
  bool_decide (da_area a = v_area v) && bool_decide (da_message a = v_message v).

(** An open alert is kept whole; a new violation asks [bug_for] once. *)
Definition alert_for (now : string) (bug_for : Violation -> option string)
    (open : list DriftAlert) (v : Violation) : DriftAlert :=
  match List.find (is_alert v) open with
  | Some a => a
  | None => mkDriftAlert (v_area v) (v_message v) (default "" (bug_for v)) now
  end.

Definition sync_drift_alerts (now : string) (bug_for : Violation -> option string)
    (vs : list Violation) (st : ProjectState) : ProjectState * bool :=
  let next := alert_for now bug_for (drift_alerts st) <$> vs in
  (st <| drift_alerts := next |>, negb (bool_decide (next = drift_alerts st))).

(** ** Lemmas *)

Lemma goal_label_ok n : GoalId_new (goal_label n) = Ok (goal_label n).
Proof.
  unfold GoalId_new, goal_label.
  change ("G" +:+ dec_pad 3 n) with (String "G" (dec_pad 3 n)). rewrite blank_lead; [done|done|].
  intros p. unfold whitespace_chars. rewrite !elem_of_cons, elem_of_nil. intros H.
  destruct_or? H; discriminate.
Qed.

Lemma goal_label_inj n m : goal_label n = goal_label m -> n = m.
Proof.
  unfold goal_label. intros H. assert (Hd : dec_pad 3 n = dec_pad 3 m) by (injection H; done).
  clear H. rename Hd into H. apply (f_equal undec) in H.
  rewrite !undec_dec_pad in H. lia.
Qed.

Lemma is_goal_mem id gs : existsb (is_goal id) gs = true <-> id ∈ (g_id <$> gs).
Proof.
  rewrite List.existsb_exists, list_elem_of_fmap. split.
  - intros (g & Hg%list_elem_of_In & <-%bool_decide_eq_true). eauto.
  - intros (g & -> & Hg). exists g. split; [by apply list_elem_of_In|by apply bool_decide_eq_true].
Qed.

(** The loop stops at the first free label, or has seen every label taken. *)
Lemma fresh_goal_cases fuel n gs :
  (exists m, n <= m /\ fresh_goal fuel n gs = Some (Ok (goal_label m)) /\
     goal_label m ∉ (g_id <$> gs)) \/
  (forall k, k <= fuel -> goal_label (n + k) ∈ (g_id <$> gs)).
Proof.
  revert n. induction fuel as [|fuel IH]; intros n; cbn [fresh_goal]; rewrite goal_label_ok;
    destruct (existsb (is_goal (goal_label n)) gs) eqn:E.
  - right. intros k Hk. replace (n + k) with n by lia. by apply is_goal_mem.
  - left. exists n. split_and!; [lia|done|]. by rewrite <- is_goal_mem, E.
  - destruct (IH (S n)) as [(m & Hm & H1 & H2)|H].
    + left. exists m. split_and!; [lia|done..].
    + right. intros [|k] Hk; [rewrite Nat.add_0_r; by apply is_goal_mem|].
      replace (n + S k) with (S n + k) by lia. apply H. lia.
  - left. exists n. split_and!; [lia|done|]. by rewrite <- is_goal_mem, E.
Qed.

(** Among one more consecutive label than there are goals, one is free. *)
Lemma fresh_goal_found fuel n gs :
  length gs <= fuel ->
  exists m, n <= m /\ fresh_goal fuel n gs = Some (Ok (goal_label m)) /\
    goal_label m ∉ (g_id <$> gs).
Proof.
  intros Hl. destruct (fresh_goal_cases fuel n gs) as [?|H]; [done|exfalso].
  assert (Hsub : ((fun k => goal_label (n + k)) <$> seq 0 (S fuel)) ⊆+ (g_id <$> gs)).
  { apply NoDup_submseteq.
    - apply NoDup_fmap_2; [|apply NoDup_seq]. intros k j Hkj%goal_label_inj. lia.
    - intros x (k & -> & Hk%elem_of_seq)%list_elem_of_fmap. apply H. lia. }
  apply submseteq_length in Hsub. rewrite !length_fmap, length_seq in Hsub. lia.
Qed.

Lemma goal_new_ok id title g : Goal_new id title = Ok g -> g = mkGoal id (trim title) GActive /\ blank title = false.
Proof. unfold Goal_new. destruct (blank title); [done|]. by intros [= <-]. Qed.

(** ** The goal list as a machine *)

Inductive GoalOp := GAdd (title : string) | GRename (id : GoalId) (title : string) | GRetire (id : GoalId).

Definition goal_step (op : GoalOp) (gs : list Goal) : list Goal :=
  match op with
  | GAdd title => match add_goal title gs with Some (Ok (gs', _)) => gs' | _ => gs end
  | GRename id title => match rename_goal id title gs with Ok (gs', _) => gs' | Err _ => gs end
  | GRetire id => (retire_goal id gs).1
  end.

Definition run_goals (ops : list GoalOp) (gs : list Goal) : list Goal :=
  fold_left (fun gs op => goal_step op gs) ops gs.

Record goals_wf (gs : list Goal) : Prop := {
  gw_ids : NoDup (g_id <$> gs);
  gw_titles : Forall (fun g => trim (g_title g) = g_title g /\ g_title g <> "") gs;
}.

Lemma goal_step_ids op gs :
  (g_id <$> goal_step op gs) = (g_id <$> gs) \/
  exists id, id ∉ (g_id <$> gs) /\ (g_id <$> goal_step op gs) = (g_id <$> gs) ++ [id].
Proof.
  destruct op as [title|id title|id]; cbn [goal_step].
  - unfold add_goal. destruct (fresh_goal_found (length gs) (S (length gs)) gs) as (m & _ & -> & Hm);
      [done|]. cbn [result_bind].
    destruct (Goal_new _ title) as [g|] eqn:E; cbn; [|by left].
    apply goal_new_ok in E as [-> _]. right. exists (goal_label m). split; [done|]. by rewrite fmap_app.
  - left. unfold rename_goal. destruct (List.find _ gs) as [g|] eqn:E; [|done].
    unfold goal_rename. destruct (blank title); cbn; [done|].
    apply map_update_first. intros x Hx%bool_decide_eq_true.
    apply find_elem in E as [_ Hg%bool_decide_eq_true]. destruct g; cbn in *. congruence.
  - left. unfold retire_goal. destruct (List.find _ gs); [|done]. apply map_update_first. by intros [].
Qed.

Lemma trim_of_nonblank s : blank s = false -> trim (trim s) = trim s /\ trim s <> "".
Proof. intros H%blank_false. by rewrite trim_idemp. Qed.

Lemma goal_step_wf op gs : goals_wf gs -> goals_wf (goal_step op gs).
Proof.
  intros [Hi Ht]. constructor.
  - destruct (goal_step_ids op gs) as [->|(id & Hid & ->)]; [done|].
    apply NoDup_app. split_and!; [done| |apply NoDup_singleton].
    by intros x Hx ->%list_elem_of_singleton.
  - destruct op as [title|id title|id]; cbn [goal_step].
    + unfold add_goal. destruct (fresh_goal _ _ _) as [[i|]|]; cbn [result_bind]; [|done..].
      destruct (Goal_new i title) as [g|] eqn:E; cbn; [|done]. apply goal_new_ok in E as [-> Hb].
      apply Forall_app. split; [done|]. apply Forall_singleton, trim_of_nonblank, Hb.
    + unfold rename_goal. destruct (List.find _ gs) as [g|]; [|done].
      unfold goal_rename. destruct (blank title) eqn:Hb; cbn; [done|].
      apply update_first_Forall; [|done]. intros _ _ _. destruct g. by apply trim_of_nonblank.
    + unfold retire_goal. destruct (List.find _ gs); [|done].
      apply update_first_Forall; [|done]. by intros [].
Qed.

(** ** Properties *)

(** from no goals, any sequence of adds, renames and retirements keeps goal
    ids distinct and titles trimmed and non-empty, and never removes a goal or
    changes an id: the ids so far are a prefix of the ids after more operations. *)
Theorem goals_invariant ops more :
  goals_wf (run_goals (ops ++ more) []) /\
  (g_id <$> run_goals ops []) `prefix_of` (g_id <$> run_goals (ops ++ more) []).
Proof.
  assert (Hw : forall l gs, goals_wf gs -> goals_wf (run_goals l gs)).
  { induction l as [|op l IH]; intros gs H; [done|]. apply IH, goal_step_wf, H. }
  assert (Hp : forall l gs, (g_id <$> gs) `prefix_of` (g_id <$> run_goals l gs)).
  { induction l as [|op l IH]; intros gs; [done|]. etrans; [|apply IH].
    destruct (goal_step_ids op gs) as [->|(id & _ & ->)]; [done|by eexists]. }
  split.
  - apply Hw. constructor; [apply NoDup_nil_2|done].
  - unfold run_goals. rewrite fold_left_app. apply Hp.
Qed.

(** adding a goal always finds an id: the search for an unused label ends
    within as many turns as there are goals, whatever ids the list holds, and the
    goal is appended under that fresh id with its title trimmed; only a blank
    title is refused. *)
Theorem add_goal_total title gs :
  if blank title then add_goal title gs = Some (Err (Empty "goal_title"))
  else exists m, S (length gs) <= m /\ goal_label m ∉ (g_id <$> gs) /\
    add_goal title gs = Some (Ok (gs ++ [mkGoal (goal_label m) (trim title) GActive], goal_label m)).
Proof.
  unfold add_goal. destruct (fresh_goal_found (length gs) (S (length gs)) gs) as (m & Hm & -> & Hf);
    [done|]. unfold Goal_new. cbn [result_bind]. destruct (blank title) eqn:E; [done|].
  exists m. by split_and!.
Qed.

(** *** The report loop in closed form *)

(** A verified ticket whose declared goal is [gid]. *)
Definition credits (st : ProjectState) (gid : GoalId) (t : Ticket) : bool :=
  bool_decide (t_status t = Verified) && bool_decide (declared_goal st t = Some gid).

Definition credit_count (st : ProjectState) (gid : GoalId) (ts : list Ticket) : nat :=
  length (List.filter (credits st gid) ts).

(** What the loop reports of a verified ticket no listed goal is credited for. *)
Definition unattributed (st : ProjectState) (t : Ticket) : option UnattributedOutcome :=
  if decide (t_status t <> Verified) then None
  else match declared_goal st t with
  | Some gid => if one_of gid (g_id <$> goals st) then None
                else Some (mkUnattributedOutcome (t_id t) (t_title t) (GoalNotInList gid))
  | None => Some (mkUnattributedOutcome (t_id t) (t_title t)
              (match ledger_entry (t_id t) st with
               | Some _ => VerifiedWithoutGoal
               | None => VerifiedBeforeTracking
               end))
  end.

Definition credited (st : ProjectState) (ts : list Ticket) : list GoalOutcome :=
  (fun g => mkGoalOutcome (g_id g) (g_title g) (g_status g) (N.of_nat (credit_count st (g_id g) ts)))
    <$> goals st.

Lemma credit_count_snoc (st : ProjectState) gid ts t :
  credit_count st gid (ts ++ [t]) = credit_count st gid ts + (if credits st gid t then 1 else 0).
Proof.
  unfold credit_count. rewrite List.filter_app, length_app. cbn. by destruct (credits st gid t).
Qed.

Lemma credited_other (st : ProjectState) ts t :
  (forall gid, gid ∈ (g_id <$> goals st) -> credits st gid t = false) ->
  credited st (ts ++ [t]) = credited st ts.
Proof.
  intros H. apply list_fmap_ext. intros i g Hg. rewrite credit_count_snoc, H; [by rewrite Nat.add_0_r|].
  by apply list_elem_of_fmap_2, (list_elem_of_lookup_2 _ i).
Qed.

Lemma find_outcome gid (cnt : GoalId -> N) gs :
  bool_decide (is_Some (List.find (is_outcome gid)
     ((fun g => mkGoalOutcome (g_id g) (g_title g) (g_status g) (cnt (g_id g))) <$> gs)))
  = one_of gid (g_id <$> gs).
Proof.
  apply bool_decide_ext. induction gs as [|g gs IH]; cbn [fmap list_fmap List.find].
  - split; [by intros []|by intros ?%elem_of_nil].
  - unfold is_outcome at 1. cbn [go_goal_id]. case_bool_decide as E; rewrite elem_of_cons.
    + split; [|done]. by left.
    + rewrite IH. split; [by right|]. by intros [?|?].
Qed.

(** Crediting one goal of a list with distinct ids. *)
Lemma credited_bump (st : ProjectState) ts t gid :
  NoDup (g_id <$> goals st) -> credits st gid t = true ->
  (N.of_nat (length ts) < 4294967295)%N ->
  update_first (is_outcome gid) (fun g => g <| go_contributions ::= fun c => u32_wrap (c + 1) |>)
    (credited st ts) = credited st (ts ++ [t]).
Proof.
  intros Hnd Hc Hlen. unfold credited.
  assert (Hb : forall g, credit_count st g ts <= length ts) by (intros; apply List.filter_length_le).
  induction (goals st) as [|g gs IH]; [done|]. rewrite fmap_cons, NoDup_cons in Hnd.
  destruct Hnd as [Hn Hnd]. rewrite !fmap_cons. cbn [update_first]. unfold is_outcome at 1.
  cbn [go_goal_id]. rewrite credit_count_snoc. case_bool_decide as E.
  - subst gid. rewrite Hc. f_equal.
    + cbn. unfold u32_wrap. specialize (Hb (g_id g)). rewrite N.mod_small by lia. f_equal. lia.
    + apply list_fmap_ext. intros i g' Hg'. rewrite credit_count_snoc.
      assert (credits st (g_id g') t = false) as ->; [|by rewrite Nat.add_0_r].
      unfold credits in *. apply andb_prop in Hc as [-> Hd%bool_decide_eq_true]. cbn.
      apply bool_decide_false. rewrite Hd. intros [= Heq]. apply Hn. rewrite Heq.
      by apply list_elem_of_fmap_2, (list_elem_of_lookup_2 _ i).
  - rewrite IH by done. f_equal.
    assert (credits st (g_id g) t = false) as ->; [|by rewrite Nat.add_0_r].
    unfold credits in *. apply andb_prop in Hc as [-> Hd%bool_decide_eq_true]. cbn.
    apply bool_decide_false. rewrite Hd. by intros [= ->].
Qed.

Lemma report_step (st : ProjectState) ts un t :
  NoDup (g_id <$> goals st) -> (N.of_nat (length ts) < 4294967295)%N ->
  report_ticket st (credited st ts, un) t
  = (credited st (ts ++ [t]), un ++ option_list (unattributed st t)).
Proof.
  intros Hnd Hlen. unfold report_ticket, unattributed.
  case_decide as Hv.
  { cbn. rewrite app_nil_r, credited_other; [done|]. intros gid _. unfold credits.
    by rewrite bool_decide_false. }
  destruct (declared_goal st t) as [gid|] eqn:Hd.
  - assert (Hc : credits st gid t = true) by (unfold credits; by rewrite !bool_decide_true).
    assert (Hf : bool_decide (is_Some (List.find (is_outcome gid) (credited st ts)))
              = one_of gid (g_id <$> goals st))
      by exact (find_outcome gid (fun g => N.of_nat (credit_count st g ts)) (goals st)).
    destruct (List.find (is_outcome gid) (credited st ts)) as [o|] eqn:Eo.
    + rewrite bool_decide_true in Hf by done. rewrite <- Hf. cbn [option_list].
      rewrite app_nil_r. by rewrite <- credited_bump with (gid := gid).
    + rewrite bool_decide_false in Hf by (by intros []). rewrite <- Hf. cbn [option_list]. rewrite credited_other; [done|].
      intros g Hg. unfold credits. rewrite Hd. rewrite (bool_decide_false (Some gid = _)); [by rewrite andb_false_r|].
      intros [= ->]. unfold one_of in Hf. by rewrite bool_decide_true in Hf.
  - cbn. rewrite credited_other; [done|]. intros g Hg. unfold credits.
    by rewrite Hd, (bool_decide_false (None = _)), andb_false_r.
Qed.

(** the outcome report loses and double counts nothing. With distinct goal
    ids and fewer than 2^32 tickets, each goal's count is the number of verified
    tickets whose declared goal it is, and the unattributed list is exactly the
    other verified tickets, in order, each with its reason. *)
Theorem outcome_report_exact (st : ProjectState) :
  NoDup (g_id <$> goals st) -> (N.of_nat (length (tickets st)) <= 4294967295)%N ->
  outcome_report st = (credited st (tickets st), omap (unattributed st) (tickets st)).
Proof.
  intros Hnd. unfold outcome_report.
  change ((fun g => mkGoalOutcome (g_id g) (g_title g) (g_status g) 0) <$> goals st)
    with (credited st []).
  induction (tickets st) as [|t ts IH] using rev_ind; intros Hlen; [done|].
  rewrite length_app in Hlen. cbn [length] in Hlen.
  rewrite fold_left_app, IH by lia. cbn [fold_left].
  rewrite (report_step st ts _ t Hnd ltac:(lia)). f_equal.
  by rewrite omap_app.
Qed.

Definition reported_state : ProjectState :=
  let t := mkTicket "T-1" Feature "a" "" Medium CSmall Verified false (mkDesign None None) None [] [] []
             None None None None None [] None in
  ProjectState_default
    <| goals := [mkGoal "g-1" "Goal" GActive] |>
    <| tickets := [t <| t_goal_id := Some "g-1" |>; t <| t_id := "T-2" |>] |>.

Lemma outcome_report_exact_witness :
  outcome_report reported_state
  = ([mkGoalOutcome "g-1" "Goal" GActive 1], [mkUnattributedOutcome "T-2" "a" VerifiedBeforeTracking]).
Proof.
  rewrite (outcome_report_exact reported_state); [reflexivity| |vm_compute; discriminate].
  apply NoDup_singleton.
Defined.

Lemma sync_unchanged now bug_for vs (st : ProjectState) :
  (alert_for now bug_for (drift_alerts st) <$> vs) = drift_alerts st ->
  sync_drift_alerts now bug_for vs st = (st, false).
Proof. intros H. unfold sync_drift_alerts. rewrite H. by rewrite bool_decide_true. Qed.

(** Syncing drift alerts is idempotent. A second sync over the same violations
    keeps every alert, with its bug and its first time, whatever the clock and the
    bug lookup answer then, and reports no change. *)
Theorem drift_sync_idempotent now now' bug_for bug_for' vs (st : ProjectState) :
  let st' := (sync_drift_alerts now bug_for vs st).1 in
  sync_drift_alerts now' bug_for' vs st' = (st', false).
Proof.
  set (next := alert_for now bug_for (drift_alerts st) <$> vs).
  apply sync_unchanged. change (drift_alerts _) with next.
  transitivity (alert_for now bug_for (drift_alerts st) <$> vs); [|done].
  apply list_fmap_ext. intros i v Hv. apply list_elem_of_lookup_2 in Hv.
  assert (Hself : is_alert v (alert_for now bug_for (drift_alerts st) v) = true).
  { unfold alert_for. destruct (List.find _ _) as [a|] eqn:E; [by apply find_elem in E as [_ ?]|].
    unfold is_alert. cbn. by rewrite !bool_decide_true. }
  unfold alert_for at 1. destruct (List.find (is_alert v) next) as [a|] eqn:E.
  - apply find_elem in E as [Ha Hm]. subst next. apply list_elem_of_fmap in Ha as (w & -> & Hw).
    assert (v = w) as ->; [|done].
    assert (Hw' : is_alert w (alert_for now bug_for (drift_alerts st) w) = true).
    { unfold alert_for. destruct (List.find (is_alert w) _) as [a|] eqn:E; [by apply find_elem in E as [_ ?]|].
      unfold is_alert. cbn. by rewrite !bool_decide_true. }
    apply andb_prop in Hm as [H1%bool_decide_eq_true H2%bool_decide_eq_true].
    apply andb_prop in Hw' as [H3%bool_decide_eq_true H4%bool_decide_eq_true].
    destruct v, w; cbn in *; congruence.
  - exfalso. pose proof (find_is_none _ _ E (alert_for now bug_for (drift_alerts st) v)) as Hf.
    rewrite Hself in Hf. discriminate Hf. by apply list_elem_of_fmap_2.
Qed.
