(* ===== verification/Ledgers.v ===== *)
(** * The state's ledgers as one machine

    Every ledger operation of [StateOps.v] and [Goals.v] as a step, and the
    bounds and key uniqueness all reachable states satisfy. *)
From S2P Require Import Prelude RustStr Kinds TestCase Ticket State StateOps Goals.

Inductive LedgerOp :=
| LActivity (now agent action : string) (tk : option string)
| LRevert (ev : RevertEvent)
| LDecideRevert (now sha : string) (decision : RevertDecision) (by_ : string)
| LEvidence (now tk kind label detail : string) (gates : list string) (actor : string)
| LFailure (tk : string) (failure : AttemptFailure)
| LTuning (entry : TuningAuditEntry)
| LJournal (tk note : string)
| LOpenIncident (now engine role reason : string)
| LCloseIncident (engine : string)
| LSpend (now : string) (usd : f64)
| LComment (new_id now author body : string) (tk : option string) (atts : list Attachment)
| LCommentBy (new_id now author by_ body : string) (tk : option string)
| LChat (new_id now user body channel : string) (atts : list Attachment)
| LReact (id user emoji : string)
| LReview (now : string) (number : N) (decision summary head_sha : string)
| LOpenPr (pr : PrOpen)
| LSetPrs (prs : list PrOpen)
| LDoc (new_id now id folder category title body author : string)
| LRemoveDoc (id : string)
| LMoveDoc (now id folder : string)
| LAddFolder (path : string)
| LRemoveFolder (path : string)
| LStandardFolders
| LNormalizeFolders
| LDecision (decision : string)
| LIntervention (now : string) (kind : InterventionKind) (tk by_ : string)
| LPrIntervention (now : string) (kind : InterventionKind) (number : N) (by_ : string)
| LOutcome (now tk : string).

Definition ledger_op (pr_age : string -> option N) (op : LedgerOp) (st : ProjectState)
    : ProjectState :=
  match op with
  | LActivity now agent action tk => log_activity now agent action tk st
  | LRevert ev => (record_revert ev st).1
  | LDecideRevert now sha d by_ => (decide_revert now sha d by_ st).1
  | LEvidence now tk k l d gates actor => add_evidence_for now tk k l d gates actor st
  | LFailure tk f => record_attempt_failure tk f st
  | LTuning e => record_tuning_change e st
  | LJournal tk note => journal_note tk note st
  | LOpenIncident now e r reason => open_engine_incident now e r reason st
  | LCloseIncident e => (close_engine_incident e st).1
  | LSpend now usd => (add_daily_spend now usd st).1
  | LComment i now a b tk atts => post_comment_att i now a b tk atts st
  | LCommentBy i now a by_ b tk => post_comment_by i now a by_ b tk st
  | LChat i now u b c atts => post_chat_in i now u b c atts st
  | LReact i u e => (react_comment i u e st).1
  | LReview now n d s h => upsert_review pr_age now n d s h st
  | LOpenPr pr => upsert_open_pr pr st
  | LSetPrs prs => set_open_prs prs st
  | LDoc i now id f c t b a => (upsert_doc i now id f c t b a st).1
  | LRemoveDoc id => (remove_doc id st).1
  | LMoveDoc now id f => (move_doc now id f st).1
  | LAddFolder p => add_doc_folder p st
  | LRemoveFolder p => (remove_doc_folder p st).1
  | LStandardFolders => ensure_standard_folders st
  | LNormalizeFolders => normalize_doc_folders st
  | LDecision d => add_decision d st
  | LIntervention now k tk by_ => record_intervention now k tk by_ st
  | LPrIntervention now k n by_ => record_pr_intervention now k n by_ st
  | LOutcome now tk => (record_verified_outcome now tk st).1
  end.

Definition run_ledger (pr_age : string -> option N) (ops : list LedgerOp) (st : ProjectState)
    : ProjectState :=
  fold_left (fun st op => ledger_op pr_age op st) ops st.

(** Every per-ticket list of a map within its cap. *)
Definition lists_capped {A} (cap : nat) (m : gmap string (list A)) : Prop :=
  map_Forall (fun _ l => length l <= cap) m.

Record ledgers_wf (st : ProjectState) : Prop := {
  lw_activity : length (activity st) <= MAX_ACTIVITY;
  lw_reverts : length (reverted_work st) <= MAX_REVERT_EVENTS;
  lw_revert_shas : NoDup (rev_sha <$> reverted_work st);
  lw_evidence : lists_capped 6 (ticket_evidence st);
  lw_failures : lists_capped 6 (ticket_failures st);
  lw_journal : lists_capped 4 (ticket_journal st);
  lw_tuning : length (tuning_history st) <= MAX_TUNING_HISTORY;
  lw_incidents : NoDup (ei_engine <$> engine_incidents st);
  lw_spend : length (spend_history st) <= MAX_SPEND_HISTORY;
  lw_comments : length (comments st) <= MAX_COMMENTS;
  lw_reactions : Forall (fun c => Forall (fun r => rx_users r <> []) (cm_reactions c)) (comments st);
  lw_chat : length (chat st) <= MAX_CHAT;
  lw_reviews : length (reviews st) <= 50;
  lw_review_numbers : NoDup (rv_number <$> reviews st);
  lw_prs : length (open_prs st) <= 50;
  lw_decisions : length (decisions st) <= 20;
  lw_decision_texts : NoDup (decisions st) /\ Forall (fun d => trim d = d /\ d <> "") (decisions st);
  lw_folders : NoDup (doc_folders st) /\ Forall (fun f => f <> "") (doc_folders st);
  lw_interventions : length (governance_interventions st) <= MAX_GOVERNANCE_INTERVENTIONS;
  lw_outcomes : length (outcome_ledger st) <= MAX_OUTCOME_LEDGER;
}.

Lemma push_entry_capped {A} cap k (x : A) m : lists_capped cap m -> lists_capped cap (push_entry cap k x m).
Proof. intros H. apply map_Forall_insert_2; [apply push_capped_le|done]. Qed.

#[export] Hint Resolve push_entry_capped : cox.

(** An operation on one ledger leaves the conditions on the others alone. *)
Ltac ledger := intros []; constructor; try assumption; cbn; unfold constant; auto with cox.

Lemma fmap_id_capped n (x : string) l : NoDup l -> x ∉ l -> NoDup (push_capped n x l).
Proof.
  intros H Hx. rewrite <- (list_fmap_id (push_capped n x l)).
  apply (push_capped_keys id); by rewrite list_fmap_id.
Qed.

Lemma elem_of_push_capped {A} n (x : A) (P : A -> Prop) l :
  P x -> Forall P l -> Forall P (push_capped n x l).
Proof. apply push_capped_Forall. Qed.

Lemma revert_wf ev st : ledgers_wf st -> ledgers_wf (record_revert ev st).1.
Proof.
  unfold record_revert. destruct (existsb _ _) eqn:E; [done|]. ledger.
  apply push_capped_keys; [done|]. intros Hin. apply list_elem_of_fmap in Hin as (e & He & Hin).
  assert (existsb (fun e => bool_decide (rev_sha e = rev_sha ev)) (reverted_work st) = true); [|congruence].
  apply List.existsb_exists. exists e. split; [by apply list_elem_of_In|by apply bool_decide_eq_true].
Qed.

Lemma decide_revert_wf now sha d by_ st : ledgers_wf st -> ledgers_wf (decide_revert now sha d by_ st).1.
Proof.
  unfold decide_revert. destruct (List.find _ _); [|done]. ledger.
  - by rewrite length_update_first.
  - rewrite map_update_first; [done|by intros []].
Qed.

Lemma open_incident_wf now e r reason st :
  ledgers_wf st -> ledgers_wf (open_engine_incident now e r reason st).
Proof.
  unfold open_engine_incident. cbv zeta. destruct (List.find _ _) eqn:E; ledger.
  - rewrite map_update_first; [done|by intros []].
  - rewrite fmap_app. apply NoDup_app. split_and!; [done| |apply NoDup_singleton].
    intros x Hx ->%list_elem_of_singleton. by eapply find_none_key in E.
Qed.

Lemma remove_first_sublist {A} (p : A -> bool) l : remove_first p l `sublist_of` l.
Proof. induction l as [|x l IH]; cbn; [done|]. destruct (p x); by constructor. Qed.

Lemma close_incident_wf e st : ledgers_wf st -> ledgers_wf (close_engine_incident e st).1.
Proof.
  unfold close_engine_incident. destruct (List.find _ _); [|done]. ledger.
  eapply sublist_NoDup; [exact lw_incidents0|]. apply fmap_sublist, remove_first_sublist.
Qed.

Lemma spend_wf now usd st : ledgers_wf st -> ledgers_wf (add_daily_spend now usd st).1.
Proof.
  unfold add_daily_spend. cbv zeta. intros H. cbn [fst].
  assert (Hs : forall st', ledgers_wf st' -> ledgers_wf (st' <| spend_today_usd ::= fun s => f64_add s usd |>))
    by (intros st'; ledger).
  apply Hs. case_decide; [done|].
  assert (Ht : forall st' d, ledgers_wf st' ->
    ledgers_wf (st' <| spend_day := d |> <| spend_today_usd := f64_zero |> <| budget_warned_daily := false |>))
    by (intros st' d; ledger).
  apply Ht. case_decide; [done|]. revert H. ledger.
Qed.

Lemma toggle_reaction_ok u e rs : Forall (fun r => rx_users r <> []) (toggle_reaction u e rs).
Proof.
  unfold toggle_reaction. cbv zeta. apply Forall_forall. intros r [_ Hr]%elem_of_filter_bool.
  by apply negb_true_iff, bool_decide_eq_false in Hr.
Qed.

Lemma react_wf i u e st : ledgers_wf st -> ledgers_wf (react_comment i u e st).1.
Proof.
  unfold react_comment. cbv zeta. destruct (List.find _ _); [|done]. ledger.
  - by rewrite length_update_first.
  - apply update_first_Forall; [|done]. intros [] ? ?. apply toggle_reaction_ok.
Qed.

Lemma review_wf pr_age now n d s h st : ledgers_wf st -> ledgers_wf (upsert_review pr_age now n d s h st).
Proof.
  unfold upsert_review. cbv zeta. ledger.
  apply keep_last_keys. destruct (List.find (is_review n) (reviews st)) eqn:E.
  - rewrite map_update_first; [done|]. intros x Hx%bool_decide_eq_true. done.
  - rewrite fmap_app. apply NoDup_app. split_and!; [done| |apply NoDup_singleton].
    intros x Hx ->%list_elem_of_singleton. by eapply find_none_key in E.
Qed.

Lemma open_pr_wf pr st : ledgers_wf st -> ledgers_wf (upsert_open_pr pr st).
Proof. unfold upsert_open_pr. cbv zeta. ledger. Qed.

Lemma set_prs_wf prs st : ledgers_wf st -> ledgers_wf (set_open_prs prs st).
Proof. unfold set_open_prs. cbv zeta. ledger. rewrite length_take. lia. Qed.

Lemma upsert_doc_wf new_id now id f c t b a st :
  ledgers_wf st -> ledgers_wf (upsert_doc new_id now id f c t b a st).1.
Proof. unfold upsert_doc. destruct (List.find _ _); ledger. Qed.

Lemma move_doc_wf now id f st : ledgers_wf st -> ledgers_wf (move_doc now id f st).1.
Proof. unfold move_doc. cbv zeta. destruct (List.find _ _); [|done]. ledger. Qed.

Lemma one_of_false {A} `{EqDecision A} (x : A) l : one_of x l = false -> x ∉ l.
Proof. unfold one_of. apply bool_decide_eq_false. Qed.

Lemma add_folder_wf p st : ledgers_wf st -> ledgers_wf (add_doc_folder p st).
Proof.
  unfold add_doc_folder. cbv zeta. destruct (_ || _) eqn:E; [done|].
  apply orb_false_iff in E as [Hne%bool_decide_eq_false Hin%one_of_false].
  ledger. destruct lw_folders0 as [Hn Hf]. split.
  - apply NoDup_app. split_and!; [done| |apply NoDup_singleton]. by intros x Hx ->%list_elem_of_singleton.
  - apply Forall_app. by split; [|constructor].
Qed.

Lemma standard_folders_wf st : ledgers_wf st -> ledgers_wf (ensure_standard_folders st).
Proof. apply fold_left_invariant. intros a b. apply add_folder_wf. Qed.

Lemma normalize_wf st : ledgers_wf st -> ledgers_wf (normalize_doc_folders st).
Proof. unfold normalize_doc_folders. apply fold_left_invariant. intros a [i f]. ledger. Qed.

Lemma remove_folder_wf p st : ledgers_wf st -> ledgers_wf (remove_doc_folder p st).1.
Proof.
  unfold remove_doc_folder. cbv zeta. case_bool_decide; [done|]. ledger.
  destruct lw_folders0 as [Hn Hf]. split.
  - eapply sublist_NoDup; [exact Hn|apply filter_bool_sublist].
  - eapply sublist_Forall; [apply filter_bool_sublist|exact Hf].
Qed.

Lemma decision_wf d st : ledgers_wf st -> ledgers_wf (add_decision d st).
Proof.
  unfold add_decision. cbv zeta. destruct (_ || _) eqn:E; [done|].
  apply orb_false_iff in E as [Hne%bool_decide_eq_false Hin%one_of_false].
  ledger. destruct lw_decision_texts0 as [Hn Hf]. split.
  - by apply fmap_id_capped.
  - apply push_capped_Forall; [|done]. split; [apply trim_idemp|done].
Qed.

Lemma outcome_wf now tk st : ledgers_wf st -> ledgers_wf (record_verified_outcome now tk st).1.
Proof. unfold record_verified_outcome. destruct (ticket tk st); [|done]. ledger. Qed.

Lemma journal_wf tk note st : ledgers_wf st -> ledgers_wf (journal_note tk note st).
Proof. unfold journal_note. cbv zeta. case_bool_decide; [done|]. ledger. Qed.

Lemma ledger_op_wf pr_age op st : ledgers_wf st -> ledgers_wf (ledger_op pr_age op st).
Proof.
  destruct op; cbn [ledger_op];
    eauto using revert_wf, decide_revert_wf, open_incident_wf, close_incident_wf, spend_wf, react_wf,
      review_wf, open_pr_wf, set_prs_wf, upsert_doc_wf, move_doc_wf, add_folder_wf, standard_folders_wf,
      normalize_wf, remove_folder_wf, decision_wf, outcome_wf, journal_wf.
  all: ledger.
Qed.

Lemma default_ledgers_wf : ledgers_wf ProjectState_default.
Proof.
  constructor; cbn; auto using NoDup_nil_2, Forall_nil_2; try (unfold MAX_ACTIVITY, MAX_REVERT_EVENTS,
    MAX_TUNING_HISTORY, MAX_SPEND_HISTORY, MAX_COMMENTS, MAX_CHAT, MAX_GOVERNANCE_INTERVENTIONS,
    MAX_OUTCOME_LEDGER; lia); try apply map_Forall_empty.
Qed.

(** Whatever sequence of ledger operations runs on a fresh project state, every ledger keeps its bound (activity 60, reverts 100, six evidence and failure rows and four journal notes per ticket, tuning 500, spend 60 days, comments and chat 500, reviews, open pull requests 50, decisions 20, interventions 500, outcomes), reverted commits, engine incidents, reviews, decisions and folders are never recorded twice under one key, no comment carries a reaction without a user, and every recorded decision is trimmed and non-empty. *)
Theorem ledgers_invariant pr_age ops : ledgers_wf (run_ledger pr_age ops ProjectState_default).
Proof.
  unfold run_ledger. apply fold_left_invariant; [intros; by apply ledger_op_wf|apply default_ledgers_wf].
Qed.
