(* ===== verification/Selection.v ===== *)
(** * Ticket selection

    [selection.rs]: which ticket each lane of the team works on next. Every queue
    is the tickets of one lane in the same order: committed to the sprint first,
    then priority, then id. *)
From S2P Require Import Prelude RustStr Kinds TestCase Ticket State StateOps.

Definition below_bug_burn_floor (floor : option Priority) (p : Priority) : bool :=
  match floor with Some f => priority_lt p f | None => false end.

Definition active_bug_burn_floor (st : ProjectState) : option Priority :=
  sprint st ≫= sp_bug_burn_floor.

Definition is_work (t : Ticket) : bool := one_of (t_kind t) [Feature; Chore].
Definition is_bug (t : Ticket) : bool := bool_decide (t_kind t = Bug).

Definition deps_satisfied (st : ProjectState) (t : Ticket) : bool :=
  forallb (fun dep =>
    match ticket dep st with
    | Some d => one_of (t_status d) [Done; Documented; Verified]
    | None => false
    end) (t_depends_on t).

Definition in_dev_scope (st : ProjectState) (id : TicketId) : bool :=
  let scoped := match sprint st with
                | None => true
                | Some sp => one_of id (sp_committed sp)
                end in
  match ticket id st with
  | Some t => if is_bug t && bool_decide (t_status t = Open)
              then negb (below_bug_burn_floor (active_bug_burn_floor st) (t_priority t))
              else scoped
  | None => scoped
  end.

Definition priority_rank (p : Priority) : nat :=
  match p with Low => 0 | Medium => 1 | High => 2 end.

(** The comparator of [candidates]: [true] when [a] does not come after [b]. *)
Definition cand_le (st : ProjectState) (a b : Ticket) : bool :=
  let a_in := in_dev_scope st (t_id a) in
  let b_in := in_dev_scope st (t_id b) in
  if Bool.eqb a_in b_in then
    if priority_rank (t_priority a) =? priority_rank (t_priority b) then str_le (t_id a) (t_id b)
    else priority_rank (t_priority b) <? priority_rank (t_priority a)
  else a_in.

Definition candidates (st : ProjectState) (pred : Ticket -> bool) : list TicketId :=
  t_id <$> sort_by (cand_le st) (List.filter pred (tickets st)).

(** ** The lanes *)

Definition bug_pred (st : ProjectState) (t : Ticket) : bool :=
  is_bug t && one_of (t_status t) [Open; Ready; Pending] &&
  negb (below_bug_burn_floor (active_bug_burn_floor st) (t_priority t)).

Definition open_bug_candidates (st : ProjectState) : list TicketId := candidates st (bug_pred st).
Definition next_open_bug (st : ProjectState) : option TicketId := head (open_bug_candidates st).

Definition design_pred (t : Ticket) : bool :=
  is_work t && bool_decide (t_status t = Pending) && bool_decide (d_technical (t_design t) = None).

Definition design_candidates (st : ProjectState) : list TicketId := candidates st design_pred.
Definition next_feature_needing_design (st : ProjectState) : option TicketId :=
  head (design_candidates st).

Definition ux_pred (t : Ticket) : bool :=
  is_work t && bool_decide (t_status t = Pending) && t_has_ui t &&
  negb (bool_decide (d_technical (t_design t) = None)) && bool_decide (d_ux (t_design t) = None).

Definition ux_candidates (st : ProjectState) : list TicketId := candidates st ux_pred.
Definition next_feature_needing_ux (st : ProjectState) : option TicketId := head (ux_candidates st).

Definition DOCS_STAGE_FAIL_CAP : N := 3.

Definition docs_pred (t : Ticket) : bool := is_work t && bool_decide (t_status t = Done).

Definition documentable_candidates (st : ProjectState) : list TicketId :=
  List.filter (fun id => (default 0 (dr_fails <$> doc_refresh st !! id) <? DOCS_STAGE_FAIL_CAP)%N)
    (candidates st docs_pred).
Definition next_documentable (st : ProjectState) : option TicketId := head (documentable_candidates st).

Definition ready_pred (st : ProjectState) (t : Ticket) : bool :=
  is_work t && bool_decide (t_status t = Ready) && deps_satisfied st t.

Definition ready_feature_candidates (st : ProjectState) : list TicketId :=
  candidates st (ready_pred st).
Definition next_ready_feature (st : ProjectState) : option TicketId :=
  head (ready_feature_candidates st).

(** ** Burn-down scope *)

Definition next_feature_work (st : ProjectState) : option TicketId :=
  t_id <$> List.find (fun t => is_work t && one_of (t_status t) [Pending; Ready]) (tickets st).

Definition ticket_position (id : TicketId) (ts : list Ticket) : option nat :=
  fst <$> list_find (fun t => t_id t = id) ts.

Definition burn_down_scope (st : ProjectState) : list TicketId :=
  match next_feature_work st with
  | None => []
  | Some feature =>
      let feature_pos := ticket_position feature (tickets st) in
      let feature_deps := t_depends_on <$> ticket feature st in
      let in_scope '(pos, t) :=
        is_bug t && bool_decide (t_status t = Open) &&
        (match feature_deps with Some deps => one_of (t_id t) deps | None => false end ||
         match feature_pos with Some fp => pos <? fp | None => false end) in
      (fun '(_, t) => t_id t) <$>
        List.filter in_scope (imap (fun i t => (i, t)) (tickets st))
  end.

(** ** Blocked work *)

Inductive BlockedReason := DependencyUnsatisfied | OutOfDevScope.

#[export] Instance BlockedReason_eq_dec : EqDecision BlockedReason.
Proof. solve_decision. Defined.

Record BlockedWork := mkBlockedWork { bw_id : TicketId; bw_title : string; bw_reason : BlockedReason }.

Definition block_reasons (st : ProjectState) (t : Ticket) : list BlockedReason :=
  (if deps_satisfied st t then [] else [DependencyUnsatisfied]) ++
  (if in_dev_scope st (t_id t) then [] else [OutOfDevScope]).

Definition work_blockers (st : ProjectState) : list BlockedWork :=
  List.filter (fun t => is_work t && one_of (t_status t) [Pending; Ready; InProgress]) (tickets st)
    ≫= fun t => (fun r => mkBlockedWork (t_id t) (t_title t) r) <$> block_reasons st t.

(** ** Burn mode *)

Definition burn_mode_holds (st : ProjectState) : bool :=
  tn_burn_mode (tuning st) &&
  match tn_burn_until_bugs_le (tuning st) with
  | Some target => (target <? N.of_nat (length (open_bug_candidates st)))%N
  | None => true
  end.

Definition clear_burn_mode_if_gate_met (st : ProjectState) : ProjectState * bool :=
  if tn_burn_mode (tuning st) && negb (burn_mode_holds st)
  then (st <| tuning ::= fun t => t <| tn_burn_mode := false |> |>, true)
  else (st, false).

Definition dev_feature_paused (st : ProjectState) (bug_slot_worked : bool) : bool :=
  (tn_bugs_first (tuning st) || burn_mode_holds st) && bug_slot_worked.

Definition bug_slot_did_real_work (bug_fixed : option TicketId) (st : ProjectState) : bool :=
  match bug_fixed with
  | Some id => match ticket id st with
               | Some t => negb (bool_decide (t_status t = Rejected))
               | None => true
               end
  | None => false
  end.

(** ** Lemmas *)

Section CandOrder.
Context (st : ProjectState).

Lemma cand_le_total a b : cand_le st a b = true \/ cand_le st b a = true.
Proof.
  unfold cand_le. destruct (in_dev_scope st (t_id a)), (in_dev_scope st (t_id b)); cbn [Bool.eqb]; auto;
    rewrite (Nat.eqb_sym (priority_rank (t_priority b)));
    destruct (Nat.eqb_spec (priority_rank (t_priority a)) (priority_rank (t_priority b)));
    try apply str_le_total; rewrite !Nat.ltb_lt; lia.
Qed.

Lemma cand_le_trans a b c : cand_le st a b = true -> cand_le st b c = true -> cand_le st a c = true.
Proof.
  unfold cand_le.
  destruct (in_dev_scope st (t_id a)), (in_dev_scope st (t_id b)), (in_dev_scope st (t_id c));
    cbn [Bool.eqb]; try done;
    repeat match goal with |- context [?x =? ?y] => destruct (Nat.eqb_spec x y) end;
    rewrite ?Nat.ltb_lt; try lia; try apply str_le_trans.
Qed.

Lemma candidates_perm pred :
  candidates st pred ≡ₚ (t_id <$> List.filter pred (tickets st)).
Proof. unfold candidates. by rewrite sort_by_perm. Qed.

Lemma elem_of_candidates pred id :
  id ∈ candidates st pred <-> exists t, t ∈ tickets st /\ t_id t = id /\ pred t = true.
Proof.
  rewrite candidates_perm, list_elem_of_fmap. split.
  - intros (t & -> & Ht). apply list_elem_of_In, List.filter_In in Ht as [Ht Hp].
    exists t. split_and!; [by apply list_elem_of_In|done..].
  - intros (t & Ht & <- & Hp). exists t. split; [done|].
    apply list_elem_of_In, List.filter_In. split; [by apply list_elem_of_In|done].
Qed.

(** The head of a queue is a matching ticket no other matching ticket precedes. *)
Lemma candidates_head pred id :
  head (candidates st pred) = Some id ->
  exists t, t ∈ tickets st /\ t_id t = id /\ pred t = true /\
    forall u, u ∈ tickets st -> pred u = true -> u = t \/ cand_le st t u = true.
Proof.
  unfold candidates. destruct (sort_by _ _) as [|t l] eqn:E; [done|]. cbn. intros [= <-].
  assert (Hh : head (sort_by (cand_le st) (List.filter pred (tickets st))) = Some t) by by rewrite E.
  apply (sort_by_head _ cand_le_total cand_le_trans) in Hh as [Hin Hleast].
  apply list_elem_of_In, List.filter_In in Hin as [Hin Hp].
  exists t. split_and!; [by apply list_elem_of_In|done|done|].
  intros u Hu Hpu. apply Hleast, list_elem_of_In, List.filter_In.
  split; [by apply list_elem_of_In|done].
Qed.
End CandOrder.

(** ** Lanes *)

Inductive Lane := LaneBug | LaneDesign | LaneUx | LaneReady | LaneDocs.

#[export] Instance Lane_eq_dec : EqDecision Lane.
Proof. solve_decision. Defined.

(** The one lane a ticket waits in, if any. *)
Definition lane_of (st : ProjectState) (t : Ticket) : option Lane :=
  match t_kind t with
  | Bug =>
      if one_of (t_status t) [Open; Ready; Pending] &&
         negb (below_bug_burn_floor (active_bug_burn_floor st) (t_priority t))
      then Some LaneBug else None
  | Feature | Chore =>
      match t_status t with
      | Pending =>
          if decide (d_technical (t_design t) = None) then Some LaneDesign
          else if t_has_ui t && bool_decide (d_ux (t_design t) = None) then Some LaneUx else None
      | Ready => if deps_satisfied st t then Some LaneReady else None
      | Done =>
          if (default 0 (dr_fails <$> doc_refresh st !! t_id t) <? DOCS_STAGE_FAIL_CAP)%N
          then Some LaneDocs else None
      | _ => None
      end
  end.

Definition lane_queue (st : ProjectState) (l : Lane) : list TicketId :=
  match l with
  | LaneBug => open_bug_candidates st
  | LaneDesign => design_candidates st
  | LaneUx => ux_candidates st
  | LaneReady => ready_feature_candidates st
  | LaneDocs => documentable_candidates st
  end.

Definition lane_ids (st : ProjectState) (l : Lane) : list TicketId :=
  t_id <$> List.filter (fun t => bool_decide (lane_of st t = Some l)) (tickets st).

Lemma candidates_lane (st : ProjectState) pred l :
  (forall t, pred t = bool_decide (lane_of st t = Some l)) -> candidates st pred ≡ₚ lane_ids st l.
Proof. intros H. rewrite candidates_perm. unfold lane_ids. by rewrite (List.filter_ext _ _ H). Qed.

(** The lane predicates agree with [lane_of], by cases on what they read. *)
Ltac lane_cases :=
  intros t; unfold lane_of, bug_pred, design_pred, ux_pred, ready_pred, docs_pred, is_bug, is_work;
  destruct (t_kind t), (t_status t);
  repeat match goal with
  | |- context [below_bug_burn_floor ?f ?p] => destruct (below_bug_burn_floor f p)
  | |- context [deps_satisfied ?s ?t] => destruct (deps_satisfied s t)
  | |- context [d_technical ?d] => destruct (d_technical d)
  | |- context [d_ux ?d] => destruct (d_ux d)
  | |- context [t_has_ui ?t] => destruct (t_has_ui t)
  | |- context [(?x <? DOCS_STAGE_FAIL_CAP)%N] => destruct (x <? DOCS_STAGE_FAIL_CAP)%N
  end; reflexivity.

(** Every scheduler queue is exactly its lane, so no ticket waits in two. *)
Lemma lane_queue_ids st l : lane_queue st l ≡ₚ lane_ids st l.
Proof.
  destruct l; cbn [lane_queue]; try (apply candidates_lane; lane_cases).
  unfold documentable_candidates. rewrite candidates_perm, filter_map_key, filter_filter_and.
  unfold lane_ids. erewrite List.filter_ext; [done|]. lane_cases.
Qed.

Lemma deps_satisfied_true (st : ProjectState) t :
  deps_satisfied st t = true <->
  forall dep, dep ∈ t_depends_on t ->
    exists d, ticket dep st = Some d /\ t_status d ∈ [Done; Documented; Verified].
Proof.
  unfold deps_satisfied. rewrite List.forallb_forall. split.
  - intros H dep Hd%list_elem_of_In. specialize (H dep Hd). destruct (ticket dep st) as [d|]; [|done].
    exists d. split; [done|by apply one_of_true].
  - intros H dep Hd%list_elem_of_In. destruct (H dep Hd) as (d & -> & Hs). by apply one_of_true.
Qed.

Lemma is_work_true t : is_work t = true <-> t_kind t <> Bug.
Proof. unfold is_work. by destruct (t_kind t). Qed.

Lemma ready_pred_true (st : ProjectState) t :
  ready_pred st t = true <-> t_kind t <> Bug /\ t_status t = Ready /\ deps_satisfied st t = true.
Proof.
  unfold ready_pred. rewrite !andb_true_iff, is_work_true, bool_decide_eq_true. tauto.
Qed.

Lemma cand_le_scope (st : ProjectState) a b :
  cand_le st a b = true -> in_dev_scope st (t_id b) = true -> in_dev_scope st (t_id a) = true.
Proof. unfold cand_le. intros H Hb. rewrite Hb in H. by destruct (in_dev_scope st (t_id a)). Qed.

(** The order inside one scope: priority, then id. *)
Lemma cand_le_priority (st : ProjectState) a b :
  cand_le st a b = true -> in_dev_scope st (t_id a) = in_dev_scope st (t_id b) ->
  priority_ord (t_priority b) <= priority_ord (t_priority a).
Proof.
  unfold cand_le. intros H E. rewrite E, Bool.eqb_reflx in H.
  destruct (t_priority a), (t_priority b); cbn in *; done || lia.
Qed.

(** ** Properties *)

(** the scheduler's five queues are a partition by lane. Each queue holds
    exactly the tickets whose lane it is, once each, and with distinct ids no
    ticket waits in two queues. *)
Theorem lanes_partition (st : ProjectState) :
  (forall l, lane_queue st l ≡ₚ lane_ids st l) /\
  (NoDup (t_id <$> tickets st) ->
   forall l l' id, id ∈ lane_queue st l -> id ∈ lane_queue st l' -> l = l').
Proof.
  split; [apply lane_queue_ids|]. intros Hnd l l' id. rewrite !lane_queue_ids.
  unfold lane_ids. rewrite !list_elem_of_fmap.
  intros (t & -> & [Ht Hl%bool_decide_eq_true]%elem_of_filter_bool).
  intros (u & Hid & [Hu Hl'%bool_decide_eq_true]%elem_of_filter_bool).
  rewrite (keyed_inj t_id (tickets st) t u) in Hl; [|done..]. congruence.
Qed.

(** the next feature handed to a developer is safe and best. It is a Ready
    feature or chore, every dependency names a ticket that is Done, Documented or
    Verified, it is in the sprint's scope whenever any such ticket is, and no
    such ticket of the same scope has a higher priority. *)
Theorem next_ready_feature_best (st : ProjectState) id :
  next_ready_feature st = Some id ->
  exists t, t ∈ tickets st /\ t_id t = id /\ t_kind t <> Bug /\ t_status t = Ready /\
    (forall dep, dep ∈ t_depends_on t ->
       exists d, ticket dep st = Some d /\ t_status d ∈ [Done; Documented; Verified]) /\
    forall u, u ∈ tickets st -> ready_pred st u = true ->
      (in_dev_scope st (t_id u) = true -> in_dev_scope st id = true) /\
      (in_dev_scope st (t_id u) = in_dev_scope st id ->
       priority_ord (t_priority u) <= priority_ord (t_priority t)).
Proof.
  intros (t & Ht & <- & (Hk & Hs & Hd)%ready_pred_true & Hbest)%candidates_head.
  exists t. split_and!; [done..|by apply deps_satisfied_true|].
  intros u Hu Hp. destruct (Hbest u Hu Hp) as [->|Hle]; [done|]. split.
  - by apply cand_le_scope.
  - intros Hsc. by eapply cand_le_priority.
Qed.

(** the blocked-work projection agrees with the scheduler. A Ready feature or
    chore has no blocked entry exactly when the developer queue offers it and the
    sprint scope lets a developer pull it. *)
Theorem blockers_agree (st : ProjectState) t :
  NoDup (t_id <$> tickets st) -> t ∈ tickets st -> t_kind t <> Bug -> t_status t = Ready ->
  (forall b, b ∈ work_blockers st -> bw_id b <> t_id t) <->
  t_id t ∈ ready_feature_candidates st /\ in_dev_scope st (t_id t) = true.
Proof.
  intros Hnd Ht Hk Hs.
  assert (Hb : (forall b, b ∈ work_blockers st -> bw_id b <> t_id t) <-> block_reasons st t = []).
  { unfold work_blockers. split.
    - intros H. destruct (block_reasons st t) as [|r rs] eqn:E; [done|exfalso].
      apply (H (mkBlockedWork (t_id t) (t_title t) r)); [|done].
      apply list_elem_of_bind. exists t. rewrite E. split; [by left|].
      apply elem_of_filter_bool. split; [done|]. rewrite Hs. by rewrite (proj2 (is_work_true t)).
    - intros H b (u & Hbu & [Hu _]%elem_of_filter_bool)%list_elem_of_bind Hid.
      apply list_elem_of_fmap in Hbu as (r & -> & Hr). cbn in Hid.
      rewrite (keyed_inj t_id (tickets st) u t) in Hr; [|done..]. rewrite H in Hr.
      by apply elem_of_nil in Hr. }
  rewrite Hb. unfold ready_feature_candidates. rewrite elem_of_candidates. unfold block_reasons.
  split.
  - intros H. destruct (deps_satisfied st t) eqn:Hd, (in_dev_scope st (t_id t)); try done.
    split; [|done]. exists t. split_and!; [done|done|]. by apply ready_pred_true.
  - intros [(u & Hu & Hid & (_ & _ & Hd)%ready_pred_true) Hsc].
    rewrite (keyed_inj t_id (tickets st) u t) in Hd; [|done..]. by rewrite Hd, Hsc.
Qed.

(** burn mode ends itself and never deadlocks. The gate clears an engaged
    mode exactly when its target is set and no more open bugs than that remain,
    clearing is idempotent and lifts the mode's hold, and a cycle whose bug slot
    did no real work never pauses features. *)
Theorem burn_mode_gate (st : ProjectState) :
  ((clear_burn_mode_if_gate_met st).2 = true <->
   tn_burn_mode (tuning st) = true /\
   exists target, tn_burn_until_bugs_le (tuning st) = Some target /\
     (N.of_nat (length (open_bug_candidates st)) <= target)%N) /\
  (let st' := (clear_burn_mode_if_gate_met st).1 in
   clear_burn_mode_if_gate_met st' = (st', false) /\
   ((clear_burn_mode_if_gate_met st).2 = true -> burn_mode_holds st' = false)) /\
  dev_feature_paused st false = false.
Proof.
  unfold clear_burn_mode_if_gate_met, dev_feature_paused. rewrite andb_false_r.
  destruct (tn_burn_mode (tuning st)) eqn:Hm; cbn [andb].
  - destruct (burn_mode_holds st) eqn:Hh; unfold burn_mode_holds in Hh; rewrite Hm in Hh; cbn in Hh;
      cbn [negb fst snd].
    + rewrite Hm. split_and!; [| |done|done].
      * split; [done|]. intros (_ & n & Hn & Hle). rewrite Hn in Hh. apply N.ltb_lt in Hh. lia.
      * unfold burn_mode_holds. rewrite Hm. cbn. by rewrite Hh.
    + split_and!; [| |done|done].
      * split; [|done]. intros _. split; [done|].
        destruct (tn_burn_until_bugs_le (tuning st)) as [n|]; [|done].
        exists n. split; [done|]. by apply N.ltb_ge in Hh.
      * by destruct (tuning st).
  - cbn. rewrite Hm. split_and!; [|done..]. split; [done|]. by intros [? _].
Qed.

(** ** Witnesses *)

Definition ready_ticket (id : string) (p : Priority) (deps : list string) : Ticket :=
  mkTicket id Feature ("work " +:+ id) "" p CSmall Ready false (mkDesign None None) None deps [] []
    None None None None None [] None.
Definition bug_ticket (id : string) (p : Priority) (s : Status) : Ticket :=
  mkTicket id Bug ("bug " +:+ id) "" p CSmall s false (mkDesign None None) None [] [] []
    None None None None None [] None.

Definition sample_state : ProjectState :=
  ProjectState_default
    <| tickets := [ready_ticket "F1" Low []; ready_ticket "F2" High ["B1"]; ready_ticket "F3" Medium [];
                   bug_ticket "B1" High Open; bug_ticket "B2" Low Open] |>.

Lemma next_ready_feature_best_witness :
  exists t, t ∈ tickets sample_state /\ t_id t = "F3" /\ t_status t = Ready.
Proof.
  destruct (next_ready_feature_best sample_state "F3") as (t & H1 & H2 & _ & H3 & _).
  - vm_compute. reflexivity.
  - exists t. split_and!; assumption.
Defined.

Lemma blockers_agree_witness :
  "F3" ∈ ready_feature_candidates sample_state /\ in_dev_scope sample_state "F3" = true.
Proof.
  apply (blockers_agree sample_state (ready_ticket "F3" Medium [])).
  - apply (bool_decide_eq_true (NoDup _)). vm_compute. reflexivity.
  - cbn. right. right. left.
  - discriminate.
  - reflexivity.
  - intros b Hb. vm_compute in Hb. apply elem_of_cons in Hb as [->|Hb]; [discriminate|].
    by apply elem_of_nil in Hb.
Defined.

Lemma lanes_partition_witness : LaneReady = LaneReady.
Proof.
  apply (proj2 (lanes_partition sample_state)
           ltac:(apply (bool_decide_eq_true (NoDup _)); vm_compute; reflexivity) _ _ "F1");
    apply (bool_decide_eq_true (_ ∈ _)); vm_compute; reflexivity.
Defined.
