(* ===== verification/Backlog.v ===== *)
(** * Sprint scope and the sprint lifecycle

    [backlog_scoping.rs] (what a sprint commits to) and [sprint.rs] (opening,
    rolling over, queueing, topping up and parking). [now] is the clock's text;
    the age of a sprint goes through [elapsed], the whole seconds since an RFC 3339
    stamp when it parses (the [time] crate); the Unicode tables behind
    [to_lowercase] and [is_alphanumeric] are parameters of the milestone match. *)
From S2P Require Import Prelude RustStr Kinds TestCase Ticket State StateOps Selection.

(** ** [backlog_scoping.rs] *)

Definition sprint_capacity (st : ProjectState) : nat :=
  let floor := 3 in
  let history := sr_done <$> take 5 (reverse (sprints st)) in
  if bool_decide (history = []) then floor * 2
  else
    let avg := sum_list history / Nat.max (length history) 1 in
    let reverted :=
      length (List.filter (fun e => bool_decide (rev_decision e = RevApproved)) (reverted_work st)) in
    Nat.max (avg + avg / 2 - reverted) floor.

Definition is_ready_work (t : Ticket) : bool := is_work t && bool_decide (t_status t = Ready).

(** The loop over the open bugs: stops at an empty budget, skips picked ones. *)
Fixpoint pick_bugs (budget : nat) (bugs : list TicketId) (picked : list TicketId) : list TicketId :=
  match bugs with
  | [] => picked
  | id :: bugs' =>
      match budget with
      | O => picked
      | S budget' =>
          if one_of id picked then pick_bugs budget bugs' picked
          else pick_bugs budget' bugs' (picked ++ [id])
      end
  end.

Definition open_bug_at (floor : option Priority) (t : Ticket) : bool :=
  is_bug t && bool_decide (t_status t = Open) && negb (below_bug_burn_floor floor (t_priority t)).

(** The feature/chore filter of the last step. *)
Definition open_work (t : Ticket) : bool :=
  is_work t && negb (one_of (t_status t) [Done; Documented; Rejected]).

(** The reserved ready feature, if any. *)
Definition reserved_seat (st : ProjectState) : list TicketId :=
  option_list (t_id <$> List.find is_ready_work (tickets st)).

Definition open_backlog (st : ProjectState) (floor : option Priority) : list TicketId :=
  let cap := sprint_capacity st in
  let picked := reserved_seat st ++ burn_down_scope st in
  let picked := pick_bugs (cap - length picked)
                  (t_id <$> List.filter (open_bug_at floor) (tickets st)) picked in
  let seats := cap - length picked in
  picked ++ (t_id <$> take seats
    (List.filter (fun t => open_work t && negb (one_of (t_id t) picked)) (tickets st))).

Definition done_count (st : ProjectState) : nat :=
  match sprint st with
  | None => 0
  | Some sp =>
      length (List.filter (fun id =>
        match ticket id st with
        | Some t => one_of (t_status t) [Done; Documented]
        | None => false
        end) (sp_committed sp))
  end.

(** ** [sprint.rs]: windows and rollover *)

Inductive SprintWindow := Days (days : N) | Cycles (len : N).

Record SprintPolicy := mkSprintPolicy {
  window : SprintWindow;
  policy_floor : option Priority;
}.

(** [SprintPolicy::from_config]: the unit, both lengths and the floor. *)
Definition policy_from_config (unit_days : bool) (length_days length_cycles : N)
    (floor : option Priority) : SprintPolicy :=
  mkSprintPolicy (if unit_days then Days (N.max length_days 1) else Cycles (N.max length_cycles 1)) floor.

Definition MIN_SPRINT_MINUTES : N := 240.
Definition HOLD_AFTER_ATTEMPTS : N := 3.
Definition MIN_ACTIONABLE_SCOPE : nat := 4.

Definition all_committed_done (st : ProjectState) (sp : Sprint) : bool :=
  negb (bool_decide (sp_committed sp = [])) &&
  forallb (fun id =>
    match ticket id st with
    | Some t => one_of (t_status t) [Documented; Verified; Rejected]
    | None => true
    end) (sp_committed sp).

Section Lifecycle.
Context (elapsed : string -> option Z).

Definition sprint_age_minutes (started_at : string) : N :=
  match elapsed started_at with
  | Some secs => Z.to_N (Z.max (Z.quot secs 60) 0)
  | None => u64_max
  end.

Definition sprint_age_days (started_at : string) : N :=
  match elapsed started_at with
  | Some secs => Z.to_N (Z.max (Z.quot secs 86400) 0)
  | None => u64_max
  end.

Definition goal_from (st : ProjectState) (committed : list TicketId) : string :=
  let titles := take 3 (omap (fun id => t_title <$> ticket id st) committed) in
  if bool_decide (titles = []) then "Stabilise and polish" else "Ship " +:+ join ", " titles.

(** A planned ticket that can still be worked on. *)
Definition plan_live (st : ProjectState) (id : TicketId) : bool :=
  match ticket id st with
  | Some t => negb (one_of (t_status t) [Documented; Verified; Rejected; OnHold])
  | None => false
  end.

Definition roll_over (now : string) (cycle length_ : N) (floor : option Priority)
    (st : ProjectState) : ProjectState * N :=
  let st :=
    match sprint st with
    | None => st
    | Some closing =>
        let record := mkSprintRecord (sp_number closing) (sp_goal closing)
                        (length (sp_committed closing)) (done_count st) now in
        st <| sprints ::= fun l => l ++ [record] |>
    end in
  let number := u32_wrap (match sprint st with Some s => sp_number s | None => 0 end + 1) in
  let planned := head (sprint_queue st) in
  let st := st <| sprint_queue ::= drop 1 |> in
  let '(committed, planned_goal) :=
    match planned with
    | Some p =>
        let live := List.filter (plan_live st) (pl_tickets p) in
        if bool_decide (live = []) then (open_backlog st floor, Some (pl_goal p))
        else (live, Some (pl_goal p))
    | None => (open_backlog st floor, None)
    end in
  let goal :=
    match planned_goal with
    | Some g => if blank g then
                  if blank (sprint_goal st) then goal_from st committed else trim (sprint_goal st)
                else trim g
    | None => if blank (sprint_goal st) then goal_from st committed else trim (sprint_goal st)
    end in
  (st <| sprint := Some (mkSprint number goal cycle length_ committed now floor) |>, number).

Definition advance (now : string) (cycle : N) (policy : SprintPolicy) (st : ProjectState)
    : ProjectState * option N :=
  let roll length_ :=
    let '(st', n) := roll_over now cycle length_ (policy_floor policy) st in (st', Some n) in
  match sprint st with
  | None => roll (match window policy with Cycles len => len | Days _ => 0%N end)
  | Some s =>
      let length_ := match window policy with Cycles len => len | Days _ => sp_length_cycles s end in
      if all_committed_done st s then roll length_
      else
        let need_open :=
          match window policy with
          | Cycles len => (len <=? cycle - sp_started_cycle s)%N &&
                          (MIN_SPRINT_MINUTES <=? sprint_age_minutes (sp_started_at s))%N
          | Days days => (days <=? sprint_age_days (sp_started_at s))%N
          end in
        if need_open then roll length_ else (st, None)
  end.
End Lifecycle.

Definition close_now (now : string) (cycle : N) (st : ProjectState) : ProjectState * option N :=
  match sprint st with
  | None => (st, None)
  | Some s =>
      let '(st', n) := roll_over now cycle (N.max (sp_length_cycles s) 1) (sp_bug_burn_floor s) st in
      (st', Some n)
  end.

(** A write to the running sprint's committed list. *)
Definition on_committed (f : list TicketId -> list TicketId) (st : ProjectState) : ProjectState :=
  st <| sprint ::= fmap (fun sp => sp <| sp_committed ::= f |>) |>.

Definition committed_of (st : ProjectState) : list TicketId :=
  match sprint st with Some sp => sp_committed sp | None => [] end.

Definition commit_ticket (id : TicketId) (st : ProjectState) : ProjectState * bool :=
  match ticket id st, sprint st with
  | Some _, Some sp =>
      if one_of id (sp_committed sp) then (st, false)
      else (on_committed (fun l => l ++ [id]) st, true)
  | _, _ => (st, false)
  end.

Definition retain_not (id : TicketId) (l : list TicketId) : list TicketId :=
  List.filter (fun c => negb (bool_decide (c = id))) l.

Definition uncommit_ticket (id : TicketId) (st : ProjectState) : ProjectState * bool :=
  match sprint st with
  | None => (st, false)
  | Some sp =>
      (on_committed (retain_not id) st,
       negb (length (retain_not id (sp_committed sp)) =? length (sp_committed sp)))
  end.

Definition refill_empty_scope (st : ProjectState) : ProjectState * nat :=
  let committed := committed_of st in
  if match sprint st with Some sp => bool_decide (sp_committed sp = []) | None => false end then
    let backlog := open_backlog st (active_bug_burn_floor st) in
    (on_committed (fun _ => backlog) st, length backlog)
  else
    let workable := ready_feature_candidates st ++ open_bug_candidates st in
    let can_progress :=
      existsb (fun id => one_of id workable ||
                         match ticket id st with
                         | Some t => bool_decide (t_status t = InProgress)
                         | None => false
                         end) committed in
    let pick := if can_progress then None
                else List.find (fun id => negb (one_of id committed)) workable in
    match pick, sprint st with
    | Some id, Some _ => (on_committed (fun l => l ++ [id]) st, 1)
    | _, _ =>
        let has_feature :=
          existsb (fun id => match ticket id st with Some t => is_work t | None => false end) committed in
        if has_feature then (st, 0)
        else match List.find (fun t => is_ready_work t && negb (one_of (t_id t) committed)) (tickets st),
                   sprint st with
        | Some t, Some _ => (on_committed (fun l => l ++ [t_id t]) st, 1)
        | _, _ => (st, 0)
        end
    end.

(** ** The sprint queue *)

(** [retain(|x| seen.insert(x))] with a fresh set: first occurrences. *)
Fixpoint first_occurrences (seen : list TicketId) (l : list TicketId) : list TicketId :=
  match l with
  | [] => []
  | x :: l' => if one_of x seen then first_occurrences seen l'
               else x :: first_occurrences (x :: seen) l'
  end.

Definition ticket_exists (st : ProjectState) (id : TicketId) : bool :=
  bool_decide (is_Some (ticket id st)).

Definition is_plan (id : N) (p : PlannedSprint) : bool := bool_decide (pl_id p = id).

Definition queue_sprint (now goal : string) (ids : list TicketId) (by_ : string) (st : ProjectState)
    : ProjectState * N :=
  let id := u64_wrap (foldr N.max 0%N (pl_id <$> sprint_queue st) + 1) in
  let ids := first_occurrences [] (List.filter (ticket_exists st) ids) in
  (st <| sprint_queue ::= fun q => q ++ [mkPlannedSprint id (trim goal) ids now by_] |>, id).

Definition scope_queued_sprint (id : N) (add remove : list TicketId) (st : ProjectState)
    : ProjectState * bool :=
  let valid := List.filter (ticket_exists st) add in
  match List.find (is_plan id) (sprint_queue st) with
  | None => (st, false)
  | Some _ =>
      let f p := p <| pl_tickets ::= fun ts =>
                   fold_left (fun ts t => if one_of t ts then ts else ts ++ [t]) valid
                     (List.filter (fun t => negb (one_of t remove)) ts) |> in
      (st <| sprint_queue ::= update_first (is_plan id) f |>, true)
  end.

Definition delete_queued_sprint (id : N) (st : ProjectState) : ProjectState * bool :=
  let kept := List.filter (fun p => negb (is_plan id p)) (sprint_queue st) in
  (st <| sprint_queue := kept |>, negb (length kept =? length (sprint_queue st))).

Definition rename_queued_sprint (id : N) (goal : string) (st : ProjectState) : ProjectState * bool :=
  match List.find (is_plan id) (sprint_queue st) with
  | None => (st, false)
  | Some _ => (st <| sprint_queue ::= update_first (is_plan id) (fun p => p <| pl_goal := trim goal |>) |>,
               true)
  end.

(** [v.swap(i, j)] for indices in range. *)
Definition swap {A} (i j : nat) (l : list A) : list A :=
  match l !! i, l !! j with
  | Some x, Some y => <[j := x]> (<[i := y]> l)
  | _, _ => l
  end.

(** [i + delta] cannot leave the range checked next to it, so [Z] is exact. *)
Definition move_queued_sprint (id : N) (delta : Z) (st : ProjectState) : ProjectState * bool :=
  match fst <$> list_find (fun p => pl_id p = id) (sprint_queue st) with
  | None => (st, false)
  | Some i =>
      let j := (Z.of_nat i + delta)%Z in
      if (j <? 0)%Z || (Z.of_nat (length (sprint_queue st)) <=? j)%Z then (st, false)
      else (st <| sprint_queue ::= swap i (Z.to_nat j) |>, true)
  end.

(** ** Parking *)

Definition is_exhausted (st : ProjectState) (t : Ticket) : bool :=
  one_of (t_status t) [Pending; Ready; Open] &&
  match ticket_fail_attempts st !! t_id t with
  | Some n => (HOLD_AFTER_ATTEMPTS <=? n)%N
  | None => false
  end.

(** One turn of the loop over the exhausted ids. *)
Definition hold_one (now : string) (acc : ProjectState * list TicketId) (id : TicketId)
    : ProjectState * list TicketId :=
  let '(st, held) := acc in
  match ticket id st with
  | None => acc
  | Some t =>
      match transition_to System OnHold t with
      | Err _ => acc
      | Ok t' =>
          let st := set_ticket id (fun _ => t') st in
          let st := on_committed (retain_not id) st in
          let st := st <| hold_reasons ::=
                       insert id ("auto-held after " +:+ dec HOLD_AFTER_ATTEMPTS +:+ " failed attempts") |> in
          let st := log_activity now "SYSTEM"
                      "auto-held after repeated failures — resume it from the ticket when unblocked"
                      (Some id) st in
          (st, held ++ [id])
      end
  end.

Definition auto_hold_exhausted (now : string) (st : ProjectState) : ProjectState * list TicketId :=
  fold_left (hold_one now) (t_id <$> List.filter (is_exhausted st) (tickets st)) (st, []).

Definition clear_fail_attempts (id : TicketId) (st : ProjectState) : ProjectState :=
  st <| ticket_fail_attempts ::= delete id |> <| hold_reasons ::= delete id |>.

(** ** Topping up *)

Section TopUp.
Context (to_lowercase : string -> string) (is_alphanumeric : string -> bool).

(** [split(|c| !c.is_alphanumeric())] over the characters. *)
Fixpoint words_of (cs : list string) (cur : string) : list string :=
  match cs with
  | [] => [cur]
  | c :: cs' => if is_alphanumeric c then words_of cs' (cur +:+ c) else cur :: words_of cs' ""
  end.

Definition pushes_goal (goal title : string) : bool :=
  existsb (fun w => (5 <=? String.length w) && contains w goal)
    (words_of (chars (to_lowercase title)) "").

Definition active_milestone_goal (st : ProjectState) : option string :=
  (fun m => to_lowercase (ms_name m +:+ " " +:+ ms_goal m)) <$>
    List.find (fun m => negb (ms_goal_complete m)) (milestones st).

Definition rank_prio (p : Priority) : nat :=
  match p with High => 0 | Medium => 1 | Low => 2 end.

(** The derived order of [(u8, u8, TicketId)]. *)
Definition rank_le (a b : nat * nat * TicketId) : bool :=
  let '(p1, m1, i1) := a in
  let '(p2, m2, i2) := b in
  if p1 =? p2 then if m1 =? m2 then str_le i1 i2 else m1 <? m2 else p1 <? p2.

Definition top_up_want (floor : nat) (st : ProjectState) : nat :=
  floor - length (List.filter (fun t => one_of (t_id t) (committed_of st) &&
                                        one_of (t_status t) [Ready; Open]) (tickets st)).

Definition top_up_eligible (st : ProjectState) (t : Ticket) : bool :=
  negb (one_of (t_id t) (committed_of st)) &&
  match t_status t with
  | Ready => true
  | Open => negb (below_bug_burn_floor (active_bug_burn_floor st) (t_priority t))
  | _ => false
  end.

Definition top_up_ranked (st : ProjectState) : list (nat * nat * TicketId) :=
  let goal := active_milestone_goal st in
  sort_by rank_le
    ((fun t => (rank_prio (t_priority t),
                if match goal with Some g => pushes_goal g (t_title t) | None => false end then 0 else 1,
                t_id t)) <$> List.filter (top_up_eligible st) (tickets st)).

Definition top_up_scope (floor : nat) (st : ProjectState) : ProjectState * nat :=
  let st := on_committed (first_occurrences []) st in
  match sprint st with
  | None => (st, 0)
  | Some _ =>
      let want := top_up_want floor st in
      if want =? 0 then (st, 0)
      else
        let picks := take want (snd <$> top_up_ranked st) in
        (on_committed (fun l => l ++ picks) st, length picks)
  end.
End TopUp.
