(* ===== verification/SprintFacts.v ===== *)
(** * What a sprint commits to

    Lemmas and properties of [Backlog.v]. *)
From S2P Require Import Prelude RustStr Kinds TestCase Ticket Lifecycle State StateOps Selection Backlog.

(** ** The commitment *)

Lemma pick_bugs_spec budget bugs picked :
  exists new, pick_bugs budget bugs picked = picked ++ new /\ length new <= budget /\
    (forall id, id ∈ new -> id ∈ bugs) /\ (NoDup picked -> NoDup (picked ++ new)).
Proof.
  revert budget picked. induction bugs as [|id bugs IH]; intros budget picked; cbn.
  { exists []. rewrite app_nil_r. split_and!; [done|cbn; lia| |done]. by intros id ?%elem_of_nil. }
  destruct budget as [|budget].
  { exists []. rewrite app_nil_r. split_and!; [done|cbn; lia| |done]. by intros i ?%elem_of_nil. }
  destruct (one_of id picked) eqn:E.
  - destruct (IH (S budget) picked) as (new & -> & Hl & Hin & Hnd). exists new.
    split_and!; [done..| |done]. intros i Hi. right. auto.
  - destruct (IH budget (picked ++ [id])) as (new & -> & Hl & Hin & Hnd). exists (id :: new).
    rewrite <- app_assoc in Hnd |- *. split_and!; [done|cbn; lia| |].
    + intros i [->|Hi]%elem_of_cons; [by left|right; auto].
    + intros Hp. apply Hnd. apply NoDup_app. split_and!; [done| |apply NoDup_singleton].
      intros x Hx ->%list_elem_of_singleton. apply bool_decide_eq_false in E. done.
Qed.

Lemma burn_down_sublist (st : ProjectState) : burn_down_scope st `sublist_of` (t_id <$> tickets st).
Proof.
  unfold burn_down_scope. destruct (next_feature_work st) as [f|]; [|apply sublist_nil_l].
  rewrite <- (imap_pair_fmap t_id). apply fmap_sublist, filter_bool_sublist.
Qed.

Lemma elem_of_burn_down (st : ProjectState) id :
  id ∈ burn_down_scope st -> exists t, t ∈ tickets st /\ t_id t = id /\ t_kind t = Bug /\ t_status t = Open.
Proof.
  unfold burn_down_scope. destruct (next_feature_work st) as [f|]; [|by intros ?%elem_of_nil].
  intros ([i t] & -> & [Hin Hp]%elem_of_filter_bool)%list_elem_of_fmap.
  apply elem_of_lookup_imap in Hin as (j & u & [= -> ->] & Hl).
  apply andb_prop in Hp as [[Hb%bool_decide_eq_true Ho%bool_decide_eq_true]%andb_prop _].
  exists u. split_and!; [by eapply list_elem_of_lookup_2|done..].
Qed.

Lemma reserved_seat_spec (st : ProjectState) :
  reserved_seat st = [] /\ (forall t, t ∈ tickets st -> is_ready_work t = false) \/
  exists t, t ∈ tickets st /\ is_ready_work t = true /\ reserved_seat st = [t_id t].
Proof.
  unfold reserved_seat. destruct (List.find is_ready_work (tickets st)) as [t|] eqn:E; cbn.
  - right. apply find_elem in E as [??]. eauto.
  - left. split; [done|]. by apply find_is_none.
Qed.

Lemma is_ready_work_true t : is_ready_work t = true <-> t_kind t <> Bug /\ t_status t = Ready.
Proof. unfold is_ready_work. by rewrite andb_true_iff, is_work_true, bool_decide_eq_true. Qed.

(** The three parts of a commitment: the unconditional picks, the bugs that fit,
    the features that still fit. *)
Lemma open_backlog_parts (st : ProjectState) floor :
  exists bugs works,
    open_backlog st floor = (reserved_seat st ++ burn_down_scope st) ++ bugs ++ works /\
    length (bugs ++ works) <= sprint_capacity st - length (reserved_seat st ++ burn_down_scope st) /\
    (forall id, id ∈ bugs -> exists t, t ∈ tickets st /\ t_id t = id /\ open_bug_at floor t = true) /\
    (forall id, id ∈ works -> exists t, t ∈ tickets st /\ t_id t = id /\ open_work t = true) /\
    (NoDup (t_id <$> tickets st) -> NoDup (open_backlog st floor)).
Proof.
  unfold open_backlog. set (base := reserved_seat st ++ burn_down_scope st).
  destruct (pick_bugs_spec (sprint_capacity st - length base)
              (t_id <$> List.filter (open_bug_at floor) (tickets st)) base)
    as (bugs & -> & Hlen & Hbugs & Hnd).
  set (picked := base ++ bugs).
  set (works := t_id <$> take (sprint_capacity st - length picked)
    (List.filter (fun t => open_work t && negb (one_of (t_id t) picked)) (tickets st))).
  assert (Hworks : forall id, id ∈ works ->
            exists t, t ∈ tickets st /\ t_id t = id /\ open_work t = true /\ id ∉ picked).
  { intros id (t & -> & Ht)%list_elem_of_fmap.
    apply elem_of_take_sub, elem_of_filter_bool in Ht as [Ht [Hw Hn]%andb_prop].
    exists t. split_and!; [done..|]. by apply negb_true_iff, bool_decide_eq_false in Hn. }
  exists bugs, works. split_and!.
  - unfold picked. by rewrite <- app_assoc.
  - rewrite length_app. unfold works, picked. rewrite length_fmap, length_take, length_app. lia.
  - intros id (t & -> & [Ht Hp]%elem_of_filter_bool)%Hbugs%list_elem_of_fmap. eauto.
  - intros id (t & ? & ? & ? & _)%Hworks. eauto.
  - intros Hids. apply NoDup_app. split_and!.
    + apply Hnd. apply NoDup_app. split_and!.
      * unfold reserved_seat. destruct (List.find _ _); cbn; [apply NoDup_singleton|apply NoDup_nil_2].
      * intros id Hr Hb. destruct (reserved_seat_spec st) as [[E _]|(t & Ht & Hw & E)].
        { rewrite E in Hr. by apply elem_of_nil in Hr. }
        rewrite E in Hr. apply list_elem_of_singleton in Hr as ->.
        apply elem_of_burn_down in Hb as (u & Hu & Hid & Hk & _).
        apply is_ready_work_true in Hw as [Hnb _]. apply Hnb.
        by rewrite <- (keyed_inj t_id (tickets st) u t).
      * eapply sublist_NoDup; [exact Hids|apply burn_down_sublist].
    + intros id Hp (t & _ & _ & _ & Hn)%Hworks. done.
    + unfold works. eapply sublist_NoDup; [exact Hids|]. apply fmap_sublist.
      etrans; [apply sublist_take|apply filter_bool_sublist].
Qed.

Lemma NoDup_open_backlog (st : ProjectState) floor :
  NoDup (t_id <$> tickets st) -> NoDup (open_backlog st floor).
Proof. by destruct (open_backlog_parts st floor) as (_ & _ & _ & _ & _ & _ & H). Qed.

Lemma elem_of_open_backlog (st : ProjectState) floor id :
  id ∈ open_backlog st floor -> id ∈ (t_id <$> tickets st).
Proof.
  destruct (open_backlog_parts st floor) as (bugs & works & -> & _ & Hb & Hw & _).
  rewrite !elem_of_app. intros [[Hr|Hr]|[(t & Ht & <- & _)%Hb|(t & Ht & <- & _)%Hw]];
    try by apply list_elem_of_fmap_2.
  - destruct (reserved_seat_spec st) as [[E _]|(t & Ht & _ & E)]; rewrite E in Hr.
    + by apply elem_of_nil in Hr.
    + apply list_elem_of_singleton in Hr as ->. by apply list_elem_of_fmap_2.
  - apply elem_of_burn_down in Hr as (t & Ht & <- & _). by apply list_elem_of_fmap_2.
Qed.

Lemma done_count_le (st : ProjectState) s :
  sprint st = Some s -> done_count st <= length (sp_committed s).
Proof. unfold done_count. intros ->. apply List.filter_length_le. Qed.

Lemma elem_of_first_occurrences seen l x :
  x ∈ first_occurrences seen l <-> x ∈ l /\ x ∉ seen.
Proof.
  revert seen. induction l as [|y l IH]; intros seen; cbn.
  { split; [by intros ?%elem_of_nil|by intros [?%elem_of_nil _]]. }
  unfold one_of. case_bool_decide as Hy.
  - rewrite IH, elem_of_cons. naive_solver.
  - rewrite !elem_of_cons, IH, not_elem_of_cons. destruct (decide (x = y)); naive_solver.
Qed.

Lemma NoDup_first_occurrences seen l : NoDup (first_occurrences seen l).
Proof.
  revert seen. induction l as [|y l IH]; intros seen; cbn; [apply NoDup_nil_2|].
  destruct (one_of y seen); [done|]. apply NoDup_cons. split; [|done].
  rewrite elem_of_first_occurrences, not_elem_of_cons. naive_solver.
Qed.

Lemma ticket_exists_true (st : ProjectState) id :
  ticket_exists st id = true <-> id ∈ (t_id <$> tickets st).
Proof. unfold ticket_exists. rewrite bool_decide_eq_true. apply find_ticket_some. Qed.

(** ** The sprint machine *)

Inductive SprintOp :=
| SoAdvance (now : string) (cycle : N) (policy : SprintPolicy)
| SoClose (now : string) (cycle : N)
| SoCommit (id : TicketId)
| SoUncommit (id : TicketId)
| SoRefill
| SoTopUp (floor : nat)
| SoQueue (now goal : string) (ids : list TicketId) (by_ : string)
| SoScope (id : N) (add remove : list TicketId)
| SoDelete (id : N)
| SoRename (id : N) (goal : string)
| SoMove (id : N) (delta : Z)
| SoHold (now : string)
| SoClearFails (id : TicketId).

(** A duplicate-free list of existing ids. *)
Definition ids_ok (ids l : list TicketId) : Prop := NoDup l /\ forall id, id ∈ l -> id ∈ ids.

(** The history is numbered 1, 2, ..., the running sprint comes next, and no
    record claims more done than committed. *)
Record history_ok (n : nat) (records : list SprintRecord) (current : option Sprint) : Prop := {
  ho_numbers : (sr_number <$> records) = N.of_nat <$> seq 1 (length records);
  ho_current : match current with
               | None => records = []
               | Some s => sp_number s = N.of_nat (S (length records))
               end;
  ho_done : Forall (fun r => sr_done r <= sr_committed r) records;
  ho_len : length records <= n;
}.

Record queue_ok (n : nat) (ids : list TicketId) (q : list PlannedSprint) : Prop := {
  qo_ids : NoDup (pl_id <$> q);
  qo_max : Forall (fun p => (pl_id p <= N.of_nat n)%N) q;
  qo_tickets : Forall (fun p => ids_ok ids (pl_tickets p)) q;
}.

Record sprint_wf (n : nat) (st : ProjectState) : Prop := {
  sw_tickets : NoDup (t_id <$> tickets st);
  sw_history : history_ok n (sprints st) (sprint st);
  sw_committed : ids_ok (t_id <$> tickets st) (committed_of st);
  sw_queue : queue_ok n (t_id <$> tickets st) (sprint_queue st);
}.

Definition sprint_op (elapsed : string -> option Z)
    (to_lowercase : string -> string) (is_alphanumeric : string -> bool) (op : SprintOp) (st : ProjectState) : ProjectState :=
  match op with
  | SoAdvance now cycle policy => (advance elapsed now cycle policy st).1
  | SoClose now cycle => (close_now now cycle st).1
  | SoCommit id => (commit_ticket id st).1
  | SoUncommit id => (uncommit_ticket id st).1
  | SoRefill => (refill_empty_scope st).1
  | SoTopUp floor => (top_up_scope to_lowercase is_alphanumeric floor st).1
  | SoQueue now goal ids by_ => (queue_sprint now goal ids by_ st).1
  | SoScope id add remove => (scope_queued_sprint id add remove st).1
  | SoDelete id => (delete_queued_sprint id st).1
  | SoRename id goal => (rename_queued_sprint id goal st).1
  | SoMove id delta => (move_queued_sprint id delta st).1
  | SoHold now => (auto_hold_exhausted now st).1
  | SoClearFails id => clear_fail_attempts id st
  end.

Definition run_sprint (elapsed : string -> option Z)
    (to_lowercase : string -> string) (is_alphanumeric : string -> bool) (ops : list SprintOp) (st : ProjectState)
    : ProjectState :=
  fold_left (fun st op => sprint_op elapsed to_lowercase is_alphanumeric op st) ops st.

(** *** Weakening *)

Lemma history_ok_le n m l s : n <= m -> history_ok n l s -> history_ok m l s.
Proof. intros Hnm [? ? ? ?]. constructor; [done..|lia]. Qed.

Lemma queue_ok_le n m ids q : n <= m -> queue_ok n ids q -> queue_ok m ids q.
Proof.
  intros Hnm [? Hm ?]. constructor; [done| |done]. eapply Forall_impl; [exact Hm|]. cbn. lia.
Qed.

Lemma sprint_wf_le n m st : n <= m -> sprint_wf n st -> sprint_wf m st.
Proof. intros Hnm [? ? ? ?]. constructor; eauto using history_ok_le, queue_ok_le. Qed.

Lemma history_committed n l s f :
  history_ok n l s -> history_ok n l ((fun sp => sp <| sp_committed ::= f |>) <$> s).
Proof. intros [? Hc ? ?]. constructor; [done| |done..]. destruct s as [[]|]; done. Qed.

Lemma committed_on f (st : ProjectState) :
  committed_of (on_committed f st) = match sprint st with Some s => f (sp_committed s) | None => [] end.
Proof.
  unfold committed_of.
  change (sprint (on_committed f st)) with ((fun sp => sp <| sp_committed ::= f |>) <$> sprint st).
  by destruct (sprint st) as [[]|].
Qed.

(** A write to the committed list that keeps it duplicate free and existing. *)
Lemma on_committed_wf n f (st : ProjectState) :
  sprint_wf n st -> ids_ok (t_id <$> tickets st) (f (committed_of st)) ->
  sprint_wf n (on_committed f st).
Proof.
  intros [? ? ? ?] Hf. constructor; [done|by apply history_committed| |done].
  rewrite committed_on. change (tickets (on_committed f st)) with (tickets st).
  unfold committed_of in Hf. destruct (sprint st); [exact Hf|]. split; [apply NoDup_nil_2|].
  by intros x ?%elem_of_nil.
Qed.

Lemma ids_ok_snoc ids l id : ids_ok ids l -> id ∈ ids -> id ∉ l -> ids_ok ids (l ++ [id]).
Proof.
  intros [Hn Hi] Hid Hni. split.
  - apply NoDup_app. split_and!; [done| |apply NoDup_singleton].
    by intros x Hx ->%list_elem_of_singleton.
  - intros x [?| ->%list_elem_of_singleton]%elem_of_app; auto.
Qed.

Lemma ids_ok_sublist ids l l' : l' `sublist_of` l -> ids_ok ids l -> ids_ok ids l'.
Proof.
  intros Hs [Hn Hi]. split; [by eapply sublist_NoDup|]. intros x Hx. apply Hi.
  by eapply elem_of_sublist.
Qed.

(** *** Rollover *)

Definition closing_record (now : string) (st : ProjectState) : list SprintRecord :=
  match sprint st with
  | None => []
  | Some s => [mkSprintRecord (sp_number s) (sp_goal s) (length (sp_committed s)) (done_count st) now]
  end.

(** [st] with the closing sprint archived and the plan taken off the queue. *)
Definition archived (now : string) (st : ProjectState) : ProjectState :=
  st <| sprints ::= fun l => l ++ closing_record now st |> <| sprint_queue ::= drop 1 |>.

Lemma archived_eq now (st : ProjectState) :
  (match sprint st with
   | None => st
   | Some closing => st <| sprints ::= fun l => l ++ [mkSprintRecord (sp_number closing)
        (sp_goal closing) (length (sp_committed closing)) (done_count st) now] |>
   end) <| sprint_queue ::= drop 1 |> = archived now st.
Proof. unfold archived, closing_record. destruct (sprint st); [done|].
  transitivity (st <| sprints := sprints st ++ [] |> <| sprint_queue ::= drop 1 |>); [|done].
  by rewrite app_nil_r.
Qed.

Lemma roll_over_parts now cycle len floor (st : ProjectState) :
  exists goal committed,
    let number := u32_wrap (match sprint st with Some s => sp_number s | None => 0 end + 1) in
    roll_over now cycle len floor st =
      ((archived now st) <| sprint := Some (mkSprint number goal cycle len committed now floor) |>, number) /\
    (committed = open_backlog (archived now st) floor \/
     exists p q, sprint_queue st = p :: q /\ committed <> [] /\
       committed = List.filter (plan_live (archived now st)) (pl_tickets p)).
Proof.
  unfold roll_over. cbv zeta. rewrite !archived_eq.
  set (st1 := match sprint st with None => st | Some _ => _ end).
  assert (Hs : sprint st1 = sprint st) by (subst st1; by destruct (sprint st) eqn:?).
  assert (Hq : sprint_queue st1 = sprint_queue st) by (subst st1; by destruct (sprint st) eqn:?).
  rewrite Hs, Hq. destruct (sprint_queue st) as [|p q]; cbn [head].
  - eexists _, _. split; [reflexivity|]. by left.
  - case_bool_decide as Hl; eexists _, _; (split; [reflexivity|]); [by left|right; eauto].
Qed.

(** The number after the archived history. *)
Lemma archived_history n now (st : ProjectState) :
  history_ok n (sprints st) (sprint st) -> (N.of_nat n < 4294967294)%N ->
  let records := sprints st ++ closing_record now st in
  (sr_number <$> records) = N.of_nat <$> seq 1 (length records) /\
  Forall (fun r => sr_done r <= sr_committed r) records /\ length records <= S n /\
  u32_wrap (match sprint st with Some s => sp_number s | None => 0 end + 1)
    = N.of_nat (S (length records)).
Proof.
  intros [Hn Hc Hd Hl] Hlt. unfold closing_record. destruct (sprint st) as [s|] eqn:E; cbn zeta.
  - rewrite length_app, fmap_app, Hn, Hc. cbn [length]. split_and!.
    + rewrite Nat.add_1_r, seq_S, fmap_app. done.
    + apply Forall_app. split; [done|]. apply Forall_singleton. cbn. by apply done_count_le.
    + lia.
    + unfold u32_wrap. rewrite N.mod_small by lia. lia.
  - rewrite Hc. cbn. split_and!; [done|done|lia|done].
Qed.

Lemma archived_backlog_ok now floor (st : ProjectState) :
  NoDup (t_id <$> tickets st) ->
  ids_ok (t_id <$> tickets st) (open_backlog (archived now st) floor).
Proof.
  intros H. split.
  - by apply (NoDup_open_backlog (archived now st) floor).
  - intros id. apply (elem_of_open_backlog (archived now st)).
Qed.

Lemma roll_over_wf n now cycle len floor (st : ProjectState) :
  sprint_wf n st -> (N.of_nat n < 4294967294)%N ->
  sprint_wf (S n) (roll_over now cycle len floor st).1.
Proof.
  intros [Ht Hh Hc Hq] Hn.
  destruct (roll_over_parts now cycle len floor st) as (goal & committed & -> & Hcom).
  destruct (archived_history n now st Hh Hn) as (H1 & H2 & H3 & H4). cbn [fst]. constructor.
  - exact Ht.
  - constructor; [exact H1|exact H4|exact H2|exact H3].
  - change (ids_ok (t_id <$> tickets st) committed).
    destruct Hcom as [->|(p & q & Eq & _ & ->)]; [by apply archived_backlog_ok|].
    eapply ids_ok_sublist; [apply filter_bool_sublist|].
    destruct Hq as [_ _ Hts]. rewrite Eq in Hts. by apply Forall_cons in Hts as [? _].
  - apply (queue_ok_le n); [lia|]. destruct Hq as [Q1 Q2 Q3].
    change (queue_ok n (t_id <$> tickets st) (drop 1 (sprint_queue st))). constructor.
    + eapply sublist_NoDup; [exact Q1|]. apply fmap_sublist, sublist_drop.
    + by apply Forall_drop.
    + by apply Forall_drop.
Qed.

(** *** The other operations *)

Lemma advance_wf elapsed n now cycle policy (st : ProjectState) :
  sprint_wf n st -> (N.of_nat n < 4294967294)%N ->
  sprint_wf (S n) (advance elapsed now cycle policy st).1.
Proof.
  intros H Hn. unfold advance. cbv zeta.
  assert (Hr : forall len, sprint_wf (S n)
    (let '(st', k) := roll_over now cycle len (policy_floor policy) st in (st', Some k)).1).
  { intros len. pose proof (roll_over_wf n now cycle len (policy_floor policy) st H Hn).
    by destruct (roll_over _ _ _ _ _). }
  destruct (sprint st) as [s|]; [|apply Hr].
  destruct (all_committed_done st s); [apply Hr|].
  destruct (match window policy with Days _ => _ | Cycles _ => _ end); [apply Hr|].
  eapply sprint_wf_le; [|exact H]. lia.
Qed.

Lemma close_now_wf n now cycle (st : ProjectState) :
  sprint_wf n st -> (N.of_nat n < 4294967294)%N -> sprint_wf (S n) (close_now now cycle st).1.
Proof.
  intros H Hn. unfold close_now. destruct (sprint st) as [s|]; [|by eapply sprint_wf_le; [|exact H]; lia].
  pose proof (roll_over_wf n now cycle (N.max (sp_length_cycles s) 1) (sp_bug_burn_floor s) st H Hn).
  by destruct (roll_over _ _ _ _ _).
Qed.

Lemma commit_wf n id (st : ProjectState) : sprint_wf n st -> sprint_wf n (commit_ticket id st).1.
Proof.
  intros H. unfold commit_ticket. destruct (ticket id st) eqn:Et; [|done].
  destruct (sprint st) as [s|] eqn:Es; [|done]. destruct (one_of id _) eqn:E; [done|]. cbn [fst].
  apply on_committed_wf; [done|]. apply ids_ok_snoc; [apply H| |].
  - apply find_ticket_some. unfold ticket in Et. by rewrite Et.
  - unfold committed_of. rewrite Es. by apply bool_decide_eq_false in E.
Qed.

Lemma uncommit_wf n id (st : ProjectState) : sprint_wf n st -> sprint_wf n (uncommit_ticket id st).1.
Proof.
  intros H. unfold uncommit_ticket. destruct (sprint st) as [s|] eqn:Es; [|done]. cbn [fst].
  apply on_committed_wf; [done|].
  eapply ids_ok_sublist; [apply filter_bool_sublist|apply H].
Qed.

Lemma workable_exists (st : ProjectState) id :
  id ∈ ready_feature_candidates st ++ open_bug_candidates st -> id ∈ (t_id <$> tickets st).
Proof.
  rewrite elem_of_app. unfold ready_feature_candidates, open_bug_candidates.
  rewrite !elem_of_candidates.
  intros [(t & Ht & <- & _)|(t & Ht & <- & _)]; by apply list_elem_of_fmap_2.
Qed.

Lemma refill_wf n (st : ProjectState) : sprint_wf n st -> sprint_wf n (refill_empty_scope st).1.
Proof.
  intros H. unfold refill_empty_scope. cbv zeta.
  destruct (match sprint st with Some _ => _ | None => _ end).
  { cbn [fst]. apply on_committed_wf; [done|]. split.
    - apply NoDup_open_backlog, H.
    - intros id. apply elem_of_open_backlog. }
  assert (Hpush : forall id, id ∈ (t_id <$> tickets st) -> id ∉ committed_of st ->
            sprint_wf n (on_committed (fun l => l ++ [id]) st)).
  { intros id Hi Hn. apply on_committed_wf; [done|]. by apply ids_ok_snoc; [apply H| |]. }
  assert (Hrest : sprint_wf n (
    if existsb (fun id => match ticket id st with Some t => is_work t | None => false end)
         (committed_of st) then (st, 0)
    else match List.find (fun t => is_ready_work t && negb (one_of (t_id t) (committed_of st)))
           (tickets st), sprint st with
         | Some t, Some _ => (on_committed (fun l => l ++ [t_id t]) st, 1)
         | _, _ => (st, 0)
         end).1).
  { destruct (existsb _ _); [done|]. destruct (List.find _ _) as [t|] eqn:E; [|done].
    destruct (sprint st); [|done]. cbn [fst].
    apply find_elem in E as [Ht [_ Hn%negb_true_iff%bool_decide_eq_false]%andb_prop].
    apply Hpush; [by apply list_elem_of_fmap_2|done]. }
  destruct (if existsb _ _ then None else List.find _ _) as [id|] eqn:E; [|exact Hrest].
  destruct (sprint st) eqn:Es; [|exact Hrest]. cbn [fst].
  destruct (existsb _ _) in E; [done|].
  apply find_elem in E as [Hi Hn%negb_true_iff%bool_decide_eq_false].
  apply Hpush; [by apply workable_exists|done].
Qed.

Lemma elem_of_picks to_lowercase is_alphanumeric (st : ProjectState) id :
  id ∈ (snd <$> top_up_ranked to_lowercase is_alphanumeric st) <->
  exists t, t ∈ tickets st /\ t_id t = id /\ top_up_eligible st t = true.
Proof.
  unfold top_up_ranked. cbv zeta. rewrite sort_by_perm, <- list_fmap_compose, list_elem_of_fmap.
  split.
  - intros (t & -> & [Ht Hp]%elem_of_filter_bool). eauto.
  - intros (t & Ht & <- & Hp). exists t. split; [done|]. by apply elem_of_filter_bool.
Qed.

Lemma NoDup_picks to_lowercase is_alphanumeric (st : ProjectState) :
  NoDup (t_id <$> tickets st) -> NoDup (snd <$> top_up_ranked to_lowercase is_alphanumeric st).
Proof.
  intros H. unfold top_up_ranked. cbv zeta. rewrite sort_by_perm, <- list_fmap_compose.
  by apply (filter_keys_NoDup t_id).
Qed.

Lemma eligible_not_committed (st : ProjectState) t : top_up_eligible st t = true -> t_id t ∉ committed_of st.
Proof. intros [Hn _]%andb_prop. by apply negb_true_iff, bool_decide_eq_false in Hn. Qed.

Lemma dedup_wf n (st : ProjectState) : sprint_wf n st -> sprint_wf n (on_committed (first_occurrences []) st).
Proof.
  intros H. apply on_committed_wf; [done|]. split; [apply NoDup_first_occurrences|].
  intros id [Hi _]%elem_of_first_occurrences. by apply H.
Qed.

Lemma top_up_wf to_lowercase is_alphanumeric n floor (st : ProjectState) :
  sprint_wf n st -> sprint_wf n (top_up_scope to_lowercase is_alphanumeric floor st).1.
Proof.
  intros H%dedup_wf. unfold top_up_scope. cbv zeta.
  set (st1 := on_committed _ st) in *. clearbody st1.
  destruct (sprint st1) eqn:Es; [|done]. destruct (_ =? 0); [done|]. cbn [fst].
  apply on_committed_wf; [done|]. set (k := top_up_want floor st1). split.
  - apply NoDup_app. split_and!; [apply H| |].
    + intros id Hc Hp. apply elem_of_take_sub, elem_of_picks in Hp as (t & _ & <- & Hp).
      by apply eligible_not_committed in Hp.
    + eapply sublist_NoDup; [apply NoDup_picks, H|apply sublist_take].
  - intros id [Hi|Hi]%elem_of_app; [by apply H|].
    apply elem_of_take_sub, elem_of_picks in Hi as (t & Ht & <- & _). by apply list_elem_of_fmap_2.
Qed.

Lemma queue_wf_change n (st : ProjectState) q :
  sprint_wf n st -> queue_ok n (t_id <$> tickets st) q -> sprint_wf n (st <| sprint_queue := q |>).
Proof. intros [? ? ? ?] Hq. by constructor. Qed.

Lemma foldr_max_ge (l : list N) x : x ∈ l -> (x <= foldr N.max 0 l)%N.
Proof. induction l as [|y l IH]; [by intros ?%elem_of_nil|]. intros [->|Hx]%elem_of_cons; cbn; [lia|]. specialize (IH Hx). lia. Qed.

Lemma queue_sprint_wf n now goal ids by_ (st : ProjectState) :
  sprint_wf n st -> (N.of_nat n < 4294967294)%N ->
  sprint_wf (S n) (queue_sprint now goal ids by_ st).1.
Proof.
  intros H Hn. unfold queue_sprint. cbv zeta. cbn [fst].
  apply (queue_wf_change (S n) st); [by eapply sprint_wf_le; [|exact H]; lia|].
  change (queue_ok (S n) (t_id <$> tickets st) (sprint_queue st ++
    [mkPlannedSprint (u64_wrap (foldr N.max 0%N (pl_id <$> sprint_queue st) + 1)) (trim goal)
       (first_occurrences [] (List.filter (ticket_exists st) ids)) now by_])).
  destruct (sw_queue _ _ H) as [Q1 Q2 Q3].
  assert (Hmax : (foldr N.max 0 (pl_id <$> sprint_queue st) <= N.of_nat n)%N).
  { clear -Q2. induction Q2; cbn; lia. }
  constructor.
  - rewrite fmap_app. apply NoDup_app. split_and!; [done| |apply NoDup_singleton].
    intros x Hx ->%list_elem_of_singleton. cbn in Hx. apply foldr_max_ge in Hx.
    unfold u64_wrap in Hx. rewrite N.mod_small in Hx by lia. lia.
  - apply Forall_app. split; [eapply Forall_impl; [exact Q2|cbn; lia]|].
    apply Forall_singleton. cbn. unfold u64_wrap. rewrite N.mod_small by lia. lia.
  - apply Forall_app. split; [done|]. apply Forall_singleton. cbn. split; [apply NoDup_first_occurrences|].
    intros id [[_ Hi]%elem_of_filter_bool _]%elem_of_first_occurrences. by apply ticket_exists_true.
Qed.

(** Replacing a plan by one with the same id and valid tickets. *)
Lemma queue_update_ok n ids q id f :
  queue_ok n ids q -> (forall p, pl_id (f p) = pl_id p) ->
  (forall p, ids_ok ids (pl_tickets p) -> ids_ok ids (pl_tickets (f p))) ->
  queue_ok n ids (update_first (is_plan id) f q).
Proof.
  intros [Q1 Q2 Q3] Hid Hts. constructor.
  - by rewrite map_update_first.
  - apply update_first_Forall; [|done]. intros p Hp _. by rewrite Hid.
  - apply update_first_Forall; [|done]. auto.
Qed.

Lemma scope_queue_wf n id add remove (st : ProjectState) :
  sprint_wf n st -> sprint_wf n (scope_queued_sprint id add remove st).1.
Proof.
  intros H. unfold scope_queued_sprint. cbv zeta. destruct (List.find _ _); [|done]. cbn [fst].
  apply (queue_wf_change n st); [done|]. apply queue_update_ok; [apply H|by intros []|].
  intros r Hp. assert (Hv : forall x, x ∈ List.filter (ticket_exists st) add -> x ∈ (t_id <$> tickets st))
    by (intros x [_ Hx]%elem_of_filter_bool; by apply ticket_exists_true).
  destruct r as [? ? ts ? ?]. cbn in *.
  assert (Hk : ids_ok (t_id <$> tickets st) (List.filter (fun t => negb (one_of t remove)) ts))
    by (eapply ids_ok_sublist; [apply filter_bool_sublist|exact Hp]).
  revert Hk Hv. generalize (List.filter (fun t => negb (one_of t remove)) ts) as acc.
  generalize (List.filter (ticket_exists st) add) as l. clear.
  induction l as [|x l IH]; intros acc Hk Hv; cbn; [done|]. apply IH.
  - destruct (one_of x acc) eqn:E; [done|]. apply bool_decide_eq_false in E.
    apply ids_ok_snoc; [done| |done]. apply Hv. left.
  - intros y Hy. apply Hv. by right.
Qed.

Lemma queue_sublist_ok n ids q q' : q' `sublist_of` q -> queue_ok n ids q -> queue_ok n ids q'.
Proof.
  intros Hs [Q1 Q2 Q3]. constructor.
  - eapply sublist_NoDup; [exact Q1|by apply fmap_sublist].
  - by eapply sublist_Forall.
  - by eapply sublist_Forall.
Qed.

Lemma delete_queue_wf n id (st : ProjectState) : sprint_wf n st -> sprint_wf n (delete_queued_sprint id st).1.
Proof.
  intros H. apply (queue_wf_change n st); [done|].
  eapply queue_sublist_ok; [apply filter_bool_sublist|apply H].
Qed.

Lemma rename_queue_wf n id goal (st : ProjectState) : sprint_wf n st -> sprint_wf n (rename_queued_sprint id goal st).1.
Proof.
  intros H. unfold rename_queued_sprint. destruct (List.find _ _); [|done]. cbn [fst].
  apply (queue_wf_change n st); [done|]. apply queue_update_ok; [apply H|by intros []|by intros []].
Qed.

Lemma swap_perm {A} i j (l : list A) : swap i j l ≡ₚ l.
Proof.
  unfold swap. destruct (l !! i) eqn:Hi; [|done]. destruct (l !! j) eqn:Hj; [|done].
  by apply Permutation_insert_swap.
Qed.

Lemma queue_perm_ok n ids q q' : q' ≡ₚ q -> queue_ok n ids q -> queue_ok n ids q'.
Proof. intros Hp [? ? ?]. by constructor; rewrite Hp. Qed.

Lemma move_queue_wf n id delta (st : ProjectState) : sprint_wf n st -> sprint_wf n (move_queued_sprint id delta st).1.
Proof.
  intros H. unfold move_queued_sprint. destruct (fst <$> _) as [i|]; [|done].
  cbv zeta. destruct (_ || _); [done|]. cbn [fst].
  apply (queue_wf_change n st); [done|]. eapply queue_perm_ok; [apply swap_perm|apply H].
Qed.

(** *** Parking exhausted tickets *)

(** What parking does to a ticket. *)
Definition parked (t : Ticket) : Ticket := clear_claim (set_status OnHold t).

(** A ticket [auto_hold_exhausted] can park. *)
Definition parkable (t : Ticket) : Prop :=
  t_status t ∈ [Pending; Ready; Open] /\ status_legal (t_kind t) (t_status t) = true.

Lemma park_ok t : parkable t -> transition_to System OnHold t = Ok (parked t).
Proof.
  intros [Hs Hl]. apply transition_to_ok. constructor; [| |done|done|by rewrite decide_False].
  - destruct (t_kind t), (t_status t); try discriminate Hl; try done;
      by apply (bool_decide_eq_true (_ ∈ _)) in Hs.
  - by destruct (t_status t).
Qed.

Lemma parked_id t : t_id (parked t) = t_id t.
Proof. by destruct t. Qed.

Lemma hold_one_some now (st : ProjectState) held id t :
  ticket id st = Some t -> parkable t ->
  hold_one now (st, held) id =
    (log_activity now "SYSTEM"
       "auto-held after repeated failures — resume it from the ticket when unblocked" (Some id)
       ((on_committed (retain_not id) (set_ticket id (fun _ => parked t) st))
          <| hold_reasons ::= insert id "auto-held after 3 failed attempts" |>), held ++ [id]).
Proof. intros Ht Hp. unfold hold_one. by rewrite Ht, park_ok. Qed.

Lemma hold_one_wf n now acc id : sprint_wf n acc.1 -> sprint_wf n (hold_one now acc id).1.
Proof.
  destruct acc as [st held]. cbn [fst]. intros H. unfold hold_one.
  destruct (ticket id st) as [t|] eqn:Et; [|done].
  destruct (transition_to System OnHold t) as [t'|] eqn:E; [|done]. cbn [fst].
  assert (Hid : t_id t' = t_id t).
  { apply transition_to_ok in E as [_ _ _ _ ->]. rewrite decide_False by done. by destruct t. }
  assert (Hids : (t_id <$> tickets (set_ticket id (fun _ => t') st)) = (t_id <$> tickets st)).
  { apply map_update_first. intros x Hx%is_ticket_true.
    unfold ticket in Et. apply find_ticket_id in Et as [Ht _]. congruence. }
  assert (Hset : sprint_wf n (set_ticket id (fun _ => t') st)).
  { destruct H as [H1 H2 H3 H4]. constructor; rewrite ?Hids; [done|exact H2|exact H3|exact H4]. }
  assert (Hcom : sprint_wf n (on_committed (retain_not id) (set_ticket id (fun _ => t') st))).
  { apply on_committed_wf; [done|].
    eapply ids_ok_sublist; [apply filter_bool_sublist|apply Hset]. }
  destruct Hcom as [C1 C2 C3 C4]. by constructor.
Qed.

Lemma auto_hold_wf n now (st : ProjectState) : sprint_wf n st -> sprint_wf n (auto_hold_exhausted now st).1.
Proof.
  intros H. unfold auto_hold_exhausted.
  apply (fold_left_invariant (fun acc => sprint_wf n acc.1)); [|done].
  intros acc id. apply hold_one_wf.
Qed.

Lemma sprint_op_wf elapsed to_lowercase is_alphanumeric n op (st : ProjectState) :
  sprint_wf n st -> (N.of_nat n < 4294967294)%N -> sprint_wf (S n) (sprint_op elapsed to_lowercase is_alphanumeric op st).
Proof.
  intros H Hn. assert (Hw : forall st', sprint_wf n st' -> sprint_wf (S n) st')
    by (intros st'; apply sprint_wf_le; lia).
  destruct op; cbn [sprint_op]; auto using advance_wf, close_now_wf, commit_wf, uncommit_wf, refill_wf,
    top_up_wf, queue_sprint_wf, scope_queue_wf, delete_queue_wf, rename_queue_wf, move_queue_wf,
    auto_hold_wf.
  apply Hw. destruct H. by constructor.
Qed.

Lemma run_sprint_wf elapsed to_lowercase is_alphanumeric n ops (st : ProjectState) :
  sprint_wf n st -> (N.of_nat (n + length ops) < 4294967295)%N ->
  sprint_wf (n + length ops) (run_sprint elapsed to_lowercase is_alphanumeric ops st).
Proof.
  revert n st. induction ops as [|op ops IH]; intros n st H Hl; cbn in *.
  - by rewrite Nat.add_0_r.
  - rewrite Nat.add_succ_r, <- Nat.add_succ_l. apply IH; [|lia]. apply sprint_op_wf; [done|lia].
Qed.

(** ** Properties *)

(** C13: sprint bookkeeping. Starting from any tickets with distinct ids and no
    sprint yet, after any sequence of sprint operations (fewer than 2^32 - 1 of
    them) the archived sprints are numbered 1, 2, 3, ... without a gap, the running
    sprint has the next number, no archived sprint claims more done than
    committed, the committed list and every queued plan are duplicate free and
    name only existing tickets, and queued plans have distinct ids. *)
Theorem sprint_invariant elapsed to_lowercase is_alphanumeric ops (st : ProjectState) :
  NoDup (t_id <$> tickets st) -> sprint st = None -> sprints st = [] -> sprint_queue st = [] ->
  (N.of_nat (length ops) < 4294967295)%N ->
  sprint_wf (length ops) (run_sprint elapsed to_lowercase is_alphanumeric ops st).
Proof.
  intros Ht Hs Hr Hq Hl. apply (run_sprint_wf _ _ _ 0); [|done]. constructor.
  - done.
  - rewrite Hr, Hs. by constructor.
  - unfold committed_of. rewrite Hs. split; [apply NoDup_nil_2|by intros id ?%elem_of_nil].
  - rewrite Hq. constructor; [apply NoDup_nil_2|done..].
Qed.

(** *** Parking leaves nothing exhausted *)

Lemma parked_not_exhausted (st : ProjectState) t : is_exhausted st (parked t) = false.
Proof. unfold is_exhausted. destruct t. done. Qed.

Lemma is_exhausted_spec (st : ProjectState) t : is_exhausted st t = true -> t_status t ∈ [Pending; Ready; Open].
Proof. intros [H _]%andb_prop. by apply one_of_true. Qed.

Lemma committed_hold (st : ProjectState) x id (st1 : ProjectState) :
  sprint st1 = sprint (on_committed (retain_not id) st) ->
  x ∈ committed_of st1 <-> x ∈ committed_of st /\ x <> id.
Proof.
  intros E. unfold committed_of at 1. rewrite E. fold (committed_of (on_committed (retain_not id) st)).
  rewrite committed_on. unfold committed_of. destruct (sprint st) as [s|].
  - unfold retain_not. by rewrite elem_of_filter_bool, negb_true_iff, bool_decide_eq_false.
  - split; [by intros ?%elem_of_nil|by intros [?%elem_of_nil _]].
Qed.

Lemma hold_loop now ids (st : ProjectState) held :
  NoDup (t_id <$> tickets st) -> NoDup ids ->
  (forall id, id ∈ ids -> exists t, ticket id st = Some t /\ parkable t) ->
  let r := fold_left (hold_one now) ids (st, held) in
  r.2 = held ++ ids /\
  tickets r.1 = change_all parked ids (tickets st) /\
  ticket_fail_attempts r.1 = ticket_fail_attempts st /\
  (forall id, id ∈ committed_of r.1 <-> id ∈ committed_of st /\ id ∉ ids) /\
  (forall id, is_Some (hold_reasons st !! id) \/ id ∈ ids -> is_Some (hold_reasons r.1 !! id)).
Proof.
  revert st held. induction ids as [|id ids IH]; intros st held Hnd Hids Hpark; cbn zeta.
  { cbn. rewrite app_nil_r, change_all_nil. split_and!; [done..| |].
    - intros id. split; [|by intros [? _]]. intros ?. split; [done|by intros ?%elem_of_nil].
    - intros id [?|?%elem_of_nil]; done. }
  apply NoDup_cons in Hids as [Hni Hids].
  destruct (Hpark id ltac:(left)) as (t & Ht & Hp). cbn [fold_left].
  rewrite (hold_one_some now st held id t Ht Hp).
  set (st1 := log_activity _ _ _ _ _).
  assert (Htk : tickets st1 = change_all parked [id] (tickets st))
    by exact (update_first_change parked _ _ _ Hnd Ht).
  destruct (IH st1 (held ++ [id])) as (R1 & R2 & R3 & R4 & R5).
  { by rewrite Htk, change_all_ids by apply parked_id. }
  { done. }
  { intros id' Hin. destruct (Hpark id' ltac:(by right)) as (t' & Ht' & Hp'). exists t'. split; [|done].
    unfold ticket. rewrite Htk, find_change_other; [done|apply parked_id|].
    rewrite list_elem_of_singleton. by intros ->. }
  split_and!.
  - rewrite R1. by rewrite <- app_assoc.
  - rewrite R2, Htk. by apply change_all_cons; [apply parked_id|].
  - by rewrite R3.
  - intros x. rewrite R4, (committed_hold st x id st1 eq_refl), not_elem_of_cons. tauto.
  - intros x Hx. apply R5. change (hold_reasons st1)
      with (insert id "auto-held after 3 failed attempts" (hold_reasons st) : gmap string string).
    destruct (decide (x = id)) as [->|Hne]; [left; by rewrite lookup_insert_eq|].
    destruct Hx as [Hx|[->|Hx]%elem_of_cons]; [|done|by right].
    left. by rewrite lookup_insert_ne.
Qed.

(** parking is complete. On tickets with distinct ids and legal statuses the
    sweep parks exactly the tickets that failed three times and are still in
    play, once each and in list order: they become OnHold and unclaimed, leave
    the running sprint's scope, get a recorded reason, and no other ticket
    changes; afterwards no ticket is exhausted. *)
Theorem auto_hold_complete now (st : ProjectState) :
  NoDup (t_id <$> tickets st) ->
  (forall t, t ∈ tickets st -> status_legal (t_kind t) (t_status t) = true) ->
  let '(st', held) := auto_hold_exhausted now st in
  held = t_id <$> List.filter (is_exhausted st) (tickets st) /\
  tickets st' = (fun t => if is_exhausted st t then parked t else t) <$> tickets st /\
  (forall id, id ∈ committed_of st' <-> id ∈ committed_of st /\ id ∉ held) /\
  (forall id, id ∈ held -> is_Some (hold_reasons st' !! id)) /\
  (forall t, t ∈ tickets st' -> is_exhausted st' t = false).
Proof.
  intros Hnd Hlegal. unfold auto_hold_exhausted.
  set (ids := t_id <$> List.filter (is_exhausted st) (tickets st)).
  assert (Hex : forall t, t ∈ tickets st -> (t_id t ∈ ids <-> is_exhausted st t = true)).
  { intros t Ht. unfold ids. rewrite list_elem_of_fmap. split.
    - intros (u & Hu & [Hin He]%elem_of_filter_bool). by rewrite (keyed_inj t_id (tickets st) t u).
    - intros He. exists t. split; [done|]. by apply elem_of_filter_bool. }
  destruct (hold_loop now ids st []) as (R1 & R2 & R3 & R4 & R5).
  { done. }
  { by apply filter_keys_NoDup. }
  { intros id (t & -> & [Ht He]%elem_of_filter_bool)%list_elem_of_fmap. exists t.
    split; [by apply find_ticket_unique|]. split; [by eapply is_exhausted_spec|auto]. }
  destruct (fold_left _ _ _) as [st' held]. cbn [fst snd] in *. cbn in R1. subst held.
  assert (Htk : tickets st' = (fun t => if is_exhausted st t then parked t else t) <$> tickets st).
  { rewrite R2. apply list_fmap_ext. intros i t Ht%list_elem_of_lookup_2.
    specialize (Hex t Ht). destruct (is_exhausted st t).
    - by rewrite decide_True by by apply Hex.
    - rewrite decide_False; [done|]. intros H%Hex. done. }
  split_and!; [done|done|done| |].
  - intros id Hid. apply R5. by right.
  - intros t Ht. rewrite Htk in Ht. apply list_elem_of_fmap in Ht as (u & -> & Hu).
    unfold is_exhausted at 1. rewrite R3. fold (is_exhausted st).
    destruct (is_exhausted st u) eqn:E; [apply (parked_not_exhausted st u)|exact E].
Qed.

Lemma floor_on_committed f (st : ProjectState) : active_bug_burn_floor (on_committed f st) = active_bug_burn_floor st.
Proof.
  unfold active_bug_burn_floor.
  change (sprint (on_committed f st)) with ((fun sp => sp <| sp_committed ::= f |>) <$> sprint st).
  by destruct (sprint st) as [[]|].
Qed.

(** The committed tickets somebody can work on. *)
Definition actionable (st : ProjectState) : list Ticket :=
  List.filter (fun t => one_of (t_id t) (committed_of st) && one_of (t_status t) [Ready; Open]) (tickets st).

Lemma elem_of_actionable_ids st t :
  t ∈ tickets st -> t_id t ∈ committed_of st -> one_of (t_status t) [Ready; Open] = true ->
  t_id t ∈ (t_id <$> actionable st).
Proof.
  intros Ht Hc Hs. apply list_elem_of_fmap_2, elem_of_filter_bool. split; [done|].
  by rewrite Hs, (proj2 (one_of_true _ _) Hc).
Qed.

Lemma committed_append l (st : ProjectState) id :
  is_Some (sprint st) ->
  id ∈ committed_of (on_committed (fun k => k ++ l) st) <-> id ∈ committed_of st \/ id ∈ l.
Proof. intros [s Hs]. rewrite committed_on. unfold committed_of. rewrite Hs. apply elem_of_app. Qed.

Section Picks.
Context (to_lowercase : string -> string) (is_alphanumeric : string -> bool).
Context (st : ProjectState) (Hnd : NoDup (t_id <$> tickets st)) (Hs : is_Some (sprint st)).
Context (n : nat).

Let ranked := snd <$> top_up_ranked to_lowercase is_alphanumeric st.
Let st' := on_committed (fun l => l ++ take n ranked) st.

(** Each pick adds one actionable ticket. *)
Lemma picks_actionable : n <= length ranked -> length (actionable st) + n <= length (actionable st').
Proof.
  intros Hn. rewrite <- (length_take_le ranked n), <- (length_fmap t_id (actionable st)), <- length_app,
    <- (length_fmap t_id (actionable st')) by done.
  apply submseteq_length, NoDup_submseteq.
  - apply NoDup_app. split_and!; [by apply filter_keys_NoDup| |].
    + intros id (t & -> & [_ [Hcm%one_of_true _]%andb_prop]%elem_of_filter_bool)%list_elem_of_fmap Hp.
      apply elem_of_take_sub, elem_of_picks in Hp as (u & _ & Hu & He%eligible_not_committed).
      by rewrite Hu in He.
    + eapply sublist_NoDup; [by apply NoDup_picks|apply sublist_take].
  - intros id [Hi|Hi]%elem_of_app.
    + apply list_elem_of_fmap in Hi as (t & -> & [Ht [Hcm%one_of_true Hst]%andb_prop]%elem_of_filter_bool).
      apply elem_of_actionable_ids; [done| |done]. apply committed_append; [done|by left].
    + assert (Hi' := Hi). apply elem_of_take_sub, elem_of_picks in Hi' as (t & Ht & <- & He).
      apply elem_of_actionable_ids; [done|apply committed_append; [done|by right]|].
      apply andb_prop in He as [_ He]. by destruct (t_status t).
Qed.

(** When the candidates run out, nothing eligible is left. *)
Lemma picks_exhaust t : length ranked <= n -> t ∈ tickets st -> top_up_eligible st' t = false.
Proof.
  intros Hle Ht. apply not_true_iff_false. intros He. pose proof (eligible_not_committed _ _ He) as Hn.
  apply Hn. apply committed_append; [done|]. right. rewrite take_ge by done. apply elem_of_picks.
  exists t. split_and!; [done..|]. unfold top_up_eligible in *. unfold st' in He at 2.
  rewrite floor_on_committed in He. apply andb_prop in He as [_ ->].
  rewrite andb_true_r. apply negb_true_iff, bool_decide_eq_false. intros Hc. apply Hn.
  apply committed_append; [done|by left].
Qed.

(** Every pick is a ticket the floor lets through. *)
Lemma picks_allowed id :
  id ∈ take n ranked ->
  exists t, t ∈ tickets st /\ t_id t = id /\ (t_status t = Ready \/
    t_status t = Open /\ below_bug_burn_floor (active_bug_burn_floor st) (t_priority t) = false).
Proof.
  intros Hid. apply elem_of_take_sub, elem_of_picks in Hid as (t & Ht & <- & He).
  exists t. split_and!; [done..|]. apply andb_prop in He as [_ He].
  destruct (t_status t); try done; [by left|right; by apply negb_true_iff in He].
Qed.
End Picks.

(** topping up reaches the floor. With distinct ids and a sprint running,
    after a top-up either at least [floor] committed tickets are Ready or Open, or
    every Ready ticket and every Open one the burn floor lets through is committed;
    everything committed before stays, and nothing it adds is parked, rejected or
    an open ticket below the burn floor. *)
Theorem top_up_reaches_floor to_lowercase is_alphanumeric floor (st : ProjectState) :
  NoDup (t_id <$> tickets st) -> is_Some (sprint st) ->
  let st' := (top_up_scope to_lowercase is_alphanumeric floor st).1 in
  let actionable := List.filter (fun t => one_of (t_id t) (committed_of st') &&
                                          one_of (t_status t) [Ready; Open]) (tickets st) in
  tickets st' = tickets st /\
  (floor <= length actionable \/ forall t, t ∈ tickets st -> top_up_eligible st' t = false) /\
  (forall id, id ∈ committed_of st -> id ∈ committed_of st') /\
  (forall id, id ∈ committed_of st' -> id ∈ committed_of st \/
     exists t, t ∈ tickets st /\ t_id t = id /\ (t_status t = Ready \/
       t_status t = Open /\ below_bug_burn_floor (active_bug_burn_floor st) (t_priority t) = false)).
Proof.
  intros Hnd [s Hs]. cbv zeta. unfold top_up_scope. cbv zeta.
  set (st1 := on_committed (first_occurrences []) st).
  assert (Hc1 : forall id, id ∈ committed_of st1 <-> id ∈ committed_of st).
  { intros id. unfold st1. rewrite committed_on. unfold committed_of. rewrite Hs.
    rewrite elem_of_first_occurrences. split; [by intros []|]. intros ?. split; [done|].
    by intros ?%elem_of_nil. }
  assert (Hs1 : is_Some (sprint st1)).
  { change (sprint st1) with ((fun sp => sp <| sp_committed ::= first_occurrences [] |>) <$> sprint st).
    by rewrite Hs. }
  rewrite <- (floor_on_committed (first_occurrences []) st). fold st1.
  change (tickets st) with (tickets st1) in Hnd |- *. clearbody st1. destruct Hs1 as [s1 Hs1]. rewrite Hs1.
  destruct (Nat.eqb_spec (top_up_want floor st1) 0) as [Hw|Hw]; cbn [fst].
  { split_and!; [done| |intros id; apply Hc1|intros id Hid%Hc1; by left].
    left. unfold top_up_want in Hw. lia. }
  pose proof (mk_is_Some _ _ Hs1) as Hsome. split_and!; [done| | |].
  - destruct (Nat.le_gt_cases (length (snd <$> top_up_ranked to_lowercase is_alphanumeric st1))
      (top_up_want floor st1)) as [Hle|Hgt].
    + right. intros t. by apply picks_exhaust.
    + left. pose proof (picks_actionable to_lowercase is_alphanumeric st1 Hnd Hsome
        (top_up_want floor st1) ltac:(lia)) as Hlen.
      unfold actionable, top_up_want in *. cbn [tickets] in Hlen. etrans; [|exact Hlen]. lia.
  - intros id Hid%Hc1. apply committed_append; [done|by left].
  - intros id [Hid|Hid]%committed_append; [left; by apply Hc1|right|done]. by eapply picks_allowed.
Qed.

(** A refill of a scope that is not empty adds at most one ticket. *)
Lemma refill_extends (st : ProjectState) s :
  sprint st = Some s -> committed_of st <> [] ->
  committed_of (refill_empty_scope st).1 = committed_of st \/
  exists id, committed_of (refill_empty_scope st).1 = committed_of st ++ [id] /\
    id ∉ committed_of st /\ is_Some (ticket id st).
Proof.
  intros Hs Hne. unfold refill_empty_scope. cbv zeta.
  assert (Hc : committed_of st = sp_committed s) by (unfold committed_of; by rewrite Hs).
  assert (Hon : forall f, committed_of (on_committed f st) = f (sp_committed s))
    by (intros f; by rewrite committed_on, Hs).
  rewrite Hc in *. rewrite Hs, bool_decide_false by done.
  assert (forall id, id ∈ (t_id <$> tickets st) -> is_Some (ticket id st)) as Hreal.
  { intros id Hid. by apply find_ticket_some. }
  destruct (existsb (fun id => one_of id _ || _) (sp_committed s)); [|destruct (List.find (fun id => negb (one_of id (sp_committed s))) _) as [id|] eqn:F].
  2:{ right. apply find_elem in F as [Hin Hn]. exists id. cbn [fst]. rewrite Hon. split_and!; [done| |by apply Hreal, workable_exists].
      intros Hx%one_of_true. by rewrite Hx in Hn. }
  all: destruct (existsb _ (sp_committed s)); [by left|].
  all: destruct (List.find _ (tickets st)) as [t|] eqn:G; [|by left].
  all: right; exists (t_id t); apply find_elem in G as [Hin [_ Hn]%andb_true_iff]; cbn [fst]; rewrite Hon.
  all: split_and!; [done| |by apply Hreal, list_elem_of_fmap_2]; intros Hx%one_of_true; by rewrite Hx in Hn.
Qed.

Lemma refill_workable (st : ProjectState) s :
  sprint st = Some s -> committed_of st <> [] ->
  (exists id, id ∈ ready_feature_candidates st ++ open_bug_candidates st) ->
  exists id, id ∈ committed_of (refill_empty_scope st).1 /\
    (id ∈ ready_feature_candidates st ++ open_bug_candidates st \/
     exists t, ticket id st = Some t /\ t_status t = InProgress).
Proof.
  intros Hs Hne [w Hw]. cbv zeta. unfold refill_empty_scope. cbv zeta.
  assert (Hc : committed_of st = sp_committed s) by (unfold committed_of; by rewrite Hs).
  assert (Hon : forall f, committed_of (on_committed f st) = f (sp_committed s))
    by (intros f; by rewrite committed_on, Hs).
  rewrite Hc in Hne. rewrite Hs, Hc. rewrite bool_decide_false by done.
  set (workable := ready_feature_candidates st ++ open_bug_candidates st) in *.
  destruct (existsb (fun id => one_of id workable || _) (sp_committed s)) eqn:E.
  - apply List.existsb_exists in E as (id & Hin%list_elem_of_In & Hp).
    assert (Hgood : id ∈ workable \/ exists t, ticket id st = Some t /\ t_status t = InProgress).
    { apply orb_prop in Hp as [Hp|Hp]; [left; by apply one_of_true|right].
      destruct (ticket id st) as [t|]; [|done]. exists t. split; [done|by apply bool_decide_eq_true in Hp]. }
    destruct (existsb _ (sp_committed s)); [by (exists id; cbn [fst]; rewrite Hc)|].
    destruct (List.find _ _) as [t|]; [|by (exists id; cbn [fst]; rewrite Hc)]. exists id. split; [|done].
    cbn [fst]. rewrite Hon. apply elem_of_app. by left.
  - assert (Hnot : w ∉ sp_committed s).
    { intros Hin. assert (Hx : existsb (fun id => one_of id workable ||
          match ticket id st with Some t => bool_decide (t_status t = InProgress) | None => false end)
          (sp_committed s) = true).
      { apply List.existsb_exists. exists w. split; [by apply list_elem_of_In|].
        by rewrite (proj2 (one_of_true w workable)). }
      congruence. }
    destruct (List.find (fun id => negb (one_of id (sp_committed s))) workable) as [id|] eqn:F.
    + apply find_elem in F as [Hin _]. exists id. split; [|by left]. cbn [fst]. rewrite Hon.
      apply elem_of_app. right. by apply list_elem_of_singleton.
    + exfalso. pose proof (find_is_none _ _ F w Hw) as Hf. apply negb_false_iff, one_of_true in Hf. done.
Qed.


(** what a rollover commits. The reserved ready feature and the whole
    burn-down scope are always in, everything else only fills the remaining
    capacity (at least three seats), nothing is committed twice, and each id
    names an open bug or a feature or chore not yet shipped or rejected. *)
Theorem commitment_sound (st : ProjectState) floor :
  let base := reserved_seat st ++ burn_down_scope st in
  let plan := open_backlog st floor in
  base `prefix_of` plan /\ length plan <= Nat.max (sprint_capacity st) (length base) /\
  3 <= sprint_capacity st /\ (NoDup (t_id <$> tickets st) -> NoDup plan) /\
  (forall id, id ∈ plan -> exists t, t ∈ tickets st /\ t_id t = id /\
     (t_kind t = Bug /\ t_status t = Open \/
      t_kind t <> Bug /\ t_status t ∉ [Done; Documented; Rejected])).
Proof.
  cbv zeta. destruct (open_backlog_parts st floor) as (bugs & works & E & Hl & Hb & Hw & Hnd).
  split_and!.
  - rewrite E. by eexists.
  - rewrite E, length_app. lia.
  - unfold sprint_capacity. cbv zeta. case_bool_decide; lia.
  - done.
  - intros id. rewrite E, !elem_of_app. intros [[Hr|Hr]|[Hr|Hr]].
    + destruct (reserved_seat_spec st) as [[E' _]|(t & Ht & Hwk & E')]; rewrite E' in Hr;
        [by apply elem_of_nil in Hr|].
      apply list_elem_of_singleton in Hr as ->. apply is_ready_work_true in Hwk as [Hk Hs].
      exists t. split_and!; [done..|]. right. split; [done|]. rewrite Hs.
      by apply (bool_decide_eq_false (_ ∈ _)).
    + apply elem_of_burn_down in Hr as (t & Ht & <- & Hk & Hs). exists t. auto.
    + apply Hb in Hr as (t & Ht & <- & Hp). exists t. split_and!; [done..|]. left.
      apply andb_prop in Hp as [[Hk%bool_decide_eq_true Hs%bool_decide_eq_true]%andb_prop _]. auto.
    + apply Hw in Hr as (t & Ht & <- & Hp). exists t. split_and!; [done..|]. right.
      apply andb_prop in Hp as [Hk%is_work_true Hs%negb_true_iff%bool_decide_eq_false]. auto.
Qed.

(** ** Parked features are committed *)

(** A backlog whose only ticket is a feature parked on hold. *)
Definition held_state : ProjectState :=
  ProjectState_default
    <| tickets := [(ready_ticket "F1" High []) <| t_status := OnHold |>] |>.

(** Parking does not keep a feature out of the sprint. The automatic
    commitment filters out shipped and rejected features but not parked ones, so
    a rollover and an empty-scope refill both commit a feature on hold, which no
    queue will ever offer and which keeps the sprint from being complete. *)
Theorem held_feature_committed :
  exists t, tickets held_state = [t] /\ t_status t = OnHold /\
    committed_of (roll_over "t0" 1 5 None held_state).1 = [t_id t] /\
    committed_of (refill_empty_scope
      (held_state <| sprint := Some (mkSprint 1 "g" 0 5 [] "t0" None) |>)).1 = [t_id t] /\
    (forall l, t_id t ∉ lane_queue (roll_over "t0" 1 5 None held_state).1 l) /\
    all_committed_done (roll_over "t0" 1 5 None held_state).1
      (mkSprint 1 "g" 1 5 [t_id t] "t0" None) = false.
Proof.
  eexists. split; [reflexivity|]. split_and!; try (vm_compute; reflexivity).
  intros l. apply (bool_decide_eq_false (_ ∈ _)). destruct l; vm_compute; reflexivity.
Qed.

(** ** Witnesses *)

Definition no_time (s : string) : option Z := Some 1000000%Z.
Definition ascii_is_alnum (c : string) : bool :=
  match c with String a EmptyString => is_ascii_alnum a | _ => false end.

(** A state with work in it, its sprint opened at cycle 1. *)
Definition running_state : ProjectState :=
  run_sprint no_time (str_map ascii_lower) ascii_is_alnum
    [SoAdvance "t0" 1 (mkSprintPolicy (Cycles 5) None)] sample_state.

Lemma NoDup_sample_ids : NoDup (t_id <$> tickets sample_state).
Proof. apply (bool_decide_eq_true (NoDup _)). vm_compute. reflexivity. Defined.

(** "F2" has failed three times. *)
Definition failing_state : ProjectState := sample_state <| ticket_fail_attempts := {["F2" := 3%N]} |>.

Lemma failing_ids : NoDup (t_id <$> tickets failing_state).
Proof. apply (bool_decide_eq_true (NoDup _)). vm_compute. reflexivity. Defined.

Lemma failing_legal t : t ∈ tickets failing_state -> status_legal (t_kind t) (t_status t) = true.
Proof.
  assert (H : Forall (fun t => status_legal (t_kind t) (t_status t) = true) (tickets failing_state))
    by repeat constructor.
  rewrite Forall_forall in H. apply H.
Qed.

Lemma sprint_invariant_witness :
  sprint_wf 2 (run_sprint no_time (str_map ascii_lower) ascii_is_alnum
    [SoAdvance "t0" 1 (mkSprintPolicy (Cycles 5) None); SoClose "t1" 3] sample_state).
Proof.
  apply (sprint_invariant no_time (str_map ascii_lower) ascii_is_alnum
    [SoAdvance "t0" 1 (mkSprintPolicy (Cycles 5) None); SoClose "t1" 3] sample_state);
    [exact NoDup_sample_ids|reflexivity..].
Defined.

Lemma auto_hold_complete_witness : (auto_hold_exhausted "t1" failing_state).2 = ["F2"].
Proof.
  pose proof (auto_hold_complete "t1" failing_state failing_ids failing_legal) as H.
  destruct (auto_hold_exhausted _ _) as [st' held]. destruct H as (-> & _). vm_compute. reflexivity.
Defined.

Lemma top_up_reaches_floor_witness :
  tickets (top_up_scope (str_map ascii_lower) ascii_is_alnum 4 running_state).1 = tickets running_state.
Proof.
  apply (top_up_reaches_floor (str_map ascii_lower) ascii_is_alnum 4 running_state).
  - exact NoDup_sample_ids.
  - vm_compute. eauto.
Defined.


Lemma commitment_sound_witness : NoDup (open_backlog sample_state None).
Proof.
  destruct (commitment_sound sample_state None) as (_ & _ & _ & H & _). apply H, NoDup_sample_ids.
Defined.
