(* ===== verification/Ports.v ===== *)
(** * Port errors

    The error type the outbound ports share ([error.rs]) and its text. *)
From S2P Require Import Prelude RustStr.

Inductive PortError :=
| NotFound (what : string)
| Conflict (what : string)
| Corrupt (what : string)
| Backend (what : string).

#[export] Instance PortError_eq_dec : EqDecision PortError.
Proof. solve_decision. Defined.

(** [thiserror]'s [Display]. *)
Definition port_error_text (e : PortError) : string :=
  match e with
  | NotFound s => "not found: " +:+ s
  | Conflict s => "conflict: " +:+ s
  | Corrupt s => "state is corrupt: " +:+ s
  | Backend s => "backend failure: " +:+ s
  end.

Definition is_conflict (e : PortError) : bool :=
  match e with Conflict _ => true | _ => false end.

(** ** Signed 64-bit integers *)

Definition i64_max : Z := 9223372036854775807.
Definition i64_wrap (z : Z) : Z := ((z + 9223372036854775808) mod 18446744073709551616 - 9223372036854775808)%Z.

(** ** [KvDocPort]: one JSON document per key

    The store [K] is explicit; every port call runs to completion. *)
Class KvDoc (K : Type) := {
  kv_load : string -> K -> option string;
  kv_save : string -> string -> K -> K * result PortError unit;
  kv_save_expecting : string -> string -> option Z -> K -> K * result PortError unit;
  kv_current_version : string -> K -> option Z;
}.

(** What a revision-tracking backend promises: every document has a revision; a
    save that expects the current one lands and moves it on; a save of a present
    document that expects an older one changes nothing; a blind save lands and moves
    the revision on. *)
Class KvTracked (K : Type) `{KvDoc K} := {
  kv_revision : string -> K -> Z;
  kv_version_spec k s : kv_current_version k s = Some (kv_revision k s);
  kv_save_current k json s :
    exists s', kv_save_expecting k json (Some (kv_revision k s)) s = (s', Ok tt) /\
      kv_load k s' = Some json /\ kv_revision k s' = (kv_revision k s + 1)%Z;
  kv_save_stale k json r s :
    (r < kv_revision k s)%Z -> is_Some (kv_load k s) ->
    exists why, kv_save_expecting k json (Some r) s = (s, Err (Conflict why));
  kv_save_blind k json s :
    exists s', kv_save k json s = (s', Ok tt) /\ kv_load k s' = Some json /\
      kv_revision k s' = (kv_revision k s + 1)%Z;
}.

(** ** [PgKvDoc]: the [app_kv] table *)

Record KvRow := mkKvRow { kr_doc : string; kr_revision : Z }.

Abbreviation PgKv := (gmap string KvRow) (only parsing).

(** The UPSERT of [persist_at_revision]: whether a row was affected. *)
Definition pg_upsert (key json : string) (expected : Z) (kv : PgKv) : PgKv * bool :=
  match kv !! key with
  | None => (<[key := mkKvRow json 1]> kv, true)
  | Some row =>
      if decide (kr_revision row = expected)
      then (<[key := mkKvRow json (kr_revision row + 1)]> kv, true)
      else (kv, false)
  end.

Definition pg_revision (key : string) (kv : PgKv) : Z :=
  match kv !! key with None => 0%Z | Some row => kr_revision row end.

Definition persist_at_revision (key json : string) (expected : option Z) (kv : PgKv)
    : PgKv * result PortError unit :=
  let expected := match expected with Some rev => rev | None => pg_revision key kv end in
  let '(kv, written) := pg_upsert key json expected kv in
  (kv, if written then Ok tt else Err (Conflict "kv doc changed since last read (concurrent writer)")).

#[export] Instance PgKvDoc : KvDoc PgKv := {
  kv_load key kv := kr_doc <$> kv !! key;
  kv_save key json kv := persist_at_revision key json None kv;
  kv_save_expecting key json expected kv := persist_at_revision key json expected kv;
  kv_current_version key kv := Some (pg_revision key kv);
}.

#[export] Program Instance PgKvDoc_tracked : KvTracked PgKv := { kv_revision := pg_revision }.
Next Obligation. done. Qed.
Next Obligation.
  intros k json s. cbn. unfold persist_at_revision, pg_upsert, pg_revision.
  destruct (s !! k) as [row|] eqn:E; [rewrite decide_True by done|]; eexists;
    (split_and!; [reflexivity|..]); cbn; by rewrite lookup_insert_eq.
Qed.
Next Obligation.
  intros k json r s. cbn. unfold persist_at_revision, pg_upsert, pg_revision.
  destruct (s !! k) as [row|]; [|by intros ? [? ?]]. intros Hr _. rewrite decide_False by lia. by eexists.
Qed.
Next Obligation.
  intros k json s. cbn. unfold persist_at_revision, pg_upsert, pg_revision.
  destruct (s !! k) as [row|] eqn:E; [rewrite decide_True by done|]; eexists;
    (split_and!; [reflexivity|..]); cbn; by rewrite lookup_insert_eq.
Qed.
