(* ===== verification/Shards.v ===== *)
(** * The shard seam: one aggregate, five bounded contexts

    [state/shards.rs] of the application crate and [state/sql_shards.rs] of the
    infrastructure crate. Every field of the aggregate belongs to exactly one
    shard payload; a column holds a decoded payload (its JSON encoding is
    serde's). *)
From S2P Require Import Prelude RustStr Kinds TestCase Ticket State Ports.

Inductive ShardKind := KWork | KSocial | KDocs | KGovernance | KOps.

#[export] Instance ShardKind_eq_dec : EqDecision ShardKind.
Proof. solve_decision. Defined.

(** [ShardKind::ALL] *)
Definition shard_kinds : list ShardKind := [KWork; KSocial; KDocs; KGovernance; KOps].

(** ** Payloads *)

#[projections(primitive)]
Record WorkShard := mkWorkShard {
  wk_schema_version : N;
  wk_alias : string;
  wk_display_name : option string;
  wk_current_version : SemVer;
  wk_tickets : list Ticket;
  wk_activity : list ActivityEntry;
  wk_sprint : option Sprint;
  wk_sprints : list SprintRecord;
  wk_sprint_queue : list PlannedSprint;
  wk_hold_reasons : gmap string string;
  wk_role_health : gmap string RoleHealth;
  wk_reviews : list PrReview;
  wk_open_prs : list PrOpen;
  wk_ticket_attachments : gmap string (list TicketAttachment);
  wk_milestones : list Milestone;
  wk_cycle_scores : list CycleScore;
  wk_sprint_cycle : N;
  wk_cycle : N;
  wk_sprint_goal : string;
  wk_last_digest_day : string;
  wk_pr_fix_attempts : gmap N N;
  wk_pr_review_skips : gmap N N;
  wk_pr_open_holds : gmap N PrOpenHold;
  wk_pr_sessions : gmap N string;
  wk_ticket_sessions : gmap string string;
  wk_cost_holds : gmap string f64;
  wk_clippy_baseline : option N;
  wk_debt_signals : list DebtSignal;
  wk_sweeps_done : list N;
  wk_seen_merged_prs : gset N;
  wk_ticket_last_merge : gmap string string;
  wk_seen_closed_prs : gset N;
  wk_swept_tickets : gset string;
  wk_cost_approved : gset string;
  wk_tuning : Tuning;
  wk_tuning_overrides : gmap string BrakeHold;
  wk_tuning_history : list TuningAuditEntry;
  wk_ticket_evidence : gmap string (list Evidence);
  wk_ticket_step_provenance : gmap string (list StepProvenance);
  wk_repro_urls : gmap string string;
  wk_queue_recovery : bool;
  wk_last_memory_hygiene_day : string;
  wk_last_impediment_day : string;
  wk_pr_rescues : gmap N N;
  wk_ticket_redesigns : gmap string N;
  wk_drain_notice_sprint : N;
  wk_ticket_fail_attempts : gmap string N;
  wk_pr_rescue_attempts : gmap string N;
  wk_ticket_journal : gmap string (list string);
  wk_ticket_failures : gmap string (list AttemptFailure);
  wk_daily_jobs : gmap string string;
  wk_bug_snapshots : gmap string BugSnapshot;
  wk_spend : Spend;
  wk_spend_today_usd : f64;
  wk_spend_day : string;
  wk_spend_history : list SpendDay;
  wk_budget_warned_lifetime : bool;
  wk_budget_warned_daily : bool;
}.

#[projections(primitive)]
Record SocialShard := mkSocialShard {
  so_comments : list Comment;
  so_chat : list ChatMsg;
  so_channels : list Channel;
  so_questions : list AgentQuestion;
}.

#[projections(primitive)]
Record DocsShard := mkDocsShard {
  dc_design_system : option DesignSystem;
  dc_docs : list DocPage;
  dc_doc_folders : list string;
  dc_doc_refresh : gmap string DocRefreshMark;
}.

#[projections(primitive)]
Record GovernanceShard := mkGovernanceShard {
  gv_goals : list Goal;
  gv_outcome_ledger : list OutcomeLedgerEntry;
  gv_human_holds : gmap N string;
  gv_lessons : list string;
  gv_lesson_records : list LessonRecord;
  gv_dismissed_matches : list DismissedMatch;
  gv_lesson_sweep_day : string;
  gv_decisions : list string;
  gv_refactor_mode : bool;
  gv_approval_samples : list ApprovalSample;
  gv_auto_approved_at : gmap string string;
  gv_ask_again_shapes : list string;
  gv_governance_interventions : list InterventionRecord;
  gv_drift_alerts : list DriftAlert;
  gv_member_services : gmap string (list string);
}.

#[projections(primitive)]
Record OpsShard := mkOpsShard {
  op_history : list DeployRecord;
  op_reverted_work : list RevertEvent;
  op_deploy : option DeployStatus;
  op_jobs : list PendingJob;
  op_engine_incidents : list EngineIncident;
  op_ops_down : bool;
  op_workspace_run : WorkspaceRun;
  op_ops_down_streak : N;
  op_deploy_index : N;
  op_in_rollback : bool;
  op_last_good_deploy : option KnownGoodDeploy;
  op_last_rollback : option RollbackStatus;
  op_incidents : list IncidentRecord;
  op_rolled_back_commits : gset string;
  op_liveness : option StallEpisode;
}.

Definition WorkShard_default : WorkShard := {|
  wk_schema_version := SCHEMA_VERSION; wk_alias := ""; wk_display_name := None;
  wk_current_version := SemVer_default; wk_tickets := []; wk_activity := []; wk_sprint := None;
  wk_sprints := []; wk_sprint_queue := []; wk_hold_reasons := ∅; wk_role_health := ∅;
  wk_reviews := []; wk_open_prs := []; wk_ticket_attachments := ∅; wk_milestones := [];
  wk_cycle_scores := []; wk_sprint_cycle := 0; wk_cycle := 0; wk_sprint_goal := "";
  wk_last_digest_day := ""; wk_pr_fix_attempts := ∅; wk_pr_review_skips := ∅;
  wk_pr_open_holds := ∅; wk_pr_sessions := ∅; wk_ticket_sessions := ∅; wk_cost_holds := ∅;
  wk_clippy_baseline := None; wk_debt_signals := []; wk_sweeps_done := [];
  wk_seen_merged_prs := ∅; wk_ticket_last_merge := ∅; wk_seen_closed_prs := ∅;
  wk_swept_tickets := ∅; wk_cost_approved := ∅; wk_tuning := Tuning_default;
  wk_tuning_overrides := ∅; wk_tuning_history := []; wk_ticket_evidence := ∅;
  wk_ticket_step_provenance := ∅; wk_repro_urls := ∅; wk_queue_recovery := false;
  wk_last_memory_hygiene_day := ""; wk_last_impediment_day := ""; wk_pr_rescues := ∅;
  wk_ticket_redesigns := ∅; wk_drain_notice_sprint := 0; wk_ticket_fail_attempts := ∅;
  wk_pr_rescue_attempts := ∅; wk_ticket_journal := ∅; wk_ticket_failures := ∅;
  wk_daily_jobs := ∅; wk_bug_snapshots := ∅; wk_spend := Spend_default;
  wk_spend_today_usd := f64_zero; wk_spend_day := ""; wk_spend_history := [];
  wk_budget_warned_lifetime := false; wk_budget_warned_daily := false |}.

Definition SocialShard_default : SocialShard := {|
  so_comments := []; so_chat := []; so_channels := []; so_questions := [] |}.

Definition DocsShard_default : DocsShard := {|
  dc_design_system := None; dc_docs := []; dc_doc_folders := []; dc_doc_refresh := ∅ |}.

Definition GovernanceShard_default : GovernanceShard := {|
  gv_goals := []; gv_outcome_ledger := []; gv_human_holds := ∅; gv_lessons := [];
  gv_lesson_records := []; gv_dismissed_matches := []; gv_lesson_sweep_day := "";
  gv_decisions := []; gv_refactor_mode := false; gv_approval_samples := [];
  gv_auto_approved_at := ∅; gv_ask_again_shapes := []; gv_governance_interventions := [];
  gv_drift_alerts := []; gv_member_services := ∅ |}.

Definition OpsShard_default : OpsShard := {|
  op_history := []; op_reverted_work := []; op_deploy := None; op_jobs := [];
  op_engine_incidents := []; op_ops_down := false; op_workspace_run := WorkspaceRun_default;
  op_ops_down_streak := 0; op_deploy_index := 0; op_in_rollback := false;
  op_last_good_deploy := None; op_last_rollback := None; op_incidents := [];
  op_rolled_back_commits := ∅; op_liveness := None |}.

#[projections(primitive)]
Record ShardedState := mkShardedState {
  sh_work : WorkShard;
  sh_social : SocialShard;
  sh_docs : DocsShard;
  sh_governance : GovernanceShard;
  sh_ops : OpsShard;
}.

(** [ProjectState::into_shards] *)
Definition into_shards (st : ProjectState) : ShardedState := {|
  sh_work := {|
    wk_schema_version := schema_version st; wk_alias := alias st;
    wk_display_name := display_name st; wk_current_version := current_version st;
    wk_tickets := tickets st; wk_activity := activity st; wk_sprint := sprint st;
    wk_sprints := sprints st; wk_sprint_queue := sprint_queue st;
    wk_hold_reasons := hold_reasons st; wk_role_health := role_health st;
    wk_reviews := reviews st; wk_open_prs := open_prs st;
    wk_ticket_attachments := ticket_attachments st; wk_milestones := milestones st;
    wk_cycle_scores := cycle_scores st; wk_sprint_cycle := sprint_cycle st;
    wk_cycle := cycle st; wk_sprint_goal := sprint_goal st;
    wk_last_digest_day := last_digest_day st; wk_pr_fix_attempts := pr_fix_attempts st;
    wk_pr_review_skips := pr_review_skips st; wk_pr_open_holds := pr_open_holds st;
    wk_pr_sessions := pr_sessions st; wk_ticket_sessions := ticket_sessions st;
    wk_cost_holds := cost_holds st; wk_clippy_baseline := clippy_baseline st;
    wk_debt_signals := debt_signals st; wk_sweeps_done := sweeps_done st;
    wk_seen_merged_prs := seen_merged_prs st; wk_ticket_last_merge := ticket_last_merge st;
    wk_seen_closed_prs := seen_closed_prs st; wk_swept_tickets := swept_tickets st;
    wk_cost_approved := cost_approved st; wk_tuning := tuning st;
    wk_tuning_overrides := tuning_overrides st; wk_tuning_history := tuning_history st;
    wk_ticket_evidence := ticket_evidence st;
    wk_ticket_step_provenance := ticket_step_provenance st; wk_repro_urls := repro_urls st;
    wk_queue_recovery := queue_recovery st;
    wk_last_memory_hygiene_day := last_memory_hygiene_day st;
    wk_last_impediment_day := last_impediment_day st; wk_pr_rescues := pr_rescues st;
    wk_ticket_redesigns := ticket_redesigns st;
    wk_drain_notice_sprint := drain_notice_sprint st;
    wk_ticket_fail_attempts := ticket_fail_attempts st;
    wk_pr_rescue_attempts := pr_rescue_attempts st; wk_ticket_journal := ticket_journal st;
    wk_ticket_failures := ticket_failures st; wk_daily_jobs := daily_jobs st;
    wk_bug_snapshots := bug_snapshots st; wk_spend := spend st;
    wk_spend_today_usd := spend_today_usd st; wk_spend_day := spend_day st;
    wk_spend_history := spend_history st;
    wk_budget_warned_lifetime := budget_warned_lifetime st;
    wk_budget_warned_daily := budget_warned_daily st |};
  sh_social := {|
    so_comments := comments st; so_chat := chat st; so_channels := channels st;
    so_questions := questions st |};
  sh_docs := {|
    dc_design_system := design_system st; dc_docs := docs st; dc_doc_folders := doc_folders st;
    dc_doc_refresh := doc_refresh st |};
  sh_governance := {|
    gv_goals := goals st; gv_outcome_ledger := outcome_ledger st;
    gv_human_holds := human_holds st; gv_lessons := lessons st;
    gv_lesson_records := lesson_records st; gv_dismissed_matches := dismissed_matches st;
    gv_lesson_sweep_day := lesson_sweep_day st; gv_decisions := decisions st;
    gv_refactor_mode := refactor_mode st; gv_approval_samples := approval_samples st;
    gv_auto_approved_at := auto_approved_at st; gv_ask_again_shapes := ask_again_shapes st;
    gv_governance_interventions := governance_interventions st;
    gv_drift_alerts := drift_alerts st; gv_member_services := member_services st |};
  sh_ops := {|
    op_history := history st; op_reverted_work := reverted_work st; op_deploy := deploy st;
    op_jobs := jobs st; op_engine_incidents := engine_incidents st; op_ops_down := ops_down st;
    op_workspace_run := workspace_run st; op_ops_down_streak := ops_down_streak st;
    op_deploy_index := deploy_index st; op_in_rollback := in_rollback st;
    op_last_good_deploy := last_good_deploy st; op_last_rollback := last_rollback st;
    op_incidents := incidents st; op_rolled_back_commits := rolled_back_commits st;
    op_liveness := liveness st |} |}.

(** [ProjectState::from_shards] *)
Definition from_shards (shards : ShardedState) : ProjectState :=
  let w := sh_work shards in
  let s := sh_social shards in
  let d := sh_docs shards in
  let g := sh_governance shards in
  let o := sh_ops shards in
  {|
    schema_version := wk_schema_version w; alias := wk_alias w;
    display_name := wk_display_name w; current_version := wk_current_version w;
    tickets := wk_tickets w; history := op_history o; reverted_work := op_reverted_work o;
    activity := wk_activity w; spend := wk_spend w; sprint := wk_sprint w;
    sprints := wk_sprints w; sprint_queue := wk_sprint_queue w;
    hold_reasons := wk_hold_reasons w; role_health := wk_role_health w; deploy := op_deploy o;
    comments := so_comments s; reviews := wk_reviews w; open_prs := wk_open_prs w;
    human_holds := gv_human_holds g; ticket_attachments := wk_ticket_attachments w;
    chat := so_chat s; channels := so_channels s; design_system := dc_design_system d;
    milestones := wk_milestones w; goals := gv_goals g; outcome_ledger := gv_outcome_ledger g;
    docs := dc_docs d; doc_folders := dc_doc_folders d; doc_refresh := dc_doc_refresh d;
    cycle_scores := wk_cycle_scores w; lessons := gv_lessons g;
    lesson_records := gv_lesson_records g; dismissed_matches := gv_dismissed_matches g;
    lesson_sweep_day := gv_lesson_sweep_day g; decisions := gv_decisions g;
    refactor_mode := gv_refactor_mode g; sprint_cycle := wk_sprint_cycle w; cycle := wk_cycle w;
    sprint_goal := wk_sprint_goal w; last_digest_day := wk_last_digest_day w;
    pr_fix_attempts := wk_pr_fix_attempts w; pr_review_skips := wk_pr_review_skips w;
    pr_open_holds := wk_pr_open_holds w; pr_sessions := wk_pr_sessions w;
    ticket_sessions := wk_ticket_sessions w; cost_holds := wk_cost_holds w;
    clippy_baseline := wk_clippy_baseline w; debt_signals := wk_debt_signals w;
    sweeps_done := wk_sweeps_done w; seen_merged_prs := wk_seen_merged_prs w;
    ticket_last_merge := wk_ticket_last_merge w; seen_closed_prs := wk_seen_closed_prs w;
    swept_tickets := wk_swept_tickets w; cost_approved := wk_cost_approved w;
    tuning := wk_tuning w; tuning_overrides := wk_tuning_overrides w;
    tuning_history := wk_tuning_history w; ticket_evidence := wk_ticket_evidence w;
    ticket_step_provenance := wk_ticket_step_provenance w; repro_urls := wk_repro_urls w;
    queue_recovery := wk_queue_recovery w;
    last_memory_hygiene_day := wk_last_memory_hygiene_day w; jobs := op_jobs o;
    last_impediment_day := wk_last_impediment_day w; pr_rescues := wk_pr_rescues w;
    ticket_redesigns := wk_ticket_redesigns w; drain_notice_sprint := wk_drain_notice_sprint w;
    ticket_fail_attempts := wk_ticket_fail_attempts w;
    pr_rescue_attempts := wk_pr_rescue_attempts w; approval_samples := gv_approval_samples g;
    auto_approved_at := gv_auto_approved_at g; ask_again_shapes := gv_ask_again_shapes g;
    ticket_journal := wk_ticket_journal w; ticket_failures := wk_ticket_failures w;
    questions := so_questions s; engine_incidents := op_engine_incidents o;
    daily_jobs := wk_daily_jobs w; member_services := gv_member_services g;
    ops_down := op_ops_down o; workspace_run := op_workspace_run o;
    ops_down_streak := op_ops_down_streak o; spend_today_usd := wk_spend_today_usd w;
    spend_day := wk_spend_day w; spend_history := wk_spend_history w;
    budget_warned_lifetime := wk_budget_warned_lifetime w;
    budget_warned_daily := wk_budget_warned_daily w; deploy_index := op_deploy_index o;
    in_rollback := op_in_rollback o; last_good_deploy := op_last_good_deploy o;
    last_rollback := op_last_rollback o; incidents := op_incidents o;
    rolled_back_commits := op_rolled_back_commits o; bug_snapshots := wk_bug_snapshots w;
    governance_interventions := gv_governance_interventions g;
    drift_alerts := gv_drift_alerts g; liveness := op_liveness o |}.

(** ** One shard at a time *)

Inductive ShardData :=
| DWork (w : WorkShard)
| DSocial (s : SocialShard)
| DDocs (d : DocsShard)
| DGovernance (g : GovernanceShard)
| DOps (o : OpsShard).

Definition data_kind (d : ShardData) : ShardKind :=
  match d with
  | DWork _ => KWork
  | DSocial _ => KSocial
  | DDocs _ => KDocs
  | DGovernance _ => KGovernance
  | DOps _ => KOps
  end.

Record StateShard := mkStateShard { ss_kind : ShardKind; ss_data : ShardData }.

(** [StateShard::new]: the label comes from the payload. *)
Definition StateShard_new (d : ShardData) : StateShard := mkStateShard (data_kind d) d.

(** [ShardedState::take]: the shard, and the default payload in its place. *)
Definition take_shard (kind : ShardKind) (all : ShardedState) : ShardedState * StateShard :=
  let '(mkShardedState w s d g o) := all in
  match kind with
  | KWork => (mkShardedState WorkShard_default s d g o, StateShard_new (DWork w))
  | KSocial => (mkShardedState w SocialShard_default d g o, StateShard_new (DSocial s))
  | KDocs => (mkShardedState w s DocsShard_default g o, StateShard_new (DDocs d))
  | KGovernance => (mkShardedState w s d GovernanceShard_default o, StateShard_new (DGovernance g))
  | KOps => (mkShardedState w s d g OpsShard_default, StateShard_new (DOps o))
  end.

(** [ProjectState::shard] *)
Definition shard (kind : ShardKind) (st : ProjectState) : StateShard :=
  (take_shard kind (into_shards st)).2.

(** [ProjectState::with_shard] *)
Definition with_shard (sh : StateShard) (st : ProjectState) : ProjectState :=
  let '(mkShardedState w s d g o) := into_shards st in
  from_shards
    match ss_data sh with
    | DWork w => mkShardedState w s d g o
    | DSocial s => mkShardedState w s d g o
    | DDocs d => mkShardedState w s d g o
    | DGovernance g => mkShardedState w s d g o
    | DOps o => mkShardedState w s d g o
    end.

(** ** The SQL columns ([sql_shards.rs]) *)

Definition default_shard (kind : ShardKind) : StateShard :=
  StateShard_new
    match kind with
    | KWork => DWork WorkShard_default
    | KSocial => DSocial SocialShard_default
    | KDocs => DDocs DocsShard_default
    | KGovernance => DGovernance GovernanceShard_default
    | KOps => DOps OpsShard_default
    end.

(** [decode_shard] of a payload serde accepts: only the Work shard carries the
    schema version, so only it can refuse a newer one. *)
Definition decode_shard (d : ShardData) : result PortError StateShard :=
  match d with
  | DWork w =>
      if (SCHEMA_VERSION <? wk_schema_version w)%N
      then Err (Corrupt ("work shard schema_version " +:+ dec (wk_schema_version w) +:+
                         " newer than supported " +:+ dec SCHEMA_VERSION))
      else Ok (StateShard_new d)
  | _ => Ok (StateShard_new d)
  end.

(** ** Lemmas *)

Lemma from_into st : from_shards (into_shards st) = st.
Proof. reflexivity. Qed.

Lemma into_from sh : into_shards (from_shards sh) = sh.
Proof. reflexivity. Qed.

Lemma shard_kind kind st : ss_kind (shard kind st) = kind.
Proof. by destruct kind. Qed.

Lemma shard_default kind : shard kind ProjectState_default = default_shard kind.
Proof. by destruct kind. Qed.

(** ** Properties *)

(** C6: The shards are a lossless partition of the aggregate. Decomposing a
    state and reassembling it gives the state back, and reassembling any five
    payloads and decomposing again gives the payloads back: no field is lost,
    duplicated or filed under two shards. *)
Theorem shards_roundtrip st sh :
  from_shards (into_shards st) = st /\ into_shards (from_shards sh) = sh.
Proof. by rewrite from_into, into_from. Qed.

(** Writing one shard touches that shard and nothing else. After
    [with_shard] the shard of the written kind is the payload, every other
    shard is as it was, writing back what was read changes nothing, a second
    write of the same kind wins, and writes of different kinds commute. *)
Theorem with_shard_laws st d d' :
  let sh := StateShard_new d in
  let sh' := StateShard_new d' in
  shard (data_kind d) (with_shard sh st) = sh /\
  (forall k, k <> data_kind d -> shard k (with_shard sh st) = shard k st) /\
  (forall k, with_shard (shard k st) st = st) /\
  with_shard sh' (with_shard sh st) =
    (if decide (data_kind d = data_kind d') then with_shard sh' st
     else with_shard sh (with_shard sh' st)).
Proof.
  cbv zeta. split_and!.
  - by destruct d.
  - by intros [] H; destruct d.
  - by intros [].
  - by destruct d, d'.
Qed.
