(* ===== verification/Integrity.v ===== *)
(** * Structural integrity: the audit, the heal and the write gate

    [state/integrity.rs] and [gate_save] of the quarantine module of the
    infrastructure crate. [show_f64] is [f64]'s [Display]; [to_json] is
    [serde_json::to_string]. *)
From S2P Require Import Prelude RustStr Kinds TestCase Ticket State DepGraph Ports.

Definition DUPLICATE_TICKET_ID : string := "duplicate_ticket_id".
Definition DUPLICATE_DOC_ID : string := "duplicate_doc_id".
Definition DUPLICATE_CHANNEL_ID : string := "duplicate_channel_id".
Definition DUPLICATE_COMMENT_ID : string := "duplicate_comment_id".
Definition DUPLICATE_CHAT_ID : string := "duplicate_chat_id".
Definition DUPLICATE_PLANNED_SPRINT_ID : string := "duplicate_planned_sprint_id".
Definition DANGLING_TICKET_REFERENCE : string := "dangling_ticket_reference".
Definition DEPLOY_INDEX_REGRESSION : string := "deploy_index_regression".
Definition NEGATIVE_SPEND : string := "negative_spend".

Record IntegrityFinding := mkFinding {
  if_rule_id : string;
  if_ticket_id : option string;
  if_detail : string;
}.

(** [IntegrityViolation { findings }] *)
Abbreviation IntegrityViolation := (list IntegrityFinding) (only parsing).

Definition violation_text (v : IntegrityViolation) : string :=
  foldl (fun s f => s +:+ " [" +:+ if_rule_id f +:+ "] " +:+ if_detail f)
    ("structural integrity audit failed (" +:+ dec_nat (length v) +:+ "):") v.

(** Ids that appear more than once, in first-duplicate order. *)
Fixpoint duplicates_loop (seen : gset string) (dupes ids : list string) : list string :=
  match ids with
  | [] => dupes
  | id :: ids' =>
      if decide (id ∈ seen)
      then duplicates_loop seen (if one_of id dupes then dupes else dupes ++ [id]) ids'
      else duplicates_loop ({[id]} ∪ seen) dupes ids'
  end.

Definition duplicates (ids : list string) : list string := duplicates_loop ∅ [] ids.

Definition flag_duplicates (rule what : string) (names_ticket : bool) (ids : list string)
    : list IntegrityFinding :=
  (fun id => mkFinding rule (if names_ticket then Some id else None)
               (what +:+ " id " +:+ id +:+ " appears more than once")) <$> duplicates ids.

Definition audit_id_uniqueness (st : ProjectState) : list IntegrityFinding :=
  flag_duplicates DUPLICATE_TICKET_ID "ticket" true (t_id <$> tickets st) ++
  flag_duplicates DUPLICATE_DOC_ID "doc" false (dp_id <$> docs st) ++
  flag_duplicates DUPLICATE_CHANNEL_ID "channel" false (cn_id <$> channels st) ++
  flag_duplicates DUPLICATE_COMMENT_ID "comment" false (cm_id <$> comments st) ++
  flag_duplicates DUPLICATE_CHAT_ID "chat message" false (ch_id <$> chat st) ++
  flag_duplicates DUPLICATE_PLANNED_SPRINT_ID "planned sprint" false ((fun p => dec (pl_id p)) <$> sprint_queue st).

Definition dangling (map key : string) : IntegrityFinding :=
  mkFinding DANGLING_TICKET_REFERENCE (Some key) (map +:+ " references missing ticket " +:+ key).

Definition flag_dangling (map : string) (keys : list string) (live : gset string)
    : list IntegrityFinding :=
  dangling map <$> List.filter (fun k => negb (bool_decide (k ∈ live))) keys.

Definition ticket_ids (st : ProjectState) : gset string := list_to_set (t_id <$> tickets st).

(** [key.split('/').next()] *)
Definition session_ticket (key : string) : string := split_first "/" key.

Definition audit_ticket_references (st : ProjectState) : list IntegrityFinding :=
  let live := ticket_ids st in
  flag_dangling "hold_reasons" (btree_keys (hold_reasons st)) live ++
  flag_dangling "ticket_attachments" (btree_keys (ticket_attachments st)) live ++
  flag_dangling "cost_holds" (btree_keys (cost_holds st)) live ++
  flag_dangling "ticket_evidence" (btree_keys (ticket_evidence st)) live ++
  flag_dangling "ticket_last_merge" (btree_keys (ticket_last_merge st)) live ++
  flag_dangling "ticket_redesigns" (btree_keys (ticket_redesigns st)) live ++
  flag_dangling "ticket_fail_attempts" (btree_keys (ticket_fail_attempts st)) live ++
  flag_dangling "auto_approved_at" (btree_keys (auto_approved_at st)) live ++
  flag_dangling "ticket_journal" (btree_keys (ticket_journal st)) live ++
  flag_dangling "ticket_failures" (btree_keys (ticket_failures st)) live ++
  flag_dangling "swept_tickets" (btree_elements (swept_tickets st)) live ++
  flag_dangling "cost_approved" (btree_elements (cost_approved st)) live ++
  (dangling "ticket_sessions" <$>
     List.filter (fun k => negb (bool_decide (session_ticket k ∈ live))) (btree_keys (ticket_sessions st))).

Definition audit_counters (st : ProjectState) : list IntegrityFinding :=
  match last_good_deploy st with
  | Some good =>
      if decide (deploy_index st < kg_deploy_index good)%N
      then [mkFinding DEPLOY_INDEX_REGRESSION None
              ("deploy_index " +:+ dec (deploy_index st) +:+ " is behind last_good_deploy index " +:+
               dec (kg_deploy_index good) +:+ " — the deploy ordinal rolled back")]
      else []
  | None => []
  end.

Definition negative (v : f64) : bool := f64_ltb v f64_zero.
Definition map_any {V} (p : V -> bool) (m : gmap string V) : bool := existsb p (map_to_list m).*2.

Section Audit.
Context (show_f64 : f64 -> string).

Definition audit_spend (st : ProjectState) : list IntegrityFinding :=
  let sp := spend st in
  (if negative (sp_total_cost_usd sp) || negative (spend_today_usd st)
   then [mkFinding NEGATIVE_SPEND None ("negative spend: total " +:+ show_f64 (sp_total_cost_usd sp) +:+
                                        ", today " +:+ show_f64 (spend_today_usd st))]
   else []) ++
  (if (map_any negative (sp_by_role sp) || map_any negative (sp_metered_cost_by_role sp)) ||
      map_any (fun op => negative (os_cost_usd op)) (sp_by_operator sp)
   then [mkFinding NEGATIVE_SPEND None "negative per-role or per-operator spend"]
   else []).

Definition audit_structural_integrity (st : ProjectState) : list IntegrityFinding :=
  audit_id_uniqueness st ++ audit_ticket_references st ++ audit_counters st ++ audit_spend st.

(** [StateIntegrityAuditor::check] *)
Definition check (st : ProjectState) : result IntegrityViolation unit :=
  match audit_structural_integrity st with [] => Ok tt | findings => Err findings end.

(** The map after [retain] and how many entries it lost. *)
Definition drop_dangling {V} (live : gset string) (m : gmap string V) : gmap string V * nat :=
  let kept := filter (fun '(k, _) => k ∈ live) m in (kept, size m - size kept).

(** The state with every dangling reference dropped, and the count. *)
Definition drop_all_dangling (st : ProjectState) : ProjectState * nat :=
  let live := ticket_ids st in
  let '(hold, n1) := drop_dangling live (hold_reasons st) in
  let '(atts, n2) := drop_dangling live (ticket_attachments st) in
  let '(holds, n3) := drop_dangling live (cost_holds st) in
  let '(evid, n4) := drop_dangling live (ticket_evidence st) in
  let '(merges, n5) := drop_dangling live (ticket_last_merge st) in
  let '(redes, n6) := drop_dangling live (ticket_redesigns st) in
  let '(fails, n7) := drop_dangling live (ticket_fail_attempts st) in
  let '(autos, n8) := drop_dangling live (auto_approved_at st) in
  let '(notes, n9) := drop_dangling live (ticket_journal st) in
  let '(failures, n10) := drop_dangling live (ticket_failures st) in
  (st <| hold_reasons := hold |> <| ticket_attachments := atts |> <| cost_holds := holds |>
      <| ticket_evidence := evid |> <| ticket_last_merge := merges |> <| ticket_redesigns := redes |>
      <| ticket_fail_attempts := fails |> <| auto_approved_at := autos |> <| ticket_journal := notes |>
      <| ticket_failures := failures |>
      <| swept_tickets ::= filter (fun k => k ∈ live) |>
      <| cost_approved ::= filter (fun k => k ∈ live) |>
      <| ticket_sessions ::= filter (fun '(k, _) => session_ticket k ∈ live) |>,
   n1 + n2 + n3 + n4 + n5 + n6 + n7 + n8 + n9 + n10).

Definition is_dangling (f : IntegrityFinding) : bool :=
  bool_decide (if_rule_id f = DANGLING_TICKET_REFERENCE).

Definition heal_dangling_references (st : ProjectState)
    : ProjectState * result IntegrityViolation nat :=
  let before := audit_structural_integrity st in
  if decide (length before = 0) then (st, Ok 0)
  else if existsb (fun f => negb (is_dangling f)) before then (st, Err before)
  else
    let '(st, healed) := drop_all_dangling st in
    match audit_structural_integrity st with
    | [] => (st, Ok healed)
    | after => (st, Err after)
    end.

(** ** The write-boundary gate ([gate_save]) *)

Record QuarantineEntry := mkQuarantineEntry {
  qe_at : string;
  qe_rule_id : string;
  qe_detail : string;
  qe_payload : string;
}.

Definition MAX_QUARANTINE : nat := 50.
Definition MAX_PAYLOAD_CHARS : nat := 20000.

Context (to_json : ProjectState -> string).

(** [QuarantineLedger::record_refusal] on the in-memory entries; [now] is [now_rfc3339()]. *)
Definition record_refusal (now : string) (v : IntegrityViolation) (payload : ProjectState)
    (ledger : list QuarantineEntry) : list QuarantineEntry * QuarantineEntry :=
  let entry := mkQuarantineEntry now (default "" (if_rule_id <$> head v))
                 (take_chars 2000 (violation_text v)) (take_chars MAX_PAYLOAD_CHARS (to_json payload)) in
  (push_capped MAX_QUARANTINE entry ledger, entry).

Record RefusedSave := mkRefusedSave {
  rs_error : PortError;
  rs_quarantined : option QuarantineEntry;
}.

(** The state as the gate leaves it, the ledger, and the verdict. *)
Definition gate_save (now : string) (st : ProjectState) (ledger : list QuarantineEntry)
    : ProjectState * list QuarantineEntry * result RefusedSave unit :=
  match validate (tickets st) with
  | Err e => (st, ledger, Err (mkRefusedSave (Corrupt ("refusing to save invalid state: " +:+ validate_text e)) None))
  | Ok _ =>
      match check st with
      | Ok _ => (st, ledger, Ok tt)
      | Err violation =>
          let '(st, healed) := heal_dangling_references st in
          let refuse :=
            let '(ledger, entry) := record_refusal now violation st ledger in
            (st, ledger, Err (mkRefusedSave
               (Corrupt ("refusing to save state failing structural integrity audit: " +:+
                         violation_text violation)) (Some entry))) in
          match healed with
          | Ok n => if decide (0 < n) then (st, ledger, Ok tt) else refuse
          | Err _ => refuse
          end
      end
  end.

(** ** What a clean audit means *)

(** The live tickets of a state, as the audit sees them. *)
Definition keys_live {V} (st : ProjectState) (m : gmap string V) : Prop :=
  forall k, is_Some (m !! k) -> k ∈ (t_id <$> tickets st).

Record references_ok (st : ProjectState) : Prop := {
  ro_hold : keys_live st (hold_reasons st);
  ro_attachments : keys_live st (ticket_attachments st);
  ro_cost_holds : keys_live st (cost_holds st);
  ro_evidence : keys_live st (ticket_evidence st);
  ro_merge : keys_live st (ticket_last_merge st);
  ro_redesigns : keys_live st (ticket_redesigns st);
  ro_fails : keys_live st (ticket_fail_attempts st);
  ro_auto : keys_live st (auto_approved_at st);
  ro_journal : keys_live st (ticket_journal st);
  ro_failures : keys_live st (ticket_failures st);
  ro_swept : forall k, k ∈ swept_tickets st -> k ∈ (t_id <$> tickets st);
  ro_approved : forall k, k ∈ cost_approved st -> k ∈ (t_id <$> tickets st);
  ro_sessions : forall k, is_Some (ticket_sessions st !! k) -> session_ticket k ∈ (t_id <$> tickets st);
}.

Record integrity_ok (st : ProjectState) : Prop := {
  io_tickets : NoDup (t_id <$> tickets st);
  io_docs : NoDup (dp_id <$> docs st);
  io_channels : NoDup (cn_id <$> channels st);
  io_comments : NoDup (cm_id <$> comments st);
  io_chat : NoDup (ch_id <$> chat st);
  io_plans : NoDup (pl_id <$> sprint_queue st);
  io_refs : references_ok st;
  io_deploy : forall d, last_good_deploy st = Some d -> (kg_deploy_index d <= deploy_index st)%N;
  io_total : negative (sp_total_cost_usd (spend st)) = false /\ negative (spend_today_usd st) = false;
  io_roles : map_Forall (fun _ v => negative v = false) (sp_by_role (spend st)) /\
             map_Forall (fun _ v => negative v = false) (sp_metered_cost_by_role (spend st)) /\
             map_Forall (fun _ op => negative (os_cost_usd op) = false) (sp_by_operator (spend st));
}.

(** ** Lemmas *)

Lemma duplicates_loop_nil seen dupes ids :
  duplicates_loop seen dupes ids = [] <-> dupes = [] /\ NoDup ids /\ forall id, id ∈ ids -> id ∉ seen.
Proof.
  revert seen dupes. induction ids as [|id ids IH]; intros seen dupes; cbn [duplicates_loop].
  - split; [|by intros []]. intros ->. split_and!; [done|apply NoDup_nil_2|by intros ? ?%elem_of_nil].
  - case_decide as Hs; rewrite IH.
    + split; [|intros (_ & _ & H); by destruct (H id); [left|]].
      intros (Hd & _). exfalso. destruct (one_of id dupes) eqn:E.
      * subst. done.
      * by destruct dupes.
    + rewrite NoDup_cons. split.
      * intros (-> & Hn & H). split_and!; try done.
        -- intros Hin. specialize (H _ Hin). set_solver.
        -- intros x [->|Hx]%elem_of_cons; [done|]. specialize (H _ Hx). set_solver.
      * intros (-> & [Hni Hn] & H). split_and!; try done. intros x Hx.
        specialize (H x (list_elem_of_further _ _ _ Hx)). set_solver.
Qed.

Lemma duplicates_nil ids : duplicates ids = [] <-> NoDup ids.
Proof. unfold duplicates. rewrite duplicates_loop_nil. set_solver. Qed.

Lemma flag_duplicates_nil rule what b ids : flag_duplicates rule what b ids = [] <-> NoDup ids.
Proof. unfold flag_duplicates. rewrite fmap_nil_iff. apply duplicates_nil. Qed.

Lemma elem_of_ticket_ids st k : k ∈ ticket_ids st <-> k ∈ (t_id <$> tickets st).
Proof. unfold ticket_ids. by rewrite elem_of_list_to_set. Qed.

Lemma dangling_nil {A} (f : string -> string) (g : string -> A) ks st :
  g <$> List.filter (fun k => negb (bool_decide (f k ∈ ticket_ids st))) ks = [] <->
  forall k, k ∈ ks -> f k ∈ (t_id <$> tickets st).
Proof.
  rewrite fmap_nil_iff, filter_nil_iff. apply forall_proper; intros k.
  by rewrite negb_false_iff, bool_decide_eq_true, elem_of_ticket_ids.
Qed.

Lemma map_any_false {V} (p : V -> bool) (m : gmap string V) :
  map_any p m = false <-> map_Forall (fun _ v => p v = false) m.
Proof.
  unfold map_any. rewrite map_Forall_lookup. split.
  - intros H k v Hk. destruct (p v) eqn:E; [|done]. rewrite <- H.
    symmetry. apply List.existsb_exists. exists v. split; [|done]. apply list_elem_of_In.
    apply list_elem_of_fmap. exists (k, v). split; [done|]. by apply elem_of_map_to_list.
  - intros H. destruct (existsb _ _) eqn:E; [|done]. apply List.existsb_exists in E as (v & Hv & Hp).
    apply list_elem_of_In, list_elem_of_fmap in Hv as ([k v'] & -> & Hk%elem_of_map_to_list).
    cbn in Hp. by rewrite (H k v' Hk) in Hp.
Qed.

Lemma if_singleton_nil {A} (b : bool) (x : A) : (if b then [x] else []) = [] <-> b = false.
Proof. by destruct b. Qed.

Lemma references_nil st : audit_ticket_references st = [] <-> references_ok st.
Proof.
  unfold audit_ticket_references, flag_dangling. cbv zeta.
  rewrite !app_nil_iff, !(dangling_nil id), (dangling_nil session_ticket).
  setoid_rewrite elem_of_btree_elements. setoid_rewrite elem_of_btree_keys.
  split; [intros (?&?&?&?&?&?&?&?&?&?&?&?&?); by constructor|intros []; split_and!; assumption].
Qed.

Lemma counters_nil st :
  audit_counters st = [] <->
  forall d, last_good_deploy st = Some d -> (kg_deploy_index d <= deploy_index st)%N.
Proof.
  unfold audit_counters. destruct (last_good_deploy st) as [d|]; [|done].
  case_decide as H; split; intros Hd; try done.
  - specialize (Hd d eq_refl). lia.
  - intros d' [= <-]. lia.
Qed.

Lemma spend_nil st :
  audit_spend st = [] <->
  (negative (sp_total_cost_usd (spend st)) = false /\ negative (spend_today_usd st) = false) /\
  (map_Forall (fun _ v => negative v = false) (sp_by_role (spend st)) /\
   map_Forall (fun _ v => negative v = false) (sp_metered_cost_by_role (spend st)) /\
   map_Forall (fun _ op => negative (os_cost_usd op) = false) (sp_by_operator (spend st))).
Proof.
  unfold audit_spend. cbv zeta.
  rewrite app_nil_iff, !if_singleton_nil, !orb_false_iff, !map_any_false. tauto.
Qed.

Lemma uniqueness_nil st :
  audit_id_uniqueness st = [] <->
  NoDup (t_id <$> tickets st) /\ NoDup (dp_id <$> docs st) /\ NoDup (cn_id <$> channels st) /\
  NoDup (cm_id <$> comments st) /\ NoDup (ch_id <$> chat st) /\ NoDup (pl_id <$> sprint_queue st).
Proof.
  unfold audit_id_uniqueness. rewrite !app_nil_iff, !flag_duplicates_nil.
  assert (NoDup ((fun p => dec (pl_id p)) <$> sprint_queue st) <-> NoDup (pl_id <$> sprint_queue st)) as ->;
    [|done].
  rewrite (list_fmap_compose pl_id dec). apply (NoDup_fmap dec).
Qed.

(** C12: the audit misses nothing and cries no wolf. It reports no finding exactly when every id collection is duplicate free, every key of the thirteen ticket-keyed collections (sessions by their ticket prefix) names a live ticket, the deploy ordinal is not behind the last good deploy and no spend figure is negative. *)
Theorem audit_exact (st : ProjectState) : audit_structural_integrity st = [] <-> integrity_ok st.
Proof.
  unfold audit_structural_integrity.
  rewrite !app_nil_iff, uniqueness_nil, references_nil, counters_nil, spend_nil.
  split; [intros H; constructor; tauto|intros []; tauto].
Qed.

Lemma drop_dangling_lookup {V} live (m : gmap string V) k :
  (drop_dangling live m).1 !! k = if decide (k ∈ live) then m !! k else None.
Proof.
  unfold drop_dangling. cbn [fst]. case_decide as H.
  - destruct (m !! k) as [v|] eqn:E; [by apply map_lookup_filter_Some|].
    apply map_lookup_filter_None. by left.
  - apply map_lookup_filter_None. right. intros v _. done.
Qed.

Lemma drop_dangling_count {V} live (m : gmap string V) map :
  (drop_dangling live m).2 = length (flag_dangling map (btree_keys m) live).
Proof.
  unfold drop_dangling, flag_dangling, btree_keys. cbn [snd]. rewrite length_fmap.
  set (q := fun k => negb (bool_decide (k ∈ live))).
  rewrite sort_by_perm.
  enough (length (List.filter q (map_to_list m).*1) + size (filter (fun '(k, _) => k ∈ live) m) = size m) by lia.
  induction m as [|k v m Hk IH] using map_ind; [done|].
  rewrite (map_to_list_insert m k v Hk).
  rewrite map_size_insert_None by done. rewrite <- IH. cbn [fmap list_fmap fst List.filter]. unfold q at 1.
  case_bool_decide as Hl; cbn [negb].
  - rewrite map_filter_insert_True by done. rewrite map_size_insert_None; [lia|].
    apply map_lookup_filter_None. by left.
  - rewrite map_filter_insert_False, delete_id by done. cbn [length]. done.
Qed.

(** The findings [heal] counts: those on the ten maps keyed by ticket id. *)
Definition map_findings (st : ProjectState) : list IntegrityFinding :=
  let live := ticket_ids st in
  flag_dangling "hold_reasons" (btree_keys (hold_reasons st)) live ++
  flag_dangling "ticket_attachments" (btree_keys (ticket_attachments st)) live ++
  flag_dangling "cost_holds" (btree_keys (cost_holds st)) live ++
  flag_dangling "ticket_evidence" (btree_keys (ticket_evidence st)) live ++
  flag_dangling "ticket_last_merge" (btree_keys (ticket_last_merge st)) live ++
  flag_dangling "ticket_redesigns" (btree_keys (ticket_redesigns st)) live ++
  flag_dangling "ticket_fail_attempts" (btree_keys (ticket_fail_attempts st)) live ++
  flag_dangling "auto_approved_at" (btree_keys (auto_approved_at st)) live ++
  flag_dangling "ticket_journal" (btree_keys (ticket_journal st)) live ++
  flag_dangling "ticket_failures" (btree_keys (ticket_failures st)) live.

Definition kept_live {V} (st : ProjectState) (m m' : gmap string V) : Prop :=
  forall k, m' !! k = if decide (k ∈ (t_id <$> tickets st)) then m !! k else None.

(** [st'] is [st] without its dangling references, and nothing else. *)
Record dangling_dropped (st st' : ProjectState) : Prop := {
  dd_hold : kept_live st (hold_reasons st) (hold_reasons st');
  dd_attachments : kept_live st (ticket_attachments st) (ticket_attachments st');
  dd_cost_holds : kept_live st (cost_holds st) (cost_holds st');
  dd_evidence : kept_live st (ticket_evidence st) (ticket_evidence st');
  dd_merge : kept_live st (ticket_last_merge st) (ticket_last_merge st');
  dd_redesigns : kept_live st (ticket_redesigns st) (ticket_redesigns st');
  dd_fails : kept_live st (ticket_fail_attempts st) (ticket_fail_attempts st');
  dd_auto : kept_live st (auto_approved_at st) (auto_approved_at st');
  dd_journal : kept_live st (ticket_journal st) (ticket_journal st');
  dd_failures : kept_live st (ticket_failures st) (ticket_failures st');
  dd_swept : forall k, k ∈ swept_tickets st' <-> k ∈ swept_tickets st /\ k ∈ (t_id <$> tickets st);
  dd_approved : forall k, k ∈ cost_approved st' <-> k ∈ cost_approved st /\ k ∈ (t_id <$> tickets st);
  dd_sessions : forall k, ticket_sessions st' !! k =
    if decide (session_ticket k ∈ (t_id <$> tickets st)) then ticket_sessions st !! k else None;
  dd_rest : st' <| hold_reasons := hold_reasons st |> <| ticket_attachments := ticket_attachments st |>
      <| cost_holds := cost_holds st |> <| ticket_evidence := ticket_evidence st |>
      <| ticket_last_merge := ticket_last_merge st |> <| ticket_redesigns := ticket_redesigns st |>
      <| ticket_fail_attempts := ticket_fail_attempts st |> <| auto_approved_at := auto_approved_at st |>
      <| ticket_journal := ticket_journal st |> <| ticket_failures := ticket_failures st |>
      <| swept_tickets := swept_tickets st |> <| cost_approved := cost_approved st |>
      <| ticket_sessions := ticket_sessions st |> = st;
}.

Lemma drop_kept {V} st (m : gmap string V) : kept_live st m (drop_dangling (ticket_ids st) m).1.
Proof.
  intros k. rewrite drop_dangling_lookup. destruct (decide _) as [H|H], (decide _) as [H'|H']; try done;
    by rewrite elem_of_ticket_ids in H.
Qed.

Lemma drop_all_spec st : dangling_dropped st (drop_all_dangling st).1.
Proof.
  constructor; try exact (drop_kept st _); [| | |reflexivity].
  - intros k. cbn. rewrite elem_of_filter, elem_of_ticket_ids. tauto.
  - intros k. cbn. rewrite elem_of_filter, elem_of_ticket_ids. tauto.
  - intros k. cbn. case_decide as H; rewrite <- elem_of_ticket_ids in H.
    + destruct (ticket_sessions st !! k) eqn:E; [by apply map_lookup_filter_Some|].
      apply map_lookup_filter_None. by left.
    + apply map_lookup_filter_None. right. intros v _. done.
Qed.

Lemma drop_all_count st : (drop_all_dangling st).2 = length (map_findings st).
Proof.
  unfold map_findings. cbv zeta. rewrite !length_app, <- !drop_dangling_count.
  unfold drop_all_dangling. cbv zeta. cbn [fst snd drop_dangling]. lia.
Qed.

Lemma dropped_refs_ok st st' : dangling_dropped st st' -> tickets st' = tickets st -> references_ok st'.
Proof.
  intros [] Ht.
  assert (Hk : forall V (m m' : gmap string V), kept_live st m m' -> keys_live st' m').
  { intros V m m' H k. rewrite H, Ht. case_decide; [done|]. by intros []. }
  constructor; eauto; intros k; rewrite Ht.
  - by intros []%dd_swept0.
  - by intros []%dd_approved0.
  - rewrite dd_sessions0. case_decide; [done|]. by intros [].
Qed.

Definition other_findings (st : ProjectState) : list IntegrityFinding :=
  audit_id_uniqueness st ++ audit_counters st ++ audit_spend st.

Lemma flag_duplicates_rule rule what b ids :
  rule <> DANGLING_TICKET_REFERENCE ->
  Forall (fun f => is_dangling f = false) (flag_duplicates rule what b ids).
Proof.
  intros H. apply Forall_fmap, Forall_true. intros id. by apply bool_decide_eq_false.
Qed.

Lemma other_findings_rule st : Forall (fun f => is_dangling f = false) (other_findings st).
Proof.
  unfold other_findings, audit_id_uniqueness, audit_counters, audit_spend.
  rewrite !Forall_app. split_and!; try by apply flag_duplicates_rule.
  - destruct (last_good_deploy st); [case_decide|]; repeat constructor.
  - cbv zeta. destruct (_ || _); repeat constructor.
  - cbv zeta. destruct (_ || _); repeat constructor.
Qed.

Lemma references_rule st : Forall (fun f => is_dangling f = true) (audit_ticket_references st).
Proof.
  unfold audit_ticket_references, flag_dangling. cbv zeta.
  rewrite !Forall_app. split_and!; apply Forall_fmap, Forall_true; reflexivity.
Qed.

Lemma audit_nil st :
  audit_structural_integrity st = [] <-> other_findings st = [] /\ audit_ticket_references st = [].
Proof.
  unfold audit_structural_integrity, other_findings. rewrite !app_nil_iff. tauto.
Qed.

Lemma elem_of_audit st f :
  f ∈ audit_structural_integrity st <-> f ∈ other_findings st \/ f ∈ audit_ticket_references st.
Proof. unfold audit_structural_integrity, other_findings. rewrite !elem_of_app. tauto. Qed.

Lemma only_dangling st :
  existsb (fun f => negb (is_dangling f)) (audit_structural_integrity st) = false <->
  other_findings st = [].
Proof.
  split.
  - intros H. pose proof (other_findings_rule st) as Hr.
    destruct (other_findings st) as [|f l] eqn:E; [done|]. exfalso. inversion Hr as [|? ? Hf _]; subst.
    assert (existsb (fun f => negb (is_dangling f)) (audit_structural_integrity st) = true); [|congruence].
    apply List.existsb_exists. exists f. rewrite Hf. split; [|done]. apply list_elem_of_In.
    apply elem_of_audit. left. rewrite E. left.
  - intros H. destruct (existsb _ _) eqn:E; [|done].
    apply List.existsb_exists in E as (f & Hf%list_elem_of_In & Hd).
    pose proof (references_rule st) as Hr. rewrite Forall_forall in Hr. rewrite Hr in Hd; [done|].
    apply elem_of_audit in Hf as [Hf|Hf]; [|done]. rewrite H in Hf. by apply elem_of_nil in Hf.
Qed.

Lemma drop_all_other st : other_findings (drop_all_dangling st).1 = other_findings st.
Proof. reflexivity. Qed.

Lemma drop_all_clean st :
  other_findings st = [] -> audit_structural_integrity (drop_all_dangling st).1 = [].
Proof.
  intros H. apply audit_nil. rewrite drop_all_other. split; [done|]. apply references_nil.
  by apply (dropped_refs_ok st); [apply drop_all_spec|].
Qed.

Lemma heal_dangling st :
  audit_structural_integrity st <> [] -> other_findings st = [] ->
  heal_dangling_references st = ((drop_all_dangling st).1, Ok (length (map_findings st))).
Proof.
  intros Hne Ho. unfold heal_dangling_references. cbv zeta.
  rewrite decide_False by (by intros H%length_zero_iff_nil).
  rewrite (proj2 (only_dangling st) Ho), <- drop_all_count.
  pose proof (drop_all_clean st Ho) as Hc. by destruct (drop_all_dangling st) as [st' n]; cbn [fst snd] in *; rewrite Hc.
Qed.

(** healing removes exactly what is safe to remove. A clean state is returned as it is; a state with any finding that is not a dangling reference is refused with all its findings and left alone; otherwise every dangling key is dropped from the thirteen collections, every other key and field is kept, the result audits clean, and the count returned is that of the dangling keys of the ten maps keyed by ticket. *)
Theorem heal_exact (st : ProjectState) :
  let '(st', r) := heal_dangling_references st in
  (audit_structural_integrity st = [] -> st' = st /\ r = Ok 0) /\
  (other_findings st <> [] -> st' = st /\ r = Err (audit_structural_integrity st)) /\
  (audit_structural_integrity st <> [] -> other_findings st = [] ->
   dangling_dropped st st' /\ audit_structural_integrity st' = [] /\ r = Ok (length (map_findings st))).
Proof.
  destruct (heal_dangling_references st) as [st' r] eqn:E. split_and!.
  - intros H. unfold heal_dangling_references in E. rewrite H in E. by simplify_eq/=.
  - intros H. unfold heal_dangling_references in E. cbv zeta in E.
    rewrite decide_False in E by (intros H'%length_zero_iff_nil; apply H; by apply audit_nil).
    destruct (existsb _ _) eqn:Ee; [by simplify_eq|]. by apply only_dangling in Ee.
  - intros Hne Ho. rewrite heal_dangling in E by done. simplify_eq.
    split_and!; [apply drop_all_spec|by apply drop_all_clean|done].
Qed.

(** the write gate lets nothing corrupt through and changes nothing that is sound. What it accepts passes the schema validation and audits clean, a state that already does is accepted unchanged, and a refusal is a [Corrupt] error that either leaves the ledger alone (invalid schema) or adds one entry, named after the first finding, to the at most fifty newest. *)
Theorem gate_save_sound now (st : ProjectState) ledger :
  let '(st', ledger', r) := gate_save now st ledger in
  match r with
  | Ok _ => validate (tickets st') = Ok tt /\ audit_structural_integrity st' = [] /\ ledger' = ledger /\
            (audit_structural_integrity st = [] -> st' = st)
  | Err e => (validate (tickets st) <> Ok tt \/ audit_structural_integrity st <> []) /\
      (exists why, rs_error e = Corrupt why) /\
      (rs_quarantined e = None /\ ledger' = ledger \/
       exists entry, rs_quarantined e = Some entry /\ last ledger' = Some entry /\ length ledger' <= 50 /\
         Some (qe_rule_id entry) = if_rule_id <$> head (audit_structural_integrity st))
  end.
Proof.
  unfold gate_save, check. destruct (validate (tickets st)) as [[]|e] eqn:Ev; cbv beta iota.
  2: { split_and!; [by left|by eexists|by left]. }
  destruct (audit_structural_integrity st) as [|f fs] eqn:Ea; cbv beta iota; [done|].
  pose proof (heal_exact st) as Hh. destruct (heal_dangling_references st) as [st' r] eqn:Eh.
  destruct Hh as (_ & Hother & Hdang). rewrite Ea in *.
  assert (Hrefuse : let '(l, entry) := record_refusal now (f :: fs) st' ledger in
    last l = Some entry /\ length l <= 50 /\ qe_rule_id entry = if_rule_id f).
  { unfold record_refusal. split_and!; [apply last_push_capped; unfold MAX_QUARANTINE; lia|apply push_capped_le|done]. }
  destruct (record_refusal now (f :: fs) st' ledger) as [l entry]. destruct Hrefuse as (H1 & H2 & H3).
  destruct (decide (other_findings st = [])) as [Ho|Ho].
  - destruct Hdang as (Hd & Hclean & ->); [done..|]. case_decide as Hn; cbn.
    + split_and!; try done. assert (tickets st' = tickets st) as -> by exact (f_equal tickets (dd_rest _ _ Hd)). done.
    + split_and!; [by right|by eexists|]. right. exists entry. rewrite H3. by split_and!.
  - destruct (Hother Ho) as [-> ->]. cbn. split_and!; [by right|by eexists|]. right. exists entry. rewrite H3. by split_and!.
Qed.
End Audit.

(** ** A state whose only fault is one stale session *)

Definition stale_session_state : ProjectState :=
  ProjectState_default <| ticket_sessions := {["T-1/dev" := "session"]} |>.

(** The gate refuses a state it has just repaired. When the only dangling keys are session keys, swept tickets or cost approvals, healing returns a clean state but counts nothing, and the gate takes a count of zero for a failed heal: the save is refused and quarantined. *)
Theorem healed_state_refused show_f64 to_json now ledger :
  let '(st', r) := heal_dangling_references show_f64 stale_session_state in
  audit_structural_integrity show_f64 st' = [] /\ validate (tickets st') = Ok tt /\ r = Ok 0 /\
  is_ok (gate_save show_f64 to_json now stale_session_state ledger).2 = false.
Proof.
  assert (heal_dangling_references show_f64 stale_session_state = (ProjectState_default, Ok 0)) as ->
    by (vm_compute; reflexivity).
  split_and!; vm_compute; reflexivity.
Qed.
