(* ===== verification/Store.v ===== *)
(** * The shared state store: concurrent writers on one project row

    [SqlStateStore] of the infrastructure crate ([state/sql_store.rs],
    [state/tombstone.rs]) with its clients [mutate_state], [mutate_shard] and
    [op_save], at the granularity of one SQL statement: a thread's step runs one
    statement and the code up to the next. The row holds the decoded aggregate
    and the decoded shard columns (their JSON encoding is serde's); a
    transaction under [FOR UPDATE] is one step.

    The clients are written against the interface [RowStore], the statements
    they issue; [SqlRowStore] is the Postgres implementation. *)
From S2P Require Import Prelude RustStr Kinds TestCase Ticket State DepGraph StateOps Ports Shards Integrity.

(** ** The interface: what a client asks of the database *)

(** A [SELECT] of one shard column. *)
Inductive ColumnRead := NoRow | NullColumn | Column (d : ShardData).

Class RowStore (D : Type) := {
  (** [load_versioned] *)
  rs_load : D -> result PortError (Z * ProjectState);
  (** the column read of [load_shard] *)
  rs_column : ShardKind -> D -> ColumnRead;
  (** [GUARDED_SAVE_SQL] at an expected revision: whether a row was affected *)
  rs_save : Z -> ProjectState -> D -> D * bool;
  (** [claim_ticket]'s transaction, for an instance whose [deleted] flag is given *)
  rs_claim : bool -> string -> string -> string -> D -> D * bool;
  (** the transaction of [delete] *)
  rs_delete : D -> D;
  (** [connect] *)
  rs_connect : D -> D;
  (** [tombstone::exists] *)
  rs_tombstone : D -> bool;
}.

(** ** The Postgres row *)

(** The nullable shard columns. *)
Record ShardColumns := mkShardColumns {
  col_work : option WorkShard;
  col_social : option SocialShard;
  col_docs : option DocsShard;
  col_governance : option GovernanceShard;
  col_ops : option OpsShard;
}.

(** A row a pre-shard writer left. *)
Definition null_columns : ShardColumns := mkShardColumns None None None None None.

(** [$5::jsonb->'work', $5::jsonb->'social', ...] of [shard_doc]. *)
Definition shard_doc (st : ProjectState) : ShardColumns :=
  let sh := into_shards st in
  mkShardColumns (Some (sh_work sh)) (Some (sh_social sh)) (Some (sh_docs sh))
    (Some (sh_governance sh)) (Some (sh_ops sh)).

(** [shard_column] names the column; this reads it. *)
Definition read_column (kind : ShardKind) (c : ShardColumns) : option ShardData :=
  match kind with
  | KWork => DWork <$> col_work c
  | KSocial => DSocial <$> col_social c
  | KDocs => DDocs <$> col_docs c
  | KGovernance => DGovernance <$> col_governance c
  | KOps => DOps <$> col_ops c
  end.

Record SqlRow := mkSqlRow { row_revision : Z; row_data : ProjectState; row_shards : ShardColumns }.

(** The row one dual write leaves. *)
Definition dual_row (revision : Z) (st : ProjectState) : SqlRow := mkSqlRow revision st (shard_doc st).

(** One project's row of [project_state] and its tombstone. *)
Record SqlDb := mkSqlDb { db_row : option SqlRow; db_tombstone : bool }.

(** The refusal of a document from a future schema. *)
Definition check_schema (st : ProjectState) : result PortError unit :=
  if (SCHEMA_VERSION <? schema_version st)%N
  then Err (Corrupt ("state schema_version " +:+ dec (schema_version st) +:+
                     " newer than supported " +:+ dec SCHEMA_VERSION))
  else Ok tt.

(** [load_versioned] *)
Definition load_versioned (db : SqlDb) : result PortError (Z * ProjectState) :=
  match db_row db with
  | None => Ok (0%Z, ProjectState_default)
  | Some row => let? _ := check_schema (row_data row) in Ok (row_revision row, row_data row)
  end.

(** [current_version] *)
Definition current_version (db : SqlDb) : option Z :=
  Some (match db_row db with None => 0%Z | Some row => row_revision row end).

(** The [SELECT] of [load_shard]. *)
Definition select_column (kind : ShardKind) (db : SqlDb) : ColumnRead :=
  match db_row db with
  | None => NoRow
  | Some row => match read_column kind (row_shards row) with None => NullColumn | Some d => Column d end
  end.

(** [GUARDED_SAVE_SQL]: whether a row was affected. *)
Definition guarded_save (expected : Z) (st : ProjectState) (db : SqlDb) : SqlDb * bool :=
  if db_tombstone db then (db, false)
  else match db_row db with
  | None => (db <| db_row := Some (dual_row 1 st) |>, true)
  | Some row =>
      if decide (row_revision row = expected)
      then (db <| db_row := Some (dual_row (row_revision row + 1) st) |>, true)
      else (db, false)
  end.

(** [claim_ticket]'s transaction; [deleted] is the instance's flag. *)
Definition sql_claim_ticket (deleted : bool) (id worker now : string) (db : SqlDb) : SqlDb * bool :=
  if deleted then (db, false)
  else match db_row db with
  | None => (db, false)
  | Some row =>
      match ticket id (row_data row) with
      | None => (db, false)
      | Some t =>
          if bool_decide (is_Some (t_claimed_by t)) then (db, false)
          else match claim System worker now t with
          | Err _ => (db, false)
          | Ok t' =>
              (db <| db_row := Some (dual_row (row_revision row + 1)
                       (set_ticket id (fun _ => t') (row_data row))) |>, true)
          end
      end
  end.

(** The transaction of [delete]: purge the row and arm the tombstone. *)
Definition sql_delete (db : SqlDb) : SqlDb := mkSqlDb None true.

(** [connect] clears the tombstone. *)
Definition sql_connect (db : SqlDb) : SqlDb := db <| db_tombstone := false |>.

#[export] Instance SqlRowStore : RowStore SqlDb := {
  rs_load := load_versioned;
  rs_column := select_column;
  rs_save := guarded_save;
  rs_claim := sql_claim_ticket;
  rs_delete := sql_delete;
  rs_connect := sql_connect;
  rs_tombstone := db_tombstone;
}.

(** ** The clients *)

Definition tombstone_refusal (project_id : string) : PortError :=
  Backend ("[" +:+ project_id +:+ "] write refused: project was deleted").

Definition stale_conflict : PortError :=
  Conflict "state changed since last read (concurrent writer)".

Definition MUTATE_ATTEMPTS : nat := 12.

(** What a client asks of the store. *)
Inductive Job :=
| JMutate (f : ProjectState -> result PortError ProjectState)
| JMutateShard (kind : ShardKind) (f : ShardData -> result PortError ShardData)
| JSaveExpecting (st : ProjectState) (expected : option Z)
| JSaveShard (sh : StateShard) (expected : option Z)
| JClaim (id worker now : string)
| JDelete
| JConnect.

(** Where a client stands. [tries] counts the attempts [mutate_state] and
    [mutate_shard] have left after the current one; a plain save has none. *)
Inductive Pc :=
| Start
| Loading (tries : nat)
| LoadingShard (tries : nat)
| LoadingEnvelope (tries : nat)
| Merging (tries : nat) (sh : StateShard) (expected : option Z)
| Persisting (tries : nat) (st : ProjectState) (expected : option Z)
| Writing (tries : nat) (st : ProjectState) (expected : Z)
| Checking (tries : nat)
| Finished (r : result PortError bool).

(** A client and the [SqlStateStore] instance it goes through. *)
Record Thread := mkThread { th_store : nat; th_job : Job; th_pc : Pc }.

Record Sys (D : Type) := mkSys {
  sys_db : D;
  sys_deleted : gset nat;  (** instances whose [deleted] flag is set *)
  sys_threads : list Thread;
}.
Arguments mkSys {D} _ _ _.
Arguments sys_db {D} _.
Arguments sys_deleted {D} _.
Arguments sys_threads {D} _.

Section Machine.
Context {D : Type} {store : RowStore D}.
Context (project_id : string).
(** The write gate's verdict and the state it lets through. *)
Context (gate : ProjectState -> result PortError ProjectState).

(** The error of a refused or stale write: retried while attempts are left. *)
Definition after_stale (job : Job) (tries : nat) : Pc :=
  match tries with
  | 0 => Finished (Err stale_conflict)
  | S n => match job with JMutateShard _ _ => LoadingShard n | _ => Loading n end
  end.

(** The mutator of [mutate_shard] on the payload just read, then [save_shard]. *)
Definition shard_mutated (f : ShardData -> result PortError ShardData) (tries : nat)
    (read : result PortError StateShard) : Pc :=
  match (let? sh := read in let? d := f (ss_data sh) in Ok (mkStateShard (ss_kind sh) d)) with
  | Err e => Finished (Err e)
  | Ok sh => Merging tries sh None
  end.

(** [persist_at_revision] up to the guarded statement. *)
Definition persist (db : D) (store_deleted : bool) (tries : nat) (st : ProjectState)
    (expected : option Z) : Pc :=
  if store_deleted then Finished (Err (tombstone_refusal project_id))
  else match gate st with
  | Err e => Finished (Err e)
  | Ok st =>
      match expected with
      | Some rev => Writing tries st rev
      | None =>
          match rs_load db with
          | Err e => Finished (Err e)
          | Ok (rev, _) => Writing tries st rev
          end
      end
  end.

(** One step of a client: the shared row, the instance flags, where it stands next. *)
Definition thread_step (db : D) (deleted : gset nat) (th : Thread) : D * gset nat * Pc :=
  let store_deleted := bool_decide (th_store th ∈ deleted) in
  match th_pc th, th_job th with
  | Start, JMutate _ => (db, deleted, Loading (MUTATE_ATTEMPTS - 1))
  | Start, JMutateShard _ _ => (db, deleted, LoadingShard (MUTATE_ATTEMPTS - 1))
  | Start, JSaveExpecting st expected => (db, deleted, Persisting 0 st expected)
  | Start, JSaveShard sh expected => (db, deleted, Merging 0 sh expected)
  | Start, JClaim id worker now =>
      let '(db, won) := rs_claim store_deleted id worker now db in
      (db, deleted, Finished (Ok won))
  | Start, JDelete => (rs_delete db, {[th_store th]} ∪ deleted, Finished (Ok true))
  | Start, JConnect => (rs_connect db, deleted, Finished (Ok true))
  | Loading tries, JMutate f =>
      match let? loaded := rs_load db in f loaded.2 with
      | Err e => (db, deleted, Finished (Err e))
      | Ok st => (db, deleted, Persisting tries st None)
      end
  | LoadingShard tries, JMutateShard kind f =>
      (db, deleted,
       match rs_column kind db with
       | NoRow => shard_mutated f tries (Ok (default_shard kind))
       | NullColumn => LoadingEnvelope tries
       | Column d => shard_mutated f tries (decode_shard d)
       end)
  | LoadingEnvelope tries, JMutateShard kind f =>
      (db, deleted, shard_mutated f tries (let? loaded := rs_load db in Ok (shard kind loaded.2)))
  | Merging tries sh expected, _ =>
      match rs_load db with
      | Err e => (db, deleted, Finished (Err e))
      | Ok (rev, st) => (db, deleted, Persisting tries (with_shard sh st) (Some (default rev expected)))
      end
  | Persisting tries st expected, _ => (db, deleted, persist db store_deleted tries st expected)
  | Writing tries st expected, _ =>
      let '(db, written) := rs_save expected st db in
      (db, deleted, if written then Finished (Ok true) else Checking tries)
  | Checking tries, job =>
      (db, deleted, if rs_tombstone db then Finished (Err (tombstone_refusal project_id))
                    else after_stale job tries)
  | Loading _, _ | LoadingShard _, _ | LoadingEnvelope _, _ | Finished _, _ => (db, deleted, th_pc th)
  end.

Definition sys_step (s : Sys D) (i : nat) : Sys D :=
  match sys_threads s !! i with
  | None => s
  | Some th =>
      let '(db, deleted, pc) := thread_step (sys_db s) (sys_deleted s) th in
      mkSys db deleted (<[i := th <| th_pc := pc |>]> (sys_threads s))
  end.

(** A schedule: which client takes each step. *)
Definition run_sys (schedule : list nat) (s : Sys D) : Sys D := fold_left sys_step schedule s.

(** ** Every client finishes *)

(** An upper bound on the steps a client still takes. *)
Definition steps_left (pc : Pc) : nat :=
  match pc with
  | Start => 6 * MUTATE_ATTEMPTS + 1
  | LoadingShard n => 6 * n + 6
  | LoadingEnvelope n => 6 * n + 5
  | Loading n | Merging n _ _ => 6 * n + 4
  | Persisting n _ _ => 6 * n + 3
  | Writing n _ _ => 6 * n + 2
  | Checking n => 6 * n + 1
  | Finished _ => 0
  end.

(** Where a client of each kind can stand: only the two mutators ever load or
    retry. *)
Definition pc_ok (job : Job) (pc : Pc) : Prop :=
  match job, pc with
  | JMutate _, (LoadingShard _ | LoadingEnvelope _ | Merging _ _ _) => False
  | JMutateShard _ _, Loading _ => False
  | JMutate _, _ | JMutateShard _ _, _ => True
  | JSaveShard _ _, Merging 0 _ _ => True
  | _, Start | _, Persisting 0 _ _ | _, Writing 0 _ _ | _, Checking 0 | _, Finished _ => True
  | _, _ => False
  end.

Lemma thread_step_ok db deleted th :
  pc_ok (th_job th) (th_pc th) -> pc_ok (th_job th) (thread_step db deleted th).2.
Proof.
  destruct th as [k job pc]. unfold thread_step, after_stale, persist, shard_mutated. cbn.
  destruct pc as [|n|n|n|n sh e|n st e|n st e|n|r], job; cbn; try done; intros Hok;
    repeat (case_match; subst; simplify_eq/=; try done).
Qed.

Lemma thread_step_dec db deleted th :
  pc_ok (th_job th) (th_pc th) ->
  steps_left (thread_step db deleted th).2 <= pred (steps_left (th_pc th)).
Proof.
  destruct th as [k job pc]. unfold thread_step, after_stale, persist, shard_mutated. cbn.
  destruct pc as [|n|n|n|n sh e|n st e|n st e|n|r], job; cbn [pc_ok th_pc th_job]; try done; intros Hok;
    repeat (case_match; subst; simplify_eq/=; try done); unfold MUTATE_ATTEMPTS in *; cbn; try lia.
Qed.

Lemma sys_step_other s i j : i <> j -> sys_threads (sys_step s j) !! i = sys_threads s !! i.
Proof.
  intros H. unfold sys_step. destruct (sys_threads s !! j) as [th|]; [|done].
  destruct (thread_step _ _ _) as [[db d] pc]. by apply list_lookup_insert_ne.
Qed.

Lemma sys_step_self s i th :
  sys_threads s !! i = Some th ->
  let '(db, deleted, pc) := thread_step (sys_db s) (sys_deleted s) th in
  sys_db (sys_step s i) = db /\ sys_deleted (sys_step s i) = deleted /\
  sys_threads (sys_step s i) !! i = Some (th <| th_pc := pc |>).
Proof.
  intros H. unfold sys_step. rewrite H. destruct (thread_step _ _ _) as [[db d] pc]. split_and!; try done.
  apply list_lookup_insert_eq. by eapply lookup_lt_Some.
Qed.

(** The steps a schedule gives to client [i]. *)
Definition turns (i : nat) (schedule : list nat) : nat := count_occ Nat.eq_dec schedule i.

Lemma steps_left_run schedule s i th :
  sys_threads s !! i = Some th -> pc_ok (th_job th) (th_pc th) ->
  exists th', sys_threads (run_sys schedule s) !! i = Some th' /\ th_job th' = th_job th /\
    pc_ok (th_job th') (th_pc th') /\ steps_left (th_pc th') <= steps_left (th_pc th) - turns i schedule.
Proof.
  revert s th. induction schedule as [|j schedule IH]; intros s th Hi Hok.
  - exists th. split_and!; try done. cbn. lia.
  - cbn [run_sys fold_left]. fold (run_sys schedule (sys_step s j)). unfold turns. cbn [count_occ].
    fold (turns i schedule). destruct (Nat.eq_dec j i) as [->|Hj].
    + pose proof (sys_step_self s i th Hi) as Hs.
      pose proof (thread_step_ok (sys_db s) (sys_deleted s) th Hok) as Hok'.
      pose proof (thread_step_dec (sys_db s) (sys_deleted s) th Hok) as Hd.
      destruct (thread_step _ _ th) as [[db d] pc]. destruct Hs as (_ & _ & Hi'). cbn [snd] in *.
      destruct (IH _ _ Hi' Hok') as (th' & ? & ? & ? & Hle). exists th'. split_and!; try done. change (steps_left (th_pc th') <= steps_left pc - turns i schedule) in Hle. lia.
    + rewrite <- (sys_step_other s i j) in Hi by congruence. by apply IH.
Qed.

(** no client spins. Whatever the others do in between, and whichever store implements the statements, a client that gets 73 steps of the schedule has finished: [mutate_state] and [mutate_shard] make at most twelve attempts of at most six statements each and then return the conflict. *)
Theorem client_finishes schedule s i th :
  sys_threads s !! i = Some th -> th_pc th = Start -> 73 <= turns i schedule ->
  exists th' r, sys_threads (run_sys schedule s) !! i = Some th' /\ th_job th' = th_job th /\
    th_pc th' = Finished r.
Proof.
  intros Hi Hs Ht. destruct (steps_left_run schedule s i th Hi) as (th' & Hi' & Hj & _ & Hle).
  { rewrite Hs. by destruct (th_job th). }
  rewrite Hs in Hle. change (steps_left Start) with 73 in Hle.
  exists th'. destruct (th_pc th') as [| | | | | | | |r] eqn:E; cbn in Hle; try lia. by exists r.
Qed.

(** What client [i] and the shared parts look like. *)
Definition view (s : Sys D) (i : nat) (db : D) (deleted : gset nat) (th : Thread) : Prop :=
  sys_db s = db /\ sys_deleted s = deleted /\ sys_threads s !! i = Some th.

Lemma view_step s i db deleted th db' deleted' pc :
  view s i db deleted th -> thread_step db deleted th = (db', deleted', pc) ->
  view (sys_step s i) i db' deleted' (mkThread (th_store th) (th_job th) pc).
Proof.
  intros (<- & <- & Hi) E. pose proof (sys_step_self s i th Hi) as H. rewrite E in H. done.
Qed.

Lemma view_finished s i db deleted k job r :
  view s i db deleted (mkThread k job (Finished r)) ->
  view (sys_step s i) i db deleted (mkThread k job (Finished r)).
Proof. intros H. by eapply view_step in H; [|by destruct job]. Qed.

End Machine.

Section SqlMachine.
Context (project_id : string) (gate : ProjectState -> result PortError ProjectState).
Implicit Types (s : Sys SqlDb) (db : SqlDb).

#[local] Abbreviation thread_step := (thread_step project_id gate) (only parsing).
#[local] Abbreviation sys_step := (sys_step project_id gate) (only parsing).
#[local] Abbreviation run_sys := (run_sys project_id gate) (only parsing).

(** without interference [mutate_state] does what it says. It applies the mutator to the stored state (the default for a project never written), stores what the gate lets through at the next revision, envelope and shard columns together, and returns [Ok]; an error of the load, the mutator or the gate is returned and leaves the row untouched. *)
Theorem mutate_alone s i th f :
  sys_threads s !! i = Some th -> th_job th = JMutate f -> th_pc th = Start ->
  th_store th ∉ sys_deleted s -> db_tombstone (sys_db s) = false ->
  let s' := run_sys [i; i; i; i] s in
  match (let? loaded := load_versioned (sys_db s) in let? st := f loaded.2 in
         let? st := gate st in Ok (loaded.1, st)) with
  | Ok (rev, st') => sys_db s' = mkSqlDb (Some (dual_row (rev + 1) st')) false /\
              sys_threads s' !! i = Some (th <| th_pc := Finished (Ok true) |>)
  | Err e => sys_db s' = sys_db s /\ sys_threads s' !! i = Some (th <| th_pc := Finished (Err e) |>)
  end.
Proof.
  intros Hi Hj Hp Hd Ht. destruct th as [k job pc]. cbn [th_job th_pc th_store] in *. subst.
  assert (H0 : view s i (sys_db s) (sys_deleted s) (mkThread k (JMutate f) Start)) by done.
  cbv zeta. unfold Store.run_sys. cbn [fold_left].
  eapply (view_step project_id gate) in H0; [|reflexivity]. cbn [th_store th_job] in H0.
  assert (Hf : forall s' r db, view s' i db (sys_deleted s) (mkThread k (JMutate f) (Finished r)) ->
    sys_db s' = db /\ sys_threads s' !! i = Some (mkThread k (JMutate f) (Finished r))) by by intros ??? (? & _ & ?).
  destruct (load_versioned (sys_db s)) as [[rev st]|e] eqn:El; cbn [result_bind].
  2: { eapply (view_step project_id gate) in H0; [|unfold Store.thread_step; cbn; rewrite El; reflexivity].
       by apply Hf; do 2 apply (view_finished project_id gate). }
  destruct (f st) as [st1|e] eqn:Ef; cbn [result_bind fst snd]; rewrite ?Ef; cbn [result_bind].
  2: { eapply (view_step project_id gate) in H0; [|unfold Store.thread_step; cbn; rewrite El; cbn; rewrite Ef; reflexivity].
       by apply Hf; do 2 apply (view_finished project_id gate). }
  eapply (view_step project_id gate) in H0; [|unfold Store.thread_step; cbn; rewrite El; cbn; rewrite Ef; reflexivity].
  cbn [th_store th_job] in H0. destruct (gate st1) as [st2|e] eqn:Eg; cbn [result_bind].
  2: { eapply (view_step project_id gate) in H0; [|unfold Store.thread_step, persist; cbn;
         rewrite bool_decide_false by done; rewrite Eg; reflexivity].
       by apply Hf; apply (view_finished project_id gate). }
  eapply (view_step project_id gate) in H0; [|unfold Store.thread_step, persist; cbn;
    rewrite bool_decide_false by done; rewrite Eg, El; reflexivity].
  cbn [th_store th_job fst] in H0. apply Hf.
  assert (Hg : guarded_save rev st2 (sys_db s) = (mkSqlDb (Some (dual_row (rev + 1) st2)) false, true)).
  { unfold guarded_save, load_versioned in *. rewrite Ht. destruct (sys_db s) as [[row|] b]; cbn in *.
    - destruct (check_schema _); simplify_eq/=. by rewrite decide_True.
    - by simplify_eq/=. }
  eapply (view_step project_id gate) in H0; [exact H0|]. unfold Store.thread_step. cbn. by rewrite Hg.
Qed.

(** ** Guarded writes *)

(** The row only moves forward: a revision names one content for good. *)
Definition row_le (db db' : SqlDb) : Prop :=
  match db_row db, db_row db' with
  | None, _ => True
  | Some r, Some r' =>
      (row_revision r <= row_revision r')%Z /\ (row_revision r = row_revision r' -> r' = r)
  | Some _, None => False
  end.

#[local] Instance row_le_preorder : PreOrder row_le.
Proof.
  split.
  - intros [[r|] b]; unfold row_le; cbn; [|done]. split; [lia|done].
  - intros [[r1|] b1] [[r2|] b2] [[r3|] b3]; unfold row_le; cbn; try done.
    intros [H1 E1] [H2 E2]. split; [lia|]. intros H.
    assert (row_revision r1 = row_revision r2) as H' by lia.
    assert (row_revision r2 = row_revision r3) as H'' by lia. by rewrite E2, E1.
Qed.

Lemma guarded_save_le expected st db : row_le db (guarded_save expected st db).1.
Proof.
  unfold guarded_save. destruct (db_tombstone db); [done|].
  destruct (db_row db) as [row|] eqn:E; [case_decide; [|done]|]; unfold row_le; rewrite E; cbn; [|done].
  split; [lia|]. intros. lia.
Qed.

Lemma sql_claim_le b id worker now db : row_le db (sql_claim_ticket b id worker now db).1.
Proof.
  unfold sql_claim_ticket. destruct b; [done|]. destruct (db_row db) as [row|] eqn:E; [|done].
  destruct (ticket id (row_data row)); [|done]. case_bool_decide; [done|].
  destruct (claim _ _ _ _); [|done]. unfold row_le. rewrite E. cbn. split; [lia|]. intros. lia.
Qed.

Definition not_delete (job : Job) : Prop := match job with JDelete => False | _ => True end.

Lemma thread_step_le db deleted th :
  not_delete (th_job th) -> row_le db (thread_step db deleted th).1.1.
Proof.
  destruct th as [k job pc]. unfold Store.thread_step, after_stale, persist, shard_mutated. cbn.
  pose proof (fun e st => guarded_save_le e st db) as Hg.
  pose proof (fun b i w n => sql_claim_le b i w n db) as Hc.
  destruct pc as [|n|n|n|n sh e|n st e|n st e|n|r], job; cbn; try done; intros _;
    repeat (case_match; subst; simplify_eq/=; try done).
  all: try (match goal with E : guarded_save ?e ?st _ = _ |- _ => specialize (Hg e st); rewrite E in Hg end; done).
  - match goal with E : sql_claim_ticket ?b ?i ?w ?n _ = _ |- _ => specialize (Hc b i w n); rewrite E in Hc end. done.
  - unfold row_le. cbn. by case_match.
Qed.

(** No client of the system deletes the project. *)
Definition no_delete (s : Sys SqlDb) : Prop := Forall (fun th => not_delete (th_job th)) (sys_threads s).

Lemma sys_step_jobs s j : th_job <$> sys_threads (sys_step s j) = th_job <$> sys_threads s.
Proof.
  unfold Store.sys_step. destruct (sys_threads s !! j) as [th|] eqn:E; [|done].
  destruct (thread_step _ _ _) as [[db d] pc]. cbn. rewrite list_fmap_insert. cbn.
  apply list_insert_id. by rewrite list_lookup_fmap, E.
Qed.

Lemma no_delete_step s j : no_delete s -> no_delete (sys_step s j).
Proof.
  assert (Hj : forall s', no_delete s' <-> Forall not_delete (th_job <$> sys_threads s'))
    by (intros s'; by rewrite Forall_fmap).
  by rewrite !Hj, sys_step_jobs.
Qed.

Lemma sys_step_le s j : no_delete s -> row_le (sys_db s) (sys_db (sys_step s j)).
Proof.
  intros H. unfold Store.sys_step. destruct (sys_threads s !! j) as [th|] eqn:E; [|done].
  pose proof (thread_step_le (sys_db s) (sys_deleted s) th) as Hle.
  destruct (thread_step _ _ _) as [[db d] pc]. apply Hle. by eapply Forall_lookup_1 in H.
Qed.

(** A client writing at a revision it was given: where it stands before, and the
    only ways it can stand after. *)
Inductive guarded_pc (st : ProjectState) (rev : Z) : Pc -> Prop :=
| GStart : guarded_pc st rev Start
| GPersisting : guarded_pc st rev (Persisting 0 st (Some rev))
| GWriting st' : gate st = Ok st' -> guarded_pc st rev (Writing 0 st' rev).

Inductive refused_pc : Pc -> Prop :=
| RChecking : refused_pc (Checking 0)
| RFinished e : refused_pc (Finished (Err e)).

Lemma refused_stays s schedule i k st exp pc :
  sys_threads s !! i = Some (mkThread k (JSaveExpecting st exp) pc) -> refused_pc pc ->
  exists pc', sys_threads (run_sys schedule s) !! i = Some (mkThread k (JSaveExpecting st exp) pc') /\
    refused_pc pc'.
Proof.
  revert s pc. induction schedule as [|j schedule IH]; intros s pc Hi Hr; [by exists pc|].
  change (run_sys (j :: schedule) s) with (run_sys schedule (sys_step s j)).
  destruct (decide (i = j)) as [<-|Hj]; [|eapply IH; [|done]; by rewrite sys_step_other].
  assert (Hv : view s i (sys_db s) (sys_deleted s) (mkThread k (JSaveExpecting st exp) pc)) by done.
  destruct Hr as [|e].
  - eapply (view_step project_id gate) in Hv; [|reflexivity]. destruct Hv as (_ & _ & Hi'). cbn in Hi'.
    eapply IH; [exact Hi'|]. destruct (db_tombstone _); constructor.
  - apply (view_finished project_id gate) in Hv as (_ & _ & Hi'). eapply IH; [exact Hi'|]. constructor.
Qed.

Lemma guarded_run schedule s i k st row pc r :
  no_delete s -> row_le (mkSqlDb (Some row) false) (sys_db s) ->
  sys_threads s !! i = Some (mkThread k (JSaveExpecting st (Some (row_revision row))) pc) ->
  guarded_pc st (row_revision row) pc ->
  (th_pc <$> sys_threads (run_sys schedule s) !! i) = Some (Finished (Ok r)) ->
  exists before after st', schedule = before ++ i :: after /\ gate st = Ok st' /\
    db_row (sys_db (run_sys before s)) = Some row /\
    db_row (sys_db (run_sys (before ++ [i]) s)) = Some (dual_row (row_revision row + 1) st').
Proof.
  revert s pc. induction schedule as [|j schedule IH]; intros s pc Hnd Hle Hi Hpc Hfin.
  { cbn in Hfin. rewrite Hi in Hfin. destruct Hpc; done. }
  change (run_sys (j :: schedule) s) with (run_sys schedule (sys_step s j)) in Hfin.
  assert (Hnd' := no_delete_step s j Hnd).
  assert (Hle' : row_le (mkSqlDb (Some row) false) (sys_db (sys_step s j)))
    by (etransitivity; [exact Hle|by apply sys_step_le]).
  assert (Hgo : forall pc', sys_threads (sys_step s j) !! i
      = Some (mkThread k (JSaveExpecting st (Some (row_revision row))) pc') ->
    guarded_pc st (row_revision row) pc' ->
    exists before after st', j :: schedule = before ++ i :: after /\ gate st = Ok st' /\
      db_row (sys_db (run_sys before s)) = Some row /\
      db_row (sys_db (run_sys (before ++ [i]) s)) = Some (dual_row (row_revision row + 1) st')).
  { intros pc' Hi' Hpc'. destruct (IH _ _ Hnd' Hle' Hi' Hpc' Hfin) as (b & a & st' & -> & ? & ? & ?).
    by exists (j :: b), a, st'. }
  destruct (decide (i = j)) as [<-|Hj]; [|eapply Hgo; [|done]; by rewrite sys_step_other].
  assert (Hv : view s i (sys_db s) (sys_deleted s)
    (mkThread k (JSaveExpecting st (Some (row_revision row))) pc)) by done.
  assert (Hno : forall pc', sys_threads (sys_step s i) !! i
      = Some (mkThread k (JSaveExpecting st (Some (row_revision row))) pc') -> ~ refused_pc pc').
  { intros pc' Hi' Hr. destruct (refused_stays _ schedule _ _ _ _ _ Hi' Hr) as (pc'' & H & Hr').
    rewrite H in Hfin. cbn in Hfin. by destruct Hr'; simplify_eq. }
  destruct Hpc as [| |st' Hg].
  - eapply (view_step project_id gate) in Hv; [|reflexivity]. apply (Hgo _ (proj2 (proj2 Hv))). constructor.
  - destruct (bool_decide (k ∈ sys_deleted s)) eqn:Ek.
    { eapply (view_step project_id gate) in Hv; [|unfold Store.thread_step, persist; cbn; rewrite Ek; reflexivity].
      exfalso. eapply Hno; [exact (proj2 (proj2 Hv))|constructor]. }
    destruct (gate st) as [st'|e] eqn:Eg.
    + eapply (view_step project_id gate) in Hv; [|unfold Store.thread_step, persist; cbn; rewrite Ek, Eg; reflexivity].
      apply (Hgo _ (proj2 (proj2 Hv))). by constructor.
    + eapply (view_step project_id gate) in Hv; [|unfold Store.thread_step, persist; cbn; rewrite Ek, Eg; reflexivity].
      exfalso. eapply Hno; [exact (proj2 (proj2 Hv))|constructor].
  - destruct (guarded_save (row_revision row) st' (sys_db s)) as [db' w] eqn:Egs.
    eapply (view_step project_id gate) in Hv; [|unfold Store.thread_step, persist; cbn; rewrite Egs; reflexivity].
    destruct w; [|exfalso; eapply Hno; [exact (proj2 (proj2 Hv))|constructor]].
    assert (Hrow : db_row (sys_db s) = Some row /\ db_row db' = Some (dual_row (row_revision row + 1) st')).
    { unfold guarded_save in Egs. destruct (db_tombstone (sys_db s)); [done|].
      unfold row_le in Hle. cbn in Hle. destruct (db_row (sys_db s)) as [row'|]; [|done].
      case_decide as Hr; [|done]. destruct Hle as [_ Heq]. rewrite (Heq (eq_sym Hr)) in *. by simplify_eq/=. }
    exists [], schedule, st'. destruct Hrow as [H1 H2]. split_and!; try done.
    cbn. by rewrite (proj1 Hv).
Qed.

(** a write at a revision never loses an update. If a client that saw the row at some revision saves with that revision and is told [Ok], then, whatever other clients did in any interleaving (short of deleting the project), its write landed on exactly the row it had seen: nothing was written in between, and the row then holds what the gate let through at the next revision. *)
Theorem guarded_save_current schedule s i k st row r :
  no_delete s -> db_row (sys_db s) = Some row ->
  sys_threads s !! i = Some (mkThread k (JSaveExpecting st (Some (row_revision row))) Start) ->
  (th_pc <$> sys_threads (run_sys schedule s) !! i) = Some (Finished (Ok r)) ->
  exists before after st', schedule = before ++ i :: after /\ gate st = Ok st' /\
    db_row (sys_db (run_sys before s)) = Some row /\
    db_row (sys_db (run_sys (before ++ [i]) s)) = Some (dual_row (row_revision row + 1) st').
Proof.
  intros Hnd Hrow Hi Hfin. eapply guarded_run; [done| |exact Hi|constructor|exact Hfin].
  unfold row_le. by rewrite Hrow.
Qed.

(** ** A deleted project *)

Definition gone (db : SqlDb) : Prop := db = mkSqlDb None true.

Definition not_connect (job : Job) : Prop := match job with JConnect => False | _ => True end.

(** The answers a client of a deleted project can still get. *)
Definition refusal_pc (job : Job) (pc : Pc) : Prop :=
  match pc, job with
  | Finished (Ok b), JClaim _ _ _ => b = false
  | Finished (Ok _), JDelete => True
  | Finished (Ok _), _ => False
  | _, _ => True
  end.

Lemma gone_step db deleted th :
  gone db -> not_connect (th_job th) -> refusal_pc (th_job th) (th_pc th) ->
  gone (thread_step db deleted th).1.1 /\ refusal_pc (th_job th) (thread_step db deleted th).2.
Proof.
  destruct th as [k job pc]. intros ->. unfold Store.thread_step, after_stale, persist, shard_mutated. cbn.
  destruct pc as [|n|n|n|n sh e|n st e|n st e|n|r], job; cbn; try done; intros _ Hr; unfold gone;
    repeat (case_match; subst; simplify_eq/=; try done).
  all: unfold sql_claim_ticket in *; by repeat case_match; simplify_eq/=.
Qed.

(** a deleted project stays deleted. Once the delete has committed, and until some process connects again, no interleaving of saves, mutations, claims and deletes through any store instance brings the row back, and every save or mutation that had not finished is refused, every claim lost. *)
Theorem deleted_stays_deleted schedule s :
  gone (sys_db s) ->
  Forall (fun th => not_connect (th_job th) /\ refusal_pc (th_job th) (th_pc th)) (sys_threads s) ->
  gone (sys_db (run_sys schedule s)) /\
  Forall (fun th => refusal_pc (th_job th) (th_pc th)) (sys_threads (run_sys schedule s)).
Proof.
  intros Hg Hth. enough (gone (sys_db (run_sys schedule s)) /\
    Forall (fun th => not_connect (th_job th) /\ refusal_pc (th_job th) (th_pc th))
      (sys_threads (run_sys schedule s))) as [? H]
    by (split; [done|]; eapply Forall_impl; [exact H|]; by intros ? []).
  unfold Store.run_sys. apply fold_left_invariant with (I := fun s => gone (sys_db s) /\ Forall
    (fun th => not_connect (th_job th) /\ refusal_pc (th_job th) (th_pc th)) (sys_threads s)); [|done].
  clear. intros s j [Hg Hth]. unfold Store.sys_step.
  destruct (sys_threads s !! j) as [th|] eqn:E; [|done].
  destruct (Forall_lookup_1 _ _ _ _ Hth E) as [Hc Hr].
  pose proof (gone_step (sys_db s) (sys_deleted s) th Hg Hc Hr) as [H1 H2].
  destruct (thread_step _ _ _) as [[db d] pc]. split; [done|]. cbn in *. by apply Forall_insert.
Qed.
End SqlMachine.


(** ** The machine with the real gate *)

(** [gate_save]'s verdict; the ledger it keeps does not influence it. *)
Definition gate_of (show_f64 : f64 -> string) (to_json : ProjectState -> string) (now : string)
    (st : ProjectState) : result PortError ProjectState :=
  match gate_save show_f64 to_json now st [] with
  | (st', _, Ok _) => Ok st'
  | (_, _, Err refused) => Err (rs_error refused)
  end.

Definition one_ready : ProjectState :=
  ProjectState_default <| tickets := [mkTicket "F1" Feature "work" "" High CSmall Ready false
    (mkDesign None None) None [] [] [] None None None None None [] None] |>.

Definition touch (st : ProjectState) : result PortError ProjectState :=
  Ok (log_activity "now" "SYSTEM" "tick" None st).

(** One client updating the project while two workers claim the same ticket. *)
Definition race : Sys SqlDb :=
  mkSys (mkSqlDb (Some (dual_row 7 one_ready)) false) ∅
    [mkThread 0 (JMutate touch) Start; mkThread 1 (JClaim "F1" "ann@a" "t1") Start;
     mkThread 2 (JClaim "F1" "bob@b" "t2") Start; mkThread 3 (JSaveExpecting one_ready (Some 7%Z)) Start].

(** The holder of the race's ticket in the row. *)
Definition race_holder (s : Sys SqlDb) : option string :=
  row ← db_row (sys_db s); t ← ticket "F1" (row_data row); t_claimed_by t.

(** [mutate_state] can silently undo another writer's committed change. Its save re-reads the revision just before writing, so a mutation computed from a stale snapshot is accepted: here a worker wins a ticket, a concurrent mutation that loaded before and saved after erases the claim, both are told [Ok], and a second worker then wins the same ticket. *)
Theorem stale_mutation_erases_claim show_f64 to_json now :
  let gate := gate_of show_f64 to_json now in
  race_holder (run_sys "p" gate [0; 0; 1] race) = Some "ann@a" /\
  race_holder (run_sys "p" gate [0; 0; 1; 0; 0] race) = None /\
  race_holder (run_sys "p" gate [0; 0; 1; 0; 0; 2] race) = Some "bob@b" /\
  th_pc <$> take 3 (sys_threads (run_sys "p" gate [0; 0; 1; 0; 0; 2] race))
    = [Finished (Ok true); Finished (Ok true); Finished (Ok true)].
Proof. split_and!; vm_compute; reflexivity. Qed.

Definition plain_gate : ProjectState -> result PortError ProjectState :=
  gate_of (fun _ => "") (fun _ => "") "now".

Lemma client_finishes_witness :
  exists th r, sys_threads (run_sys "p" plain_gate (replicate 73 0) race) !! 0 = Some th /\
    th_pc th = Finished r.
Proof.
  destruct (client_finishes "p" plain_gate (replicate 73 0) race 0 (mkThread 0 (JMutate touch) Start))
    as (th & r & H & _ & Hr); [reflexivity|reflexivity|vm_compute; lia|].
  exists th, r. split; [exact H|exact Hr].
Defined.

Lemma mutate_alone_witness :
  row_revision <$> db_row (sys_db (run_sys "p" plain_gate [0; 0; 0; 0] race)) = Some 8%Z.
Proof.
  pose proof (mutate_alone "p" plain_gate race 0 (mkThread 0 (JMutate touch) Start) touch
    eq_refl eq_refl eq_refl (not_elem_of_empty 0) eq_refl) as H.
  change (load_versioned (sys_db race)) with (Ok (E:=PortError) (7%Z, one_ready)) in H.
  cbn [result_bind fst snd] in H. change (touch one_ready) with
    (Ok (E:=PortError) (log_activity "now" "SYSTEM" "tick" None one_ready)) in H. cbn [result_bind] in H.
  destruct (plain_gate _) as [st|e] eqn:E; cbn [result_bind] in H; [|vm_compute in E; discriminate].
  destruct H as [-> _]. reflexivity.
Defined.

Lemma guarded_save_current_witness :
  exists before after, [3; 3; 3; 1] = before ++ 3 :: after /\
    row_revision <$> db_row (sys_db (run_sys "p" plain_gate (before ++ [3]) race)) = Some 8%Z.
Proof.
  destruct (guarded_save_current "p" plain_gate [3; 3; 3; 1] race 3 3 one_ready (dual_row 7 one_ready) true)
    as (b & a & st & H & _ & _ & Hrow).
  - repeat constructor.
  - reflexivity.
  - reflexivity.
  - vm_compute. reflexivity.
  - exists b, a. split; [exact H|]. rewrite Hrow. reflexivity.
Defined.

Lemma deleted_stays_deleted_witness :
  gone (sys_db (run_sys "p" plain_gate [0; 1; 3; 0; 3; 0; 3; 0; 0] (race <| sys_db := mkSqlDb None true |>))).
Proof.
  apply deleted_stays_deleted; [reflexivity|]. repeat constructor.
Defined.
