(* ===== verification/ShardStore.v ===== *)
(** * The shard columns refine one atomic register

    The abstract specification of the state store: a register holding the
    revision and the aggregate, where a shard read is the projection of the
    aggregate (the default methods of [StateStorePort]). The Postgres store,
    which keeps a column per shard beside the envelope and falls back to the
    envelope on rows older than the columns, implements it. *)
From S2P Require Import Prelude RustStr Kinds TestCase Ticket State DepGraph StateOps Ports Shards Integrity Store.

(** ** The specification *)

Record Register := mkRegister { reg_cell : option (Z * ProjectState); reg_tombstone : bool }.

Definition reg_load (r : Register) : result PortError (Z * ProjectState) :=
  match reg_cell r with
  | None => Ok (0%Z, ProjectState_default)
  | Some (rev, st) => let? _ := check_schema st in Ok (rev, st)
  end.

Definition reg_column (kind : ShardKind) (r : Register) : ColumnRead :=
  match reg_cell r with
  | None => NoRow
  | Some (_, st) => Column (ss_data (shard kind st))
  end.

Definition reg_save (expected : Z) (st : ProjectState) (r : Register) : Register * bool :=
  if reg_tombstone r then (r, false)
  else match reg_cell r with
  | None => (mkRegister (Some (1%Z, st)) false, true)
  | Some (rev, _) =>
      if decide (rev = expected) then (mkRegister (Some ((rev + 1)%Z, st)) false, true) else (r, false)
  end.

(** A claim succeeds on an unclaimed ticket the aggregate lets be claimed. *)
Definition reg_claim (deleted : bool) (id worker now : string) (r : Register) : Register * bool :=
  match (if deleted then None else
         cell ← reg_cell r; t ← ticket id cell.2;
         if decide (t_claimed_by t = None) then pair cell <$> result_ok (claim System worker now t) else None) with
  | None => (r, false)
  | Some ((rev, st), t') =>
      (mkRegister (Some ((rev + 1)%Z, set_ticket id (fun _ => t') st)) (reg_tombstone r), true)
  end.

#[export] Instance RegisterStore : RowStore Register := {
  rs_load := reg_load;
  rs_column := reg_column;
  rs_save := reg_save;
  rs_claim := reg_claim;
  rs_delete _ := mkRegister None true;
  rs_connect r := mkRegister (reg_cell r) false;
  rs_tombstone := reg_tombstone;
}.

(** ** Documents of this build's schema *)

Definition supported (st : ProjectState) : Prop := (schema_version st <= SCHEMA_VERSION)%N.

Definition supported_data (d : ShardData) : Prop :=
  match d with DWork w => (wk_schema_version w <= SCHEMA_VERSION)%N | _ => True end.

(** A client of this build: it writes documents of a schema it can read. *)
Definition supported_job (job : Job) : Prop :=
  match job with
  | JMutate f => forall st st', supported st -> f st = Ok st' -> supported st'
  | JMutateShard _ f => forall d d', supported_data d -> f d = Ok d' -> supported_data d'
  | JSaveExpecting st _ => supported st
  | JSaveShard sh _ => supported_data (ss_data sh)
  | JClaim _ _ _ | JDelete | JConnect => True
  end.

Definition supported_pc (pc : Pc) : Prop :=
  match pc with
  | Persisting _ st _ | Writing _ st _ => supported st
  | Merging _ sh _ => supported_data (ss_data sh)
  | _ => True
  end.

(** The row: a readable document whose columns are its shards, or no columns yet. *)
Definition coherent_db (db : SqlDb) : Prop :=
  match db_row db with
  | None => True
  | Some row => supported (row_data row) /\
      (row_shards row = shard_doc (row_data row) \/ row_shards row = null_columns)
  end.

Definition coherent_thread (th : Thread) : Prop := supported_job (th_job th) /\ supported_pc (th_pc th).

Definition coherent (s : Sys SqlDb) : Prop :=
  coherent_db (sys_db s) /\ Forall coherent_thread (sys_threads s).

(** ** The abstraction function *)

Definition abs_db (db : SqlDb) : Register :=
  mkRegister ((fun row => (row_revision row, row_data row)) <$> db_row db) (db_tombstone db).

(** A client that found no column is, to the register, still about to read. *)
Definition abs_pc (pc : Pc) : Pc :=
  match pc with LoadingEnvelope n => LoadingShard n | _ => pc end.

Definition abs_thread (th : Thread) : Thread := th <| th_pc ::= abs_pc |>.

Definition abs_sys (s : Sys SqlDb) : Sys Register :=
  mkSys (abs_db (sys_db s)) (sys_deleted s) (abs_thread <$> sys_threads s).

(** ** Lemmas *)

Lemma check_schema_supported st : supported st <-> check_schema st = Ok tt.
Proof.
  unfold supported, check_schema. destruct (SCHEMA_VERSION <? schema_version st)%N eqn:E.
  - apply N.ltb_lt in E. split; [lia|discriminate].
  - by apply N.ltb_ge in E.
Qed.

Lemma decode_supported d : supported_data d -> decode_shard d = Ok (StateShard_new d).
Proof.
  destruct d; cbn; try done. intros Hw. destruct (_ <? _)%N eqn:E; [|done]. apply N.ltb_lt in E. lia.
Qed.

Lemma supported_shard kind st : supported st -> supported_data (ss_data (shard kind st)).
Proof. by destruct kind. Qed.

Lemma supported_with_shard sh st :
  supported st -> supported_data (ss_data sh) -> supported (with_shard sh st).
Proof. destruct sh as [k []]; cbn; done. Qed.

Lemma shard_new kind st : StateShard_new (ss_data (shard kind st)) = shard kind st.
Proof. by destruct kind. Qed.

Lemma read_shard_doc kind st : read_column kind (shard_doc st) = Some (ss_data (shard kind st)).
Proof. by destruct kind. Qed.

Lemma read_null kind : read_column kind null_columns = None.
Proof. by destruct kind. Qed.

Lemma abs_load db : rs_load (abs_db db) = load_versioned db.
Proof. by destruct db as [[row|] b]. Qed.

(** A readable row loads. *)
Lemma coherent_load db : coherent_db db -> exists rev st, load_versioned db = Ok (rev, st) /\ supported st.
Proof.
  unfold coherent_db, load_versioned. destruct (db_row db) as [row|].
  - intros [Hs _]. rewrite (proj1 (check_schema_supported _)) by done. eauto.
  - intros _. exists 0%Z, ProjectState_default. split; [done|]. by vm_compute.
Qed.

Lemma coherent_dual rev st b : supported st -> coherent_db (mkSqlDb (Some (dual_row rev st)) b).
Proof. intros Hs. split; [done|by left]. Qed.

Lemma abs_save expected st db :
  rs_save expected st (abs_db db) = (abs_db (guarded_save expected st db).1, (guarded_save expected st db).2).
Proof.
  destruct db as [[row|] []]; cbn; unfold reg_save, guarded_save; cbn; try done. by case_decide.
Qed.

Lemma abs_claim b id worker now db :
  rs_claim b id worker now (abs_db db) =
    (abs_db (sql_claim_ticket b id worker now db).1, (sql_claim_ticket b id worker now db).2).
Proof.
  cbn. unfold reg_claim, sql_claim_ticket. destruct b; [done|]. cbn. destruct db as [[row|] tomb]; cbn; [|done].
  change (List.find (is_ticket id) (tickets (row_data row))) with (ticket id (row_data row)).
  destruct (ticket id (row_data row)) as [t|]; cbn; [|done].
  destruct (t_claimed_by t) eqn:E; cbn; [done|]. by destruct (claim _ _ _ t).
Qed.

Lemma coherent_save expected st db :
  supported st -> coherent_db db -> coherent_db (guarded_save expected st db).1.
Proof.
  intros Hs Hc. unfold guarded_save. destruct (db_tombstone db); [done|].
  destruct (db_row db) as [row|] eqn:E; [case_decide; [|done]|]; by apply coherent_dual.
Qed.

Lemma coherent_claim b id worker now db :
  coherent_db db -> coherent_db (sql_claim_ticket b id worker now db).1.
Proof.
  intros Hc. unfold sql_claim_ticket. destruct b; [done|]. destruct (db_row db) as [row|] eqn:E; [|done].
  destruct (ticket _ _); [|done]. case_bool_decide; [done|]. destruct (claim _ _ _ _); [|done].
  apply coherent_dual. unfold coherent_db in Hc. rewrite E in Hc. by destruct Hc.
Qed.

(** *** One step *)

Section Refinement.
Context (project_id : string) (gate : ProjectState -> result PortError ProjectState).
Context (Hgate : forall st st', supported st -> gate st = Ok st' -> supported st').

#[local] Abbreviation step := (thread_step project_id gate) (only parsing).

Lemma abs_shard_mutated f tries read :
  abs_pc (shard_mutated f tries read) = shard_mutated f tries read.
Proof. unfold shard_mutated. by destruct (result_bind _ _). Qed.

Lemma abs_persist db b tries st expected :
  abs_pc (persist project_id gate db b tries st expected)
  = persist project_id gate (abs_db db) b tries st expected.
Proof.
  unfold persist. rewrite abs_load. cbn [rs_load SqlRowStore]. destruct b; [done|].
  destruct (gate st); [|done]. destruct expected; [done|]. by destruct (load_versioned db) as [[]|].
Qed.

Lemma supported_shard_mutated f tries read :
  (forall d d', supported_data d -> f d = Ok d' -> supported_data d') ->
  (forall sh, read = Ok sh -> supported_data (ss_data sh)) ->
  supported_pc (shard_mutated f tries read).
Proof.
  intros Hf Hr. unfold shard_mutated. destruct read as [sh|]; [|done]. cbn [result_bind].
  destruct (f (ss_data sh)) as [d|] eqn:E; [|done]. cbn. eapply Hf; [|exact E]. by apply Hr.
Qed.

Lemma supported_persist db b tries st expected :
  supported st -> supported_pc (persist (D:=SqlDb) project_id gate db b tries st expected).
Proof.
  intros Hs. unfold persist. destruct b; [done|]. destruct (gate st) eqn:E; [|done].
  destruct expected; [by eapply Hgate|]. destruct (rs_load db) as [[]|]; [by eapply Hgate|done].
Qed.

(** The register's shard read is the projection of the document it loads. *)
Lemma register_read kind db n f :
  coherent_db db ->
  exists rev st, load_versioned db = Ok (rev, st) /\ supported st /\
    match rs_column kind (abs_db db) with
    | NoRow => shard_mutated f n (Ok (default_shard kind))
    | NullColumn => LoadingEnvelope n
    | Column d => shard_mutated f n (decode_shard d)
    end = shard_mutated f n (Ok (shard kind st)).
Proof.
  intros Hc. apply coherent_load in Hc as (rev & st & Hl & Hs). exists rev, st. split_and!; [done..|].
  cbn. unfold reg_column, load_versioned in *. destruct db as [[row|] b]; cbn in *.
  - destruct (check_schema (row_data row)); [|done]. simplify_eq/=.
    by rewrite decode_supported, shard_new by by apply supported_shard.
  - simplify_eq. by rewrite shard_default.
Qed.

(** The SQL column read agrees with the register's, or finds the column missing. *)
Lemma column_read kind db :
  coherent_db db -> rs_column kind db = NullColumn \/ rs_column kind db = rs_column kind (abs_db db).
Proof.
  intros Hc. cbn. unfold coherent_db, select_column, reg_column in *.
  destruct db as [[row|] b]; cbn in *; [|by right]. destruct Hc as [_ [-> | ->]].
  - right. by rewrite read_shard_doc.
  - left. by rewrite read_null.
Qed.

(** A step of the store is the same step of the register, or none at all. *)
Definition refines_step (db : SqlDb) (deleted : gset nat) (th : Thread) : Prop :=
  let '(db', deleted', pc') := step db deleted th in
  coherent_db db' /\ supported_pc pc' /\
  (step (abs_db db) deleted (abs_thread th) = (abs_db db', deleted', abs_pc pc') \/
   (db' = db /\ deleted' = deleted /\ abs_pc pc' = abs_pc (th_pc th))).

Lemma refines_mutate_shard db deleted k kind f n :
  coherent_db db -> (forall d d', supported_data d -> f d = Ok d' -> supported_data d') ->
  refines_step db deleted (mkThread k (JMutateShard kind f) (LoadingShard n)) /\
  refines_step db deleted (mkThread k (JMutateShard kind f) (LoadingEnvelope n)).
Proof.
  intros Hc Hf. destruct (register_read kind db n f Hc) as (rev & st & Hl & Hs & Hr).
  assert (Hsup : supported_pc (shard_mutated f n (Ok (shard kind st)))).
  { apply supported_shard_mutated; [done|]. intros sh [= <-]. by apply supported_shard. }
  split; unfold refines_step, abs_thread; cbn [thread_step th_pc th_job th_store abs_pc].
  - destruct (column_read kind db Hc) as [E|E]; rewrite E.
    + split_and!; try done. by right.
    + rewrite Hr. split_and!; try done. left. change (th_pc _) with (LoadingShard n). cbn. 
      rewrite abs_shard_mutated. by rewrite <- Hr.
  - cbn [rs_load SqlRowStore]. rewrite Hl. cbn [result_bind snd]. split_and!; try done. left. cbn.
    rewrite abs_shard_mutated. by rewrite <- Hr.
Qed.

Lemma step_refines db deleted th : coherent_db db -> coherent_thread th -> refines_step db deleted th.
Proof.
  intros Hc [Hj Hp]. destruct th as [k job pc]. cbn [th_job th_pc] in *.
  pose proof (coherent_load db Hc) as (rev & st0 & Hl & Hs0).
  destruct pc as [|n|n|n|n sh e|n st e|n st e|n|r]; cbn [supported_pc] in Hp.
  - unfold refines_step. destruct job as [f|kind f|st e|sh e|id w now| |]; cbn; try (split_and!; by try left).
    pose proof (abs_claim (bool_decide (k ∈ deleted)) id w now db) as Ha. cbn in Ha. rewrite Ha.
    pose proof (coherent_claim (bool_decide (k ∈ deleted)) id w now db Hc) as Hcl.
    destruct (sql_claim_ticket _ _ _ _ _) as [db' won]. split_and!; try done. by left.
  - unfold refines_step. destruct job as [f|kind f|st e|sh e|id w now| |]; cbn; try (split_and!; by try right).
    pose proof (abs_load db) as Ha. cbn in Ha. rewrite Ha, Hl. cbn. 
    destruct (f st0) as [st|] eqn:Ef; (split_and!; [done| |by left]); [by eapply Hj|done].
  - destruct job as [f|kind f|st e|sh e|id w now| |];
      try by (unfold refines_step; cbn; split_and!; try done; right).
    by apply refines_mutate_shard.
  - destruct job as [f|kind f|st e|sh e|id w now| |];
      try by (unfold refines_step; cbn; split_and!; try done; right).
    by apply refines_mutate_shard.
  - unfold refines_step. pose proof (abs_load db) as Ha. cbn in Ha. destruct job; cbn; rewrite Ha, Hl; 
      (split_and!; [done|by apply supported_with_shard|by left]).
  - unfold refines_step. destruct job; cbn; (split_and!; [done|by apply supported_persist|left; by rewrite abs_persist]).
  - unfold refines_step. pose proof (abs_save e st db) as Ha. cbn in Ha.
    pose proof (coherent_save e st db Hp Hc) as Hcs.
    destruct job; cbn; rewrite Ha; destruct (guarded_save e st db) as [db' []]; (split_and!; [done|done|by left]).
  - unfold refines_step. destruct job; cbn; destruct (db_tombstone db), n; (split_and!; [done|done|by left]).
  - unfold refines_step. destruct job; cbn; (split_and!; [done|done|by right]).
Qed.

(** *** Runs *)

Lemma abs_insert (ths : list Thread) i th pc :
  abs_thread <$> <[i := th <| th_pc := pc |>]> ths =
  <[i := (abs_thread th) <| th_pc := abs_pc pc |>]> (abs_thread <$> ths).
Proof.
  rewrite list_fmap_insert. by destruct th.
Qed.

Lemma sys_refines s i :
  coherent s ->
  let s' := sys_step project_id gate s i in
  coherent s' /\
  (sys_step project_id gate (abs_sys s) i = abs_sys s' \/ abs_sys s' = abs_sys s).
Proof.
  intros [Hc Hall]. unfold sys_step. cbn [abs_sys sys_threads sys_db sys_deleted].
  rewrite list_lookup_fmap. destruct (sys_threads s !! i) as [th|] eqn:Ei; cbn [fmap option_fmap option_map].
  2: { split; [by split|by left]. }
  pose proof (Forall_lookup_1 _ _ _ _ Hall Ei) as Hth. pose proof (step_refines (sys_db s) (sys_deleted s) th Hc Hth) as Hr.
  unfold refines_step in Hr. destruct (thread_step _ _ _ _ th) as [[db' d'] pc'].
  destruct Hr as (Hc' & Hp' & Hr). split.
  - split; [done|]. apply Forall_insert; [done|]. by split; [apply Hth|].
  - destruct Hr as [-> |(-> & -> & Hpc)].
    + left. unfold abs_sys. cbn [sys_db sys_deleted sys_threads]. by rewrite (abs_insert _ _ th).
    + right. unfold abs_sys. cbn [sys_db sys_deleted sys_threads]. rewrite (abs_insert _ _ th). f_equal. rewrite Hpc.
      apply list_insert_id. rewrite list_lookup_fmap, Ei. by destruct th.
Qed.

End Refinement.

(** [StateStorePort::load_shard] of the SQL adapter, both statements at once. *)
Definition load_shard (kind : ShardKind) (db : SqlDb) : result PortError StateShard :=
  match select_column kind db with
  | NoRow => Ok (default_shard kind)
  | Column d => decode_shard d
  | NullColumn => let? loaded := load_versioned db in Ok (shard kind loaded.2)
  end.

Lemma load_shard_coherent kind db :
  coherent_db db -> load_shard kind db = let? loaded := load_versioned db in Ok (shard kind loaded.2).
Proof.
  intros Hc. pose proof (coherent_load db Hc) as (rev & st & Hl & Hs). rewrite Hl. cbn [result_bind snd].
  unfold load_shard. rewrite Hl. unfold coherent_db, select_column, load_versioned in *.
  destruct (db_row db) as [row|]; [|simplify_eq; by rewrite shard_default].
  destruct (check_schema (row_data row)); [|done]. simplify_eq/=. destruct Hc as [_ [-> | ->]].
  - by rewrite read_shard_doc, decode_supported, shard_new by by apply supported_shard.
  - by rewrite read_null.
Qed.

(** The healing gate keeps whatever dropping dangling references keeps. *)
Lemma gate_of_keeps {A} (f : ProjectState -> A) show_f64 to_json now st st' :
  (forall st, f (drop_all_dangling st).1 = f st) ->
  gate_of show_f64 to_json now st = Ok st' -> f st' = f st.
Proof.
  intros Hf. unfold gate_of, gate_save. destruct (validate _); [|done].
  destruct (check _ st); [by intros [= <-]|].
  assert (Hh : f (heal_dangling_references show_f64 st).1 = f st).
  { unfold heal_dangling_references. case_decide; [done|]. destruct (existsb _ _); [done|].
    destruct (drop_all_dangling st) as [st1 n] eqn:E.
    assert (f st1 = f st) as <-.
    { change st1 with (st1, n).1. rewrite <- E. apply Hf. }
    by destruct (audit_structural_integrity _ st1). }
  destruct (heal_dangling_references _ st) as [st1 [n|]]; cbn in Hh; [|done].
  case_decide; [|done]. by intros [= <-].
Qed.

Lemma gate_of_schema show_f64 to_json now st st' :
  gate_of show_f64 to_json now st = Ok st' -> schema_version st' = schema_version st.
Proof. by apply gate_of_keeps. Qed.

Lemma gate_of_tickets show_f64 to_json now st st' :
  gate_of show_f64 to_json now st = Ok st' -> tickets st' = tickets st.
Proof. by apply gate_of_keeps. Qed.

(** ** Properties *)

(** C5: The shard columns are an implementation detail. Take any clients of
    this build (documents of a schema it can read) on a row that is absent,
    written by this adapter, or left by a writer older than the columns. Every
    interleaving of their statements on the Postgres row is, step for step and
    dropping only the extra envelope reads, an interleaving of the same
    clients on one atomic register holding the revision and the aggregate, in
    which a shard read is the projection of the aggregate: same revisions,
    same documents, same answers. And at every moment each of the five native
    shard reads serves exactly what the port's default method, projecting a
    full load, would serve. *)
Theorem sql_store_refines_register project_id gate schedule (s : Sys SqlDb) :
  (forall st st', supported st -> gate st = Ok st' -> supported st') -> coherent s ->
  let s' := run_sys project_id gate schedule s in
  (exists schedule', schedule' `sublist_of` schedule /\
     run_sys project_id gate schedule' (abs_sys s) = abs_sys s') /\
  forall kind, load_shard kind (sys_db s') = let? loaded := load_versioned (sys_db s') in Ok (shard kind loaded.2).
Proof.
  intros Hgate. revert s. induction schedule as [|i schedule IH]; intros s Hc.
  - split; [by exists []|]. intros kind. by apply load_shard_coherent, Hc.
  - cbn [run_sys fold_left]. pose proof (sys_refines project_id gate Hgate s i Hc) as [Hc' Hstep].
    destruct (IH _ Hc') as [(sch & Hsub & Hrun) Hload]. split; [|exact Hload].
    destruct Hstep as [Hs|Hs].
    + exists (i :: sch). split; [by constructor|]. cbn [run_sys fold_left]. by rewrite Hs.
    + exists sch. split; [by constructor|]. by rewrite <- Hs.
Qed.

(** A shard read can serve what the full read fails closed on: only the Work
    column carries the schema version, so a row from a newer schema is refused
    by the load and by the Work read, and served by the other four. *)
Theorem newer_schema_served kind :
  let db := mkSqlDb (Some (dual_row 1 (ProjectState_default <| schema_version := 2%N |>))) false in
  is_ok (load_versioned db) = false /\ is_ok (load_shard kind db) = negb (bool_decide (kind = KWork)).
Proof. by destruct kind; vm_compute. Qed.


(** [mutate_shard] has the hole of [mutate_state]: its save takes the revision
    at merge time, so the retry never sees the writer that came in between. Two
    notes on the same shard are both reported saved and one of them is gone. *)
Definition add_note (text : string) (d : ShardData) : result PortError ShardData :=
  match d with
  | DGovernance g => Ok (DGovernance (mkGovernanceShard (gv_goals g) (gv_outcome_ledger g) (gv_human_holds g)
      (gv_lessons g) (gv_lesson_records g) (gv_dismissed_matches g) (gv_lesson_sweep_day g)
      (gv_decisions g ++ [text]) (gv_refactor_mode g) (gv_approval_samples g) (gv_auto_approved_at g)
      (gv_ask_again_shapes g) (gv_governance_interventions g) (gv_drift_alerts g) (gv_member_services g)))
  | _ => Ok d
  end.

Definition note_decision : ShardData -> result PortError ShardData := add_note "ship it".

Definition two_notes : Sys SqlDb :=
  mkSys (mkSqlDb (Some (dual_row 7 one_ready)) false) ∅
    [mkThread 0 (JMutateShard KGovernance (add_note "first")) Start;
     mkThread 1 (JMutateShard KGovernance (add_note "second")) Start].

Theorem stale_shard_mutation_lost :
  let s := run_sys "p" plain_gate [0; 0; 1; 1; 1; 1; 1; 0; 0; 0] two_notes in
  (th_pc <$> sys_threads s) = [Finished (Ok true); Finished (Ok true)] /\
  (row_revision <$> db_row (sys_db s)) = Some 9%Z /\
  (decisions ∘ row_data <$> db_row (sys_db s)) = Some ["first"].
Proof. vm_compute. split_and!; reflexivity. Qed.

(** ** Witness: a mutation of one shard on a legacy row, a claim in between *)

Definition legacy_sys : Sys SqlDb :=
  mkSys (mkSqlDb (Some (mkSqlRow 7 one_ready null_columns)) false) ∅
    [mkThread 0 (JMutateShard KGovernance note_decision) Start; mkThread 1 (JClaim "F1" "ann@a" "t1") Start].

Definition legacy_schedule : list nat := [0; 0; 0; 1; 0; 0; 0].

Lemma plain_gate_supported st st' : supported st -> plain_gate st = Ok st' -> supported st'.
Proof. intros Hs E. unfold supported. by rewrite (gate_of_schema _ _ _ _ _ E). Qed.

Lemma legacy_coherent : coherent legacy_sys.
Proof.
  split; [split; [by vm_compute|by right]|]. repeat constructor; cbn; try done.
  intros d d' Hd. destruct d; cbn; by intros [= <-].
Qed.

Lemma sql_store_refines_register_witness :
  let s' := run_sys "p" plain_gate legacy_schedule legacy_sys in
  (exists schedule', schedule' `sublist_of` legacy_schedule /\
     run_sys "p" plain_gate schedule' (abs_sys legacy_sys) = abs_sys s') /\
  load_shard KGovernance (sys_db s') = (let? loaded := load_versioned (sys_db s') in Ok (shard KGovernance loaded.2)) /\
  (row_revision <$> db_row (sys_db s')) = Some 9%Z /\
  (decisions ∘ row_data <$> db_row (sys_db s')) = Some ["ship it"] /\ race_holder s' = Some "ann@a".
Proof.
  destruct (sql_store_refines_register "p" plain_gate legacy_schedule legacy_sys
    plain_gate_supported legacy_coherent) as [H1 H2].
  split; [exact H1|]. split; [exact (H2 KGovernance)|]. split_and!; vm_compute; reflexivity.
Defined.
