(* ===== verification/MergeLock.v ===== *)
(** * The per-branch merge lease

    [KvMergeLock] of the infrastructure crate ([kv_merge_lock.rs]), the lease's data
    ([ports/outbound/merge_lock.rs]) and the gate's decision
    ([use_cases/merge_gate.rs]), over any [KvDoc]. A client's step is one port call
    and the code up to the next, so any interleaving of clients is a schedule. *)
From S2P Require Import Prelude RustStr Ports.

(** ** Keys *)

Definition KEY_PREFIX : string := "merge-lock/".

(** The character loop; [%] and [:] are single bytes. *)
Fixpoint encode_branch (branch : string) : string :=
  match branch with
  | EmptyString => ""
  | String c s =>
      (if Ascii.eqb c "%" then "%25" else if Ascii.eqb c ":" then "%3A" else String c "")
      +:+ encode_branch s
  end.

Definition merge_lock_key (branch : string) : string := KEY_PREFIX +:+ encode_branch branch.

(** Two branches never share a lease: the key encoding is injective. *)
Theorem merge_lock_key_inj a b : merge_lock_key a = merge_lock_key b <-> a = b.
Proof.
  split; [|by intros ->]. intros H.
  assert (encode_branch a = encode_branch b) as H' by (by injection H). clear H.
  revert b H'. induction a as [|x a IH]; intros [|y b] H; cbn in H; try done.
  all: repeat match goal with
       | H : context [Ascii.eqb ?u ?v] |- _ =>
           let E := fresh in destruct (Ascii.eqb_spec u v) as [E|E]; [try rewrite E in *|]
       end; cbn in H; simplify_eq/=; try done.
  all: f_equal; by apply IH.
Qed.

(** ** Leases *)

(** [LeaseDoc], with the same fields as [MergeLockHolder]. *)
Record LeaseDoc := mkLease {
  holder : string;
  why : string;
  acquired_at_unix : Z;
  expires_at_unix : Z;
}.

#[export] Instance LeaseDoc_eq_dec : EqDecision LeaseDoc.
Proof. solve_decision. Defined.

(** [MergeLockHolder::expired_at] *)
Definition expired_at (now : Z) (l : LeaseDoc) : bool := bool_decide (expires_at_unix l < now)%Z.

(** [now.saturating_add_unsigned(ttl_secs.max(1))] *)
Definition expiry (now : Z) (ttl_secs : N) : Z := Z.min (now + Z.of_N (N.max ttl_secs 1)) i64_max.

Inductive MergeDecision :=
| Proceed
| Skip (blocked_by blocked_why : string).

Definition dec_z (z : Z) : string := pretty z.

(** [merge_gate::decide] *)
Definition decide_merge (held : option LeaseDoc) (now : Z) (self_holder : string) : MergeDecision :=
  match held with
  | None => Proceed
  | Some h =>
      if bool_decide (holder h = self_holder) || expired_at now h then Proceed
      else Skip (holder h)
        ("merge lease on this branch held by " +:+ holder h +:+ " since " +:+ dec_z (acquired_at_unix h) +:+
         " (expires at " +:+ dec_z (expires_at_unix h) +:+ "); " +:+
         dec_z (Z.max (i64_wrap (expires_at_unix h - now)) 0) +:+ "s remain")
  end.

Definition MIN_LEASE_SECS : N := 5.
Definition MAX_LEASE_SECS : N := 900.
Definition clamp_lease_ttl (secs : N) : N := N.min (N.max secs MIN_LEASE_SECS) MAX_LEASE_SECS.

(** ** Clients of one lease *)

(** A call in flight. [now] is the caller's own clock, read when the call starts. *)
Inductive LockCall :=
| TryAcquire (who why : string) (ttl_secs : N) (now : Z)
| Release (who : string).

Inductive LockPc :=
| LStart
| LVersioned (revision : option Z)
| LWriting (revision : option Z) (doc : LeaseDoc)
| LDone (r : result PortError bool).

Record LockClient := mkClient { lc_call : LockCall; lc_pc : LockPc }.

(** The already expired document a release writes. *)
Definition tombstone : LeaseDoc := mkLease "" "" 0 0.

(** [try_acquire]'s [takeover_allowed] *)
Definition takeover_allowed (who : string) (now : Z) (incumbent : option LeaseDoc) : bool :=
  match incumbent with
  | None => true
  | Some lease => bool_decide (holder lease = who) || expired_at now lease
  end.

Definition lease_for (who why : string) (ttl_secs : N) (now : Z) : LeaseDoc :=
  mkLease who why now (expiry now ttl_secs).

Section Lock.
Context {K : Type} `{KV : KvDoc K}.
(** [serde_json] on lease documents. *)
Context (to_string : LeaseDoc -> string) (from_str : string -> option LeaseDoc).
Context (key : string).

Definition read_lease (s : K) : option LeaseDoc := kv_load key s ≫= from_str.

Definition write_lease (doc : LeaseDoc) (expected_revision : option Z) (s : K)
    : K * result PortError unit :=
  match expected_revision with
  | Some rev => kv_save_expecting key (to_string doc) (Some rev) s
  | None => kv_save key (to_string doc) s
  end.

(** [delete_doc]: the revision it is given is not used. *)
Definition delete_doc (_revision : option Z) (s : K) : K * result PortError unit :=
  write_lease tombstone None s.

(** The end of both calls: a conflict means another writer was first. *)
Definition settle (r : result PortError unit) : LockPc :=
  match r with
  | Ok _ => LDone (Ok true)
  | Err (Conflict _) => LDone (Ok false)
  | Err e => LDone (Err e)
  end.

Definition client_step (s : K) (c : LockClient) : K * LockPc :=
  match lc_pc c, lc_call c with
  | LStart, _ => (s, LVersioned (kv_current_version key s))
  | LVersioned rev, TryAcquire who why ttl now =>
      (s, if takeover_allowed who now (read_lease s)
          then LWriting rev (lease_for who why ttl now) else LDone (Ok false))
  | LVersioned rev, Release who =>
      (s, match read_lease s with
          | None => LDone (Ok false)
          | Some lease => if decide (holder lease <> who) then LDone (Ok false) else LWriting rev tombstone
          end)
  | LWriting rev doc, TryAcquire _ _ _ _ => let '(s, r) := write_lease doc rev s in (s, settle r)
  | LWriting rev doc, Release _ => let '(s, r) := delete_doc rev s in (s, settle r)
  | LDone _, _ => (s, lc_pc c)
  end.

Record LockSys := mkLockSys { ls_kv : K; ls_clients : list LockClient }.

Definition lock_step (s : LockSys) (i : nat) : LockSys :=
  match ls_clients s !! i with
  | None => s
  | Some c =>
      let '(kv, pc) := client_step (ls_kv s) c in
      mkLockSys kv (<[i := c <| lc_pc := pc |>]> (ls_clients s))
  end.

Definition run_lock (schedule : list nat) (s : LockSys) : LockSys := fold_left lock_step schedule s.

(** [merge_gate::decide] lets a worker proceed exactly when an acquire would take the lease. *)
Lemma decide_takeover held now who :
  decide_merge held now who = Proceed <-> takeover_allowed who now held = true.
Proof. destruct held as [h|]; cbn; [|done]. by destruct (_ || _). Qed.

(** ** A revision-tracking backend *)

Context `{!KvTracked K}.
Hypothesis from_to : forall d, from_str (to_string d) = Some d.

(** A revision captured earlier is not ahead, and one that is behind means a write. *)
Definition seen (r : Z) (s : K) : Prop :=
  (r <= kv_revision key s)%Z /\ ((r < kv_revision key s)%Z -> is_Some (kv_load key s)).

(** What a client knows from its earlier reads. *)
Definition client_ok (s : K) (c : LockClient) : Prop :=
  match lc_pc c with
  | LStart | LDone _ => True
  | LVersioned rev => exists r, rev = Some r /\ seen r s
  | LWriting rev doc => exists r, rev = Some r /\ seen r s /\
      match lc_call c with
      | TryAcquire who why ttl now => doc = lease_for who why ttl now /\
          (r = kv_revision key s -> takeover_allowed who now (read_lease s) = true)
      | Release _ => True
      end
  end.

Lemma seen_current s : seen (kv_revision key s) s.
Proof. split; lia. Qed.

(** A write that lands, or changes nothing. *)
Definition written (doc : LeaseDoc) (s s' : K) : Prop :=
  kv_load key s' = Some (to_string doc) /\ kv_revision key s' = (kv_revision key s + 1)%Z.

Lemma write_cases doc rev s s' r :
  (forall r, rev = Some r -> seen r s) -> write_lease doc rev s = (s', r) ->
  (r = Ok tt /\ written doc s s' /\ forall n, rev = Some n -> n = kv_revision key s) \/
  (s' = s /\ exists why, r = Err (Conflict why)).
Proof.
  intros Hseen E. unfold write_lease in E. destruct rev as [n|].
  - destruct (Hseen n eq_refl) as [Hle Hsome].
    destruct (decide (n = kv_revision key s)) as [->|Hne].
    + destruct (kv_save_current key (to_string doc) s) as (s1 & E1 & ? & ?). rewrite E1 in E.
      simplify_eq. left. split_and!; try done. congruence.
    + destruct (kv_save_stale key (to_string doc) n s) as [why E1]; [lia|apply Hsome; lia|].
      rewrite E1 in E. simplify_eq. right. split; [done|by eexists].
  - destruct (kv_save_blind key (to_string doc) s) as (s1 & E1 & ? & ?). rewrite E1 in E.
    simplify_eq. left. by split_and!.
Qed.

Lemma written_ok doc s s' c : written doc s s' -> client_ok s c -> client_ok s' c.
Proof.
  intros [Hl Hr] Hc. unfold client_ok in *.
  assert (Hs : forall r, seen r s -> seen r s' /\ r <> kv_revision key s').
  { intros r [Hle _]. split; [|lia]. split; [lia|]. intros _. by rewrite Hl. }
  destruct (lc_pc c) as [|rev|rev d|]; try done.
  - destruct Hc as (r & -> & Hc). exists r. by split; [|apply Hs].
  - destruct Hc as (r & -> & Hc & Hcall). exists r. destruct (Hs r Hc) as [Hs1 Hs2].
    split_and!; try done. destruct (lc_call c); [|done]. by destruct Hcall.
Qed.

Lemma read_written doc s s' : written doc s s' -> read_lease s' = Some doc.
Proof. intros [Hl _]. unfold read_lease. rewrite Hl. apply from_to. Qed.

Lemma settle_done r : exists r', settle r = LDone r'.
Proof. destruct r as [[]|[]]; by eexists. Qed.

Lemma client_step_ok s c s' pc :
  client_ok s c -> client_step s c = (s', pc) ->
  client_ok s' (mkClient (lc_call c) pc) /\ (s' = s \/ exists doc, written doc s s').
Proof.
  destruct c as [call pc0]. unfold client_step, client_ok. cbn [lc_pc lc_call]. intros Hc E.
  destruct pc0 as [|rev|rev d|r].
  - assert (E' : (s, LVersioned (kv_current_version key s)) = (s', pc)) by (by destruct call).
    simplify_eq. split; [|by left]. exists (kv_revision key s').
    split; [apply kv_version_spec|apply seen_current].
  - destruct Hc as (r & -> & Hs). destruct call as [who wy ttl now|who]; simplify_eq; (split; [|by left]).
    + destruct (takeover_allowed _ _ _) eqn:Et; [|done]. exists r. by split_and!.
    + destruct (read_lease s') as [l|]; [|done]. case_decide; [done|]. exists r. by split_and!.
  - destruct Hc as (r & -> & Hs & Hd). destruct call as [who wy ttl now|who]; unfold delete_doc in E.
    + destruct (write_lease d (Some r) s) as [s1 w] eqn:Ew. simplify_eq.
      destruct (settle_done w) as [r' ->]. split; [done|].
      apply write_cases in Ew as [(_ & Hw & _)|(-> & _)]; [right; by eexists|by left|by intros ? [= <-]].
    + destruct (write_lease tombstone None s) as [s1 w] eqn:Ew. simplify_eq.
      destruct (settle_done w) as [r' ->]. split; [done|].
      apply write_cases in Ew as [(_ & Hw & _)|(-> & _)]; [right; by eexists|by left|done].
  - assert (E' : (s, LDone r) = (s', pc)) by (by destruct call). simplify_eq. split; [done|by left].
Qed.

Definition sys_ok (s : LockSys) : Prop := Forall (client_ok (ls_kv s)) (ls_clients s).

Lemma lock_step_ok s i : sys_ok s -> sys_ok (lock_step s i).
Proof.
  unfold sys_ok, lock_step. intros H. destruct (ls_clients s !! i) as [c|] eqn:Ei; [|done].
  destruct (client_step (ls_kv s) c) as [kv pc] eqn:E. cbn [ls_kv ls_clients].
  destruct (client_step_ok _ _ _ _ (Forall_lookup_1 _ _ _ _ H Ei) E) as [Hc Hkv].
  apply Forall_insert; [|done]. destruct Hkv as [->|[doc Hw]]; [done|].
  eapply Forall_impl; [exact H|]. intros c'. by apply (written_ok doc).
Qed.

Lemma run_lock_ok schedule s : sys_ok s -> sys_ok (run_lock schedule s).
Proof. unfold run_lock. apply fold_left_invariant. intros. by apply lock_step_ok. Qed.

Lemma fresh_ok kv clients : Forall (fun c => lc_pc c = LStart) clients -> sys_ok (mkLockSys kv clients).
Proof.
  intros Hf. eapply Forall_impl; [exact Hf|]. intros c Hc. unfold client_ok. by rewrite Hc.
Qed.

(** an acquire never steals a live lease. In any interleaving of acquires and releases, by clients with any clocks, the very step that grants a client the lease finds the key free, its own, or expired by that client's clock, and leaves exactly that client's lease, for the time it asked, in the store. *)
Theorem acquire_never_steals schedule kv clients i who wy ttl now pc :
  Forall (fun c => lc_pc c = LStart) clients ->
  let s := run_lock schedule (mkLockSys kv clients) in
  ls_clients s !! i = Some (mkClient (TryAcquire who wy ttl now) pc) ->
  pc <> LDone (Ok true) ->
  ls_clients (lock_step s i) !! i = Some (mkClient (TryAcquire who wy ttl now) (LDone (Ok true))) ->
  takeover_allowed who now (read_lease (ls_kv s)) = true /\
  read_lease (ls_kv (lock_step s i)) = Some (lease_for who wy ttl now).
Proof.
  intros Hf s Hi Hne Hi'. assert (Hok : sys_ok s) by (apply run_lock_ok, fresh_ok; done).
  pose proof (Forall_lookup_1 _ _ _ _ Hok Hi) as Hc. clearbody s.
  unfold lock_step in *. rewrite Hi in *. unfold client_step in *. cbn [lc_pc lc_call] in *.
  assert (Hl := lookup_lt_Some _ _ _ Hi).
  assert (Hpc : forall kv' pc', ls_clients (mkLockSys kv' (<[i := mkClient (TryAcquire who wy ttl now) pc']>
      (ls_clients s))) !! i = Some (mkClient (TryAcquire who wy ttl now) (LDone (Ok true))) ->
    pc' = LDone (Ok true)).
  { intros kv' pc'. cbn [ls_clients]. rewrite list_lookup_insert_eq by done. congruence. }
  destruct pc as [|rev|rev d|r]; cbn in Hc.
  - by apply Hpc in Hi'.
  - apply Hpc in Hi'. by destruct (takeover_allowed _ _ _).
  - destruct Hc as (r & -> & Hs & -> & Ht). destruct (write_lease _ _ _) as [kv' w] eqn:Ew.
    apply Hpc in Hi'. cbn [ls_kv].
    apply write_cases in Ew as [(-> & Hw & Hr)|(_ & y & ->)]; [|done|by intros ? [= <-]].
    split; [by apply Ht, Hr|by apply read_written in Hw].
  - apply Hpc in Hi'. exfalso. apply Hne, Hi'.
Qed.

(** ** Contention *)

Definition call_who (c : LockCall) : string :=
  match c with TryAcquire who _ _ _ => who | Release who => who end.
Definition call_now (c : LockCall) : Z :=
  match c with TryAcquire _ _ _ now => now | Release _ => 0%Z end.
Definition call_lease (c : LockCall) : LeaseDoc :=
  match c with TryAcquire who wy ttl now => lease_for who wy ttl now | Release _ => tombstone end.
Definition is_acquire (c : LockCall) : bool := match c with TryAcquire _ _ _ _ => true | _ => false end.

(** Several workers after one free lease, each asking for longer than the clocks differ. *)
Record contended (kv : K) (calls : list LockCall) : Prop := {
  ct_some : calls <> [];
  ct_acquire : Forall (fun c => is_acquire c = true) calls;
  ct_holders : NoDup (call_who <$> calls);
  ct_free : Forall (fun c => takeover_allowed (call_who c) (call_now c) (read_lease kv) = true) calls;
  ct_live : forall c c', c ∈ calls -> c' ∈ calls -> (call_now c <= expires_at_unix (call_lease c'))%Z;
}.

(** Before the first write. *)
Definition undecided (kv : K) (s : LockSys) : Prop :=
  ls_kv s = kv /\ Forall (fun c =>
    lc_pc c = LStart \/ lc_pc c = LVersioned (Some (kv_revision key kv)) \/
    lc_pc c = LWriting (Some (kv_revision key kv)) (call_lease (lc_call c))) (ls_clients s).

Definition lost_or_stale (s : K) (c : LockClient) : Prop :=
  lc_pc c = LStart \/ (exists rev, lc_pc c = LVersioned rev) \/ lc_pc c = LDone (Ok false) \/
  exists r doc, lc_pc c = LWriting (Some r) doc /\ (r < kv_revision key s)%Z.

(** After it: client [w] holds the lease and no other can get it. *)
Definition won_by (w : nat) (s : LockSys) : Prop :=
  is_Some (kv_load key (ls_kv s)) /\
  (exists c, ls_clients s !! w = Some c /\ lc_pc c = LDone (Ok true) /\
     read_lease (ls_kv s) = Some (call_lease (lc_call c))) /\
  forall j c, j <> w -> ls_clients s !! j = Some c -> lost_or_stale (ls_kv s) c.

Lemma lock_step_calls s i : lc_call <$> ls_clients (lock_step s i) = lc_call <$> ls_clients s.
Proof.
  unfold lock_step. destruct (ls_clients s !! i) as [c|] eqn:E; [|done].
  destruct (client_step _ _) as [kv pc]. cbn. rewrite list_fmap_insert. cbn.
  apply list_insert_id. by rewrite list_lookup_fmap, E.
Qed.

Lemma undecided_step kv calls s i :
  contended kv calls -> lc_call <$> ls_clients s = calls -> undecided kv s ->
  undecided kv (lock_step s i) \/ won_by i (lock_step s i).
Proof.
  intros Hct Hcalls [Hkv Hall]. unfold lock_step.
  destruct (ls_clients s !! i) as [[call pc]|] eqn:Ei; [|by left].
  assert (Hin : call ∈ calls) by (rewrite <- Hcalls; apply (list_elem_of_fmap_2' lc_call _ (mkClient call pc));
    [by eapply list_elem_of_lookup_2|done]).
  pose proof (proj1 (Forall_forall _ _) (ct_acquire _ _ Hct) _ Hin) as Hacq.
  pose proof (proj1 (Forall_forall _ _) (ct_free _ _ Hct) _ Hin) as Hfree. cbn in Hacq, Hfree.
  destruct call as [who wy ttl now|who]; [|done]. cbn [call_who call_now] in Hfree.
  pose proof (Forall_lookup_1 _ _ _ _ Hall Ei) as Hpc. cbn [lc_pc lc_call] in Hpc.
  unfold client_step. cbn [lc_pc lc_call]. rewrite Hkv.
  destruct Hpc as [->|[->| ->]].
  - left. split; [done|]. cbn. apply Forall_insert; [done|].
    right. left. cbn. by rewrite kv_version_spec.
  - left. rewrite Hfree. split; [done|]. cbn. apply Forall_insert; [done|]. by right; right.
  - right. cbn [write_lease].
    destruct (kv_save_current key (to_string (lease_for who wy ttl now)) kv) as (kv' & E & Hl & Hr).
    cbn [call_lease]. rewrite E. split_and!; cbn [ls_kv ls_clients].
    + by rewrite Hl.
    + eexists. rewrite list_lookup_insert_eq by by eapply lookup_lt_Some. split_and!; [done|done|].
      cbn. unfold read_lease. rewrite Hl. cbn. apply from_to.
    + intros j c Hj. rewrite list_lookup_insert_ne by done. intros Hc.
      destruct (Forall_lookup_1 _ _ _ _ Hall Hc) as [Hp|[Hp|Hp]]; unfold lost_or_stale; [by left|right; left; by eexists|].
      right. right. right. eexists _, _. split; [exact Hp|]. lia.
Qed.

Lemma won_step kv calls s w i :
  contended kv calls -> lc_call <$> ls_clients s = calls -> won_by w s -> won_by w (lock_step s i).
Proof.
  intros Hct Hcalls (Hsome & (cw & Hw & Hwpc & Hlease) & Hothers). unfold lock_step.
  destruct (ls_clients s !! i) as [[call pc]|] eqn:Ei; [|by split_and!; eauto].
  assert (Hcall : forall j c, ls_clients s !! j = Some c -> lc_call c ∈ calls).
  { intros j c Hj. rewrite <- Hcalls. apply list_elem_of_fmap_2. by eapply list_elem_of_lookup_2. }
  assert (Hacq : is_acquire call = true)
    by exact (proj1 (Forall_forall _ _) (ct_acquire _ _ Hct) _ (Hcall _ _ Ei)).
  destruct call as [who wy ttl now|who]; [|done].
  enough (Hgo : exists pc', client_step (ls_kv s) (mkClient (TryAcquire who wy ttl now) pc) = (ls_kv s, pc') /\
    (i = w -> pc' = pc) /\ (i <> w -> lost_or_stale (ls_kv s) (mkClient (TryAcquire who wy ttl now) pc'))).
  { destruct Hgo as (pc' & -> & Heq & Hne). split_and!; cbn [ls_kv ls_clients]; [done| |].
    - exists cw. destruct (decide (i = w)) as [->|Hi]; [|by rewrite list_lookup_insert_ne].
      rewrite list_lookup_insert_eq by by eapply lookup_lt_Some. rewrite Heq by done.
      rewrite Hw in Ei. simplify_eq. by split_and!.
    - intros j c Hj. destruct (decide (i = j)) as [->|Hi].
      + rewrite list_lookup_insert_eq by by eapply lookup_lt_Some. intros [= <-]. by apply Hne.
      + rewrite list_lookup_insert_ne by done. by apply Hothers. }
  destruct (decide (i = w)) as [->|Hi].
  { rewrite Hw in Ei. simplify_eq. cbn in Hwpc. subst. by eexists. }
  unfold client_step. cbn [lc_pc lc_call].
  destruct (Hothers i _ Hi Ei) as [Hp|[[rev Hp]|[Hp|(r & doc & Hp & Hr)]]]; cbn in Hp; subst pc.
  - eexists. split_and!; [done|done|]. intros _. right. left. by eexists.
  - assert (takeover_allowed who now (read_lease (ls_kv s)) = false) as ->.
    { rewrite Hlease. cbn. apply orb_false_iff.
      pose proof (ct_live _ _ Hct _ _ (Hcall _ _ Ei) (Hcall _ _ Hw)) as Hlive. cbn in Hlive. split.
      - apply bool_decide_eq_false. intros Heq.
        apply Hi, (NoDup_lookup (call_who <$> calls) _ _ who (ct_holders _ _ Hct));
          rewrite <- Hcalls, !list_lookup_fmap, ?Ei, ?Hw; cbn; [done|]. f_equal. rewrite <- Heq.
        pose proof (proj1 (Forall_forall _ _) (ct_acquire _ _ Hct) _ (Hcall _ _ Hw)) as Hacw.
        by destruct (lc_call cw).
      - apply bool_decide_eq_false. lia. }
    eexists. split_and!; [done|done|]. intros _. right. right. by left.
  - eexists. split_and!; [done|done|]. intros _. right. right. by left.
  - cbn [write_lease]. destruct (kv_save_stale key (to_string doc) r (ls_kv s) Hr Hsome) as [y ->].
    eexists. split_and!; [done|done|]. intros _. right. right. by left.
Qed.

(** C11: of any number of workers after a free lease exactly one wins. When every worker's request outlives the clock differences, then for any interleaving in which all calls return, one of them got [true] and its lease is in the store, and all the others got [false]. *)
Theorem exactly_one_wins schedule kv calls :
  contended kv calls ->
  let s := run_lock schedule (mkLockSys kv ((fun c => mkClient c LStart) <$> calls)) in
  Forall (fun c => exists r, lc_pc c = LDone r) (ls_clients s) ->
  exists w c, ls_clients s !! w = Some c /\ lc_pc c = LDone (Ok true) /\
    read_lease (ls_kv s) = Some (call_lease (lc_call c)) /\
    forall j c', j <> w -> ls_clients s !! j = Some c' -> lc_pc c' = LDone (Ok false).
Proof.
  intros Hct s Hdone.
  assert (Hinv : lc_call <$> ls_clients s = calls /\ (undecided kv s \/ exists w, won_by w s)).
  { unfold s, run_lock. apply fold_left_invariant with (I := fun s =>
      lc_call <$> ls_clients s = calls /\ (undecided kv s \/ exists w, won_by w s)).
    - clear s Hdone. intros s i [Hc Hinv]. split; [by rewrite lock_step_calls|].
      destruct Hinv as [Hu|[w Hw]]; [|right; exists w; by eapply won_step].
      destruct (undecided_step kv calls s i Hct Hc Hu); [by left|right; by exists i].
    - split; [clear; cbn; by induction calls as [|c l IH]; cbn; [|rewrite IH]|]. left. split; [done|].
      apply Forall_fmap, Forall_true. intros c. by left. }
  destruct Hinv as [Hcalls [[_ Hu]|[w (_ & (c & Hc & Hpc & Hlease) & Ho)]]].
  - exfalso. destruct (ls_clients s) as [|c l]; [by apply (ct_some _ _ Hct)|].
    inversion Hu as [|? ? Hp _]; subst. inversion Hdone as [|? ? [r Hr] _]; subst.
    rewrite Hr in Hp. by destruct Hp as [?|[?|?]].
  - exists w, c. split_and!; try done. intros j c' Hj Hc'.
    destruct (Forall_lookup_1 _ _ _ _ Hdone Hc') as [r Hr].
    destruct (Ho j c' Hj Hc') as [Hp|[[? Hp]|[Hp|(? & ? & Hp & _)]]]; congruence.
Qed.
End Lock.

(** ** Concrete runs on [PgKvDoc] *)

#[export] Instance LeaseDoc_countable : Countable LeaseDoc.
Proof.
  refine (inj_countable' (fun l => (holder l, why l, acquired_at_unix l, expires_at_unix l))
    (fun '(h, w, a, e) => mkLease h w a e) _). by intros [].
Defined.

(** A text for every lease that can be read back. *)
Fixpoint bits (p : positive) : string :=
  match p with xH => "" | xO p => String "0" (bits p) | xI p => String "1" (bits p) end.
Fixpoint unbits (s : string) : positive :=
  match s with
  | EmptyString => xH
  | String c s => if Ascii.eqb c "0" then xO (unbits s) else xI (unbits s)
  end.
Definition lease_text (l : LeaseDoc) : string := bits (encode l).
Definition lease_parse (s : string) : option LeaseDoc := decode (unbits s).

Lemma lease_parse_text l : lease_parse (lease_text l) = Some l.
Proof.
  unfold lease_parse, lease_text. assert (forall p, unbits (bits p) = p) as ->; [|apply decode_encode].
  induction p as [p IH|p IH|]; cbn; by rewrite ?IH.
Qed.

(** Ann's lease has run out; she releases while Bob and Cal are after it. *)
Definition expired_kv : PgKv := {["k" := mkKvRow (lease_text (mkLease "ann@a" "sweep" 0 100)) 1]}.
Definition bob : LockCall := TryAcquire "bob@b" "sweep" 60 200.
Definition cal : LockCall := TryAcquire "cal@c" "sweep" 60 201.
Definition fresh (calls : list LockCall) : LockSys (K := PgKv) :=
  mkLockSys expired_kv ((fun c => mkClient c LStart) <$> calls).

(** A release can destroy another worker's live lease. The tombstone is written blind, not at the revision the release checked, so a holder whose lease ran out and was taken over between its check and its write still clears the key: here Bob and Cal are both granted the branch while Bob's lease is live, and the release reports success. *)
Theorem release_clobbers_live_lease :
  let s := run_lock lease_text lease_parse "k" [0; 0; 1; 1; 1; 0; 2; 2; 2] (fresh [Release "ann@a"; bob; cal]) in
  lc_pc <$> ls_clients s = [LDone (Ok true); LDone (Ok true); LDone (Ok true)] /\
  read_lease lease_parse "k" (ls_kv s) = Some (lease_for "cal@c" "sweep" 60 201) /\
  expired_at 201 (lease_for "bob@b" "sweep" 60 200) = false.
Proof. split_and!; vm_compute; reflexivity. Qed.

Lemma acquire_never_steals_witness :
  takeover_allowed "bob@b" 200 (Some (mkLease "ann@a" "sweep" 0 100)) = true.
Proof.
  destruct (acquire_never_steals lease_text lease_parse "k" lease_parse_text [0; 0] expired_kv
    [mkClient bob LStart] 0 "bob@b" "sweep" 60 200
    (LWriting (Some 1%Z) (lease_for "bob@b" "sweep" 60 200))) as [H _].
  - repeat constructor.
  - vm_compute. reflexivity.
  - discriminate.
  - vm_compute. reflexivity.
  - exact H.
Defined.

Lemma bob_cal_contended : contended lease_parse "k" expired_kv [bob; cal].
Proof.
  constructor; [discriminate|by repeat constructor| |by repeat constructor; vm_compute|].
  - apply (bool_decide_unpack (NoDup _)). vm_compute. exact I.
  - intros c c' H H'. rewrite !elem_of_cons in H, H'. set_unfold.
    destruct H as [->|[->|[]]], H' as [->|[->|[]]]; vm_compute; discriminate.
Qed.

Lemma exactly_one_wins_witness :
  exists w c, ls_clients (run_lock lease_text lease_parse "k" [0; 1; 1; 0; 0; 1] (fresh [bob; cal])) !! w = Some c /\
    lc_pc c = LDone (Ok true).
Proof.
  destruct (exactly_one_wins lease_text lease_parse "k" lease_parse_text [0; 1; 1; 0; 0; 1] expired_kv [bob; cal])
    as (w & c & H1 & H2 & _).
  - exact bob_cal_contended.
  - vm_compute. repeat constructor; eexists; reflexivity.
  - exists w, c. split; [exact H1|exact H2].
Defined.
