(* ===== verification/Outbox.v ===== *)
(** * The notification outbox: message clamp and retry schedule

    [state/outbox.rs]. A stamp is an [i64] in [Z], the attempt counter a [u8] in [N]. *)
From S2P Require Import Prelude RustStr Ports.

Definition OUTBOX_MESSAGE_CAP_BYTES : nat := 4096.
Definition OUTBOX_MAX_ATTEMPTS : N := 8.
Definition OUTBOX_BASE_BACKOFF_SECS : Z := 30.
Definition OUTBOX_MAX_BACKOFF_SECS : Z := 3600.

Inductive OutboxStatus := Pending | Delivered | Dead.

#[export] Instance OutboxStatus_eq_dec : EqDecision OutboxStatus.
Proof. solve_decision. Defined.

Record OutboxEntry := mkEntry {
  ob_id : N;
  ob_kind : string;
  ob_project : string;
  ob_message : string;
  ob_status : OutboxStatus;
  ob_attempts : N;
  ob_next_attempt_at : Z;
  ob_created_at : Z;
}.

(** The [while !is_char_boundary(end) { end -= 1 }] loop. *)
Fixpoint floor_boundary (end_ : nat) (s : string) : nat :=
  match end_ with
  | 0 => 0
  | S n => if is_char_boundary end_ s then end_ else floor_boundary n s
  end.

Definition clamp_message (message : string) : string :=
  if decide (String.length message <= OUTBOX_MESSAGE_CAP_BYTES) then message
  else String.substring 0 (floor_boundary OUTBOX_MESSAGE_CAP_BYTES message) message.

(** [OutboxEntry::pending] *)
Definition pending (kind project message : string) (now : Z) : OutboxEntry :=
  mkEntry 0 kind project (clamp_message message) Pending 0 0 now.

Definition is_retrying (e : OutboxEntry) : bool :=
  bool_decide (ob_status e = Pending) && bool_decide (0 < ob_attempts e)%N.

Definition i64_min : Z := (-9223372036854775808)%Z.
Definition i64_sat (z : Z) : Z := Z.max i64_min (Z.min z i64_max).

Definition u8_sat_add (a b : N) : N := N.min (a + b) 255.

Definition backoff_delay_secs (attempt : N) : Z :=
  let doubling := N.min (attempt - 1) 20 in
  Z.min (i64_sat (OUTBOX_BASE_BACKOFF_SECS * Z.shiftl 1 (Z.of_N doubling))) OUTBOX_MAX_BACKOFF_SECS.

Definition advance_after_failure (now : Z) (prev : OutboxEntry) : OutboxEntry :=
  let attempts := N.min (u8_sat_add (ob_attempts prev) 1) OUTBOX_MAX_ATTEMPTS in
  let next := prev <| ob_attempts := attempts |> in
  if decide (OUTBOX_MAX_ATTEMPTS <= attempts)%N then next <| ob_status := Dead |>
  else next <| ob_status := Pending |>
            <| ob_next_attempt_at := Z.max (i64_sat (now + backoff_delay_secs attempts))
                                           (i64_sat (ob_next_attempt_at prev + 1)) |>.

(** The entry after failed attempts at the given times. *)
Definition after_failures (nows : list Z) (e : OutboxEntry) : OutboxEntry :=
  fold_left (fun e now => advance_after_failure now e) nows e.

(** ** Clamping *)

Lemma floor_boundary_le n s : floor_boundary n s <= n.
Proof. induction n as [|n IH]; cbn; [done|]. destruct s; [lia|]. destruct (is_char_boundary _ _); lia. Qed.

Lemma floor_boundary_ok n s : floor_boundary n s = 0 \/ is_char_boundary (floor_boundary n s) s = true.
Proof.
  induction n as [|n IH]; [by left|]. cbn [floor_boundary].
  destruct (is_char_boundary (S n) s) eqn:E; [by right|done].
Qed.

(** No boundary is skipped. *)
Lemma floor_boundary_max n s k :
  floor_boundary n s < k <= n -> is_char_boundary k s = false.
Proof.
  induction n as [|n IH]; cbn [floor_boundary]; [lia|].
  destruct (is_char_boundary (S n) s) eqn:E; [lia|]. intros H.
  destruct (decide (k = S n)) as [->|]; [done|]. apply IH. lia.
Qed.

Lemma length_substring_le n s : String.length (String.substring 0 n s) <= n.
Proof.
  revert n. induction s as [|a s IH]; intros [|n]; cbn; try lia. specialize (IH n). lia.
Qed.

Lemma substring_prefix n s : exists rest, s = String.substring 0 n s +:+ rest.
Proof.
  revert n. induction s as [|a s IH]; intros [|n]; cbn; [by exists ""|by exists ""|by eexists|].
  destruct (IH n) as [r Hr]. exists r. change (String a s = String a (String.substring 0 n s +:+ r)). congruence.
Qed.

(** a stored message always fits and is never cut inside a character: it has at most 4096 bytes, is the message itself when that fits, and otherwise its longest prefix within the cap that ends on a character boundary. *)
Theorem clamp_message_longest message :
  String.length (clamp_message message) <= OUTBOX_MESSAGE_CAP_BYTES /\
  (exists rest, message = clamp_message message +:+ rest) /\
  (String.length message <= OUTBOX_MESSAGE_CAP_BYTES -> clamp_message message = message) /\
  (OUTBOX_MESSAGE_CAP_BYTES < String.length message ->
   exists n, clamp_message message = String.substring 0 n message /\
     (n = 0 \/ is_char_boundary n message = true) /\
     forall k, n < k <= OUTBOX_MESSAGE_CAP_BYTES -> is_char_boundary k message = false).
Proof.
  unfold clamp_message. case_decide as H.
  - split_and!; [done|exists ""; by rewrite app_nil_r_str|done|lia].
  - split_and!.
    + etransitivity; [apply length_substring_le|apply floor_boundary_le].
    + apply substring_prefix.
    + done.
    + intros _. eexists. split_and!; [done|apply floor_boundary_ok|]. intros k. apply floor_boundary_max.
Qed.

(** ** Retrying *)

(** Attempts below the cap are exact powers of two of the base, up to the cap. *)
Lemma backoff_delay_spec a : (1 <= a <= 8)%N ->
  backoff_delay_secs a = Z.min (30 * 2 ^ (Z.of_N a - 1)) 3600.
Proof.
  intros H. assert (a ∈ [1; 2; 3; 4; 5; 6; 7; 8]%N) as Ha.
  { rewrite !elem_of_cons. lia. }
  repeat (apply elem_of_cons in Ha as [->|Ha]; [reflexivity|]). by apply elem_of_nil in Ha.
Qed.

Lemma advance_live now e :
  (ob_attempts e < 7)%N ->
  advance_after_failure now e = e <| ob_attempts := (ob_attempts e + 1)%N |> <| ob_status := Pending |>
    <| ob_next_attempt_at := Z.max (i64_sat (now + backoff_delay_secs (ob_attempts e + 1)))
                                   (i64_sat (ob_next_attempt_at e + 1)) |>.
Proof.
  intros H. unfold advance_after_failure, u8_sat_add, OUTBOX_MAX_ATTEMPTS. cbv zeta.
  replace (N.min (N.min (ob_attempts e + 1) 255) 8) with (ob_attempts e + 1)%N by lia.
  by rewrite decide_False by lia.
Qed.

Lemma advance_dead now e :
  (7 <= ob_attempts e)%N ->
  advance_after_failure now e = e <| ob_attempts := 8%N |> <| ob_status := Dead |>.
Proof.
  intros H. unfold advance_after_failure, u8_sat_add, OUTBOX_MAX_ATTEMPTS. cbv zeta.
  replace (N.min (N.min (ob_attempts e + 1) 255) 8) with 8%N by lia. done.
Qed.

(** Where an entry stands after [n] failures at times up to [2^62]. *)
Record on_schedule (n : nat) (e e' : OutboxEntry) : Prop := {
  os_attempts : ob_attempts e' = N.min (N.of_nat n) 8;
  os_status : ob_status e' = if decide (8 <= n) then Dead else Pending;
  os_message : ob_message e' = ob_message e /\ ob_id e' = ob_id e;
  os_deadline : (ob_next_attempt_at e' <= 2 ^ 62 + 3600 + Z.of_nat n)%Z;
}.

Lemma backoff_bounds a : (1 <= a <= 8)%N -> (30 <= backoff_delay_secs a <= 3600)%Z.
Proof.
  intros H. rewrite backoff_delay_spec by done.
  assert (1 <= 2 ^ (Z.of_N a - 1))%Z by (apply (Z.pow_le_mono_r 2 0); lia). lia.
Qed.

Lemma on_schedule_step n e e' now :
  (now <= 2 ^ 62)%Z -> on_schedule n e e' -> on_schedule (S n) e (advance_after_failure now e').
Proof.
  intros Hnow []. destruct os_message0. destruct (decide (n < 7)) as [Hn|Hn].
  - rewrite advance_live by lia.
    assert (Hb := backoff_bounds (ob_attempts e' + 1) ltac:(lia)).
    constructor; cbn; unfold constant.
    + lia.
    + by rewrite decide_False by lia.
    + done.
    + unfold i64_sat, i64_min, i64_max. lia.
  - rewrite advance_dead by lia. constructor.
    + change (8 = N.min (N.of_nat (S n)) 8)%N. lia.
    + by rewrite decide_True by lia.
    + done.
    + change (ob_next_attempt_at e' <= 2 ^ 62 + 3600 + Z.of_nat (S n))%Z. lia.
Qed.

Lemma on_schedule_run nows e :
  ob_attempts e = 0%N -> ob_status e = Pending -> (ob_next_attempt_at e <= 2 ^ 62)%Z ->
  Forall (fun t => t <= 2 ^ 62)%Z nows -> on_schedule (length nows) e (after_failures nows e).
Proof.
  intros Ha Hs Hd. induction nows as [|t nows IH] using rev_ind; intros Hf.
  - constructor; cbn; [done|done|done|lia].
  - apply Forall_app in Hf as [Hf Ht]. rewrite Forall_singleton in Ht.
    unfold after_failures. rewrite fold_left_app, length_app, Nat.add_comm.
    apply (on_schedule_step (length nows)); [exact Ht|by apply IH].
Qed.

(** a notification is retried on schedule and given up for good. With clocks up to 2^62, an entry with no attempts is pending with its failures counted until the eighth, and dead with eight from then on; and each of the first seven failures moves its deadline strictly past the previous one and at least thirty seconds doubled per earlier failure, capped at an hour, after the failure. *)
Theorem outbox_retry_schedule nows e :
  ob_attempts e = 0%N -> ob_status e = Pending -> (0 <= ob_next_attempt_at e <= 2 ^ 62)%Z ->
  Forall (fun t => 0 <= t <= 2 ^ 62)%Z nows ->
  let e' := after_failures nows e in
  ob_attempts e' = N.min (N.of_nat (length nows)) 8 /\
  ob_status e' = (if decide (8 <= length nows) then Dead else Pending) /\
  ob_message e' = ob_message e /\
  forall now, length nows < 7 -> (0 <= now <= 2 ^ 62)%Z ->
    let e'' := advance_after_failure now e' in
    (ob_next_attempt_at e' < ob_next_attempt_at e'')%Z /\
    (now + Z.min (30 * 2 ^ Z.of_nat (length nows)) 3600 <= ob_next_attempt_at e'')%Z.
Proof.
  intros Ha Hs Hd Hf.
  destruct (on_schedule_run nows e Ha Hs ltac:(lia)) as [H1 H2 [H3 _] H4].
  { eapply Forall_impl; [exact Hf|]. cbv beta. lia. }
  split_and!; try done. intros now Hn Hnow. rewrite advance_live by lia. cbn. unfold constant.
  rewrite backoff_delay_spec by lia.
  replace (Z.of_N (ob_attempts (after_failures nows e) + 1) - 1)%Z with (Z.of_nat (length nows)) by lia.
  assert (0 < 2 ^ Z.of_nat (length nows))%Z by (apply Z.pow_pos_nonneg; lia).
  unfold i64_sat, i64_min, i64_max. lia.
Qed.

Lemma outbox_retry_schedule_witness :
  ob_status (after_failures [10; 50; 120; 400; 900; 2000; 6000; 9999]%Z (pending "k" "p" "hi" 5)) = Dead.
Proof.
  destruct (outbox_retry_schedule [10; 50; 120; 400; 900; 2000; 6000; 9999]%Z (pending "k" "p" "hi" 5))
    as (_ & H & _); [reflexivity|reflexivity|cbn; lia| |exact H].
  repeat (apply Forall_cons; split; [lia|]). constructor.
Defined.
