(* ===== verification/FileSys.v ===== *)
(** * Files, advisory locks and interleaved programs

    The file-backed stores of the infrastructure crate ([state/json_store.rs],
    [outbox.rs]) run blocking file calls of the standard library. A program is the
    tree of the calls it makes; a machine interleaves programs one call at a time
    over a directory of inodes, where a call can fail, a write can be cut short and
    a program can be killed. [locked_atomic] is what an exclusive lock on a file
    that nobody replaces gives the programs that take it: they are serializable. *)
From Stdlib Require Import FunctionalExtensionality.
From S2P Require Import Prelude RustStr.

(** ** One directory *)

(** [std::io::Error]: whether its kind is [NotFound], and its text. *)
Record IoErr := mkIoErr { io_not_found : bool; io_text : string }.

Definition no_entry : IoErr := mkIoErr true "No such file or directory (os error 2)".

Section Files.
(** The alphabet file contents are written in. *)
Context {B : Type}.

(** A path names an inode; an advisory lock sits on an inode and has an owner. *)
Record Fs := mkFs {
  fs_dir : gmap string nat;
  fs_data : gmap nat (list B);
  fs_locks : gmap nat nat;
  fs_next : nat;
}.

Inductive FsCall :=
| CExists (p : string)
| CRead (p : string)
| CMkdir (p : string)
| COpen (p : string) (trunc : bool)
| CLock (i : nat)
| CUnlock (i : nat)
| CWrite (i : nat) (b : list B)
| CSync (i : nat)
| CRename (p q : string)
| CCopy (p q : string)
| CRemove (p : string)
| CRemoveDir (d : string)
| CList (d : string).

Definition reply (c : FsCall) : Type :=
  match c with
  | CExists _ => bool
  | CUnlock _ => unit
  | CRead _ => result IoErr (list B)
  | COpen _ _ => result IoErr nat
  | CList _ => result IoErr (list string)
  | _ => result IoErr unit
  end.

(** How the environment takes a call: it runs, fails without effect, or fails
    after the first [n] bytes were written. *)
Inductive Fault := Done | Failed (e : IoErr) | Torn (n : nat) (e : IoErr).

Definition bytes_of (fs : Fs) (i : nat) : list B := default [] (fs_data fs !! i).

Definition content (fs : Fs) (p : string) : option (list B) := bytes_of fs <$> fs_dir fs !! p.

(** The paths directly inside the directory [d]. *)
Definition inside (d p : string) : bool := String.prefix (d +:+ "/") p.

Definition entries (d : string) (fs : Fs) : list string :=
  List.filter (inside d) (map_to_list (fs_dir fs)).*1.

(** [O_CREAT], and [O_TRUNC] when asked. *)
Definition open_path (p : string) (trunc : bool) (fs : Fs) : Fs * nat :=
  match fs_dir fs !! p with
  | Some i => (if trunc then fs <| fs_data ::= <[i := []]> |> else fs, i)
  | None => (mkFs (<[p := fs_next fs]> (fs_dir fs)) (<[fs_next fs := []]> (fs_data fs))
               (fs_locks fs) (S (fs_next fs)), fs_next fs)
  end.

(** A write through an offset of its own, at the start of the file. *)
Definition overlay (b old : list B) : list B := b ++ drop (length b) old.

Definition write_bytes (i : nat) (b : list B) (fs : Fs) : Fs :=
  fs <| fs_data ::= <[i := overlay b (bytes_of fs i)]> |>.

(** [std::fs::copy] of the first bytes of [b] into [q]. *)
Definition copy_to (q : string) (b : list B) (fs : Fs) : Fs :=
  let '(fs, i) := open_path q true fs in write_bytes i b fs.

Definition run_call {A} (f : Fault) (fs : Fs) (good : Fs * result IoErr A) (torn : nat -> Fs)
    : option (Fs * result IoErr A) :=
  match f with
  | Done => Some good
  | Failed e => Some (fs, Err e)
  | Torn n e => Some (torn n, Err e)
  end.

Definition rename (p q : string) (fs : Fs) : Fs * result IoErr unit :=
  match fs_dir fs !! p with
  | None => (fs, Err no_entry)
  | Some i => (fs <| fs_dir ::= fun d => <[q := i]> (delete p d) |>, Ok tt)
  end.

Definition remove (p : string) (fs : Fs) : Fs * result IoErr unit :=
  match fs_dir fs !! p with
  | None => (fs, Err no_entry)
  | Some _ => (fs <| fs_dir ::= delete p |>, Ok tt)
  end.

Definition remove_dir (d : string) (fs : Fs) : Fs * result IoErr unit :=
  match entries d fs with
  | [] => (fs, Err no_entry)
  | _ => (fs <| fs_dir ::= filter (fun '(p, _) => inside d p = false) |>, Ok tt)
  end.

Definition list_dir (d : string) (fs : Fs) : result IoErr (list string) :=
  match entries d fs with [] => Err no_entry | l => Ok l end.

Definition read_path (p : string) (fs : Fs) : result IoErr (list B) :=
  match content fs p with None => Err no_entry | Some b => Ok b end.

Definition copy (p q : string) (n : option nat) (fs : Fs) : Fs * result IoErr unit :=
  match content fs p with
  | None => (fs, Err no_entry)
  | Some b => (copy_to q (match n with Some n => take n b | None => b end) fs, Ok tt)
  end.

Definition path_exists (p : string) (fs : Fs) : bool := bool_decide (is_Some (fs_dir fs !! p)).

(** One call by program [who]; [None]: it blocks. *)
Definition exec (who : nat) (f : Fault) (c : FsCall) (fs : Fs) : option (Fs * reply c) :=
  match c return option (Fs * reply c) with
  | CExists p => Some (fs, path_exists p fs)
  | CRead p => run_call f fs (fs, read_path p fs) (fun _ => fs)
  | CMkdir p => run_call f fs (fs, Ok tt) (fun _ => fs)
  | COpen p trunc =>
      run_call f fs (let '(fs, i) := open_path p trunc fs in (fs, Ok i)) (fun _ => fs)
  | CLock i =>
      match f with
      | Done =>
          match fs_locks fs !! i with
          | None => Some (fs <| fs_locks ::= <[i := who]> |>, Ok tt)
          | Some _ => None
          end
      | Failed e | Torn _ e => Some (fs, Err e)
      end
  | CUnlock i => Some (fs <| fs_locks ::= delete i |>, tt)
  | CWrite i b => run_call f fs (write_bytes i b fs, Ok tt) (fun n => write_bytes i (take n b) fs)
  | CSync i => run_call f fs (fs, Ok tt) (fun _ => fs)
  | CRename p q => run_call f fs (rename p q fs) (fun _ => fs)
  | CCopy p q => run_call f fs (copy p q None fs) (fun n => (copy p q (Some n) fs).1)
  | CRemove p => run_call f fs (remove p fs) (fun _ => fs)
  | CRemoveDir d => run_call f fs (remove_dir d fs) (fun _ => fs)
  | CList d => run_call f fs (fs, list_dir d fs) (fun _ => fs)
  end.

(** ** Programs *)

Inductive Prog (A : Type) : Type :=
| Ret (a : A)
| Do (c : FsCall) (k : reply c -> Prog A).
Arguments Ret {A} _.
Arguments Do {A} _ _.

Fixpoint pbind {A C} (p : Prog A) (k : A -> Prog C) : Prog C :=
  match p with
  | Ret a => k a
  | Do c q => Do c (fun a => pbind (q a) k)
  end.

(** Running alone: blocked is [None]. *)
Fixpoint run {A} (who : nat) (env : FsCall -> Fault) (p : Prog A) (fs : Fs) : option (Fs * A) :=
  match p with
  | Ret a => Some (fs, a)
  | Do c k => match exec who (env c) c fs with None => None | Some (fs, a) => run who env (k a) fs end
  end.

Lemma run_bind {A C} who env (p : Prog A) (k : A -> Prog C) fs :
  run who env (pbind p k) fs = match run who env p fs with None => None | Some (fs, a) => run who env (k a) fs end.
Proof.
  revert fs. induction p as [a|c q IH]; intros fs; cbn; [done|].
  destruct (exec _ _ _ _) as [[fs' a]|]; [apply IH|done].
Qed.

Lemma pbind_assoc {A C D} (p : Prog A) (k : A -> Prog C) (h : C -> Prog D) :
  pbind (pbind p k) h = pbind p (fun a => pbind (k a) h).
Proof. induction p as [a|c q IH]; cbn; [done|]. f_equal. apply functional_extensionality. intros a. apply IH. Qed.

Lemma pbind_ext {A C} (p : Prog A) (k h : A -> Prog C) : (forall a, k a = h a) -> pbind p k = pbind p h.
Proof. intros H. f_equal. by apply functional_extensionality. Qed.

(** ** The machine *)

Section Machine.
Context {Out : Type}.

(** Each program, or [None] once killed. *)
Record World := mkWorld { wd_fs : Fs; wd_progs : list (option (Prog Out)) }.

Inductive Event := Step (who : nat) (env : FsCall -> Fault) | Kill (who : nat).

Definition free_locks (who : nat) (fs : Fs) : Fs :=
  fs <| fs_locks ::= filter (fun '(_, o) => o <> who) |>.

Definition world_step (s : World) (ev : Event) : World :=
  match ev with
  | Step who env =>
      match wd_progs s !! who with
      | Some (Some (Do c k)) =>
          match exec who (env c) c (wd_fs s) with
          | None => s
          | Some (fs, a) => mkWorld fs (<[who := Some (k a)]> (wd_progs s))
          end
      | _ => s
      end
  | Kill who =>
      match wd_progs s !! who with
      | Some (Some (Do _ _)) => mkWorld (free_locks who (wd_fs s)) (<[who := None]> (wd_progs s))
      | _ => s
      end
  end.

Definition run_world (evs : list Event) (s : World) : World := fold_left world_step evs s.

End Machine.
End Files.
Arguments Fs : clear implicits.
Arguments FsCall : clear implicits.
Arguments Prog : clear implicits.
Arguments World : clear implicits.
Arguments Event : clear implicits.
Arguments Ret {B A} _.
Arguments Do {B A} _ _.
Arguments mkWorld {B Out} _ _.

Declare Scope prog_scope.
Delimit Scope prog_scope with prog.
Notation "'do!' x := c 'in' k" := (Do c (fun x => k))
  (at level 10, x name, c at level 100, k at level 200) : prog_scope.
Notation "'run!' x := p 'in' k" := (pbind p (fun x => k))
  (at level 10, x name, p at level 100, k at level 200) : prog_scope.

(** Inodes: no two paths share one, and the next one is new. *)
Record wf {B} (fs : Fs B) : Prop := {
  wf_inj p q i : fs_dir fs !! p = Some i -> fs_dir fs !! q = Some i -> p = q;
  wf_fresh p i : fs_dir fs !! p = Some i -> i < fs_next fs;
}.

(** ** What the calls change *)

Section Effects.
Context {B : Type}.
Implicit Types (fs : Fs B) (p q d : string).

Lemma wf_create p fs :
  wf fs -> fs_dir fs !! p = None ->
  wf (mkFs (<[p := fs_next fs]> (fs_dir fs)) (<[fs_next fs := []]> (fs_data fs)) (fs_locks fs) (S (fs_next fs))).
Proof.
  intros Hw Hp. constructor; cbn.
  - intros q1 q2 i. rewrite !lookup_insert_Some. intros [[? ?]|[? H1]] [[? ?]|[? H2]]; subst; try done.
    + apply (wf_fresh _ Hw) in H2. lia.
    + apply (wf_fresh _ Hw) in H1. lia.
    + by apply (wf_inj _ Hw q1 q2 i).
  - intros q i. rewrite lookup_insert_Some. intros [[? ?]|[? H]]; [lia|]. apply (wf_fresh _ Hw) in H. lia.
Qed.

Lemma open_path_dir p trunc fs i : (open_path p trunc fs).2 = i -> fs_dir (open_path p trunc fs).1 !! p = Some i.
Proof.
  unfold open_path. destruct (fs_dir fs !! p) as [l|] eqn:E; cbn; intros <-.
  - by destruct trunc.
  - by rewrite lookup_insert_eq.
Qed.

Lemma open_path_locks p trunc fs : fs_locks (open_path p trunc fs).1 = fs_locks fs.
Proof. unfold open_path. destruct (fs_dir fs !! p); [by destruct trunc|done]. Qed.

Lemma bytes_insert fs i j b :
  bytes_of (fs <| fs_data ::= <[i := b]> |>) j = if decide (i = j) then b else bytes_of fs j.
Proof.
  unfold bytes_of. destruct fs as [dir data locks nx]. cbn. case_decide as H.
  - subst. by rewrite lookup_insert_eq.
  - by rewrite lookup_insert_ne.
Qed.

Lemma content_data fs i b p :
  content (fs <| fs_data ::= <[i := b]> |>) p =
  if decide (fs_dir fs !! p = Some i) then Some b else content fs p.
Proof.
  unfold content. change (fs_dir (fs <| fs_data ::= <[i := b]> |>)) with (fs_dir fs).
  destruct (fs_dir fs !! p) as [j|] eqn:E; cbn [fmap option_fmap option_map]; [|by rewrite decide_False].
  rewrite bytes_insert. repeat case_decide; by simplify_eq.
Qed.

(** Another path's content does not notice a write. *)
Lemma content_data_ne fs i b p q :
  wf fs -> fs_dir fs !! q = Some i -> p <> q -> content (fs <| fs_data ::= <[i := b]> |>) p = content fs p.
Proof.
  intros Hw Hq Hne. rewrite content_data. apply decide_False. intros Hp. by apply Hne, (wf_inj _ Hw p q i).
Qed.

Lemma wf_data fs (f : gmap nat (list B) -> gmap nat (list B)) : wf fs -> wf (fs <| fs_data ::= f |>).
Proof. destruct fs. by intros []. Qed.

Lemma open_wf p trunc fs : wf fs -> wf (open_path p trunc fs).1.
Proof.
  intros Hw. unfold open_path. destruct (fs_dir fs !! p) as [i|] eqn:E; [|by apply wf_create].
  destruct trunc; [by apply wf_data|done].
Qed.

Lemma open_content_ne p q trunc fs : wf fs -> p <> q -> content (open_path q trunc fs).1 p = content fs p.
Proof.
  intros Hw Hne. unfold open_path. destruct (fs_dir fs !! q) as [i|] eqn:E; cbn [fst snd].
  - destruct trunc; [|done]. by apply (content_data_ne _ _ _ _ q).
  - unfold content. cbn. rewrite lookup_insert_ne by done. destruct (fs_dir fs !! p) as [j|] eqn:Ej; [|done].
    cbn. f_equal. unfold bytes_of. cbn. apply (wf_fresh _ Hw) in Ej. by rewrite lookup_insert_ne by lia.
Qed.

Lemma open_dir_ne p q trunc fs : p <> q -> fs_dir (open_path q trunc fs).1 !! p = fs_dir fs !! p.
Proof.
  intros Hne. unfold open_path. destruct (fs_dir fs !! q); cbn; [by destruct trunc|]. by rewrite lookup_insert_ne.
Qed.

Lemma open_trunc_content p fs : content (open_path p true fs).1 p = Some [].
Proof.
  unfold open_path. destruct (fs_dir fs !! p) as [i|] eqn:E; cbn [fst snd].
  - rewrite content_data. by rewrite decide_True.
  - unfold content. cbn. rewrite lookup_insert_eq. cbn. unfold bytes_of. cbn. by rewrite lookup_insert_eq.
Qed.

Lemma copy_spec p q n fs fs' r :
  wf fs -> copy p q n fs = (fs', r) ->
  wf fs' /\ fs_locks fs' = fs_locks fs /\
  forall x, x <> q -> content fs' x = content fs x /\ fs_dir fs' !! x = fs_dir fs !! x.
Proof.
  intros Hw. unfold copy. destruct (content fs p) as [b|]; [|by intros [= <- <-]]. unfold copy_to.
  pose proof (open_wf q true fs Hw) as Hw'. pose proof (open_path_dir q true fs _ eq_refl) as Hd.
  pose proof (open_path_locks q true fs) as Hl. pose proof (fun x => open_content_ne x q true fs Hw) as Hc.
  pose proof (fun x => open_dir_ne x q true fs) as Hdir.
  destruct (open_path q true fs) as [fs1 i]. cbn [fst snd] in *. intros [= <- <-]. unfold write_bytes. split_and!.
  - by apply wf_data.
  - by destruct fs1.
  - intros x Hx. split; [|by rewrite <- Hdir by done; destruct fs1]. rewrite <- Hc by done. by apply (content_data_ne _ _ _ _ q).
Qed.

Lemma overlay_nil b : overlay b ([] : list B) = b.
Proof. unfold overlay. by rewrite drop_nil, app_nil_r. Qed.

Lemma copy_content p q b fs :
  wf fs -> content fs p = Some b ->
  exists fs', copy p q None fs = (fs', Ok tt) /\ content fs' q = Some b /\ is_Some (fs_dir fs' !! q).
Proof.
  intros Hw Hp. unfold copy. rewrite Hp. unfold copy_to.
  pose proof (open_path_dir q true fs _ eq_refl) as Hd. pose proof (open_trunc_content q fs) as Hc.
  destruct (open_path q true fs) as [fs1 i]. cbn [fst snd] in *. eexists. split; [reflexivity|]. unfold write_bytes. split.
  - rewrite content_data, decide_True by done. f_equal. unfold content in Hc. rewrite Hd in Hc. injection Hc as ->.
    apply overlay_nil.
  - exists i. by destruct fs1.
Qed.

Lemma remove_spec q fs fs' r :
  wf fs -> remove q fs = (fs', r) ->
  wf fs' /\ fs_locks fs' = fs_locks fs /\
  forall x, x <> q -> content fs' x = content fs x /\ fs_dir fs' !! x = fs_dir fs !! x.
Proof.
  intros Hw. unfold remove. destruct (fs_dir fs !! q) as [i|] eqn:E; intros [= <- <-]; [|done].
  destruct fs as [dir data locks nx]. cbn in *. split_and!; [|done|].
  - constructor; cbn.
    + intros a b j [_ Ha]%lookup_delete_Some [_ Hb]%lookup_delete_Some. by apply (wf_inj _ Hw a b j).
    + intros a j [_ Ha]%lookup_delete_Some. by apply (wf_fresh _ Hw a j).
  - intros x Hx. unfold content. cbn. by rewrite lookup_delete_ne.
Qed.

Lemma rename_spec p q i fs :
  wf fs -> fs_dir fs !! p = Some i -> p <> q ->
  exists fs', rename p q fs = (fs', Ok tt) /\ wf fs' /\ fs_locks fs' = fs_locks fs /\ content fs' q = content fs p /\
    (forall x, x <> p -> x <> q -> content fs' x = content fs x /\ fs_dir fs' !! x = fs_dir fs !! x).
Proof.
  intros Hw Hp Hne. unfold rename. rewrite Hp. eexists. split; [reflexivity|].
  destruct fs as [dir data locks nx]. cbn in *. split_and!; [|done| |].
  - constructor; cbn.
    + intros a b j. rewrite !lookup_insert_Some, !lookup_delete_Some.
      intros [[? ?]|(? & ? & Ha)] [[? ?]|(? & ? & Hb)]; subst; try done.
      * by pose proof (wf_inj _ Hw b p j Hb Hp).
      * by pose proof (wf_inj _ Hw a p j Ha Hp).
      * by apply (wf_inj _ Hw a b j).
    + intros a j. rewrite lookup_insert_Some, lookup_delete_Some. intros [[? ?]|(? & ? & Ha)]; subst;
        by eapply (wf_fresh _ Hw).
  - unfold content. cbn. by rewrite lookup_insert_eq, Hp.
  - intros x H1 H2. unfold content. cbn. by rewrite lookup_insert_ne, lookup_delete_ne by done.
Qed.

Lemma entries_inside d fs p : p ∈ entries d fs <-> is_Some (fs_dir fs !! p) /\ inside d p = true.
Proof.
  unfold entries. rewrite elem_of_filter_bool, list_elem_of_fmap. split.
  - intros [([q i] & -> & H) Hi]. apply elem_of_map_to_list in H. by split; [exists i|].
  - intros [[i H] Hi]. split; [|done]. exists (p, i). by rewrite elem_of_map_to_list.
Qed.

Lemma entries_NoDup d fs : NoDup (entries d fs).
Proof. unfold entries. eapply sublist_NoDup; [apply (NoDup_fst_map_to_list (fs_dir fs))|]. apply filter_bool_sublist. Qed.
End Effects.

(** ** What the lock gives: serializable programs *)

Section Locked.
Context {B Out J S : Type}.
(** The lock file, what the directory stands for, and what each job does at one
    instant: its effect and its result. *)
Context (lockp : string) (R : Fs B -> S -> Prop) (spec : J -> S -> S -> Out -> Prop).
(** The faults considered. *)
Context (env_ok : (FsCall B -> Fault) -> Prop).
Implicit Types (fs : Fs B) (log : list (nat * Out)).

(** Directories that agree on everything but the lock file. *)
Record same (fs fs' : Fs B) : Prop := {
  same_dir : delete lockp (fs_dir fs) = delete lockp (fs_dir fs');
  same_bytes p i : p <> lockp -> fs_dir fs !! p = Some i -> bytes_of fs' i = bytes_of fs i;
  same_lock l : fs_dir fs !! lockp = Some l -> fs_dir fs' !! lockp = Some l;
}.

Context (R_stable : forall fs fs' s, same fs fs' -> R fs s -> R fs' s).

(** Where a program stands: before the lock file is open, with it open, or holding
    the lock over the directory as it left it. *)
Inductive Hold := Outside | Opened (l : nat) | Holding (l : nat) (fs : Fs B).

(** The lock-free calls: opening the lock file and reading. *)
Definition outside_call (c : FsCall B) : bool :=
  match c with
  | COpen p false => bool_decide (p = lockp)
  | CRead _ | CExists _ => true
  | _ => false
  end.

Definition after_open (c : FsCall B) : reply c -> Hold :=
  match c return reply c -> Hold with
  | COpen _ _ => fun a => match a with Ok l => Opened l | Err _ => Outside end
  | _ => fun _ => Outside
  end.

Definition after_lock (fs : Fs B) (c : FsCall B) : reply c -> Hold :=
  match c return reply c -> Hold with
  | CLock l => fun a => match a with Ok _ => Holding l fs | Err _ => Outside end
  | _ => fun _ => Outside
  end.

(** Only the release and the reply [r] are left. *)
Definition settled (l : nat) (r : Out) (p : Prog B Out) : Prop :=
  match p with
  | Ret _ => False
  | Do c k =>
      match c return (reply c -> Prog B Out) -> Prop with
      | CUnlock l' => fun k => l' = l /\ k tt = Ret r
      | _ => fun _ => False
      end k
  end.

(** [p] does job [j] at one instant of its run: it answers right where it decides
    without an effect, and its effect is one call made while it holds the lock. *)
Fixpoint proto (j : J) (h : Hold) (p : Prog B Out) : Prop :=
  match p with
  | Ret _ => False
  | Do c k =>
      match h with
      | Outside =>
          outside_call c = true /\
          forall who env fs s fs' a,
            env_ok env -> wf fs -> R fs s -> exec who (env c) c fs = Some (fs', a) ->
            (exists r, k a = Ret r /\ spec j s s r) \/ proto j (after_open c a) (k a)
      | Opened l =>
          c = CLock l /\
          forall who env fs s fs' a,
            env_ok env -> wf fs -> R fs s -> fs_dir fs !! lockp = Some l ->
            exec who (env c) c fs = Some (fs', a) ->
            (exists r, k a = Ret r /\ spec j s s r) \/ proto j (after_lock fs' c a) (k a)
      | Holding l fs0 =>
          forall who env fs s fs' a,
            env_ok env -> same fs0 fs -> wf fs -> fs_dir fs !! lockp = Some l -> R fs s ->
            exec who (env c) c fs = Some (fs', a) ->
            (c = CUnlock l /\ exists r, k a = Ret r /\ spec j s s r) \/
            (wf fs' /\ fs_dir fs' !! lockp = Some l /\ fs_locks fs' = fs_locks fs /\
             ((R fs' s /\ proto j (Holding l fs') (k a)) \/
              exists s' r, spec j s s' r /\ R fs' s' /\ settled l r (k a)))
      end
  end.

Context (jobs : list J).

(** The jobs of the log, one after the other. *)
Inductive serial (s0 : S) : list (nat * Out) -> S -> Prop :=
| serial_nil : serial s0 [] s0
| serial_snoc log s i j r s' :
    serial s0 log s -> jobs !! i = Some j -> spec j s s' r -> serial s0 (log ++ [(i, r)]) s'.

Lemma serial_app s0 log1 log2 s :
  serial s0 (log1 ++ log2) s <-> exists s1, serial s0 log1 s1 /\ serial s1 log2 s.
Proof.
  split.
  - revert s. induction log2 as [|[i r] log2 IH] using rev_ind; intros s H.
    + rewrite app_nil_r in H. exists s. split; [done|constructor].
    + rewrite app_assoc in H. inversion H as [Hn|log s2 i' j r' s' H1 H2 H3 Hn]; [by destruct (log1 ++ log2)|].
      apply app_inj_tail in Hn as [-> [= -> ->]]. subst. destruct (IH s2 H1) as (s1 & ? & ?).
      exists s1. split; [done|]. by eapply serial_snoc.
  - intros (s1 & H1 & H2). induction H2 as [|log2 s i j r s' H2 IH Hj Hs]; [by rewrite app_nil_r|].
    rewrite app_assoc. by eapply serial_snoc.
Qed.

Lemma serial_one s0 i r s : serial s0 [(i, r)] s -> exists j, jobs !! i = Some j /\ spec j s0 s r.
Proof.
  inversion 1 as [|log s1 i' j r' s' H1 H2 H3 Hn]; subst. apply (app_inj_tail log [] _ (i, r)) in Hn as [-> [= -> ->]].
  inversion H1 as [|log' s2 i' j' r' s' ? ? ? Hn]; subst; [by exists j|]. by destruct log'.
Qed.

Lemma serial_cons s0 i r log s :
  serial s0 ((i, r) :: log) s -> exists j s1, jobs !! i = Some j /\ spec j s0 s1 r /\ serial s1 log s.
Proof. intros (s1 & (j & ? & ?)%serial_one & ?)%(serial_app s0 [(i, r)]). by exists j, s1. Qed.

Lemma serial_invariant (I : S -> Prop) s0 log s :
  (forall i r j s1 s2, (i, r) ∈ log -> jobs !! i = Some j -> spec j s1 s2 r -> I s1 -> I s2) ->
  serial s0 log s -> I s0 -> I s.
Proof.
  intros Hstep H. induction H as [|log s i j r s' H IH Hj Hs]; [done|]. intros HI.
  eapply (Hstep i r j s); try done.
  - apply elem_of_app. right. by apply list_elem_of_singleton.
  - apply IH; [|done]. intros i' r' j' s1 s2 Hin. apply Hstep. apply elem_of_app. by left.
Qed.

Definition hold_ok (fs : Fs B) (who : nat) (h : Hold) : Prop :=
  match h with
  | Outside => forall l, fs_locks fs !! l <> Some who
  | Opened l => (forall l, fs_locks fs !! l <> Some who) /\ fs_dir fs !! lockp = Some l
  | Holding l fs0 => same fs0 fs /\ fs_locks fs !! l = Some who /\ fs_dir fs !! lockp = Some l
  end.

Definition prog_ok (fs : Fs B) (log : list (nat * Out)) (who : nat) (j : J) (p : Prog B Out) : Prop :=
  (who ∉ log.*1 /\ exists h, hold_ok fs who h /\ proto j h p) \/
  (exists r, (who, r) ∈ log /\
     (p = Ret r \/ exists l, fs_locks fs !! l = Some who /\ fs_dir fs !! lockp = Some l /\ settled l r p)).

Record good (s0 : S) (w : World B Out) (log : list (nat * Out)) (s : S) : Prop := {
  g_wf : wf (wd_fs w);
  g_R : R (wd_fs w) s;
  g_serial : serial s0 log s;
  g_nodup : NoDup log.*1;
  g_owner l i : fs_locks (wd_fs w) !! l = Some i -> fs_dir (wd_fs w) !! lockp = Some l;
  g_progs i p : wd_progs w !! i = Some (Some p) ->
    exists j, jobs !! i = Some j /\ prog_ok (wd_fs w) log i j p;
}.

(** *** The directory seen by the others *)

Lemma same_refl fs : same fs fs.
Proof. by constructor. Qed.

Lemma same_lookup fs fs' p : same fs fs' -> p <> lockp -> fs_dir fs' !! p = fs_dir fs !! p.
Proof.
  intros H Hp. rewrite <- (lookup_delete_ne (fs_dir fs') lockp p), <- (lookup_delete_ne (fs_dir fs) lockp p) by done.
  by rewrite (same_dir _ _ H).
Qed.

Lemma same_trans fs1 fs2 fs3 : same fs1 fs2 -> same fs2 fs3 -> same fs1 fs3.
Proof.
  intros H1 H2. constructor.
  - by rewrite (same_dir _ _ H1), (same_dir _ _ H2).
  - intros p i Hp Hi. rewrite (same_bytes _ _ H2 p i Hp), (same_bytes _ _ H1 p i Hp Hi); [done|].
    by rewrite (same_lookup fs1).
  - intros l Hl. by apply (same_lock _ _ H2), (same_lock _ _ H1).
Qed.

(** Only the table of locks differs. *)
Lemma same_locks fs (f : gmap nat nat -> gmap nat nat) : same fs (fs <| fs_locks ::= f |>).
Proof. by destruct fs. Qed.

Lemma wf_locks fs (f : gmap nat nat -> gmap nat nat) : wf fs -> wf (fs <| fs_locks ::= f |>).
Proof. destruct fs. by intros []. Qed.

Lemma open_lock_same fs : wf fs -> same fs (open_path lockp false fs).1 /\ wf (open_path lockp false fs).1.
Proof.
  intros Hw. unfold open_path. destruct (fs_dir fs !! lockp) as [l|] eqn:E; [done|].
  split; [|by apply wf_create]. constructor; cbn.
  - by rewrite delete_insert_eq.
  - intros p i Hp Hi. apply (wf_fresh _ Hw) in Hi. unfold bytes_of. cbn. by rewrite lookup_insert_ne by lia.
  - congruence.
Qed.

Lemma exec_outside who f c fs fs' a :
  outside_call c = true -> wf fs -> hold_ok fs who Outside -> exec who f c fs = Some (fs', a) ->
  same fs fs' /\ wf fs' /\ fs_locks fs' = fs_locks fs /\ hold_ok fs' who (after_open c a).
Proof.
  intros Hc Hw Hf He. destruct c; try discriminate Hc; cbn in He, a |- *.
  - injection He as <- <-. split_and!; [apply same_refl|done..].
  - unfold run_call in He. destruct f; injection He as <- <-; (split_and!; [apply same_refl|done..]).
  - destruct trunc; [discriminate Hc|]. apply bool_decide_eq_true in Hc as ->.
    pose proof (open_lock_same fs Hw) as [Hs Hw']. pose proof (open_path_locks lockp false fs) as Hl.
    pose proof (open_path_dir lockp false fs _ eq_refl) as Hd.
    destruct (open_path lockp false fs) as [fs1 i]. cbn in Hs, Hw', Hl, Hd.
    unfold run_call in He. destruct f; injection He as <- <-; cbn; (split_and!; try done; try apply same_refl).
    by rewrite Hl.
Qed.

(** *** Steps of the machine *)

Lemma R_locks fs s (f : gmap nat nat -> gmap nat nat) : R fs s -> R (fs <| fs_locks ::= f |>) s.
Proof. apply R_stable, same_locks. Qed.

(** What a step of another program leaves of a program's standing. *)
Lemma prog_ok_frame fs fs' log log' who j p :
  (forall l, fs_dir fs !! lockp = Some l -> fs_dir fs' !! lockp = Some l) ->
  (forall l, fs_locks fs !! l = Some who <-> fs_locks fs' !! l = Some who) ->
  same fs fs' \/ (forall l, fs_locks fs !! l <> Some who) ->
  (forall r, (who, r) ∈ log <-> (who, r) ∈ log') ->
  prog_ok fs log who j p -> prog_ok fs' log' who j p.
Proof.
  intros Hd Hl Hs Hlog [[Hn (h & Hh & Hp)]|(r & Hr & Hp)].
  - left. split.
    + intros Hin. apply Hn. apply list_elem_of_fmap in Hin as ([w r] & -> & Hin). apply Hlog in Hin.
      apply list_elem_of_fmap. by exists (w, r).
    + exists h. split; [|done]. destruct h as [|l|l fs0]; cbn in *.
      { intros l Hx%Hl. by apply (Hh l). }
      { destruct Hh as [H1 H2]. split; [|auto]. intros l' Hx%Hl. by apply (H1 l'). }
      destruct Hh as (H1 & H2 & H3). split_and!; [|by apply Hl|auto].
      destruct Hs as [Hs|Hs]; [by eapply same_trans|]. by destruct (Hs l).
  - right. exists r. rewrite <- Hlog. split; [done|]. destruct Hp as [->|(l & H1 & H2 & H3)]; [by left|].
    right. exists l. split_and!; [by apply Hl|auto..].
Qed.

(** A program's own step: [fs'] after it, the log grown by its reply if it decided. *)
Lemma good_update s0 w log s who p0 fs' p' log' s' j :
  good s0 w log s -> wd_progs w !! who = Some (Some p0) -> jobs !! who = Some j ->
  wf fs' -> R fs' s' -> serial s0 log' s' -> NoDup log'.*1 ->
  (forall i r, i <> who -> (i, r) ∈ log <-> (i, r) ∈ log') ->
  (forall l, fs_dir (wd_fs w) !! lockp = Some l -> fs_dir fs' !! lockp = Some l) ->
  (forall l i, i <> who -> fs_locks (wd_fs w) !! l = Some i <-> fs_locks fs' !! l = Some i) ->
  (forall l, fs_locks fs' !! l = Some who -> fs_dir fs' !! lockp = Some l) ->
  same (wd_fs w) fs' \/ (exists l, fs_locks (wd_fs w) !! l = Some who) ->
  prog_ok fs' log' who j p' ->
  good s0 (mkWorld fs' (<[who := Some p']> (wd_progs w))) log' s'.
Proof.
  intros [Hw HR Hrep Hnd Hown Hprog] Hp0 Hj Hw' HR' Hrep' Hnd' Hlog Hd Hl Hlw Hs Hp'.
  constructor; cbn; try done.
  - intros l i Hli. destruct (decide (i = who)) as [->|Hne]; [by apply Hlw|].
    apply Hd, (Hown l i). by apply Hl.
  - intros i p Hi. apply list_lookup_insert_Some in Hi as [(-> & [= <-] & _)|[Hne Hi]]; [by exists j|].
    destruct (Hprog i p Hi) as (j' & Hj' & Hok). exists j'. split; [done|].
    eapply prog_ok_frame; [exact Hd| | | |exact Hok].
    + intros l. by apply Hl.
    + destruct Hs as [Hs|[l0 Hl0]]; [by left|]. right. intros l Hli. pose proof (Hown _ _ Hl0). pose proof (Hown _ _ Hli). congruence.
    + intros r. by apply Hlog.
Qed.

Lemma log_snoc_others (log : list (nat * Out)) who r i (r' : Out) :
  i <> who -> (i, r') ∈ log <-> (i, r') ∈ log ++ [(who, r)].
Proof. intros Hne. rewrite elem_of_app, list_elem_of_singleton. split; [by left|]. intros [?|[= ? ?]]; done. Qed.

Lemma log_snoc_NoDup (log : list (nat * Out)) who r : who ∉ log.*1 -> NoDup log.*1 -> NoDup (log ++ [(who, r)]).*1.
Proof.
  intros Hn Hd. rewrite fmap_app. apply NoDup_app. split_and!; [done| |apply NoDup_singleton].
  intros x Hx [= ->]%list_elem_of_singleton. done.
Qed.

(** A decision without an effect. *)
Lemma decided s0 log s who j r :
  serial s0 log s -> NoDup log.*1 -> who ∉ log.*1 -> jobs !! who = Some j -> spec j s s r ->
  serial s0 (log ++ [(who, r)]) s /\ NoDup (log ++ [(who, r)]).*1 /\ (who, r) ∈ log ++ [(who, r)].
Proof.
  intros Hr Hd Hn Hj Hs. split_and!; [by eapply serial_snoc|by apply log_snoc_NoDup|].
  apply elem_of_app. right. by apply list_elem_of_singleton.
Qed.

Lemma outside_step s0 w log s who env c k j fs' a :
  good s0 w log s -> env_ok env -> wd_progs w !! who = Some (Some (Do c k)) -> jobs !! who = Some j ->
  who ∉ log.*1 -> hold_ok (wd_fs w) who Outside -> proto j Outside (Do c k) ->
  exec who (env c) c (wd_fs w) = Some (fs', a) ->
  exists log', good s0 (mkWorld fs' (<[who := Some (k a)]> (wd_progs w))) log' s.
Proof.
  intros Hg Henv Hp Hj Hn Hfree [Hc Hstep] He. pose proof Hg as [Hw HR Hrep Hnd Hown Hprog].
  pose proof (exec_outside who (env c) c (wd_fs w) fs' a Hc Hw Hfree He) as (Hs & Hw' & Hl & Hh).
  destruct (Hstep who env (wd_fs w) s fs' a Henv Hw HR He) as [(r & Hk & Hsp)|Hk].
  - destruct (decided s0 log s who j r) as (H1 & H2 & H3); try done.
    exists (log ++ [(who, r)]). eapply (good_update s0 w log s who); try done.
    + by eapply R_stable.
    + intros. by apply log_snoc_others.
    + apply (same_lock _ _ Hs).
    + intros. by rewrite Hl.
    + rewrite Hl. intros l Hli. by destruct (Hfree l).
    + by left.
    + right. exists r. split; [done|by left].
  - exists log. eapply (good_update s0 w log s who); try done.
    + by eapply R_stable.
    + apply (same_lock _ _ Hs).
    + intros. by rewrite Hl.
    + rewrite Hl. intros l Hli. by destruct (Hfree l).
    + by left.
    + left. split; [done|]. by exists (after_open c a).
Qed.

Lemma opened_step s0 w log s who env c k j l fs' a :
  good s0 w log s -> env_ok env -> wd_progs w !! who = Some (Some (Do c k)) -> jobs !! who = Some j ->
  who ∉ log.*1 -> hold_ok (wd_fs w) who (Opened l) -> proto j (Opened l) (Do c k) ->
  exec who (env c) c (wd_fs w) = Some (fs', a) ->
  exists log', good s0 (mkWorld fs' (<[who := Some (k a)]> (wd_progs w))) log' s.
Proof.
  intros Hg Henv Hp Hj Hn [Hfree Hl] [-> Hstep] He. pose proof (g_wf _ _ _ _ Hg) as Hw. pose proof (g_R _ _ _ _ Hg) as HR.
  specialize (Hstep who env (wd_fs w) s fs' a Henv Hw HR Hl He).
  assert (same (wd_fs w) fs' /\ wf fs' /\
    (forall l' i, i <> who -> fs_locks (wd_fs w) !! l' = Some i <-> fs_locks fs' !! l' = Some i) /\
    (forall l', fs_locks fs' !! l' = Some who -> l' = l) /\ hold_ok fs' who (after_lock fs' (CLock l) a)) as (Hs & Hw' & H1 & H2 & H3).
  { cbn in He, a |- *. destruct (env (CLock l)) as [|e|n e].
    - destruct (fs_locks (wd_fs w) !! l) as [o|] eqn:El; [done|]. injection He as <- <-.
      split_and!; [apply same_locks|by apply wf_locks| | |].
      + intros l' i Hi. destruct (decide (l' = l)) as [->|Hne].
        * rewrite El. cbn. rewrite lookup_insert_eq. split; congruence.
        * cbn. by rewrite lookup_insert_ne.
      + intros l'. cbn. rewrite lookup_insert_Some. intros [[? ?]|[? Hx]]; [done|]. by destruct (Hfree l').
      + cbn. split_and!; [apply same_refl|by rewrite lookup_insert_eq|done].
    - injection He as <- <-. split_and!; [apply same_refl|done|done| |done]. intros l' Hx. by destruct (Hfree l').
    - injection He as <- <-. split_and!; [apply same_refl|done|done| |done]. intros l' Hx. by destruct (Hfree l'). }
  pose proof Hg as [_ _ Hrep Hnd Hown Hprog].
  assert (fs_dir fs' !! lockp = Some l) as Hl' by by apply (same_lock _ _ Hs).
  destruct Hstep as [(r & Hk & Hsp)|Hk].
  - destruct (decided s0 log s who j r) as (D1 & D2 & D3); try done.
    exists (log ++ [(who, r)]). eapply (good_update s0 w log s who); try done.
    + by eapply R_stable.
    + intros. by apply log_snoc_others.
    + apply (same_lock _ _ Hs).
    + by intros l' ->%H2.
    + by left.
    + right. exists r. split; [done|by left].
  - exists log. eapply (good_update s0 w log s who); try done.
    + by eapply R_stable.
    + apply (same_lock _ _ Hs).
    + by intros l' ->%H2.
    + by left.
    + left. split; [done|]. by exists (after_lock fs' (CLock l) a).
Qed.

(** Releasing the lock [who] holds. *)
Lemma unlock_step s0 w log log' s who l fs' (k : unit -> Prog B Out) j r :
  good s0 w log s -> wd_progs w !! who = Some (Some (@Do B Out (CUnlock l) k)) -> jobs !! who = Some j ->
  fs_locks (wd_fs w) !! l = Some who -> fs_dir (wd_fs w) !! lockp = Some l ->
  serial s0 log' s -> NoDup log'.*1 -> (who, r) ∈ log' ->
  (forall i r', i <> who -> (i, r') ∈ log <-> (i, r') ∈ log') -> k tt = Ret r ->
  fs' = (wd_fs w) <| fs_locks ::= delete l |> ->
  good s0 (mkWorld fs' (<[who := Some (k tt)]> (wd_progs w))) log' s.
Proof.
  intros Hg Hp Hj Hlw Hld Hrep Hnd Hin Hlog Hk ->. pose proof Hg as [Hw HR _ _ Hown Hprog].
  eapply (good_update s0 w log s who); try done.
  - by apply wf_locks.
  - by apply R_locks.
  - intros l' i Hi. cbn. destruct (decide (l' = l)) as [->|Hne].
    + rewrite lookup_delete_eq, Hlw. split; congruence.
    + by rewrite lookup_delete_ne.
  - intros l'. cbn. rewrite lookup_delete_Some. intros [? Hx]. by apply Hown in Hx.
  - left. apply same_locks.
  - right. exists r. split; [done|by left].
Qed.

Lemma holding_step s0 w log s who env c k j l fs0 fs' a :
  good s0 w log s -> env_ok env -> wd_progs w !! who = Some (Some (Do c k)) -> jobs !! who = Some j ->
  who ∉ log.*1 -> hold_ok (wd_fs w) who (Holding l fs0) -> proto j (Holding l fs0) (Do c k) ->
  exec who (env c) c (wd_fs w) = Some (fs', a) ->
  exists log' s', good s0 (mkWorld fs' (<[who := Some (k a)]> (wd_progs w))) log' s'.
Proof.
  intros Hg Henv Hp Hj Hn (Hs & Hlw & Hld) Hstep He.
  destruct (Hstep who env (wd_fs w) s fs' a Henv Hs (g_wf _ _ _ _ Hg) Hld (g_R _ _ _ _ Hg) He)
    as [(-> & r & Hk & Hsp)|(Hw' & Hld' & Hlocks & Hk)].
  - destruct (decided s0 log s who j r) as (D1 & D2 & D3); try done; [apply Hg..|].
    injection He as <- <-. exists (log ++ [(who, r)]), s. eapply unlock_step; try done. intros. by apply log_snoc_others.
  - assert (forall l', fs_locks fs' !! l' = Some who -> fs_dir fs' !! lockp = Some l') as Hown'.
    { intros l' Hx. rewrite Hlocks in Hx. apply (g_owner _ _ _ _ Hg) in Hx. congruence. }
    destruct Hk as [[HR' Hk]|(s' & r & Hsp & HR' & Hk)].
    + exists log, s. pose proof Hg as [_ _ Hrep Hnd _ _]. eapply (good_update s0 w log s who); try done.
      * intros l' Hx. congruence.
      * intros. by rewrite Hlocks.
      * right. by exists l.
      * left. split; [done|]. exists (Holding l fs'). split; [|done].
        split_and!; [apply same_refl|by rewrite Hlocks|done].
    + exists (log ++ [(who, r)]), s'. pose proof Hg as [_ _ Hrep Hnd _ _].
      eapply (good_update s0 w log s who); try done.
      * by eapply serial_snoc.
      * by apply log_snoc_NoDup.
      * intros. by apply log_snoc_others.
      * intros l' Hx. congruence.
      * intros. by rewrite Hlocks.
      * right. by exists l.
      * right. exists r. split; [apply elem_of_app; right; by apply list_elem_of_singleton|].
        right. exists l. by rewrite Hlocks.
Qed.

Lemma good_step s0 w log s ev :
  good s0 w log s -> match ev with Step _ env => env_ok env | Kill _ => True end ->
  exists log' s', good s0 (world_step w ev) log' s'.
Proof.
  intros Hg Henv. destruct ev as [who env|who]; cbn; destruct (wd_progs w !! who) as [[[r|c k]|]|] eqn:Hp;
    try (exists log, s; exact Hg).
  - destruct (exec who (env c) c (wd_fs w)) as [[fs' a]|] eqn:He; [|exists log, s; exact Hg].
    destruct (g_progs _ _ _ _ Hg who _ Hp) as (j & Hj & [(Hn & h & Hh & Hpr)|(r & Hin & [Hk|(l & H1 & H2 & Hk)])]).
    + destruct h as [|l|l fs0].
      * destruct (outside_step s0 w log s who env c k j fs' a) as [log' H]; try done. by exists log', s.
      * destruct (opened_step s0 w log s who env c k j l fs' a) as [log' H]; try done. by exists log', s.
      * by apply (holding_step s0 w log s who env c k j l fs0 fs' a).
    + discriminate Hk.
    + destruct c; try done. destruct Hk as [-> Hk]. cbn in He. injection He as <- <-.
      exists log, s. eapply unlock_step; try done; apply Hg.
  - exists log, s. pose proof Hg as [Hw HR Hrep Hnd Hown Hprog]. constructor; cbn; try done.
    + by apply wf_locks.
    + by apply R_locks.
    + intros l i Hx. apply map_lookup_filter_Some in Hx as [Hx _]. by eapply Hown.
    + intros i p Hi. apply list_lookup_insert_Some in Hi as [(_ & ? & _)|[Hne Hi]]; [done|].
      destruct (Hprog i p Hi) as (j & Hj & Hok). exists j. split; [done|].
      eapply prog_ok_frame; [| | | |exact Hok]; cbn; [done| |left; apply same_locks|done].
      intros l. rewrite map_lookup_filter_Some. cbn. naive_solver.
Qed.

(** Programs that take the lock around their effect are serializable: whatever the interleaving, the failing calls and the kills, some of the jobs have taken effect one after the other, each once, the directory stands for what they leave, and every program that has answered is among them with that answer. *)
Theorem locked_atomic s0 w evs :
  good s0 w [] s0 ->
  Forall (fun ev => match ev with Step _ env => env_ok env | Kill _ => True end) evs ->
  exists log s, NoDup log.*1 /\ serial s0 log s /\ wf (wd_fs (run_world evs w)) /\ R (wd_fs (run_world evs w)) s /\
    forall i r, wd_progs (run_world evs w) !! i = Some (Some (Ret r)) -> (i, r) ∈ log.
Proof.
  intros Hg Hevs. assert (exists log s, good s0 (run_world evs w) log s) as (log & s & H).
  { enough (forall log s, good s0 w log s -> exists log' s', good s0 (run_world evs w) log' s') as HH by eauto.
    clear Hg. revert w. induction Hevs as [|ev evs Hev _ IH]; intros w log s Hg; cbn; [by exists log, s|].
    destruct (good_step s0 w log s ev Hg Hev) as (log' & s' & Hg'). by eapply IH. }
  exists log, s. split_and!; try apply H. intros i r Hi.
  destruct (g_progs _ _ _ _ H i _ Hi) as (j & _ & [(_ & h & _ & Hpr)|(r' & Hin & [[= ->]|(l & _ & _ & [])])]);
    [by destruct h|done].
Qed.

(** Before anyone runs. *)
Lemma good_initial s0 fs progs :
  wf fs -> R fs s0 -> fs_locks fs = ∅ ->
  (forall i p, progs !! i = Some (Some p) -> exists j, jobs !! i = Some j /\ proto j Outside p) ->
  good s0 (mkWorld fs progs) [] s0.
Proof.
  intros Hw HR Hl Hp. constructor; cbn; try done.
  - constructor.
  - constructor.
  - intros l i. by rewrite Hl, lookup_empty.
  - intros i p Hi. destruct (Hp i p Hi) as (j & Hj & Hpr). exists j. split; [done|]. left. split; [cbn; by apply not_elem_of_nil|].
    exists Outside. split; [|done]. intros l. cbn. by rewrite Hl, lookup_empty.
Qed.

End Locked.
