(* ===== verification/JsonStore.v ===== *)
(** * The file-backed state store

    [JsonStateStore] of the infrastructure crate ([state/json_store.rs]): the state
    document, its lock and backups, and the coordination file that holds the
    leader, the stage leases and the worker registry, and the ledger of refused
    writes ([state/quarantine.rs]). Every operation is the
    program of the file calls it makes ([FileSys]). A stamp is the nanosecond clock
    [snapshot_backup] names its copy with, [now] the caller's RFC 3339 clock. *)
From Stdlib Require Import FunctionalExtensionality SpecFloat.
From S2P Require Import Prelude RustStr Kinds TestCase Ticket Lifecycle State DepGraph StateOps Ports Shards Integrity Store ShardStore FileSys.

#[local] Open Scope prog_scope.

(** ** The coordination file *)

Definition LEADER_TTL_SECS : Z := 90.
Definition STAGE_TTL_SECS : Z := 1800.
Definition WORKER_TTL_SECS : Z := 600.
Definition MAX_BACKUPS : nat := 20.

Record GitCheck := mkGitCheck {
  gc_account : string;
  gc_api_ok : bool;
  gc_push_ok : bool;
  gc_detail : string;
  gc_remedy : string;
}.

Record Lease := mkLease { le_worker : string; le_at : string }.

Record StageLease := mkStageLease {
  sl_ticket : string;
  sl_stage : string;
  sl_worker : string;
  sl_at : string;
}.

Section Coordination.
(** [serde_json::Value], and [OffsetDateTime::parse] with [Rfc3339] as nanoseconds
    since the epoch. *)
Context {Value : Type} (parse_time : string -> option Z).

Record WorkerCaps := mkWorkerCaps {
  wc_engines : list string;
  wc_models : list string;
  wc_git : option GitCheck;
  wc_tooling : option Value;
  wc_version : string;
}.

Record WorkerEntry := mkWorkerEntry {
  we_worker : string;
  we_role : string;
  we_ticket : string;
  we_at : string;
  we_engines : list string;
  we_models : list string;
  we_git : option GitCheck;
  we_tooling : option Value;
  we_version : string;
}.

Record Coord := mkCoord {
  co_leader : option Lease;
  co_leases : list StageLease;
  co_workers : list WorkerEntry;
}.

Definition Coord_default : Coord := mkCoord None [] [].

(** [Duration::whole_seconds] of [n - a] rounds toward zero. *)
Definition age_secs (at_ now : string) : Z :=
  match parse_time at_, parse_time now with
  | Some a, Some n => Z.quot (n - a) 1000000000
  | _, _ => i64_max
  end.

(** The read-modify-write of [acquire_leader_blocking]; [None]: nothing to write. *)
Definition lead (worker now : string) (c : Coord) : option Coord :=
  let can_lead :=
    match co_leader c with
    | None => true
    | Some l => bool_decide (le_worker l = worker) || (LEADER_TTL_SECS <? age_secs (le_at l) now)%Z
    end in
  if can_lead then Some (mkCoord (Some (mkLease worker now)) (co_leases c) (co_workers c)) else None.

Definition lease_on (tk stage : string) (l : StageLease) : bool :=
  bool_decide (sl_ticket l = tk) && bool_decide (sl_stage l = stage).

Definition lease_live (now : string) (l : StageLease) : bool := (age_secs (sl_at l) now <=? STAGE_TTL_SECS)%Z.

(** The read-modify-write of [claim_stage_blocking]. *)
Definition take_stage (tk stage worker now : string) (c : Coord) : option Coord :=
  let leases := List.filter (lease_live now) (co_leases c) in
  let granted :=
    match List.find (lease_on tk stage) leases with
    | Some l => bool_decide (sl_worker l = worker)
    | None => true
    end in
  if granted then
    Some (mkCoord (co_leader c)
            (List.filter (fun l => negb (lease_on tk stage l)) leases ++ [mkStageLease tk stage worker now])
            (co_workers c))
  else None.

(** The read-modify-write of [heartbeat_blocking]. *)
Definition beat (worker role tk : string) (caps : WorkerCaps) (now : string) (c : Coord) : Coord :=
  mkCoord (co_leader c) (co_leases c)
    (List.filter (fun w => negb (bool_decide (we_worker w = worker)) && (age_secs (we_at w) now <=? WORKER_TTL_SECS)%Z)
       (co_workers c) ++ [mkWorkerEntry worker role tk now (wc_engines caps) (wc_models caps) (wc_git caps)
                          (wc_tooling caps) (wc_version caps)]).

Definition online (now : string) (c : Coord) : list WorkerEntry :=
  List.filter (fun w => (age_secs (we_at w) now <=? WORKER_TTL_SECS)%Z) (co_workers c).

End Coordination.
Arguments WorkerCaps : clear implicits.
Arguments WorkerEntry : clear implicits.
Arguments Coord : clear implicits.

(** ** The files *)

Definition STATE_FILE : string := "state.json".
Definition LOCK_FILE : string := ".state.lock".
Definition BACKUP_DIR : string := ".backups".
Definition COORD_FILE : string := ".coord.json".
Definition QUARANTINE_FILE : string := ".state.quarantine.json".

(** [.state.tmp.{pid}] *)
Definition tmp_path (pid : N) : string := ".state.tmp." +:+ dec pid.

(** [.backups/state-{stamp}.json] *)
Definition backup_path (stamp : N) : string := BACKUP_DIR +:+ "/" +:+ ("state-" +:+ dec stamp +:+ ".json").

Definition backend (e : IoErr) : PortError := Backend (io_text e).

Section Calls.
Context {B : Type}.
Implicit Types (A C : Type).

(** [program?] *)
Definition ptry {A C} (p : Prog B (result PortError A)) (k : A -> Prog B (result PortError C))
    : Prog B (result PortError C) :=
  pbind p (fun r => match r with Err e => Ret (Err e) | Ok a => k a end).

(** [call.map_err(|e| PortError::Backend(e.to_string()))] *)
Definition io {A} (r : result IoErr A) : result PortError A :=
  match r with Err e => Err (backend e) | Ok a => Ok a end.

Definition acquire_lock (path : string) : Prog B (result PortError nat) :=
  do! f := COpen path false in
  match io f with
  | Err e => Ret (Err e)
  | Ok l => do! r := CLock l in Ret (let? _ := io r in Ok l)
  end.

Definition atomic_write (pid : N) (final_path : string) (bytes : list B) : Prog B (result PortError unit) :=
  do! f := COpen (tmp_path pid) true in
  match io f with
  | Err e => Ret (Err e)
  | Ok f =>
      do! r := CWrite f bytes in
      match io r with
      | Err e => Ret (Err e)
      | Ok _ =>
          do! r := CSync f in
          match io r with
          | Err e => Ret (Err e)
          | Ok _ => do! r := CRename (tmp_path pid) final_path in Ret (io r)
          end
      end
  end.

Fixpoint remove_all (files : list string) : Prog B unit :=
  match files with
  | [] => Ret tt
  | f :: files => do! _ := CRemove f in remove_all files
  end.

Definition prune_backups (dir : string) (keep : nat) : Prog B unit :=
  do! r := CList dir in
  match r with
  | Err _ => Ret tt
  | Ok files =>
      let files := sort_by str_le files in
      if decide (keep < length files) then remove_all (take (length files - keep) files) else Ret tt
  end.

Definition snapshot_backup (stamp : N) : Prog B (result PortError unit) :=
  do! r := CMkdir BACKUP_DIR in
  match io r with
  | Err e => Ret (Err e)
  | Ok _ =>
      do! r := CCopy STATE_FILE (backup_path stamp) in
      match io r with
      | Err e => Ret (Err e)
      | Ok _ => run! _ := prune_backups BACKUP_DIR MAX_BACKUPS in Ret (Ok tt)
      end
  end.

(** A body under the lock file, the lock dropped after it. *)
Definition under_lock {A} (path : string) (body : Prog B (result PortError A)) : Prog B (result PortError A) :=
  run! lock := acquire_lock path in
  match lock with
  | Err e => Ret (Err e)
  | Ok l => run! outcome := body in do! _ := CUnlock l in Ret outcome
  end.

End Calls.

Section Store.
Context {B Value : Type}.
(** [serde_json], [OffsetDateTime::parse], and the write gate's verdict with the
    state it lets through. [refusal] is the text of the quarantine ledger after the
    gate recorded a refused state ([None] for a state that fails its validation,
    which is not recorded); the stamp stands for what else the ledger holds. *)
Context (state_to_json : ProjectState -> list B) (state_from_json : list B -> result string ProjectState).
Context (coord_to_json : Coord Value -> list B) (coord_from_json : list B -> option (Coord Value)).
Context (parse_time : string -> option Z) (gate : ProjectState -> result PortError ProjectState).
Context (refusal : N -> ProjectState -> option (list B)).
(** What [serde_json] reads back of the documents it writes: an [f64] comes back as
    the nearest number its parser gives, everything else as it was. *)
Context (readback : ProjectState -> ProjectState) (coord_readback : Coord Value -> Coord Value).

Definition parse_checked (bytes : list B) : result PortError ProjectState :=
  match state_from_json bytes with
  | Err e => Err (Corrupt e)
  | Ok st =>
      if (SCHEMA_VERSION <? schema_version st)%N
      then Err (Corrupt ("state schema_version " +:+ dec (schema_version st) +:+
             " is newer than supported " +:+ dec SCHEMA_VERSION +:+ "; upgrade coxagent"))
      else Ok st
  end.

(** The first file of [files] that reads and parses. *)
Fixpoint first_good (files : list string) : Prog B (option ProjectState) :=
  match files with
  | [] => Ret None
  | f :: files =>
      do! r := CRead f in
      match (b ← result_ok r; result_ok (parse_checked b)) with
      | Some st => Ret (Some st)
      | None => first_good files
      end
  end.

Definition recover_from_backup : Prog B (option ProjectState) :=
  do! r := CList BACKUP_DIR in
  match r with
  | Err _ => Ret None
  | Ok backups => first_good (rev (sort_by str_le backups))
  end.

Definition no_usable_backup (primary : PortError) : PortError :=
  Corrupt ("state.json corrupt and no usable backup: " +:+ port_error_text primary).

Definition load_blocking : Prog B (result PortError ProjectState) :=
  do! present := CExists STATE_FILE in
  if negb present then Ret (Ok ProjectState_default)
  else
    do! r := CRead STATE_FILE in
    match io r with
    | Err e => Ret (Err e)
    | Ok bytes =>
        match parse_checked bytes with
        | Ok st => Ret (Ok st)
        | Err primary =>
            run! recovered := recover_from_backup in
            Ret (match recovered with Some st => Ok st | None => Err (no_usable_backup primary) end)
        end
    end.

(** [std::fs::write] of the ledger file; a failure is logged and forgotten. *)
Definition record_refusal (stamp : N) (st : ProjectState) : Prog B unit :=
  match refusal stamp st with
  | None => Ret tt
  | Some text =>
      do! f := COpen QUARANTINE_FILE true in
      match f with
      | Err _ => Ret tt
      | Ok f => do! _ := CWrite f text in Ret tt
      end
  end.

(** The caller holds the lock. *)
Definition write_locked (pid stamp : N) (st : ProjectState) : Prog B (result PortError unit) :=
  match gate st with
  | Err e => run! _ := record_refusal stamp st in Ret (Err e)
  | Ok st =>
      do! present := CExists STATE_FILE in
      ptry (if present then snapshot_backup stamp else Ret (Ok tt)) (fun _ =>
      atomic_write pid STATE_FILE (state_to_json st))
  end.

Definition save_blocking (pid stamp : N) (st : ProjectState) : Prog B (result PortError unit) :=
  under_lock LOCK_FILE (write_locked pid stamp st).

Definition claim_blocking (pid stamp : N) (id worker now : string) : Prog B (result PortError bool) :=
  under_lock LOCK_FILE (
    ptry load_blocking (fun st =>
    match ticket id st with
    | None => Ret (Ok false)
    | Some t =>
        if bool_decide (is_Some (t_claimed_by t)) then Ret (Ok false)
        else match claim System worker now t with
        | Err _ => Ret (Ok false)
        | Ok t' => ptry (write_locked pid stamp (set_ticket id (fun _ => t') st)) (fun _ => Ret (Ok true))
        end
    end)).

Definition parse_coord (r : result IoErr (list B)) : Coord Value :=
  default Coord_default (b ← result_ok r; coord_from_json b).

Definition write_coord (pid : N) (c : Coord Value) : Prog B (result PortError unit) :=
  atomic_write pid COORD_FILE (coord_to_json c).

Definition acquire_leader_blocking (pid : N) (worker now : string) : Prog B (result PortError bool) :=
  under_lock LOCK_FILE (
    do! r := CRead COORD_FILE in
    match lead parse_time worker now (parse_coord r) with
    | Some c => ptry (write_coord pid c) (fun _ => Ret (Ok true))
    | None => Ret (Ok false)
    end).

Definition claim_stage_blocking (pid : N) (tk stage worker now : string) : Prog B (result PortError bool) :=
  under_lock LOCK_FILE (
    do! r := CRead COORD_FILE in
    match take_stage parse_time tk stage worker now (parse_coord r) with
    | Some c => ptry (write_coord pid c) (fun _ => Ret (Ok true))
    | None => Ret (Ok false)
    end).

Definition heartbeat_blocking (pid : N) (worker role tk : string) (caps : WorkerCaps Value) (now : string)
    : Prog B (result PortError unit) :=
  under_lock LOCK_FILE (
    do! r := CRead COORD_FILE in
    write_coord pid (beat parse_time worker role tk caps now (parse_coord r))).

Definition workers_blocking (now : string) : Prog B (list (WorkerEntry Value)) :=
  do! r := CRead COORD_FILE in Ret (online parse_time now (parse_coord r)).

(** [path.is_dir()] tells only the backup directory from the files. A missing path
    is already the goal. *)
Definition gone_ok (path : string) (r : result IoErr unit) : result PortError unit :=
  match r with
  | Ok _ => Ok tt
  | Err e => if io_not_found e then Ok tt else Err (Backend ("remove " +:+ path +:+ ": " +:+ io_text e))
  end.

Fixpoint delete_files (paths : list string) (k : Prog B (result PortError unit)) : Prog B (result PortError unit) :=
  match paths with
  | [] => k
  | path :: paths =>
      do! r := CRemove path in
      match gone_ok path r with
      | Err e => Ret (Err e)
      | Ok _ => delete_files paths k
      end
  end.

Definition delete_blocking : Prog B (result PortError unit) :=
  delete_files [STATE_FILE; COORD_FILE; LOCK_FILE]
    (do! r := CRemoveDir BACKUP_DIR in Ret (gone_ok BACKUP_DIR r)).

(** ** The operations of the port *)

(** [stamp] is the clock of the backup a write takes. *)
Inductive JsonJob :=
| JLoad
| JSave (stamp : N) (st : ProjectState)
| JClaimTicket (stamp : N) (id worker now : string)
| JLeader (worker now : string)
| JStage (tk stage worker now : string)
| JBeat (worker role tk : string) (caps : WorkerCaps Value) (now : string)
| JWorkers (now : string).

Inductive JsonOut := OState (st : ProjectState) | OUnit | OBool (b : bool) | OWorkers (l : list (WorkerEntry Value)).

Definition answered {A} (f : A -> JsonOut) (p : Prog B (result PortError A)) : Prog B (result PortError JsonOut) :=
  pbind p (fun r => Ret (result_map f r)).

(** The program of an operation in process [pid]. *)
Definition program (pid : N) (j : JsonJob) : Prog B (result PortError JsonOut) :=
  match j with
  | JLoad => answered OState load_blocking
  | JSave stamp st => answered (fun _ => OUnit) (save_blocking pid stamp st)
  | JClaimTicket stamp id worker now => answered OBool (claim_blocking pid stamp id worker now)
  | JLeader worker now => answered OBool (acquire_leader_blocking pid worker now)
  | JStage tk stage worker now => answered OBool (claim_stage_blocking pid tk stage worker now)
  | JBeat worker role tk caps now => answered (fun _ => OUnit) (heartbeat_blocking pid worker role tk caps now)
  | JWorkers now => pbind (workers_blocking now) (fun l => Ret (Ok (OWorkers l)))
  end.

(** ** What the directory stands for, and each operation at one instant *)

Record Stored := mkStored { js_state : option ProjectState; js_coord : Coord Value }.

Definition claim_now (id worker now : string) (st : ProjectState) : option ProjectState :=
  t ← ticket id st;
  if bool_decide (is_Some (t_claimed_by t)) then None
  else t' ← result_ok (claim System worker now t); Some (set_ticket id (fun _ => t') st).

Definition grant (c : option (Coord Value)) (s : Stored) : Stored * result PortError JsonOut :=
  match c with
  | Some c => (mkStored (js_state s) (coord_readback c), Ok (OBool true))
  | None => (s, Ok (OBool false))
  end.

Definition atomic (j : JsonJob) (s : Stored) : Stored * result PortError JsonOut :=
  match j with
  | JLoad => (s, Ok (OState (default ProjectState_default (js_state s))))
  | JSave _ st =>
      match gate st with
      | Err e => (s, Err e)
      | Ok st => (mkStored (Some (readback st)) (js_coord s), Ok OUnit)
      end
  | JClaimTicket _ id worker now =>
      match claim_now id worker now (default ProjectState_default (js_state s)) with
      | None => (s, Ok (OBool false))
      | Some st =>
          match gate st with
          | Err e => (s, Err e)
          | Ok st => (mkStored (Some (readback st)) (js_coord s), Ok (OBool true))
          end
      end
  | JLeader worker now => grant (lead parse_time worker now (js_coord s)) s
  | JStage tk stage worker now => grant (take_stage parse_time tk stage worker now (js_coord s)) s
  | JBeat worker role tk caps now =>
      (mkStored (js_state s) (coord_readback (beat parse_time worker role tk caps now (js_coord s))), Ok OUnit)
  | JWorkers now => (s, Ok (OWorkers (online parse_time now (js_coord s))))
  end.

(** An operation takes effect at one instant, or fails on a file call without one. *)
Definition spec (j : JsonJob) (s s' : Stored) (r : result PortError JsonOut) : Prop :=
  atomic j s = (s', r) \/ (s' = s /\ exists e, r = Err (backend e)).

Definition stands_for (storable : ProjectState -> Prop) (fs : Fs B) (s : Stored) : Prop :=
  match content fs STATE_FILE with
  | None => js_state s = None
  | Some b => exists st, parse_checked b = Ok st /\ storable st /\ js_state s = Some st
  end /\
  js_coord s = default Coord_default (content fs COORD_FILE ≫= coord_from_json).

(** What [serde_json] promises of these documents. [storable] are the states it
    reads back - an [f64] that is not finite is written as null, which is no number
    - whatever their tickets, which hold no [f64]; a worker's tooling report is the
    only part of the coordination file with numbers in it. *)
Record SerdeJson (storable : ProjectState -> Prop) : Prop := {
  sj_state st : storable st -> state_from_json (state_to_json st) = Ok (readback st);
  sj_again st : storable st -> storable (readback st);
  sj_tickets st : tickets (readback st) = tickets st;
  sj_schema st : schema_version (readback st) = schema_version st;
  sj_default : storable ProjectState_default;
  sj_set_ticket id f st : storable st -> storable (set_ticket id f st);
  sj_coord c : coord_from_json (coord_to_json c) = Some (coord_readback c);
  sj_leader c : co_leader (coord_readback c) = co_leader c;
  sj_leases c : co_leases (coord_readback c) = co_leases c;
}.

(** The gate only drops entries of the maps keyed by tickets. *)
Record GateKeeps (storable : ProjectState -> Prop) : Prop := {
  gk_schema st st' : gate st = Ok st' -> schema_version st' = schema_version st;
  gk_tickets st st' : gate st = Ok st' -> tickets st' = tickets st;
  gk_storable st st' : gate st = Ok st' -> storable st -> storable st';
}.

End Store.

(** ** Serializability *)

Section Atomic.
Context {B Value : Type}.
Context (state_to_json : ProjectState -> list B) (state_from_json : list B -> result string ProjectState).
Context (coord_to_json : Coord Value -> list B) (coord_from_json : list B -> option (Coord Value)).
Context (parse_time : string -> option Z) (gate : ProjectState -> result PortError ProjectState).
Context (refusal : N -> ProjectState -> option (list B)).
Context (readback : ProjectState -> ProjectState) (coord_readback : Coord Value -> Coord Value).
Context (storable : ProjectState -> Prop).
Context (serde : SerdeJson state_to_json state_from_json coord_to_json coord_from_json readback coord_readback storable).
Context (gate_keeps : GateKeeps gate storable).
Implicit Types (jobs : list (JsonJob (Value := Value))) (fs : Fs B) (s : Stored (Value := Value)) (j : JsonJob (Value := Value)).

#[local] Abbreviation Out := (result PortError (JsonOut (Value := Value))).
#[local] Abbreviation parse_checked := (parse_checked state_from_json).
#[local] Abbreviation stands_for := (stands_for state_from_json coord_from_json storable).
#[local] Abbreviation atomic := (atomic parse_time gate readback coord_readback).
#[local] Abbreviation spec := (spec parse_time gate readback coord_readback).
#[local] Abbreviation load_blocking := (load_blocking state_from_json).
#[local] Abbreviation write_locked := (write_locked state_to_json gate refusal).
#[local] Abbreviation program := (program state_to_json state_from_json coord_to_json coord_from_json parse_time gate refusal).

(** Reads of the coordination file succeed, where there is one; any other call may
    fail. *)
Definition reads_work (env : FsCall B -> Fault) : Prop := env (CRead COORD_FILE) = Done.

#[local] Abbreviation P := (proto LOCK_FILE stands_for spec reads_work).

(** The two documents. *)
Definition core fs : option (list B) * option (list B) := (content fs STATE_FILE, content fs COORD_FILE).

Definition stored_as (c : option (list B) * option (list B)) s : Prop :=
  match c.1 with
  | None => js_state s = None
  | Some b => exists st, parse_checked b = Ok st /\ storable st /\ js_state s = Some st
  end /\ js_coord s = default Coord_default (c.2 ≫= coord_from_json).

Lemma stands_stored fs s : stands_for fs s <-> stored_as (core fs) s.
Proof. done. Qed.

Lemma stands_core fs fs' s : core fs' = core fs -> stands_for fs s -> stands_for fs' s.
Proof. rewrite !stands_stored. by intros ->. Qed.

Lemma stands_det fs s s' : stands_for fs s -> stands_for fs s' -> s = s'.
Proof.
  destruct s as [a c], s' as [a' c']. intros [H1 H2] [H1' H2']. cbn in *.
  destruct (content fs STATE_FILE) as [b|]; [|congruence].
  destruct H1 as (x & ? & _ & ?), H1' as (y & ? & _ & ?). congruence.
Qed.

Lemma parse_written st : storable st -> supported st -> parse_checked (state_to_json st) = Ok (readback st).
Proof.
  intros Hst Hs. unfold JsonStore.parse_checked. rewrite (sj_state _ _ _ _ _ _ _ serde _ Hst).
  unfold supported in Hs. rewrite (sj_schema _ _ _ _ _ _ _ serde). by rewrite (proj2 (N.ltb_ge _ _) Hs).
Qed.

Lemma same_content fs fs' p : p <> LOCK_FILE -> same LOCK_FILE fs fs' -> content fs' p = content fs p.
Proof.
  intros Hp H. unfold content. rewrite (same_lookup LOCK_FILE fs fs' p H Hp).
  destruct (fs_dir fs !! p) as [i|] eqn:E; [|done]. cbn. f_equal. by eapply same_bytes.
Qed.

Lemma same_core fs fs' : same LOCK_FILE fs fs' -> core fs' = core fs.
Proof. intros H. unfold core. by rewrite !(same_content fs fs') by done. Qed.

Lemma stands_stable fs fs' s : same LOCK_FILE fs fs' -> stands_for fs s -> stands_for fs' s.
Proof. intros H. by apply stands_core, same_core. Qed.

(** *** Calls that change neither document *)

Definition quiet_call (c : FsCall B) : bool :=
  match c with
  | CExists _ | CRead _ | CMkdir _ | CList _ => true
  | CCopy _ q | CRemove q => inside BACKUP_DIR q
  | _ => false
  end.

Definition fits (c : FsCall B) : reply c -> Prop :=
  match c return reply c -> Prop with
  | CList d => fun r => match r with Ok l => Forall (fun p => inside d p = true) l | Err _ => True end
  | _ => fun _ => True
  end.

(** Quiet calls only, and an answer in [Q]. *)
Fixpoint quiet {A} (Q : A -> Prop) (p : Prog B A) : Prop :=
  match p with
  | Ret a => Q a
  | Do c k => quiet_call c = true /\ forall a, fits c a -> quiet Q (k a)
  end.

Lemma quiet_bind {A C} (Q : A -> Prop) (Q' : C -> Prop) (p : Prog B A) k :
  quiet Q p -> (forall a, Q a -> quiet Q' (k a)) -> quiet Q' (pbind p k).
Proof.
  intros Hp Hk. induction p as [a|c q IH]; cbn in *; [by apply Hk|].
  destruct Hp as [Hc Hp]. split; [done|]. intros a Ha. by apply IH, Hp.
Qed.

Lemma backup_other q : inside BACKUP_DIR q = true -> q <> STATE_FILE /\ q <> COORD_FILE /\ q <> LOCK_FILE.
Proof. intros H. split_and!; intros ->; discriminate H. Qed.

Lemma core_other fs fs' q :
  inside BACKUP_DIR q = true ->
  (forall x, x <> q -> content fs' x = content fs x /\ fs_dir fs' !! x = fs_dir fs !! x) ->
  core fs' = core fs /\ fs_dir fs' !! LOCK_FILE = fs_dir fs !! LOCK_FILE.
Proof.
  intros (H1 & H2 & H3)%backup_other H. unfold core.
  destruct (H STATE_FILE) as [-> _]; [congruence|]. destruct (H COORD_FILE) as [-> _]; [congruence|].
  destruct (H LOCK_FILE) as [_ ->]; [congruence|]. done.
Qed.

Lemma exec_quiet who f c fs fs' a :
  quiet_call c = true -> wf fs -> exec who f c fs = Some (fs', a) ->
  wf fs' /\ core fs' = core fs /\ fs_dir fs' !! LOCK_FILE = fs_dir fs !! LOCK_FILE /\ fs_locks fs' = fs_locks fs /\ fits c a.
Proof.
  intros Hq Hw. destruct c; try discriminate Hq; cbn [exec reply] in *; unfold run_call.
  - by intros [= <- <-].
  - by destruct f; intros [= <- <-].
  - by destruct f; intros [= <- <-].
  - assert (forall n r, copy p q n fs = (fs', r) -> wf fs' /\ core fs' = core fs /\
      fs_dir fs' !! LOCK_FILE = fs_dir fs !! LOCK_FILE /\ fs_locks fs' = fs_locks fs) as Hcopy.
    { intros n r Hc. destruct (copy_spec p q n fs fs' r Hw Hc) as (H1 & H2 & H3).
      by destruct (core_other fs fs' q Hq H3). }
    destruct f as [|e|n e]; [|by intros [= <- <-]|].
    + intros [= E]. by destruct (Hcopy None a E) as (? & ? & ? & ?).
    + destruct (copy p q (Some n) fs) as [fs1 r] eqn:E. intros [= <- <-].
      by destruct (Hcopy (Some n) r E) as (? & ? & ? & ?).
  - destruct f; [|by intros [= <- <-]..]. intros [= E].
    destruct (remove_spec _ _ _ _ Hw E) as (H1 & H2 & H3). by destruct (core_other fs fs' p Hq H3).
  - destruct f; [|by intros [= <- <-]..]. intros [= <- <-]. split_and!; try done. cbn. unfold list_dir.
    destruct (entries d fs) eqn:E; [done|]. rewrite <- E. apply Forall_forall. intros x Hx%entries_inside. by destruct Hx.
Qed.

Lemma proto_quiet {A} j l (Q : A -> Prop) (p : Prog B A) k fs :
  quiet Q p -> (forall fs' a, core fs' = core fs -> Q a -> P j (Holding l fs') (k a)) ->
  P j (Holding l fs) (pbind p k).
Proof.
  revert fs. induction p as [a|c q IH]; intros fs Hq Hk; [by apply Hk|].
  destruct Hq as [Hc Hq]. cbn [pbind proto]. intros who env fs1 s fs2 a Henv Hs Hw Hl HR He. right.
  destruct (exec_quiet _ _ _ _ _ _ Hc Hw He) as (H1 & H2 & H3 & H4 & H5).
  split_and!; [done|congruence|done|]. left. split; [by eapply stands_core|].
  apply IH; [by apply Hq|]. intros fs3 b H6. apply Hk. rewrite H6, H2. by apply same_core.
Qed.

Lemma proto_unlock j l fs r :
  (forall s, stands_for fs s -> spec j s s r) -> P j (Holding l fs) (Do (CUnlock l) (fun _ => Ret r)).
Proof.
  intros H who env fs1 s fs2 a _ Hs Hw Hl HR He. left. split; [done|]. exists r. split; [done|].
  apply H. eapply stands_core; [|exact HR]. symmetry. by apply same_core.
Qed.

Lemma proto_lock {A} j (body : Prog B (result PortError A)) (f : A -> JsonOut) :
  (forall l fs, P j (Holding l fs) (pbind body (fun r => Do (CUnlock l) (fun _ => Ret (result_map f r))))) ->
  P j Outside (answered f (under_lock LOCK_FILE body)).
Proof.
  intros H. unfold answered, under_lock, acquire_lock. cbn [pbind]. split; [done|].
  intros who env fs s fs' a Henv Hw HR He. destruct a as [l|e]; cbn [pbind].
  - right. cbn [after_open io]. split; [done|]. intros who1 env1 fs1 s1 fs2 [[]|e] _ _ _ _ He1.
    + right. cbn [after_lock pbind result_bind io]. rewrite pbind_assoc. apply H.
    + left. cbn. eexists. split; [reflexivity|]. right. split; [done|]. by exists e.
  - left. eexists. split; [reflexivity|]. right. split; [done|]. by exists e.
Qed.

(** *** The atomic write *)

Lemma tmp_other pid : tmp_path pid <> STATE_FILE /\ tmp_path pid <> COORD_FILE /\ tmp_path pid <> LOCK_FILE.
Proof. done. Qed.

Lemma quiet_step j l fs c k :
  quiet_call c = true -> (forall fs' a, core fs' = core fs -> fits c a -> P j (Holding l fs') (k a)) ->
  P j (Holding l fs) (Do c k).
Proof.
  intros Hc Hk who env fs1 s fs2 a Henv Hs Hw Hl HR He. right.
  destruct (exec_quiet _ _ _ _ _ _ Hc Hw He) as (H1 & H2 & H3 & H4 & H5).
  split_and!; [done|congruence|done|]. left. split; [by eapply stands_core|].
  apply Hk; [|done]. rewrite H2. by apply same_core.
Qed.

(** A call of [atomic_write] before the rename leaves [fs'] of [fs]. *)
Definition private fs (l : nat) (fs' : Fs B) : Prop :=
  wf fs' /\ core fs' = core fs /\ fs_dir fs' !! LOCK_FILE = Some l /\ fs_locks fs' = fs_locks fs.

Lemma open_private p l fs :
  p <> STATE_FILE /\ p <> COORD_FILE /\ p <> LOCK_FILE ->
  wf fs -> fs_dir fs !! LOCK_FILE = Some l ->
  private fs l (open_path p true fs).1.
Proof.
  intros (H1 & H2 & H3) Hw Hl. unfold private. split_and!.
  - by apply open_wf.
  - unfold core. by rewrite !open_content_ne.
  - by rewrite open_dir_ne.
  - apply open_path_locks.
Qed.

Lemma write_private p i b l fs :
  p <> STATE_FILE /\ p <> COORD_FILE /\ p <> LOCK_FILE ->
  wf fs -> fs_dir fs !! LOCK_FILE = Some l -> fs_dir fs !! p = Some i ->
  private fs l (write_bytes i b fs) /\
  fs_dir (write_bytes i b fs) !! p = Some i /\
  (content fs p = Some [] -> content (write_bytes i b fs) p = Some b).
Proof.
  intros (H1 & H2 & H3) Hw Hl Hi. unfold write_bytes, private. split_and!.
  - by apply wf_data.
  - unfold core. by rewrite !(content_data_ne fs i _ _ p).
  - by destruct fs.
  - by destruct fs.
  - by destruct fs.
  - intros Hc. rewrite content_data, decide_True by done. f_equal. unfold content in Hc. rewrite Hi in Hc. cbn in Hc.
    injection Hc as ->. apply overlay_nil.
Qed.

(** The documents after [final_path] was replaced. *)
Definition replaced (final_path : string) (b : list B) (c : option (list B) * option (list B)) :=
  if decide (final_path = STATE_FILE) then (Some b, c.2) else (c.1, Some b).

Lemma rename_core pid i final_path b fs :
  final_path = STATE_FILE \/ final_path = COORD_FILE ->
  wf fs -> fs_dir fs !! tmp_path pid = Some i -> content fs (tmp_path pid) = Some b ->
  exists fs', rename (tmp_path pid) final_path fs = (fs', Ok tt) /\ wf fs' /\ fs_locks fs' = fs_locks fs /\
    core fs' = replaced final_path b (core fs) /\ fs_dir fs' !! LOCK_FILE = fs_dir fs !! LOCK_FILE.
Proof.
  intros Hf Hw Hi Hb. destruct (tmp_other pid) as (H1 & H2 & H3).
  destruct (rename_spec (tmp_path pid) final_path i fs Hw Hi) as (fs' & E & H4 & H5 & H6 & H7); [naive_solver|].
  exists fs'. split_and!; try done.
  - unfold core, replaced. destruct Hf as [-> | ->]; cbn [fst snd].
    + destruct (H7 COORD_FILE) as [-> _]; [done..|]. by rewrite H6, Hb.
    + destruct (H7 STATE_FILE) as [-> _]; [done..|]. by rewrite H6, Hb.
  - destruct (H7 LOCK_FILE) as [_ ->]; [done| |done]. by destruct Hf as [-> | ->].
Qed.

(** The temporary file holds [b] under inode [i]. *)
Definition staged (pid : N) (i : nat) (b : list B) fs : Prop :=
  fs_dir fs !! tmp_path pid = Some i /\ content fs (tmp_path pid) = Some b.

Lemma staged_same pid i b fs fs' : same LOCK_FILE fs fs' -> staged pid i b fs -> staged pid i b fs'.
Proof.
  intros H [H1 H2]. destruct (tmp_other pid) as (_ & _ & Hne). split.
  - by rewrite (same_lookup LOCK_FILE fs fs' _ H Hne).
  - by rewrite (same_content fs fs' _ Hne H).
Qed.

Section Write.
Context (j : JsonJob (Value := Value)) (l : nat) (pid : N) (final_path : string) (b : list B).
Context (c0 : option (list B) * option (list B)).
Context (k : result PortError unit -> Prog B Out).
Context (Hfinal : final_path = STATE_FILE \/ final_path = COORD_FILE).
Context (Herr : forall fs e, core fs = c0 -> P j (Holding l fs) (k (Err (backend e)))).
Context (Hok : forall s, stored_as c0 s -> exists s' r, spec j s s' r /\ settled l r (k (Ok tt)) /\
  stored_as (replaced final_path b c0) s').

Lemma proto_rename i fs :
  core fs = c0 -> staged pid i b fs ->
  P j (Holding l fs) (Do (CRename (tmp_path pid) final_path) (fun r => k (io r))).
Proof.
  intros Hc0 Hst who env fs1 s fs2 a Henv Hs Hw Hl HR He. right.
  pose proof (same_core _ _ Hs) as Hc. destruct (staged_same _ _ _ _ _ Hs Hst) as [Hi Hb].
  destruct (rename_core pid i final_path b fs1 Hfinal Hw Hi Hb) as (fs' & Er & H1 & H2 & H3 & H4).
  cbn [exec] in He. unfold run_call in He. destruct (env _) as [|e|n e].
  - rewrite Er in He. injection He as <- <-. split_and!; [done|congruence|done|]. right.
    destruct (Hok s) as (s' & r & Hsp & Hset & Hst').
    { rewrite <- Hc0, <- Hc. exact HR. }
    exists s', r. split_and!; [done| |exact Hset]. apply stands_stored. by rewrite H3, Hc, Hc0.
  - injection He as <- <-. split_and!; try done. left. split; [done|]. apply Herr. congruence.
  - injection He as <- <-. split_and!; try done. left. split; [done|]. apply Herr. congruence.
Qed.

Lemma proto_sync i fs :
  core fs = c0 -> staged pid i b fs ->
  P j (Holding l fs) (Do (CSync i) (fun r => match io r with
    | Err e => k (Err e)
    | Ok _ => Do (CRename (tmp_path pid) final_path) (fun r => k (io r))
    end)).
Proof.
  intros Hc0 Hst who env fs1 s fs2 a Henv Hs Hw Hl HR He. right. pose proof (same_core _ _ Hs) as Hc.
  cbn [exec] in He. unfold run_call in He. destruct (env _) as [|e|n e]; injection He as <- <-;
    (split_and!; [done..|]; left; split; [done|]); cbn [io].
  - apply (proto_rename i); [congruence|by eapply staged_same].
  - apply Herr. congruence.
  - apply Herr. congruence.
Qed.

Lemma proto_write i fs :
  core fs = c0 -> staged pid i [] fs ->
  P j (Holding l fs) (Do (CWrite i b) (fun r => match io r with
    | Err e => k (Err e)
    | Ok _ => Do (CSync i) (fun r => match io r with
        | Err e => k (Err e)
        | Ok _ => Do (CRename (tmp_path pid) final_path) (fun r => k (io r))
        end)
    end)).
Proof.
  intros Hc0 Hst who env fs1 s fs2 a Henv Hs Hw Hl HR He. right. pose proof (same_core _ _ Hs) as Hc.
  destruct (staged_same _ _ _ _ _ Hs Hst) as [Hi Hb].
  cbn [exec] in He. unfold run_call in He. destruct (env _) as [|e|n e]; injection He as <- <-; cbn [io].
  - destruct (write_private _ i b l fs1 (tmp_other pid) Hw Hl Hi) as ((W1 & W2 & W3 & W4) & W5 & W6).
    split_and!; [done..|]. left. split; [by eapply stands_core|]. apply (proto_sync i); [congruence|split; auto].
  - split_and!; [done..|]. left. split; [done|]. apply Herr. congruence.
  - destruct (write_private _ i (take n b) l fs1 (tmp_other pid) Hw Hl Hi) as ((W1 & W2 & W3 & W4) & W5 & W6).
    split_and!; [done..|]. left. split; [by eapply stands_core|]. apply Herr. congruence.
Qed.

Lemma proto_atomic_write fs : core fs = c0 -> P j (Holding l fs) (pbind (atomic_write pid final_path b) k).
Proof.
  intros Hc0 who env fs1 s fs2 a Henv Hs Hw Hl HR He. right. pose proof (same_core _ _ Hs) as Hc.
  pose proof (open_private _ l fs1 (tmp_other pid) Hw Hl) as (O1 & O2 & O3 & O4).
  pose proof (open_path_dir (tmp_path pid) true fs1 _ eq_refl) as O5.
  pose proof (open_trunc_content (tmp_path pid) fs1) as O6.
  cbn [exec] in He. destruct (open_path (tmp_path pid) true fs1) as [fs1' i]. cbn [fst snd] in *.
  unfold run_call in He. destruct (env _) as [|e|n e]; injection He as <- <-; cbn [io].
  - split_and!; [done..|]. left. split; [by eapply stands_core|].
    assert (forall X : Prog B Out, X = Do (CWrite i b) (fun r => match io r with
      | Err e => k (Err e)
      | Ok _ => Do (CSync i) (fun r => match io r with
          | Err e => k (Err e)
          | Ok _ => Do (CRename (tmp_path pid) final_path) (fun r => k (io r))
          end)
      end) -> P j (Holding l fs1') X) as HX.
    { intros X ->. apply proto_write; [congruence|done]. }
    apply HX. cbn [pbind]. f_equal. apply functional_extensionality. intros [u|e]; cbn [io pbind]; [|done].
    f_equal. apply functional_extensionality. intros [u'|e]; cbn [io pbind]; done.
  - split_and!; [done..|]. left. split; [done|]. apply Herr. congruence.
  - split_and!; [done..|]. left. split; [done|]. apply Herr. congruence.
Qed.
End Write.

(** *** The operations *)

(** Only a file call failed. *)
Definition io_error {A} (r : result PortError A) : Prop :=
  match r with Ok _ => True | Err e => exists io, e = backend io end.

Lemma quiet_remove_all files :
  Forall (fun f => inside BACKUP_DIR f = true) files -> quiet (fun _ => True) (remove_all files).
Proof. induction 1 as [|f files Hf _ IH]; cbn; [done|]. by split. Qed.

Lemma quiet_prune : quiet (fun _ => True) (prune_backups BACKUP_DIR MAX_BACKUPS).
Proof.
  cbn. split; [done|]. intros [files|e] Hf; cbn in *; [|done]. case_decide; [|done].
  apply quiet_remove_all, Forall_take. by rewrite sort_by_perm.
Qed.

Lemma quiet_snapshot stamp : quiet io_error (snapshot_backup stamp).
Proof.
  cbn [snapshot_backup quiet]. split; [done|]. intros [u|e] _; cbn [io quiet io_error]; [|by exists e].
  split; [done|]. intros [u'|e] _; cbn [io quiet io_error]; [|by exists e].
  by apply (quiet_bind _ _ _ _ quiet_prune).
Qed.

Lemma quarantine_other : QUARANTINE_FILE <> STATE_FILE /\ QUARANTINE_FILE <> COORD_FILE /\ QUARANTINE_FILE <> LOCK_FILE.
Proof. done. Qed.

(** The ledger of refusals is a file of its own. *)
Lemma proto_refusal j l fs stamp st (k : unit -> Prog B Out) :
  (forall fs', core fs' = core fs -> P j (Holding l fs') (k tt)) ->
  P j (Holding l fs) (pbind (record_refusal refusal stamp st) k).
Proof.
  intros Hk. unfold record_refusal. destruct (refusal stamp st) as [text|]; cbn [pbind]; [|by apply Hk].
  intros who env fs1 s fs2 a Henv Hs Hw Hl HR He. right. pose proof (same_core _ _ Hs) as Hc.
  pose proof (open_private _ l fs1 quarantine_other Hw Hl) as (O1 & O2 & O3 & O4).
  pose proof (open_path_dir QUARANTINE_FILE true fs1 _ eq_refl) as O5.
  cbn [exec] in He. destruct (open_path QUARANTINE_FILE true fs1) as [fs1' i]. cbn [fst snd] in *.
  unfold run_call in He. destruct (env _) as [|e|n e]; injection He as <- <-; cbn [pbind].
  2,3: split_and!; [done..|]; left; split; [done|]; by apply Hk.
  split_and!; [done..|]. left. split; [by eapply stands_core|].
  intros who' env' fs3 s3 fs4 r Henv' Hs' Hw' Hl' HR' He'. right. pose proof (same_core _ _ Hs') as Hc'.
  assert (fs_dir fs3 !! QUARANTINE_FILE = Some i) as Hi by by rewrite (same_lookup LOCK_FILE _ _ _ Hs').
  pose proof (fun b => write_private _ i b l fs3 quarantine_other Hw' Hl' Hi) as Hb.
  cbn [exec] in He'. unfold run_call in He'. destruct (env' _) as [|e|n e]; injection He' as <- <-.
  2:{ split_and!; [done..|]. left. split; [done|]. apply Hk. congruence. }
  all: match goal with |- wf (write_bytes _ ?b _) /\ _ => destruct (Hb b) as ((W1 & W2 & W3 & W4) & _) end.
  all: split_and!; [done..|]; left; split; [by eapply stands_core|]; apply Hk; congruence.
Qed.

(** A body that ends by writing the documents and answering [f]. *)
Lemma proto_write_locked j l fs pid stamp st (k : result PortError unit -> Prog B Out)
    (f : result PortError unit -> Out) :
  (forall r, k r = Do (CUnlock l) (fun _ => Ret (f r))) ->
  (forall e, f (Err e) = Err e) -> storable st -> supported st ->
  (forall s, stands_for fs s -> atomic j s = match gate st with
     | Err e => (s, f (Err e))
     | Ok st => (mkStored (Some (readback st)) (js_coord s), f (Ok tt))
     end) ->
  P j (Holding l fs) (pbind (write_locked pid stamp st) k).
Proof.
  intros Hk Hf Hst Hsup Hat. unfold JsonStore.write_locked. destruct (gate st) as [st'|e] eqn:Eg; cbn [pbind].
  2:{ rewrite pbind_assoc. apply proto_refusal. intros fs' Hc. cbn [pbind]. rewrite Hk. apply proto_unlock.
      intros s HR. left. apply Hat. by eapply stands_core. }
  assert (forall fs' e, core fs' = core fs -> P j (Holding l fs') (k (Err (backend e)))) as Herr.
  { intros fs' e Hc. rewrite Hk. apply proto_unlock. intros s HR. right. split; [done|]. rewrite Hf. by exists e. }
  assert (forall fs', core fs' = core fs -> P j (Holding l fs') (pbind (atomic_write pid STATE_FILE (state_to_json st')) k)) as Hw.
  { intros fs' Hc. apply (proto_atomic_write j l pid STATE_FILE _ (core fs)); [by left|done| |done].
    intros s HR. exists (mkStored (Some (readback st')) (js_coord s)), (f (Ok tt)). split_and!.
    - left. by apply Hat.
    - by rewrite Hk.
    - unfold stored_as, replaced. rewrite decide_True by done. cbn. split; [|apply HR].
      pose proof (gk_storable _ _ gate_keeps _ _ Eg Hst) as Hst'. exists (readback st'). split_and!; [|by apply serde|done].
      apply parse_written; [done|]. unfold supported. by rewrite (gk_schema _ _ gate_keeps _ _ Eg). }
  apply quiet_step; [done|]. intros fs1 [] Hc1 _; cbn [pbind]; unfold ptry; cbn [pbind].
  - rewrite pbind_assoc. apply (proto_quiet _ _ _ _ _ _ (quiet_snapshot stamp)). intros fs2 [u|e] Hc2 Hq; cbn [pbind].
    + apply Hw. congruence.
    + destruct Hq as [e' ->]. apply Herr. congruence.
  - by apply Hw.
Qed.

(** Under the lock the document reads back, unless the read fails. *)
Lemma proto_load j l fs (k : result PortError ProjectState -> Prog B Out) :
  (forall fs' e, core fs' = core fs -> P j (Holding l fs') (k (Err (backend e)))) ->
  (forall fs' st, core fs' = core fs -> (forall s, stands_for fs' s -> st = default ProjectState_default (js_state s)) ->
     storable st -> supported st -> P j (Holding l fs') (k (Ok st))) ->
  P j (Holding l fs) (pbind load_blocking k).
Proof.
  intros Herr Hk who env fs1 s fs2 a Henv Hs Hw Hl HR He. right. cbn [exec] in He. injection He as <- <-.
  pose proof (same_core _ _ Hs) as Hc. split_and!; [done..|]. left. split; [done|]. unfold path_exists. case_bool_decide as Hex; cbn [negb pbind].
  2:{ apply Hk; [done| |apply serde|done]. intros s1 [H1 _]. destruct (content fs1 STATE_FILE) as [b|] eqn:Eb; [|by rewrite H1].
      destruct Hex. unfold content in Eb. by destruct (fs_dir fs1 !! STATE_FILE). }
  intros who' env' fs3 s3 fs4 a Henv' Hs' Hw' Hl' HR' He'. right. pose proof (same_core _ _ Hs') as Hc'.
  cbn [exec] in He'. unfold run_call in He'. destruct (env' _) as [|e|n e]; injection He' as <- <-;
    (split_and!; [done..|]); left; (split; [done|]); [|cbn [io pbind]; apply Herr; congruence..].
  destruct HR' as [Hst _]. unfold read_path. destruct (content fs3 STATE_FILE) as [b|] eqn:Eb.
  - destruct Hst as (st & Hp & Hsb & Hst). cbn [io pbind]. rewrite Hp. apply Hk; [congruence| |done|].
    + intros s4 [H4 _]. rewrite Eb in H4. destruct H4 as (st' & Hp' & _ & ->). cbn. congruence.
    + unfold JsonStore.parse_checked in Hp. destruct (state_from_json b) as [x|]; [|done].
      destruct (_ <? _)%N eqn:Ev; [done|]. injection Hp as ->. by apply N.ltb_ge in Ev.
  - exfalso. assert (content fs3 STATE_FILE = content fs1 STATE_FILE) as Hcc by (unfold core in Hc'; congruence).
    rewrite Eb in Hcc. unfold content in Hcc. by destruct (fs_dir fs1 !! STATE_FILE), Hex.
Qed.

Lemma proto_save pid stamp st :
  storable st -> supported st ->
  P (JSave stamp st) Outside (answered (fun _ => OUnit) (save_blocking state_to_json gate refusal pid stamp st)).
Proof.
  intros Hst Hs. apply proto_lock. intros l fs. apply (proto_write_locked _ _ _ _ _ _ _ (result_map (fun _ => OUnit))); [done..|].
  intros s _. cbn. by destruct (gate st).
Qed.

Lemma supported_set id f st : supported st -> supported (set_ticket id f st).
Proof. done. Qed.

Lemma proto_claim pid stamp id worker now :
  P (JClaimTicket stamp id worker now) Outside
    (answered OBool (claim_blocking state_to_json state_from_json gate refusal pid stamp id worker now)).
Proof.
  apply proto_lock. intros l fs. unfold ptry. rewrite pbind_assoc. apply proto_load.
  { intros fs' e _. cbn [pbind]. apply proto_unlock. intros s _. right. split; [done|]. by exists e. }
  intros fs1 st Hc Hst Hsb Hsup.
  assert (claim_now id worker now st = None ->
    P (JClaimTicket stamp id worker now) (Holding l fs1) (Do (CUnlock l) (fun _ => Ret (Ok (OBool false))))) as Hlost.
  { intros Hn. apply proto_unlock. intros s HR. left. cbn. by rewrite <- (Hst s HR), Hn. }
  unfold claim_now in Hlost. cbn [pbind]. destruct (ticket id st) as [t|] eqn:Et; [|exact (Hlost eq_refl)]. cbn in Hlost.
  destruct (bool_decide (is_Some (t_claimed_by t))) eqn:Ec; [exact (Hlost eq_refl)|].
  destruct (claim System worker now t) as [t'|e] eqn:Ek; [|exact (Hlost eq_refl)].
  unfold ptry. rewrite pbind_assoc.
  apply (proto_write_locked _ _ _ _ _ _ _ (result_map (fun _ => OBool true))); [by intros [[]|e]|done|by apply serde|done|].
  intros s HR. cbn. rewrite <- (Hst s HR). unfold claim_now. rewrite Et. cbn. rewrite Ec, Ek. cbn.
    by destruct (gate _).
Qed.

(** A read-modify-write of the coordination file. *)
Lemma proto_coord {A} j pid (f : A -> JsonOut) (step : Coord Value -> option (Coord Value)) (won lost : A) :
  (forall s, atomic j s = match step (js_coord s) with
     | Some c => (mkStored (js_state s) (coord_readback c), Ok (f won))
     | None => (s, Ok (f lost))
     end) ->
  P j Outside (answered f (under_lock LOCK_FILE (Do (CRead COORD_FILE) (fun r =>
    match step (parse_coord coord_from_json r) with
    | Some c => ptry (write_coord coord_to_json pid c) (fun _ => Ret (Ok won))
    | None => Ret (Ok lost)
    end)))).
Proof.
  intros Hat. apply proto_lock. intros l fs who env fs1 s fs2 a Henv Hs Hw Hl HR He. right.
  cbn [exec] in He. rewrite Henv in He. injection He as <- <-. split_and!; [done..|]. left. split; [done|].
  assert (forall s', stands_for fs1 s' -> parse_coord coord_from_json (read_path COORD_FILE fs1) = js_coord s') as Hpc.
  { intros s' [_ ->]. unfold parse_coord, read_path. by destruct (content fs1 COORD_FILE). }
  destruct (step (parse_coord coord_from_json (read_path COORD_FILE fs1))) as [c|] eqn:Ec.
  - unfold ptry. rewrite pbind_assoc. apply (proto_atomic_write j l pid COORD_FILE _ (core fs1)); [by right| | |done].
    + intros fs3 e _. cbn [pbind]. apply proto_unlock. intros s' _. right. split; [done|]. by exists e.
    + intros s' HR'. exists (mkStored (js_state s') (coord_readback c)), (Ok (f won)). split_and!; [|done|].
      * left. rewrite Hat, <- (Hpc s') by done. by rewrite Ec.
      * unfold stored_as, replaced. rewrite decide_False by done. cbn. split; [apply HR'|]. by rewrite (sj_coord _ _ _ _ _ _ _ serde).
  - cbn [pbind]. apply proto_unlock. intros s' HR'. left. rewrite Hat, <- (Hpc s') by done. by rewrite Ec.
Qed.

Lemma proto_beat pid worker role tk caps now :
  P (JBeat worker role tk caps now) Outside (program pid (JBeat worker role tk caps now)).
Proof.
  assert (program pid (JBeat worker role tk caps now) =
    answered (fun _ : unit => OUnit) (under_lock LOCK_FILE (Do (CRead COORD_FILE) (fun r =>
      match Some (beat parse_time worker role tk caps now (parse_coord coord_from_json r)) with
      | Some c => ptry (write_coord coord_to_json pid c) (fun _ => Ret (Ok tt))
      | None => Ret (Ok tt)
      end)))) as ->.
  { cbn [JsonStore.program]. unfold answered, heartbeat_blocking, under_lock. rewrite !pbind_assoc. apply pbind_ext.
    intros [l|e]; [|done]. rewrite !pbind_assoc. cbn [pbind]. f_equal. apply functional_extensionality. intros r.
    unfold ptry. rewrite pbind_assoc. apply pbind_ext. by intros [[]|e]. }
  apply (proto_coord (JBeat worker role tk caps now) pid (fun _ => OUnit) (fun c => Some (beat parse_time worker role tk caps now c)) tt tt).
  done.
Qed.

Lemma proto_load_job : P JLoad Outside (answered OState load_blocking).
Proof.
  split; [done|]. intros who env fs s fs' a Henv Hw [HR _] He. cbn [exec] in He. injection He as <- <-.
  unfold path_exists. case_bool_decide as Hex; cbn [negb].
  - right. split; [done|]. intros who' env' fs1 s1 fs2 a' Henv' Hw' [HR' _] He'. left. cbn [exec] in He'.
    unfold run_call in He'. destruct (env' _) as [|e|n e]; injection He' as <- <-.
    2,3: eexists; split; [reflexivity|]; right; split; [done|]; by exists e.
    unfold read_path. destruct (content fs1 STATE_FILE) as [b|]; cbn [io pbind].
    + destruct HR' as (st & Hp & _ & Hst). rewrite Hp. eexists. split; [reflexivity|]. left. cbn. by rewrite Hst.
    + eexists. split; [reflexivity|]. right. split; [done|]. by exists no_entry.
  - left. eexists. split; [reflexivity|]. left. unfold content in HR.
    destruct (fs_dir fs !! STATE_FILE) as [i|]; [by destruct Hex|]. cbn in *. by rewrite HR.
Qed.

Lemma proto_workers now : P (JWorkers now) Outside (program 0 (JWorkers now)).
Proof.
  split; [done|]. intros who env fs s fs' a Henv Hw [_ HR] He. left. cbn [exec] in He. rewrite Henv in He.
  injection He as <- <-. eexists. split; [reflexivity|]. left. cbn. rewrite HR. unfold parse_coord, read_path.
  by destruct (content fs COORD_FILE).
Qed.

(** What a caller of this build saves. *)
Definition supported_job j : Prop := match j with JSave _ st => storable st /\ supported st | _ => True end.

Lemma proto_program pid j : supported_job j -> P j Outside (program pid j).
Proof.
  destruct j as [|stamp st|stamp id worker now|worker now|tk stage worker now|worker role tk caps now|now]; intros Hs.
  - apply proto_load_job.
  - destruct Hs. by apply proto_save.
  - apply proto_claim.
  - by apply (proto_coord (JLeader worker now) pid OBool (lead parse_time worker now)).
  - by apply (proto_coord (JStage tk stage worker now) pid OBool (take_stage parse_time tk stage worker now)).
  - apply proto_beat.
  - apply proto_workers.
Qed.

(** Processes [pids] each run one operation of [jobs]. *)
Definition start (fs : Fs B) (jobs : list (JsonJob (Value := Value))) (pids : nat -> N) : World B Out :=
  mkWorld fs (imap (fun i j => Some (program (pids i) j)) jobs).

Definition calm (ev : Event B) : Prop := match ev with Step _ env => reads_work env | Kill _ => True end.

(** The operations of the log, one after the other. *)
Definition one_by_one (jobs : list (JsonJob (Value := Value))) : Stored (Value := Value) -> list (nat * Out) -> Stored (Value := Value) -> Prop := serial spec jobs.

Lemma start_good fs s0 jobs pids :
  wf fs -> fs_locks fs = ∅ -> stands_for fs s0 -> Forall supported_job jobs ->
  good LOCK_FILE stands_for spec reads_work jobs s0 (start fs jobs pids) [] s0.
Proof.
  intros Hw Hl HR Hjobs. apply good_initial; try done. intros i p Hi. rewrite list_lookup_imap in Hi.
  destruct (jobs !! i) as [j|] eqn:Ej; [|done]. injection Hi as <-. exists j. split; [done|].
  apply proto_program. by eapply Forall_lookup_1.
Qed.

(** C7: the file-backed store is one atomic object. Any number of processes run
    [load], [save], [claim_ticket], [acquire_leader], [claim_stage], [heartbeat]
    and [workers] - everything the store does on these files but [delete], which
    takes no lock - on a directory that stands for a state, free of locks and with
    nobody else writing in it. However their file calls interleave, whatever call
    but a read of the coordination file fails or is cut short ([Path::exists]
    reports no failure and is taken to answer truly), and whichever process is
    killed at whatever point, the directory always stands for the result of some of the operations executed one at a time,
    each at most once, and every operation that has answered is one of them with
    exactly that answer; the state document is never torn. States are of a schema
    this build reads and such that [serde_json] reads them back (finite numbers),
    up to its rounding of an [f64]. *)
Theorem json_store_atomic fs s0 jobs pids evs :
  wf fs -> fs_locks fs = ∅ -> stands_for fs s0 -> Forall supported_job jobs -> Forall calm evs ->
  let w := run_world evs (start fs jobs pids) in
  exists log s, NoDup log.*1 /\ one_by_one jobs s0 log s /\ stands_for (wd_fs w) s /\
    forall i r, wd_progs w !! i = Some (Some (Ret r)) -> (i, r) ∈ log.
Proof.
  intros Hw Hl HR Hjobs Hevs w.
  destruct (locked_atomic LOCK_FILE stands_for spec reads_work stands_stable jobs s0 (start fs jobs pids) evs)
    as (log & s & H1 & H2 & _ & H3 & H4); [by apply start_good|exact Hevs|by exists log, s].
Qed.


(** *** Claims *)

(** The ticket [id] of the stored document, held by [worker]. *)
Definition held_by (id worker : string) s : Prop :=
  exists t, ticket id (default ProjectState_default (js_state s)) = Some t /\ t_claimed_by t = Some worker.

Lemma claim_now_holds id worker now st st' :
  claim_now id worker now st = Some st' ->
  (exists t, ticket id st = Some t /\ t_claimed_by t = None) /\
  (exists t', ticket id st' = Some t' /\ t_claimed_by t' = Some worker) /\
  (forall id', id' <> id -> ticket id' st' = ticket id' st).
Proof.
  unfold claim_now. destruct (ticket id st) as [t|] eqn:Et; [|done]. cbn.
  destruct (bool_decide (is_Some (t_claimed_by t))) eqn:Ec; [done|]. apply bool_decide_eq_false in Ec.
  destruct (claim System worker now t) as [t'|e] eqn:Ek; [|done]. cbn. intros [= <-].
  pose proof (claim_takes _ _ _ _ _ Ek) as Hw. assert (t_id t' = id) as Hid.
  { apply find_ticket_id in Et as [<- _]. unfold claim in Ek. destruct (t_claimed_by t); [done|].
    apply result_bind_ok in Ek as (t1 & H & [= <-]). apply transition_to_ok in H as [_ _ _ _ ->]. done. }
  split_and!.
  - exists t. split; [done|]. by destruct (t_claimed_by t); [destruct Ec|].
  - exists t'. split; [by eapply ticket_set|done].
  - intros id' Hne. by apply ticket_set_other.
Qed.

(** A program that answered having won a claim on [id]. *)
Definition won_claim (jobs : list (JsonJob (Value := Value))) (id worker : string) (e : nat * Out) : Prop :=
  e.2 = Ok (OBool true) /\ exists stamp now, jobs !! e.1 = Some (JClaimTicket stamp id worker now).

Definition no_save j : Prop := match j with JSave _ _ => False | _ => True end.

Lemma ticket_tickets id st st' : tickets st' = tickets st -> ticket id st' = ticket id st.
Proof. intros H. unfold ticket. by rewrite H. Qed.

Lemma written_tickets st st' : gate st = Ok st' -> tickets (readback st') = tickets st.
Proof. intros Hg. rewrite (sj_tickets _ _ _ _ _ _ _ serde). by apply (gk_tickets _ _ gate_keeps). Qed.

(** Without blind saves a held ticket stays with its holder. *)
Lemma held_step j s s' r id worker :
  no_save j -> spec j s s' r -> held_by id worker s -> held_by id worker s'.
Proof.
  intros Hj [Hat|[-> _]] H; [|done]. destruct j as [|stamp st|stamp id' w now|w now|tk stage w now|w role tk caps now|now];
    cbn in Hat; try done; try by injection Hat as <- <-.
  - destruct H as (t & Ht & Hh). destruct (claim_now _ _ _ _) as [st|] eqn:Ec; [|by injection Hat as <- <-; exists t].
    destruct (gate st) as [st'|e] eqn:Eg; injection Hat as <- <-; [|by exists t].
    destruct (claim_now_holds _ _ _ _ _ Ec) as ((t0 & Ht0 & Hn) & _ & Hother).
    exists t. split; [|done]. change (ticket id (readback st') = Some t). rewrite (ticket_tickets id st _ (written_tickets _ _ Eg)).
    destruct (decide (id = id')) as [->|Hne]; [congruence|]. by rewrite Hother.
  - unfold grant in Hat. by destruct (lead _ _ _ _); injection Hat as <- <-.
  - unfold grant in Hat. by destruct (take_stage _ _ _ _ _ _); injection Hat as <- <-.
Qed.

(** The winner found the ticket free and left it held. *)
Lemma won_claim_step stamp id worker now s s' :
  spec (JClaimTicket stamp id worker now) s s' (Ok (OBool true)) ->
  (forall w, ~ held_by id w s) /\ held_by id worker s'.
Proof.
  intros [Hat|[_ [e ?]]]; [|done]. cbn in Hat. destruct (claim_now _ _ _ _) as [st|] eqn:Ec; [|done].
  destruct (gate st) as [st'|e] eqn:Eg; [|done]. injection Hat as <-.
  destruct (claim_now_holds _ _ _ _ _ Ec) as ((t0 & Ht0 & Hn) & (t' & Ht' & Hw) & _). split.
  - intros w (t & Ht & Hh). congruence.
  - exists t'. split; [|done]. change (ticket id (readback st') = Some t'). by rewrite (ticket_tickets id st _ (written_tickets _ _ Eg)).
Qed.

Lemma claims_held jobs s0 log s :
  Forall no_save jobs -> one_by_one jobs s0 log s -> 
  forall e id worker, e ∈ log -> won_claim jobs id worker e ->
    held_by id worker s /\ forall e' worker', e' ∈ log -> won_claim jobs id worker' e' -> e' = e.
Proof.
  intros Hj H. induction H as [|log s i j r s' H IH Hi Hs]; [by intros e id w ?%elem_of_nil|].
  assert (no_save j) as Hns by by eapply Forall_lookup_1.
  intros e id worker [Hin|Hin%list_elem_of_singleton]%elem_of_app Hwon.
  - destruct (IH e id worker Hin Hwon) as [Hh Hu]. split; [by eapply held_step|].
    intros e' w' [Hin'|Hin'%list_elem_of_singleton]%elem_of_app Hwon'; [by eapply Hu|].
    subst e'. destruct Hwon' as [Hr (stamp & now & Hj')]. cbn in Hr, Hj'. simplify_eq. by destruct (proj1 (won_claim_step _ _ _ _ _ _ Hs) worker).
  - subst e. destruct Hwon as [Hr (stamp & now & Hj')]. cbn in Hr, Hj'. simplify_eq.
    destruct (won_claim_step _ _ _ _ _ _ Hs) as [Hfree Hheld]. split; [done|].
    intros e' w' [Hin'|Hin'%list_elem_of_singleton]%elem_of_app Hwon'; [|done].
    destruct (IH e' id w' Hin' Hwon') as [Hh _]. by destruct (Hfree w').
Qed.

(** C8: no two workers win the same ticket. In any interleaving of claims, loads,
    lease operations, heartbeats and worker listings of any number of processes over
    the file-backed store - no [save], which replaces the document, and no [delete]
    - with kills, and with any call failing but a read of the coordination file
    ([Path::exists] answers truly), at most one claim on a ticket is answered with
    true, and the stored document then has the ticket held by that claim's worker.
    The start document is one that [serde_json] reads back, up to its rounding of an
    [f64]; no lock is held at the start and nobody else writes in the directory. *)
Theorem one_claim_wins fs s0 jobs pids evs id i1 w1 i2 w2 stamp1 now1 stamp2 now2 :
  wf fs -> fs_locks fs = ∅ -> stands_for fs s0 -> Forall no_save jobs -> Forall calm evs ->
  jobs !! i1 = Some (JClaimTicket stamp1 id w1 now1) -> jobs !! i2 = Some (JClaimTicket stamp2 id w2 now2) ->
  let w := run_world evs (start fs jobs pids) in
  wd_progs w !! i1 = Some (Some (Ret (Ok (OBool true)))) ->
  (exists s, stands_for (wd_fs w) s /\ held_by id w1 s) /\
  (wd_progs w !! i2 = Some (Some (Ret (Ok (OBool true)))) -> i1 = i2).
Proof.
  intros Hw Hl HR Hjobs Hevs H1 H2 w A1.
  destruct (locked_atomic LOCK_FILE stands_for spec reads_work stands_stable jobs s0 (start fs jobs pids) evs)
    as (log & s & _ & Hrep & _ & HR' & Hans); [|exact Hevs|].
  { apply start_good; [done..|]. eapply Forall_impl; [exact Hjobs|]. by intros []. }
  destruct (claims_held jobs s0 log s Hjobs Hrep _ id w1 (Hans _ _ A1)) as [Hh Hu]; [by split; [|exists stamp1, now1]|].
  split; [by exists s|]. intros A2. specialize (Hu _ w2 (Hans _ _ A2)).
  assert (won_claim jobs id w2 (i2, Ok (OBool true))) as H3 by by split; [|exists stamp2, now2].
  specialize (Hu H3). congruence.
Qed.
(** *** Leases *)

(** [e] won the leadership. *)
Definition won_leader jobs (e : nat * Out) : Prop :=
  e.2 = Ok (OBool true) /\ exists worker now, jobs !! e.1 = Some (JLeader worker now).

(** [e] won the stage [stage] of [tk]. *)
Definition won_stage jobs (tk stage : string) (e : nat * Out) : Prop :=
  e.2 = Ok (OBool true) /\ exists worker now, jobs !! e.1 = Some (JStage tk stage worker now).

(** [e] won some stage when the lease stamped [at_] had expired on its clock. *)
Definition expiring jobs (at_ : string) (e : nat * Out) : Prop :=
  e.2 = Ok (OBool true) /\ exists tk stage worker now, jobs !! e.1 = Some (JStage tk stage worker now) /\
    (STAGE_TTL_SECS < age_secs parse_time at_ now)%Z.

Lemma leader_kept jobs i j s s' r :
  jobs !! i = Some j -> spec j s s' r -> ~ won_leader jobs (i, r) ->
  co_leader (js_coord s') = co_leader (js_coord s).
Proof.
  intros Hi [Hat|[-> _]] Hn; [|done]. destruct j; cbn in Hat; unfold grant, take_stage in Hat; repeat case_match;
    simplify_eq/=; rewrite ?(sj_leader _ _ _ _ _ _ _ serde); try done.
  destruct Hn. split; [done|]. by eexists _, _.
Qed.

Lemma leader_won worker now s s' :
  spec (JLeader worker now) s s' (Ok (OBool true)) ->
  co_leader (js_coord s') = Some (mkLease worker now) /\
  forall l, co_leader (js_coord s) = Some l ->
    le_worker l = worker \/ (LEADER_TTL_SECS < age_secs parse_time (le_at l) now)%Z.
Proof.
  intros [Hat|[_ [e ?]]]; [|done]. cbn in Hat. unfold grant, lead in Hat.
  destruct (co_leader (js_coord s)) as [l|].
  2:{ injection Hat as <-. cbn. by rewrite (sj_leader _ _ _ _ _ _ _ serde). }
  destruct (_ || _) eqn:E; [|done]. injection Hat as <-. cbn. rewrite (sj_leader _ _ _ _ _ _ _ serde). split; [done|]. intros l' [= <-].
  apply orb_true_iff in E as [?%bool_decide_eq_true|?%Z.ltb_lt]; [by left|by right].
Qed.

(** [x] is the only lease on its stage. *)
Definition leased (x : StageLease) s : Prop :=
  x ∈ co_leases (js_coord s) /\
  forall y, y ∈ co_leases (js_coord s) -> lease_on (sl_ticket x) (sl_stage x) y = true -> y = x.

Lemma lease_on_true tk stage l : lease_on tk stage l = true <-> sl_ticket l = tk /\ sl_stage l = stage.
Proof. unfold lease_on. by rewrite andb_true_iff, !bool_decide_eq_true. Qed.

Lemma lease_live_true now l : lease_live parse_time now l = true <-> (age_secs parse_time (sl_at l) now <= STAGE_TTL_SECS)%Z.
Proof. apply Z.leb_le. Qed.

Lemma stage_kept jobs i j s s' r x :
  jobs !! i = Some j -> spec j s s' r -> ~ won_stage jobs (sl_ticket x) (sl_stage x) (i, r) ->
  ~ expiring jobs (sl_at x) (i, r) -> leased x s -> leased x s'.
Proof.
  intros Hi [Hat|[-> _]] Hn He [Hin Hu]; [|done].
  assert (co_leases (js_coord s') = co_leases (js_coord s) \/
    exists tk stage worker now, j = JStage tk stage worker now /\ r = Ok (OBool true) /\
      co_leases (js_coord s') = List.filter (fun l => negb (lease_on tk stage l))
        (List.filter (lease_live parse_time now) (co_leases (js_coord s))) ++ [mkStageLease tk stage worker now]) as [Hl|H].
  { destruct j; cbn in Hat; unfold grant, lead, take_stage in Hat; repeat case_match;
      simplify_eq/=; rewrite ?(sj_leases _ _ _ _ _ _ _ serde); auto.
    all: right; by eexists _, _, _, _. }
  - unfold leased. by rewrite Hl.
  - destruct H as (tk & stage & worker & now & -> & -> & Hl). unfold leased. rewrite Hl.
    assert (lease_on tk stage x = false) as Hk.
    { apply not_true_is_false. intros [<- <-]%lease_on_true. apply Hn. split; [done|]. by exists worker, now. }
    split.
    + apply elem_of_app. left. apply elem_of_filter_bool. rewrite Hk. split; [|done].
      apply elem_of_filter_bool. split; [done|]. apply lease_live_true.
      destruct (decide (STAGE_TTL_SECS < age_secs parse_time (sl_at x) now)%Z); [|lia].
      destruct He. split; [done|]. by exists tk, stage, worker, now.
    + intros y [[[Hy _]%elem_of_filter_bool _]%elem_of_filter_bool|Hy%list_elem_of_singleton]%elem_of_app Hon; [by apply Hu|].
      subst y. apply lease_on_true in Hon as [H1 H2]. cbn in H1, H2. subst tk stage.
      unfold lease_on in Hk. by rewrite !bool_decide_true in Hk.
Qed.

Lemma stage_won tk stage worker now s s' :
  spec (JStage tk stage worker now) s s' (Ok (OBool true)) ->
  leased (mkStageLease tk stage worker now) s' /\
  forall x, leased x s -> sl_ticket x = tk -> sl_stage x = stage ->
    sl_worker x = worker \/ (STAGE_TTL_SECS < age_secs parse_time (sl_at x) now)%Z.
Proof.
  intros [Hat|[_ [e ?]]]; [|done]. cbn in Hat. unfold grant, take_stage in Hat.
  destruct (match List.find _ _ with Some l => _ | None => true end) eqn:E; [|done]. injection Hat as <-. split.
  - unfold leased. cbn. rewrite (sj_leases _ _ _ _ _ _ _ serde). split; cbn.
    + apply elem_of_app. right. by apply list_elem_of_singleton.
    + intros y [[_ Hy]%elem_of_filter_bool|Hy%list_elem_of_singleton]%elem_of_app Hon; [|done]. by rewrite Hon in Hy.
  - intros x [Hin Hu] <- <-. destruct (lease_live parse_time now x) eqn:El.
    + left. destruct (List.find _ _) as [y|] eqn:Ef.
      * apply find_elem in Ef as [[Hy _]%elem_of_filter_bool Hon]. apply bool_decide_eq_true in E.
        by rewrite (Hu y Hy Hon) in E.
      * pose proof (find_is_none _ _ Ef x) as Hf. rewrite elem_of_filter_bool in Hf.
        unfold lease_on in Hf. rewrite !bool_decide_true in Hf by done. by discriminate Hf.
    + right. unfold lease_live in El. by apply Z.leb_gt in El.
Qed.

Lemma leases_in_log jobs s0 log s i1 i2 l1 l2 l3 :
  one_by_one jobs s0 log s -> log = l1 ++ (i1, Ok (OBool true)) :: l2 ++ (i2, Ok (OBool true)) :: l3 ->
  (forall w1 t1 w2 t2, jobs !! i1 = Some (JLeader w1 t1) -> jobs !! i2 = Some (JLeader w2 t2) ->
     Forall (fun e => ~ won_leader jobs e) l2 ->
     w1 = w2 \/ (LEADER_TTL_SECS < age_secs parse_time t1 t2)%Z) /\
  (forall tk stage w1 t1 w2 t2,
     jobs !! i1 = Some (JStage tk stage w1 t1) -> jobs !! i2 = Some (JStage tk stage w2 t2) ->
     Forall (fun e => ~ won_stage jobs tk stage e /\ ~ expiring jobs t1 e) l2 ->
     w1 = w2 \/ (STAGE_TTL_SECS < age_secs parse_time t1 t2)%Z).
Proof.
  intros Hrep ->. apply serial_app in Hrep as (sa & _ & (j1 & sb & Hj1 & Hs1 & Hrep)%serial_cons).
  apply serial_app in Hrep as (sc & Hmid & (j2 & sd & Hj2 & Hs2 & _)%serial_cons). split.
  - intros w1 t1 w2 t2 E1 E2 Hno. simplify_eq. destruct (leader_won _ _ _ _ Hs1) as [Hl _].
    destruct (leader_won _ _ _ _ Hs2) as [_ Hl2]. apply (Hl2 (mkLease w1 t1)).
    refine (serial_invariant _ _ (fun s => co_leader (js_coord s) = Some (mkLease w1 t1)) _ _ _ _ Hmid Hl).
    intros i r j s1 s2 Hin Hj Hsp Hc. rewrite <- Hc. eapply leader_kept; [done..|]. by eapply Forall_forall in Hno.
  - intros tk stage w1 t1 w2 t2 E1 E2 Hno. simplify_eq. destruct (stage_won _ _ _ _ _ _ Hs1) as [Hl _].
    destruct (stage_won _ _ _ _ _ _ Hs2) as [_ Hl2].
    apply (Hl2 (mkStageLease tk stage w1 t1)); [|done|done].
    refine (serial_invariant _ _ (leased (mkStageLease tk stage w1 t1)) _ _ _ _ Hmid Hl).
    intros i r j s1 s2 Hin Hj Hsp. eapply Forall_forall in Hno as [Hw He]; [|exact Hin]. by eapply stage_kept.
Qed.


End Atomic.

(** ** Recovery *)

Section Recovery.
Context {B : Type}.
Context (state_to_json : ProjectState -> list B) (state_from_json : list B -> result string ProjectState).
Context (gate : ProjectState -> result PortError ProjectState) (refusal : N -> ProjectState -> option (list B)).
Implicit Types (fs : Fs B).

#[local] Abbreviation parse_checked := (parse_checked state_from_json).

(** Every call runs. *)
Definition reliable : FsCall B -> Fault := fun _ => Done.

Lemma run_done {A} who c (k : reply c -> Prog B A) fs fs' a :
  exec who Done c fs = Some (fs', a) -> run who reliable (Do c k) fs = run who reliable (k a) fs'.
Proof. intros H. cbn [run]. unfold reliable at 1. by rewrite H. Qed.

(** [fs'] differs from [fs] by the removal of the backups [l]. *)
Record pruned (l : list string) fs fs' : Prop := {
  pr_wf : wf fs';
  pr_locks : fs_locks fs' = fs_locks fs;
  pr_kept x : x ∉ l -> content fs' x = content fs x /\ fs_dir fs' !! x = fs_dir fs !! x;
  pr_gone x : x ∈ l -> fs_dir fs' !! x = None;
}.

Lemma run_remove_all who l fs :
  wf fs -> exists fs', run who reliable (remove_all l) fs = Some (fs', tt) /\ pruned l fs fs'.
Proof.
  revert fs. induction l as [|p l IH]; intros fs Hw.
  - exists fs. split; [done|]. constructor; try done. by intros x ?%elem_of_nil.
  - cbn [remove_all]. destruct (remove p fs) as [fs1 r] eqn:E.
    destruct (remove_spec p fs fs1 r Hw E) as (H1 & H2 & H3). rewrite (run_done who (CRemove p) _ fs fs1 r) by (cbn; by rewrite E).
    destruct (IH fs1 H1) as (fs' & Hr & [P1 P2 P3 P4]). exists fs'. split; [done|]. constructor; [done|congruence| |].
    + intros x [Hx Hx']%not_elem_of_cons. destruct (P3 x Hx') as [-> ->]. by apply H3.
    + intros x [->|Hx]%elem_of_cons; [|by apply P4]. destruct (decide (p ∈ l)) as [Hin|Hin]; [by apply P4|].
      destruct (P3 p Hin) as [_ ->]. unfold remove in E. destruct (fs_dir fs !! p) as [i|] eqn:Ei; simplify_eq/=; [|done].
      destruct fs. cbn. by rewrite lookup_delete_eq.
Qed.

(** The names a directory listing shows after a prune. *)
Definition stale (keep : nat) (files : list string) : list string :=
  take (length files - keep) (sort_by str_le files).

Lemma run_prune who fs f more :
  f :: more = entries BACKUP_DIR fs -> wf fs ->
  exists fs', run who reliable (prune_backups BACKUP_DIR MAX_BACKUPS) fs = Some (fs', tt) /\
    pruned (stale MAX_BACKUPS (entries BACKUP_DIR fs)) fs fs'.
Proof.
  intros He Hw. unfold prune_backups.
  rewrite (run_done who (CList BACKUP_DIR) _ fs fs (Ok (entries BACKUP_DIR fs))) by (cbn; unfold list_dir; by rewrite <- He).
  assert (length (sort_by str_le (entries BACKUP_DIR fs)) = length (entries BACKUP_DIR fs)) as -> by by rewrite sort_by_perm.
  unfold stale. case_decide as Hd.
  - by apply run_remove_all.
  - exists fs. split; [done|]. replace (length _ - MAX_BACKUPS) with 0 by lia. constructor; try done.
    by intros x ?%elem_of_nil.
Qed.

(** The newest of the kept names is not stale, and at most [keep] are left. *)
Lemma stale_newest keep files q :
  NoDup files -> 0 < keep -> q ∈ files -> (forall p, p ∈ files -> p = q \/ str_le q p = false) ->
  q ∉ stale keep files.
Proof.
  intros Hnd Hk Hq Hmax Hin. unfold stale in Hin.
  pose proof (sort_by_last str_le str_le_total str_le_trans files q Hq Hmax) as Hl.
  assert (NoDup (sort_by str_le files)) as Hnd' by by rewrite sort_by_perm.
  assert (length (sort_by str_le files) = length files) as Hlen by by rewrite sort_by_perm.
  apply last_Some in Hl as [k Hl]. rewrite Hl in Hin, Hnd', Hlen. rewrite length_app in Hlen. cbn in Hlen.
  rewrite take_app_le in Hin by lia. apply NoDup_app in Hnd' as (_ & Hdis & _).
  apply (Hdis q); [by eapply elem_of_take_sub|]. by apply list_elem_of_singleton.
Qed.

Lemma kept_length keep files l :
  NoDup l -> NoDup files -> (forall p, p ∈ l -> p ∈ files /\ p ∉ stale keep files) -> length l <= keep.
Proof.
  intros Hl Hf Hin. set (s := sort_by str_le files). assert (length s = length files) as Hlen by (unfold s; by rewrite sort_by_perm).
  assert (length l <= length (drop (length files - keep) s)).
  { apply submseteq_length, NoDup_submseteq; [done|]. intros p Hp. destruct (Hin p Hp) as [H1 H2].
    rewrite <- (elem_of_sort_by str_le) in H1. fold s in H1. rewrite <- (take_drop (length files - keep) s) in H1.
    apply elem_of_app in H1 as [H1|H1]; [by destruct H2|done]. }
  rewrite length_drop in H. lia.
Qed.

Lemma run_atomic_write who pid final_path b fs :
  tmp_path pid <> final_path -> wf fs ->
  exists fs', run who reliable (atomic_write pid final_path b) fs = Some (fs', Ok tt) /\ wf fs' /\
    fs_locks fs' = fs_locks fs /\ content fs' final_path = Some b /\
    forall x, x <> tmp_path pid -> x <> final_path -> content fs' x = content fs x /\ fs_dir fs' !! x = fs_dir fs !! x.
Proof.
  intros T1 Hw. pose proof (open_wf (tmp_path pid) true fs Hw) as O1. pose proof (open_path_locks (tmp_path pid) true fs) as O2.
  pose proof (open_path_dir (tmp_path pid) true fs _ eq_refl) as O3. pose proof (open_trunc_content (tmp_path pid) fs) as O4.
  pose proof (fun x H => conj (open_content_ne x (tmp_path pid) true fs Hw H) (open_dir_ne x (tmp_path pid) true fs H)) as O5.
  unfold atomic_write. cbn [run]. unfold reliable at 1. cbn [exec run_call].
  destruct (open_path (tmp_path pid) true fs) as [fs1 i]. cbn [fst snd io] in *.
  rewrite (run_done who (CWrite i b) _ fs1 (write_bytes i b fs1) (Ok tt)) by done. cbn [io].
  rewrite (run_done who (CSync i) _ _ (write_bytes i b fs1) (Ok tt)) by done. cbn [io].
  assert (content (write_bytes i b fs1) (tmp_path pid) = Some b) as Hc.
  { unfold write_bytes. rewrite content_data, decide_True by done. f_equal. unfold content in O4. rewrite O3 in O4.
    injection O4 as ->. apply overlay_nil. }
  destruct (rename_spec (tmp_path pid) final_path i (write_bytes i b fs1)) as (fs' & E & R1 & R2 & R3 & R4).
  { by apply wf_data. } { by destruct fs1. } { done. }
  rewrite (run_done who (CRename (tmp_path pid) final_path) _ _ fs' (Ok tt)) by (cbn [exec run_call]; by rewrite E). cbn [io run].
  exists fs'. split_and!; [done..| | |].
  - rewrite R2, <- O2. by destruct fs1.
  - by rewrite R3.
  - intros x Hx1 Hx2. destruct (R4 x Hx1 Hx2) as [-> ->], (O5 x Hx1) as [<- <-].
    split; [|by destruct fs1]. by apply (content_data_ne _ _ _ _ (tmp_path pid)).
Qed.

(** [q] is the newest of the backups. *)
Definition newest (q : string) fs : Prop := forall p, p ∈ entries BACKUP_DIR fs -> p = q \/ str_le q p = false.

Lemma backup_inside stamp : inside BACKUP_DIR (backup_path stamp) = true.
Proof. done. Qed.

Lemma not_backup pid x : inside BACKUP_DIR x = true -> x <> tmp_path pid /\ x <> STATE_FILE.
Proof. intros H. split; intros ->; discriminate H. Qed.

(** A snapshot of the document [b]. *)
Lemma run_snapshot who stamp b fs :
  wf fs -> content fs STATE_FILE = Some b -> newest (backup_path stamp) fs ->
  exists fs', run who reliable (snapshot_backup stamp) fs = Some (fs', Ok tt) /\ wf fs' /\ fs_locks fs' = fs_locks fs /\
    content fs' (backup_path stamp) = Some b /\ backup_path stamp ∈ entries BACKUP_DIR fs' /\
    newest (backup_path stamp) fs' /\ length (entries BACKUP_DIR fs') <= MAX_BACKUPS.
Proof.
  intros Hw Hb Hn. set (q := backup_path stamp) in *. unfold snapshot_backup.
  rewrite (run_done who (CMkdir BACKUP_DIR) _ fs fs (Ok tt)) by done. cbn [io].
  destruct (copy_content STATE_FILE q b fs Hw Hb) as (fs1 & E & C1 & C2).
  destruct (copy_spec _ _ _ _ _ _ Hw E) as (C3 & C4 & C5).
  rewrite (run_done who (CCopy STATE_FILE q) _ fs fs1 (Ok tt)) by (cbn; by rewrite E). cbn [io].
  assert (q ∈ entries BACKUP_DIR fs1) as Hq by by apply entries_inside.
  assert (newest q fs1) as Hn1.
  { intros p Hp. destruct (decide (p = q)) as [->|Hne]; [by left|]. apply Hn.
    apply entries_inside in Hp as [H1 H2]. apply entries_inside. by rewrite <- (proj2 (C5 p Hne)). }
  destruct (entries BACKUP_DIR fs1) as [|f more] eqn:Ee; [by apply elem_of_nil in Hq|].
  destruct (run_prune who fs1 f more) as (fs2 & Hr & [P1 P2 P3 P4]); [done..|]. rewrite Ee in *.
  rewrite run_bind, Hr. cbn [run].
  assert (q ∉ stale MAX_BACKUPS (f :: more)) as Hqs.
  { apply stale_newest; [rewrite <- Ee; apply entries_NoDup|unfold MAX_BACKUPS; lia|done|]. intros p. rewrite <- Ee. apply Hn1. }
  assert (forall p, p ∈ entries BACKUP_DIR fs2 -> p ∈ f :: more /\ p ∉ stale MAX_BACKUPS (f :: more)) as Hsub.
  { intros p [H1 H2]%entries_inside. destruct (decide (p ∈ stale MAX_BACKUPS (f :: more))) as [Hs|Hs].
    - rewrite (P4 p Hs) in H1. by destruct H1.
    - split; [|done]. rewrite <- Ee. apply entries_inside. by rewrite <- (proj2 (P3 p Hs)). }
  exists fs2. split_and!; [done|done|congruence| | | |].
  - by rewrite (proj1 (P3 q Hqs)).
  - apply entries_inside. split; [|apply backup_inside]. by rewrite (proj2 (P3 q Hqs)).
  - intros p Hp. apply Hn1. rewrite Ee. by apply Hsub.
  - eapply kept_length; [apply entries_NoDup| |exact Hsub]. rewrite <- Ee. apply entries_NoDup.
Qed.

Lemma run_write_locked who pid stamp st st' b fs :
  wf fs -> content fs STATE_FILE = Some b -> newest (backup_path stamp) fs -> gate st = Ok st' ->
  exists fs', run who reliable (write_locked state_to_json gate refusal pid stamp st) fs = Some (fs', Ok tt) /\
    wf fs' /\ content fs' STATE_FILE = Some (state_to_json st') /\
    content fs' (backup_path stamp) = Some b /\ backup_path stamp ∈ entries BACKUP_DIR fs' /\
    newest (backup_path stamp) fs' /\ length (entries BACKUP_DIR fs') <= MAX_BACKUPS.
Proof.
  intros Hw Hb Hn Hg. unfold write_locked. rewrite Hg.
  rewrite (run_done who (CExists STATE_FILE) _ fs fs true).
  2:{ cbn. unfold path_exists. rewrite bool_decide_true; [done|]. unfold content in Hb. by destruct (fs_dir fs !! STATE_FILE). }
  destruct (run_snapshot who stamp b fs Hw Hb Hn) as (fs1 & Hr & S1 & S2 & S3 & S4 & S5 & S6).
  unfold ptry. rewrite run_bind, Hr.
  destruct (run_atomic_write who pid STATE_FILE (state_to_json st') fs1 (proj1 (tmp_other pid)) S1) as (fs2 & Hr2 & A1 & A2 & A3 & A4).
  rewrite Hr2. assert (forall p, inside BACKUP_DIR p = true -> content fs2 p = content fs1 p /\ fs_dir fs2 !! p = fs_dir fs1 !! p) as Hsame.
  { intros p [H1 H2]%(not_backup pid). by apply A4. }
  assert (forall p, p ∈ entries BACKUP_DIR fs2 <-> p ∈ entries BACKUP_DIR fs1) as He.
  { intros p. rewrite !entries_inside. split; intros [H1 H2]; (split; [|done]); by rewrite (proj2 (Hsame p H2)) in *. }
  exists fs2. split_and!; [done|done|done| | | |].
  - by rewrite (proj1 (Hsame _ (backup_inside stamp))).
  - by apply He.
  - intros p Hp. by apply S5, He.
  - etransitivity; [|exact S6]. apply submseteq_length, NoDup_submseteq; [apply entries_NoDup|]. intros p. by apply He.
Qed.


Lemma run_load who b fs :
  content fs STATE_FILE = Some b ->
  run who reliable (load_blocking state_from_json) fs =
  match parse_checked b with
  | Ok st => Some (fs, Ok st)
  | Err primary =>
      run who reliable (run! recovered := recover_from_backup state_from_json in
        Ret (match recovered with Some st => Ok st | None => Err (no_usable_backup primary) end)) fs
  end.
Proof.
  intros Hb. unfold load_blocking. rewrite (run_done who (CExists STATE_FILE) _ fs fs true).
  2:{ cbn. unfold path_exists. rewrite bool_decide_true; [done|]. unfold content in Hb. by destruct (fs_dir fs !! STATE_FILE). }
  cbn [negb]. rewrite (run_done who (CRead STATE_FILE) _ fs fs (Ok b)) by (cbn; unfold read_path; by rewrite Hb). cbn [io].
  by destruct (parse_checked b).
Qed.

(** C10: a damaged document costs exactly the last save. Take a directory with a
    readable state document and the lock free, a save alone in it whose calls all
    succeed, whose state the write gate lets through (as [st']), whose document
    parses back, and whose backup stamp is newer than every backup there is. The
    save returns [Ok]; a load then gives what the saved document parses to; at most
    twenty backups are left; and if the state file is afterwards overwritten with
    anything that does not parse, a load whose calls succeed gives the state before
    that save, read from the backup the save took. *)
Theorem recovery_returns_last who pid stamp st st' saved b st0 fs :
  wf fs -> fs_locks fs = ∅ -> content fs STATE_FILE = Some b -> parse_checked b = Ok st0 ->
  newest (backup_path stamp) fs -> gate st = Ok st' -> parse_checked (state_to_json st') = Ok saved ->
  exists fs', run who reliable (save_blocking state_to_json gate refusal pid stamp st) fs = Some (fs', Ok tt) /\
    run who reliable (load_blocking state_from_json) fs' = Some (fs', Ok saved) /\
    length (entries BACKUP_DIR fs') <= 20 /\
    forall i bad e, fs_dir fs' !! STATE_FILE = Some i -> parse_checked bad = Err e ->
      let damaged := fs' <| fs_data ::= <[i := bad]> |> in
      run who reliable (load_blocking state_from_json) damaged = Some (damaged, Ok st0).
Proof.
  intros Hw Hl Hb Hp Hn Hg Hp'. unfold save_blocking, under_lock, acquire_lock. cbn [pbind].
  pose proof (open_wf LOCK_FILE false fs Hw) as O1. pose proof (open_path_locks LOCK_FILE false fs) as O2.
  pose proof (fun x H => conj (open_content_ne x LOCK_FILE false fs Hw H) (open_dir_ne x LOCK_FILE false fs H)) as O3.
  destruct (open_path LOCK_FILE false fs) as [fs1 l] eqn:Eo. cbn [fst] in *.
  rewrite (run_done who (COpen LOCK_FILE false) _ fs fs1 (Ok l)) by (cbn [exec run_call]; by rewrite Eo). cbn [io pbind].
  set (fs2 := fs1 <| fs_locks ::= <[l := who]> |>).
  rewrite (run_done who (CLock l) _ fs1 fs2 (Ok tt)) by (cbn; by rewrite O2, Hl, lookup_empty). cbn [io pbind result_bind].
  destruct (run_write_locked who pid stamp st st' b fs2) as (fs3 & Hr & W0 & W1 & W2 & W3 & W4 & W5).
  { by apply wf_locks. } { unfold fs2. rewrite <- Hb. by apply O3. }
  { intros p [H1 H2]%entries_inside. apply Hn, entries_inside. split; [|done]. assert (p <> LOCK_FILE) as Hne by (intros ->; discriminate H2). rewrite <- (proj2 (O3 p Hne)). exact H1. }
  { done. }
  rewrite run_bind, Hr. set (fs4 := fs3 <| fs_locks ::= delete l |>).
  rewrite (run_done who (CUnlock l) _ fs3 fs4 tt) by done. cbn [run].
  assert (content fs4 STATE_FILE = Some (state_to_json st')) as W1' by done.
  exists fs4. split_and!; [done|by rewrite (run_load who _ fs4 W1'), Hp'|exact W5|]. intros i bad e Hi Hbad.
  set (damaged := fs4 <| fs_data ::= <[i := bad]> |>).
  rewrite (run_load who bad damaged), Hbad by (unfold damaged; by rewrite content_data, decide_True).
  unfold recover_from_backup. cbn [pbind].
  assert (entries BACKUP_DIR damaged = entries BACKUP_DIR fs3) as He by (unfold damaged, fs4; by destruct fs3).
  destruct (entries BACKUP_DIR fs3) as [|f more] eqn:Ee; [by apply elem_of_nil in W3|].
  rewrite (run_done who (CList BACKUP_DIR) _ damaged damaged (Ok (f :: more))) by (cbn [exec run_call]; unfold list_dir; by rewrite He).
  pose proof (sort_by_last str_le str_le_total str_le_trans (f :: more) (backup_path stamp) W3) as Hlast.
  destruct (last_Some (sort_by str_le (f :: more)) (backup_path stamp)) as [[k ->] _].
  { apply Hlast. intros y Hy. apply W4. by rewrite Ee. }
  rewrite rev_app_distr. cbn [rev app first_good pbind].
  rewrite (run_done who (CRead (backup_path stamp)) _ damaged damaged (Ok b)).
  - cbn [result_ok mbind option_bind]. by rewrite Hp.
  - cbn [exec run_call]. unfold read_path, damaged. rewrite (content_data_ne fs4 i bad (backup_path stamp) STATE_FILE); [|by apply wf_locks|done|done].
    assert (content fs4 (backup_path stamp) = Some b) as -> by done. done.
Qed.

End Recovery.

(** ** A concrete directory: one document per symbol *)

Inductive Doc := DState (st : ProjectState) | DCoord (c : Coord unit).

(** An [f64] that is not finite is written as null. *)
Definition finite (f : spec_float) : bool :=
  match f with S754_infinity _ | S754_nan => false | _ => true end.

Definition counted (st : ProjectState) : bool := finite (spend_today_usd st).

Definition doc_of_state (st : ProjectState) : list Doc := [DState st].
Definition state_of_doc (b : list Doc) : result string ProjectState :=
  match b with
  | [DState st] => if counted st then Ok st else Err "invalid type: null, expected f64"
  | _ => Err "expected a project state"
  end.
Definition doc_of_coord (c : Coord unit) : list Doc := [DCoord c].
Definition coord_of_doc (b : list Doc) : option (Coord unit) := match b with [DCoord c] => Some c | _ => None end.

(** A clock that reads hours and minutes. *)
Definition clock (s : string) : option Z :=
  match s with
  | "10:00" => Some 36000000000000%Z
  | "10:01" => Some 36060000000000%Z
  | "10:05" => Some 36300000000000%Z
  | _ => None
  end.

(** The ledger holds the refused state. *)
Definition refused_doc (_ : N) (st : ProjectState) : option (list Doc) := Some [DState st].

Definition same_state (st : ProjectState) : ProjectState := st.
Definition same_coord (c : Coord unit) : Coord unit := c.

#[local] Abbreviation doc_program :=
  (program doc_of_state state_of_doc doc_of_coord coord_of_doc clock plain_gate refused_doc).
#[local] Abbreviation doc_start :=
  (start doc_of_state state_of_doc doc_of_coord coord_of_doc clock plain_gate refused_doc).

(** [state.json] holds [b]. *)
Definition holding_doc (b : list Doc) : Fs Doc := mkFs {["state.json" := 0]} {[0 := b]} ∅ 1.

Lemma holding_doc_wf b : wf (holding_doc b).
Proof.
  constructor; cbn.
  - intros p q i [<- _]%lookup_singleton_Some [<- _]%lookup_singleton_Some. done.
  - intros p i [_ <-]%lookup_singleton_Some. lia.
Qed.

Definition all_done : FsCall Doc -> Fault := fun _ => Done.

(** Each program in turn runs up to [n] calls. *)
Definition in_turn (n : nat) (whos : list nat) : list (Event Doc) :=
  whos ≫= (fun who => repeat (Step who all_done) n).

Lemma in_turn_calm n whos : Forall calm (in_turn n whos).
Proof.
  unfold in_turn. induction whos as [|w whos IH]; cbn; [constructor|]. apply Forall_app. split; [|done].
  by apply Forall_forall; intros ev ->%list_elem_of_In%repeat_spec.
Qed.

Definition two_claims : list (JsonJob (Value := unit)) :=
  [JClaimTicket 1 "F1" "ann@a" "10:00"; JClaimTicket 2 "F1" "bob@b" "10:00"; JLeader "ann@a" "10:00"; JLeader "bob@b" "10:01"].

Definition one_pid (_ : nat) : N := 7.

(** Both claims open the lock file, the first runs to its end, then the others. *)
Definition claim_race : list (Event Doc) := in_turn 1 [0; 1] ++ in_turn 20 [0; 1; 2; 3].

Lemma claim_race_calm : Forall calm claim_race.
Proof. apply Forall_app. split; apply in_turn_calm. Qed.

Lemma docs_serde :
  SerdeJson doc_of_state state_of_doc doc_of_coord coord_of_doc same_state same_coord counted.
Proof. constructor; try done. intros st H. unfold state_of_doc, doc_of_state. by rewrite (Is_true_true_1 _ H). Qed.

Lemma docs_gate : GateKeeps plain_gate counted.
Proof.
  constructor; intros st st' E; [by eapply gate_of_schema|by eapply gate_of_tickets|].
  assert (spend_today_usd st' = spend_today_usd st) as Hd by (eapply gate_of_keeps; [|exact E]; done).
  unfold counted. by rewrite Hd.
Qed.

Lemma two_claims_start : stands_for state_of_doc coord_of_doc counted (holding_doc [DState one_ready]) (mkStored (Some one_ready) Coord_default).
Proof. split; [|done]. exists one_ready. split_and!; [vm_compute; reflexivity|vm_compute; exact I|done]. Qed.

Lemma two_claims_supported : Forall (supported_job counted) two_claims.
Proof. repeat constructor. Qed.

Lemma json_store_atomic_witness :
  exists log s, NoDup log.*1 /\
    one_by_one clock plain_gate same_state same_coord two_claims (mkStored (Some one_ready) Coord_default) log s /\
    stands_for state_of_doc coord_of_doc counted
      (wd_fs (run_world claim_race (doc_start
         (holding_doc [DState one_ready]) two_claims one_pid))) s /\
    forall i r, wd_progs (run_world claim_race (doc_start
         (holding_doc [DState one_ready]) two_claims one_pid)) !! i = Some (Some (Ret r)) -> (i, r) ∈ log.
Proof.
  exact (json_store_atomic doc_of_state state_of_doc doc_of_coord coord_of_doc clock plain_gate refused_doc
    same_state same_coord counted docs_serde docs_gate
    (holding_doc [DState one_ready]) (mkStored (Some one_ready) Coord_default) two_claims one_pid claim_race
    (holding_doc_wf _) eq_refl two_claims_start
    two_claims_supported claim_race_calm).
Defined.

Lemma two_claims_no_save : Forall no_save two_claims.
Proof. repeat constructor. Qed.

Lemma one_claim_wins_witness :
  let w := run_world claim_race (doc_start
    (holding_doc [DState one_ready]) two_claims one_pid) in
  (exists s, stands_for state_of_doc coord_of_doc counted (wd_fs w) s /\ held_by "F1" "ann@a" s) /\
  (wd_progs w !! 1 = Some (Some (Ret (Ok (OBool true)))) -> 0 = 1).
Proof.
  exact (one_claim_wins doc_of_state state_of_doc doc_of_coord coord_of_doc clock plain_gate refused_doc
    same_state same_coord counted docs_serde docs_gate
    (holding_doc [DState one_ready]) (mkStored (Some one_ready) Coord_default) two_claims one_pid claim_race
    "F1" 0 "ann@a" 1 "bob@b" 1 "10:00" 2 "10:00"
    (holding_doc_wf _) eq_refl two_claims_start two_claims_no_save claim_race_calm eq_refl eq_refl
    ltac:(vm_compute; reflexivity)).
Defined.


Definition one_ready_touched : ProjectState := log_activity "now" "SYSTEM" "tick" None one_ready.

Lemma recovery_returns_last_witness :
  exists fs', run 0 reliable (save_blocking doc_of_state plain_gate refused_doc 7 5 one_ready_touched) (holding_doc [DState one_ready]) = Some (fs', Ok tt) /\
    run 0 reliable (load_blocking state_of_doc) fs' = Some (fs', Ok one_ready_touched) /\
    length (entries BACKUP_DIR fs') <= 20 /\
    forall i bad e, fs_dir fs' !! STATE_FILE = Some i -> parse_checked state_of_doc bad = Err e ->
      let damaged := fs' <| fs_data ::= <[i := bad]> |> in
      run 0 reliable (load_blocking state_of_doc) damaged = Some (damaged, Ok one_ready).
Proof.
  refine (recovery_returns_last doc_of_state state_of_doc plain_gate refused_doc 0 7 5 one_ready_touched one_ready_touched one_ready_touched
    [DState one_ready] one_ready (holding_doc [DState one_ready]) (holding_doc_wf _) eq_refl _ _ _ _ _).
  - vm_compute. reflexivity.
  - vm_compute. reflexivity.
  - intros p [[i H] Hp]%entries_inside. cbn in H. apply lookup_singleton_Some in H as [<- _]. discriminate Hp.
  - vm_compute. reflexivity.
  - vm_compute. reflexivity.
Defined.

(** ** Where the store does less than it says *)

(** A document of a newer schema is not refused but rolled back. The parse refuses it, asking for an upgrade, and the load takes that for corruption and answers with the newest backup of a schema it reads. *)
Theorem newer_schema_rolled_back :
  let fs := mkFs {["state.json" := 0; backup_path 1 := 1]}
    {[0 := [DState (one_ready_touched <| schema_version := 2%N |>)]; 1 := [DState one_ready]]} ∅ 2 in
  run 0 reliable (load_blocking state_of_doc) fs = Some (fs, Ok one_ready).
Proof. vm_compute. reflexivity. Qed.

(** A coordination file that cannot be read counts as empty: while one worker leads, one failed read makes another leader at the same instant and wipes every lease. *)
Theorem unreadable_coord_two_leaders :
  let lead w env fs := run 0 env (acquire_leader_blocking doc_of_coord coord_of_doc clock 7 w "10:00") fs in
  let no_read : FsCall Doc -> Fault := fun c => match c with CRead _ => Failed (mkIoErr false "Interrupted") | _ => Done end in
  (r1 ← lead "ann@a" all_done (holding_doc [DState one_ready]);
   r2 ← lead "bob@b" all_done r1.1;
   r3 ← lead "bob@b" no_read r2.1;
   Some (r1.2, r2.2, r3.2)) = Some (Ok true, Ok false, Ok true).
Proof. vm_compute. reflexivity. Qed.

(** [delete] takes no lock and leaves no tombstone: a save under way when the project is deleted finishes after it, both are told [Ok], and the project is back. *)
Theorem delete_then_resurrected :
  let save := doc_program 7 (JSave 5 one_ready_touched) in
  let delete := answered (fun _ => OUnit) (delete_blocking (B := Doc)) in
  let w := run_world (in_turn 6 [0] ++ in_turn 10 [1] ++ in_turn 20 [0])
    (mkWorld (holding_doc [DState one_ready]) [Some save; Some delete]) in
  wd_progs w = [Some (Ret (Ok OUnit)); Some (Ret (Ok OUnit))] /\
  content (wd_fs w) STATE_FILE = Some [DState one_ready_touched].
Proof. vm_compute. split; reflexivity. Qed.
