(* ===== verification/Spool.v ===== *)
(** * The alert spool: file store, memory double and flusher

    [FileOutboxStore] ([infrastructure/src/outbox.rs]), [MemoryOutboxStore]
    ([ports/outbound/outbox.rs]) and the delivery pass of the notifier
    ([infrastructure/src/notifier.rs]). The operations are functions on the spool;
    the file store runs each of them between a read and an atomic write of
    [outbox.json], as a program over the directory of [FileSys]. *)
From stdpp Require Import sorting.
From S2P Require Import Prelude RustStr Kinds TestCase Ticket State DepGraph StateOps Ports Shards Integrity Store ShardStore FileSys JsonStore Outbox.

#[local] Open Scope prog_scope.

Record Spool := mkSpool { sp_next_id : N; sp_entries : list OutboxEntry }.

Definition Spool_default : Spool := mkSpool 0 [].

Definition DEFAULT_CAP : nat := 500.
Definition DEFAULT_LEASE_TTL_SECS : Z := 60.
Definition CLAIM_BATCH : nat := 16.

(** ** The operations of the file store on the spool *)

Definition with_id (id : N) (e : OutboxEntry) : bool := bool_decide (ob_id e = id).

(** [entries.iter_mut().filter(p)] with [f] applied to each. *)
Definition update_all (p : OutboxEntry -> bool) (f : OutboxEntry -> OutboxEntry) (l : list OutboxEntry) : list OutboxEntry :=
  (fun e => if p e then f e else e) <$> l.

Definition enqueue (cap : nat) (entry : OutboxEntry) (sp : Spool) : Spool :=
  let id := u64_wrap (sp_next_id sp + 1) in
  let entry := entry <| ob_id := id |> <| ob_message := clamp_message (ob_message entry) |> <| ob_status := Pending |> in
  mkSpool id (push_capped cap entry (sp_entries sp)).

Definition due (now : Z) (e : OutboxEntry) : bool :=
  bool_decide (ob_status e = Pending) && (ob_next_attempt_at e <=? now)%Z.

(** The claim loop over the due entries: the entries after it and the claimed ones,
    with at most [room] still to claim. *)
Fixpoint claim_loop (until now : Z) (room : nat) (l : list OutboxEntry) : list OutboxEntry * list OutboxEntry :=
  match l with
  | [] => ([], [])
  | e :: l' =>
      if due now e then
        match room with
        | 0 => (l, [])
        | S room =>
            let e := e <| ob_next_attempt_at := until |> in
            let '(l', claimed) := claim_loop until now room l' in (e :: l', e :: claimed)
        end
      else let '(l', claimed) := claim_loop until now room l' in (e :: l', claimed)
  end.

Definition claim_due (lease_ttl now : Z) (batch : nat) (sp : Spool) : Spool * list OutboxEntry :=
  let '(l, claimed) := claim_loop (i64_wrap (now + lease_ttl + 1)) now batch (sp_entries sp) in
  (mkSpool (sp_next_id sp) l, claimed).

Definition mark_delivered (id : N) (sp : Spool) : Spool :=
  sp <| sp_entries ::= update_all (with_id id) (fun e => e <| ob_status := Delivered |>) |>.

Definition mark_retry (id : N) (next_attempt_at : Z) (sp : Spool) : Spool :=
  sp <| sp_entries ::= update_all (with_id id) (fun e =>
    e <| ob_attempts := N.min (u8_sat_add (ob_attempts e) 1) OUTBOX_MAX_ATTEMPTS |>
      <| ob_next_attempt_at := next_attempt_at |>) |>.

Definition mark_dead (id : N) (sp : Spool) : Spool :=
  sp <| sp_entries ::= update_all (with_id id) (fun e => e <| ob_status := Dead |>) |>.

(** [sort_by_key(Reverse(id))] is stable. *)
Definition newest_first (a b : OutboxEntry) : bool := (ob_id b <=? ob_id a)%N.

Definition recent (limit : nat) (sp : Spool) : list OutboxEntry :=
  take limit (sort_by newest_first (sp_entries sp)).

Definition dead_with (id : N) (e : OutboxEntry) : bool := with_id id e && bool_decide (ob_status e = Dead).

Definition revive (now : Z) (e : OutboxEntry) : OutboxEntry :=
  e <| ob_status := Pending |> <| ob_attempts := 0%N |> <| ob_next_attempt_at := now |>.

Definition replay (id : N) (now : Z) (sp : Spool) : Spool * bool :=
  match List.find (dead_with id) (sp_entries sp) with
  | Some _ => (sp <| sp_entries ::= update_first (dead_with id) (revive now) |>, true)
  | None => (sp, false)
  end.

(** ** The memory double *)

Definition mem_enqueue (entry : OutboxEntry) (sp : Spool) : Spool :=
  let id := u64_wrap (sp_next_id sp + 1) in
  mkSpool id (push_capped 500 (entry <| ob_id := id |>) (sp_entries sp)).

Definition mem_claim_due (now : Z) (batch : nat) (sp : Spool) : Spool * list OutboxEntry :=
  let '(l, claimed) := claim_loop (i64_wrap (now + 60)) now batch (sp_entries sp) in
  (mkSpool (sp_next_id sp) l, claimed).

Definition mem_mark_retry (id : N) (next_attempt_at : Z) (sp : Spool) : Spool :=
  sp <| sp_entries ::= update_all (with_id id) (fun e =>
    e <| ob_attempts := u8_sat_add (ob_attempts e) 1 |> <| ob_next_attempt_at := next_attempt_at |>) |>.

(** ** The flusher *)

(** What [flush_once] records for one claimed entry once its POST came back, at
    [now]: the answer was a success or not. *)
Definition record_outcome (now : Z) (acknowledged : bool) (e : OutboxEntry) (sp : Spool) : Spool :=
  if acknowledged then mark_delivered (ob_id e) sp
  else
    let failed := advance_after_failure now e in
    if decide (ob_status failed = Dead) then mark_dead (ob_id e) sp
    else mark_retry (ob_id e) (ob_next_attempt_at failed) sp.

(** [flush_once] at [now]; [post] is the webhook's answer to an entry and the clock
    when it came. The entries posted come back in order. *)
Definition flush_once (now : Z) (post : OutboxEntry -> bool * Z) (sp : Spool) : Spool * list OutboxEntry :=
  let '(sp, due) := claim_due DEFAULT_LEASE_TTL_SECS now CLAIM_BATCH sp in
  (fold_left (fun sp e => let '(ok, at_) := post e in record_outcome at_ ok e sp) due sp, due).

(** ** The file store's programs *)

Definition SPOOL_FILE : string := "outbox.json".

Section Programs.
Context {B : Type} (spool_to_json : Spool -> list B) (spool_from_json : list B -> option Spool).

(** An unreadable or unparsable spool counts as empty. *)
Definition parse_spool (r : result IoErr (list B)) : Spool :=
  default Spool_default (b ← result_ok r; spool_from_json b).

(** [with_spool]: the lock is taken on the spool file itself, and a failed write is
    only logged. *)
Definition with_spool {T} (pid : N) (f : Spool -> Spool * T) : Prog B (result PortError T) :=
  under_lock SPOOL_FILE (
    do! r := CRead SPOOL_FILE in
    let '(spool, out) := f (parse_spool r) in
    run! _ := atomic_write pid SPOOL_FILE (spool_to_json spool) in Ret (Ok out)).

(** [logged]: a failed operation answers the default. *)
Definition logged {T} (d : T) (p : Prog B (result PortError T)) : Prog B T :=
  pbind p (fun r => Ret (match r with Ok v => v | Err _ => d end)).

Definition claim_due_program (pid : N) (now : Z) (batch : nat) : Prog B (list OutboxEntry) :=
  logged [] (with_spool pid (claim_due DEFAULT_LEASE_TTL_SECS now batch)).

(** [enqueue] answers nothing; here the empty list. *)
Definition enqueue_program (pid : N) (entry : OutboxEntry) : Prog B (list OutboxEntry) :=
  logged [] (with_spool pid (fun sp => (enqueue DEFAULT_CAP entry sp, []))).
End Programs.

(** ** Shape of the spool *)

(** Ids grow along the spool and none is ahead of the counter. *)
Record spool_ok (sp : Spool) : Prop := {
  so_sorted : StronglySorted N.lt (ob_id <$> sp_entries sp);
  so_next : Forall (fun e => (ob_id e <= sp_next_id sp)%N) (sp_entries sp);
}.

Lemma ids_update_all p f l : (forall e, ob_id (f e) = ob_id e) -> ob_id <$> update_all p f l = ob_id <$> l.
Proof.
  intros Hf. unfold update_all. rewrite <- list_fmap_compose. apply list_fmap_ext. intros i e _. cbn. by destruct (p e).
Qed.

Lemma elem_of_update_all p f l e :
  e ∈ update_all p f l <-> exists e0, e0 ∈ l /\ e = if p e0 then f e0 else e0.
Proof. unfold update_all. rewrite list_elem_of_fmap. naive_solver. Qed.

Lemma ids_NoDup sp : spool_ok sp -> NoDup (ob_id <$> sp_entries sp).
Proof.
  intros [Hs _]. induction Hs as [|x l Hl IH Hx]; constructor; [|done].
  intros Hin. eapply Forall_forall in Hx; [|exact Hin]. lia.
Qed.

(** An id names one entry. *)
Lemma ids_unique sp e e' : spool_ok sp -> e ∈ sp_entries sp -> e' ∈ sp_entries sp -> ob_id e = ob_id e' -> e = e'.
Proof.
  intros Hok H1 H2 He. destruct (list_elem_of_lookup_1 _ _ H1) as [i Hi], (list_elem_of_lookup_1 _ _ H2) as [k Hk].
  assert (i = k) as ->; [|congruence].
  eapply (NoDup_lookup (ob_id <$> sp_entries sp)); [by apply ids_NoDup|..]; rewrite list_lookup_fmap.
  - by rewrite Hi.
  - by rewrite Hk, He.
Qed.

Lemma spool_ok_update sp p f :
  (forall e, ob_id (f e) = ob_id e) -> spool_ok sp -> spool_ok (sp <| sp_entries ::= update_all p f |>).
Proof.
  intros Hf [H1 H2]. destruct sp as [n l]. constructor.
  - change (StronglySorted N.lt (ob_id <$> update_all p f l)). by rewrite ids_update_all.
  - change (Forall (fun e => (ob_id e <= n)%N) (update_all p f l)). cbn in H2. apply Forall_forall. intros e (e0 & He & ->)%elem_of_update_all. eapply Forall_forall in H2; [|exact He].
    destruct (p e0); [by rewrite Hf|done].
Qed.

Lemma sorted_snoc (l : list N) x : StronglySorted N.lt l -> Forall (fun y => (y < x)%N) l -> StronglySorted N.lt (l ++ [x]).
Proof.
  induction 1 as [|y l Hl IH Hy]; intros Hf; cbn; [by repeat constructor|].
  inversion Hf; subst. constructor; [by apply IH|]. apply Forall_app. by split; [|constructor].
Qed.

Lemma sublist_sorted (l k : list N) : l `sublist_of` k -> StronglySorted N.lt k -> StronglySorted N.lt l.
Proof.
  induction 1 as [|x l k Hs IH|x l k Hs IH]; intros Hk; [constructor| |]; inversion Hk as [|? ? Hk' Hx]; subst.
  - constructor; [by apply IH|]. by eapply sublist_Forall.
  - by apply IH.
Qed.

Lemma spool_ok_enqueue cap e sp : (sp_next_id sp < u64_max)%N -> spool_ok sp -> spool_ok (enqueue cap e sp).
Proof.
  intros Hn [H1 H2]. unfold enqueue, push_capped. set (e' := e <| ob_id := _ |> <| ob_message := _ |> <| ob_status := _ |>).
  assert (u64_wrap (sp_next_id sp + 1) = sp_next_id sp + 1)%N as Hw.
  { unfold u64_wrap. apply N.mod_small. unfold u64_max in Hn. lia. }
  assert (ob_id e' = sp_next_id sp + 1)%N as He by exact Hw. rewrite Hw. constructor; cbn [sp_entries sp_next_id].
  - apply (sublist_sorted _ (ob_id <$> (sp_entries sp ++ [e']))); [apply fmap_sublist, keep_last_sublist|].
    rewrite fmap_app. cbn [fmap list_fmap]. apply sorted_snoc; [done|]. rewrite He.
    apply Forall_fmap. eapply Forall_impl; [exact H2|]. cbv beta. cbn. lia.
  - apply keep_last_Forall, Forall_app. split; [|by repeat constructor; rewrite He].
    eapply Forall_impl; [exact H2|]. cbv beta. lia.
Qed.

(** ** Claiming *)

Lemma claim_loop_spec until now room l :
  let '(l', claimed) := claim_loop until now room l in
  ob_id <$> l' = ob_id <$> l /\ length claimed <= room /\
  (forall e, e ∈ claimed -> e ∈ l' /\ exists e0, e0 ∈ l /\ due now e0 = true /\ e = e0 <| ob_next_attempt_at := until |>) /\
  (forall e, e ∈ l' -> e ∈ l \/ e ∈ claimed) /\ (ob_id <$> claimed) `sublist_of` (ob_id <$> l).
Proof.
  revert room. induction l as [|e l IH]; intros room; cbn [claim_loop].
  - split_and!; [done|cbn; lia|by intros e ?%elem_of_nil|by left|constructor].
  - destruct (due now e) eqn:Ed; [destruct room as [|room]|].
    + split_and!; [done|cbn; lia|by intros x ?%elem_of_nil|by left|apply sublist_nil_l].
    + specialize (IH room). destruct (claim_loop until now room l) as [l' claimed]. destruct IH as (H1 & H2 & H3 & H4 & H5).
      split_and!.
      * rewrite !fmap_cons, H1. done.
      * cbn. lia.
      * intros x [->|Hx]%elem_of_cons; [split; [left|exists e; split_and!; [left|done..]]|].
        destruct (H3 x Hx) as (? & e0 & ? & ? & ?). split; [by right|]. exists e0. split_and!; [by right|done..].
      * intros x [->|Hx]%elem_of_cons; [by right; left|]. destruct (H4 x Hx); [by left; right|by right; right].
      * rewrite !fmap_cons. by apply sublist_skip.
    + specialize (IH room). destruct (claim_loop until now room l) as [l' claimed]. destruct IH as (H1 & H2 & H3 & H4 & H5).
      split_and!.
      * rewrite !fmap_cons, H1. done.
      * done.
      * intros x Hx. destruct (H3 x Hx) as (? & e0 & ? & ? & ?). split; [by right|]. exists e0. split_and!; [by right|done..].
      * intros x [->|Hx]%elem_of_cons; [by left; left|]. destruct (H4 x Hx); [by left; right|by right].
      * rewrite fmap_cons. by apply sublist_cons.
Qed.

Lemma claim_due_spec ttl now batch sp :
  spool_ok sp ->
  let '(sp', claimed) := claim_due ttl now batch sp in
  spool_ok sp' /\ length (sp_entries sp') = length (sp_entries sp) /\ length claimed <= batch /\ NoDup (ob_id <$> claimed) /\
  (forall e, e ∈ claimed -> e ∈ sp_entries sp' /\ exists e0, e0 ∈ sp_entries sp /\ due now e0 = true /\
     e = e0 <| ob_next_attempt_at := i64_wrap (now + ttl + 1) |>) /\
  (forall e, e ∈ sp_entries sp' -> e ∈ sp_entries sp \/ e ∈ claimed).
Proof.
  intros Hok. pose proof (ids_NoDup _ Hok) as Hnd. destruct Hok as [Hs Hn]. unfold claim_due.
  pose proof (claim_loop_spec (i64_wrap (now + ttl + 1)) now batch (sp_entries sp)) as H.
  destruct (claim_loop _ _ _ _) as [l claimed]. destruct H as (H1 & H2 & H3 & H4 & H5). split_and!; try done.
  - constructor; cbn [sp_entries sp_next_id]; [by rewrite H1|].
    apply Forall_forall. intros e He. apply (list_elem_of_fmap_2 ob_id) in He. rewrite H1 in He.
    apply list_elem_of_fmap in He as (e0 & -> & He). by eapply Forall_forall in Hn.
  - cbn. by rewrite <- (length_fmap ob_id l), H1, length_fmap.
  - eapply sublist_NoDup; [exact Hnd|exact H5].
Qed.

(** ** A flusher at work *)

(** What happens to the spool: alerts come in; the project's one flusher claims a
    batch ([saved]: the claim reached the file) and posts each claimed alert in turn,
    recording the answer or, when the write of the answer fails, not; it dies and
    loses the claims it held; somebody replays a dead alert. A flusher that dies
    between a POST and its record is [EUnrecorded] and [ECrash]. *)
Inductive SpoolEvent :=
| EEnqueue (kind project message : string) (now : Z)
| EClaim (now : Z) (saved : bool)
| ESettle (now : Z) (acknowledged : bool)
| EUnrecorded
| EReplay (id : N) (now : Z)
| ECrash.

(** The spool, the claimed alerts not yet posted, every POST sent with the answer
    recorded for it ([None]: none was), and the alerts replayed. *)
Record Delivery := mkDelivery {
  dl_spool : Spool;
  dl_inflight : list OutboxEntry;
  dl_posts : list (N * option bool);
  dl_replays : list N;
}.

Definition delivery_step (d : Delivery) (ev : SpoolEvent) : Delivery :=
  match ev with
  | EEnqueue kind project message now =>
      d <| dl_spool ::= enqueue DEFAULT_CAP (pending kind project message now) |>
  | EClaim now saved =>
      match dl_inflight d with
      | [] => let '(sp, claimed) := claim_due DEFAULT_LEASE_TTL_SECS now CLAIM_BATCH (dl_spool d) in
              mkDelivery (if saved : bool then sp else dl_spool d) claimed (dl_posts d) (dl_replays d)
      | _ => d
      end
  | ESettle now ok =>
      match dl_inflight d with
      | [] => d
      | e :: rest => mkDelivery (record_outcome now ok e (dl_spool d)) rest (dl_posts d ++ [(ob_id e, Some ok)]) (dl_replays d)
      end
  | EUnrecorded =>
      match dl_inflight d with
      | [] => d
      | e :: rest => mkDelivery (dl_spool d) rest (dl_posts d ++ [(ob_id e, None)]) (dl_replays d)
      end
  | EReplay id now =>
      let '(sp, replayed) := replay id now (dl_spool d) in
      mkDelivery sp (dl_inflight d) (dl_posts d) (if replayed : bool then dl_replays d ++ [id] else dl_replays d)
  | ECrash => d <| dl_inflight := [] |>
  end.

Definition deliver (evs : list SpoolEvent) : Delivery :=
  fold_left delivery_step evs (mkDelivery Spool_default [] [] []).

(** The POSTs of one alert, oldest first. *)
Definition posts_to (id : N) (l : list (N * option bool)) : list (option bool) :=
  (List.filter (fun a => bool_decide (a.1 = id)) l).*2.

Definition replays_of (id : N) (l : list N) : nat := length (List.filter (fun i => bool_decide (i = id)) l).

(** The recorded failures among the POSTs of an alert. *)
Definition fails (posts : list (option bool)) : nat :=
  length (List.filter (fun a => bool_decide (a = Some false)) posts).

(** Not acknowledged, after [k] replays and [n] failures since the last of them. *)
Definition unsettled (posts : list (option bool)) (k n : nat) : Prop :=
  (Some true ∉ posts) /\ fails posts = 8 * k + n.

(** Where an alert of the spool stands after its POSTs and [k] replays. *)
Definition standing (e : OutboxEntry) (posts : list (option bool)) (k : nat) : Prop :=
  match ob_status e with
  | Pending => exists n, n <= 7 /\ ob_attempts e = N.of_nat n /\ unsettled posts k n
  | Delivered => exists n before, n <= 7 /\ ob_attempts e = N.of_nat n /\
      posts = before ++ [Some true] /\ unsettled before k n
  | Dead => ob_attempts e = 7%N /\ unsettled posts k 8
  end.

(** Every alert's POSTs: at most eight recorded failures per life, and nothing
    after a recorded success. *)
Definition settled_posts (posts : list (option bool)) (k : nat) : Prop :=
  ((Some true ∉ posts) /\ fails posts <= 8 * k + 8) \/
  (exists before, posts = before ++ [Some true] /\ (Some true ∉ before) /\ fails before <= 8 * k + 7).

Record delivery_ok (d : Delivery) : Prop := {
  do_cap : length (sp_entries (dl_spool d)) <= DEFAULT_CAP;
  do_spool : spool_ok (dl_spool d);
  do_standing e : e ∈ sp_entries (dl_spool d) ->
    standing e (posts_to (ob_id e) (dl_posts d)) (replays_of (ob_id e) (dl_replays d));
  do_posts id : settled_posts (posts_to id (dl_posts d)) (replays_of id (dl_replays d));
  do_new id : (sp_next_id (dl_spool d) < id)%N -> posts_to id (dl_posts d) = [] /\ replays_of id (dl_replays d) = 0;
  do_inflight : NoDup (ob_id <$> dl_inflight d);
  do_claimed e : e ∈ dl_inflight d -> (ob_id e <= sp_next_id (dl_spool d))%N /\
    (exists n, n <= 7 /\ ob_attempts e = N.of_nat n /\
       unsettled (posts_to (ob_id e) (dl_posts d)) (replays_of (ob_id e) (dl_replays d)) n) /\
    ob_status e = Pending /\
    (forall e', e' ∈ sp_entries (dl_spool d) -> ob_id e' = ob_id e -> ob_status e' = Pending /\ ob_attempts e' = ob_attempts e);
}.

Lemma posts_snoc id id' a l :
  posts_to id (l ++ [(id', a)]) = posts_to id l ++ (if bool_decide (id' = id) then [a] else []).
Proof. unfold posts_to. rewrite List.filter_app, fmap_app. cbn. by case_bool_decide. Qed.

Lemma replays_snoc id id' l :
  replays_of id (l ++ [id']) = replays_of id l + (if bool_decide (id' = id) then 1 else 0).
Proof. unfold replays_of. rewrite List.filter_app, length_app. cbn. by case_bool_decide. Qed.

Lemma unsettled_bound posts k n : n <= 8 -> unsettled posts k n -> settled_posts posts k.
Proof. intros Hn [H1 H2]. left. split; [done|lia]. Qed.

Lemma unsettled_post posts k n a :
  a <> Some true -> unsettled posts k n ->
  unsettled (posts ++ [a]) k (n + (if bool_decide (a = Some false) then 1 else 0)).
Proof.
  intros Ha [H1 H2]. split.
  - intros [?|Heq%list_elem_of_singleton]%elem_of_app; [done|by apply Ha].
  - unfold fails. rewrite List.filter_app, length_app. cbn. fold (fails posts). rewrite H2.
    case_bool_decide; cbn; lia.
Qed.

(** What one answer does to the entry it is about. *)
Definition settle_entry (now : Z) (ok : bool) (e e' : OutboxEntry) : OutboxEntry :=
  if ok then e' <| ob_status := Delivered |>
  else if decide (ob_attempts e < 7)%N then
    e' <| ob_attempts := N.min (u8_sat_add (ob_attempts e') 1) OUTBOX_MAX_ATTEMPTS |>
       <| ob_next_attempt_at := ob_next_attempt_at (advance_after_failure now e) |>
  else e' <| ob_status := Dead |>.

Lemma record_outcome_spec now ok e sp :
  record_outcome now ok e sp = sp <| sp_entries ::= update_all (with_id (ob_id e)) (settle_entry now ok e) |>.
Proof.
  unfold record_outcome, settle_entry. destruct ok; [done|]. destruct (decide (ob_attempts e < 7)%N) as [H|H].
  - rewrite decide_False; [done|]. rewrite advance_live by done. done.
  - rewrite advance_dead by lia. by rewrite decide_True.
Qed.

Lemma enqueue_entries cap e sp x :
  x ∈ sp_entries (enqueue cap e sp) -> x ∈ sp_entries sp \/
  (ob_id x = u64_wrap (sp_next_id sp + 1) /\ ob_status x = Pending /\ ob_attempts x = ob_attempts e).
Proof.
  unfold enqueue, push_capped, keep_last. cbn [sp_entries]. intros Hx.
  assert (forall n (l : list OutboxEntry), x ∈ drop n l -> x ∈ l) as Hdrop.
  { intros n l H. rewrite <- (take_drop n l). apply elem_of_app. by right. }
  apply Hdrop, elem_of_app in Hx as [Hx|Hx%list_elem_of_singleton]; [by left|right]. by subst x.
Qed.

Lemma enqueue_ok kind project message now d :
  (sp_next_id (dl_spool d) < u64_max)%N -> delivery_ok d ->
  delivery_ok (delivery_step d (EEnqueue kind project message now)).
Proof.
  intros Hn [H0 H1 H2 H3 H4 H5 H6]. destruct d as [sp fl an rp]. cbn [dl_spool dl_inflight dl_posts dl_replays] in *.
  assert (u64_wrap (sp_next_id sp + 1) = sp_next_id sp + 1)%N as Hw.
  { unfold u64_wrap. apply N.mod_small. unfold u64_max in Hn. lia. }
  change (delivery_step _ _) with (mkDelivery (enqueue DEFAULT_CAP (pending kind project message now) sp) fl an rp).
  assert (sp_next_id (enqueue DEFAULT_CAP (pending kind project message now) sp) = sp_next_id sp + 1)%N as Hnext by exact Hw.
  constructor; cbn [dl_spool dl_inflight dl_posts dl_replays].
  - apply push_capped_le.
  - by apply spool_ok_enqueue.
  - intros e [He|(Hid & Hs & Ha)]%enqueue_entries; [by apply H2|]. unfold standing. rewrite Hs. exists 0.
    destruct (H4 (ob_id e)) as [-> ->]; [rewrite Hid, Hw; lia|]. split_and!; [lia|done|]. split; [apply not_elem_of_nil|done].
  - done.
  - intros id Hid. apply H4. lia.
  - done.
  - intros e He. destruct (H6 e He) as (A1 & A2 & A3 & A4). split_and!; [lia|done|done|].
    intros e' [He'|(Hid & _)]%enqueue_entries Heq; [by apply A4|]. rewrite Hid, Hw in Heq. lia.
Qed.

Lemma claim_ok now saved d : delivery_ok d -> delivery_ok (delivery_step d (EClaim now saved)).
Proof.
  intros Hd. pose proof Hd as [H0 H1 H2 H3 H4 H5 H6]. destruct d as [sp [|f fl] an rp]; [|exact Hd].
  cbn [delivery_step dl_spool dl_inflight dl_posts dl_replays] in *.
  pose proof (claim_due_spec DEFAULT_LEASE_TTL_SECS now CLAIM_BATCH sp H1) as Hc.
  assert (sp_next_id (claim_due DEFAULT_LEASE_TTL_SECS now CLAIM_BATCH sp).1 = sp_next_id sp) as Hn.
  { unfold claim_due. by destruct (claim_loop _ _ _ _). }
  destruct (claim_due _ _ _ _) as [sp' claimed]. destruct Hc as (C1 & C0 & C2 & C3 & C4 & C5).
  assert (forall e, e ∈ claimed -> ob_status e = Pending /\ standing e (posts_to (ob_id e) an) (replays_of (ob_id e) rp)) as Hcl.
  { intros e He. destruct (C4 e He) as (_ & e0 & He0 & Hdue & ->). unfold due in Hdue.
    apply andb_true_iff in Hdue as [Hs _]. apply bool_decide_eq_true in Hs. split; [exact Hs|]. apply (H2 e0 He0). }
  constructor; cbn [dl_spool dl_inflight dl_posts dl_replays fst] in *.
  - destruct saved; by rewrite ?C0.
  - by destruct saved.
  - destruct saved; [|by apply H2]. intros e [He|He]%C5; [by apply H2|by apply Hcl].
  - done.
  - intros id Hid. apply H4. destruct saved; lia.
  - done.
  - intros e He. destruct (Hcl e He) as [Hs Hst]. destruct (C4 e He) as (Hin & e0 & He0 & _ & Heq0). split_and!.
    + pose proof (so_next _ C1) as Hf. eapply Forall_forall in Hf; [|exact Hin]. destruct saved; lia.
    + unfold standing in Hst. by rewrite Hs in Hst.
    + done.
    + destruct saved; intros e' He' Heq; [by rewrite (ids_unique sp' e' e)|].
      rewrite (ids_unique sp e' e0); [by subst e|done..|by subst e].
Qed.

(** The head of the batch is posted: what is left for the others. *)
Lemma popped_claimed f fl sp an rp a :
  delivery_ok (mkDelivery sp (f :: fl) an rp) ->
  forall e, e ∈ fl -> ob_id f <> ob_id e /\ posts_to (ob_id e) (an ++ [(ob_id f, a)]) = posts_to (ob_id e) an.
Proof.
  intros [_ _ _ _ _ H5 _] e He. cbn [dl_inflight] in H5. apply NoDup_cons in H5 as [Hnew _].
  assert (ob_id f <> ob_id e) as Hne by (intros Heq; apply Hnew; rewrite Heq; by apply list_elem_of_fmap_2).
  split; [done|]. by rewrite posts_snoc, bool_decide_false, app_nil_r.
Qed.

(** The entry a POST was about, once its answer [ok] is recorded. *)
Lemma settle_standing now ok e0 f posts k n :
  n <= 7 -> ob_attempts f = N.of_nat n -> unsettled posts k n -> ob_status e0 = Pending -> ob_attempts e0 = ob_attempts f ->
  standing (settle_entry now ok f e0) (posts ++ [Some ok]) k.
Proof.
  intros Hn7 Hn Hu Hs Ha. unfold settle_entry. destruct ok.
  - exists n, posts. by rewrite <- Hn, <- Ha.
  - pose proof (unsettled_post _ _ _ (Some false) ltac:(done) Hu) as Hu'. rewrite bool_decide_true in Hu' by done. case_decide as Hlt.
    + unfold standing. change (ob_status (e0 <| ob_attempts := ?a |> <| ob_next_attempt_at := ?t |>)) with (ob_status e0).
      rewrite Hs. exists (n + 1). split_and!; [lia| |done].
      change (ob_attempts (e0 <| ob_attempts := ?a |> <| ob_next_attempt_at := ?t |>)) with a.
      unfold u8_sat_add, OUTBOX_MAX_ATTEMPTS. lia.
    + unfold standing. change (ob_status (e0 <| ob_status := Dead |>)) with Dead.
      change (ob_attempts (e0 <| ob_status := Dead |>)) with (ob_attempts e0).
      assert (n = 7) as -> by lia. split; [lia|done].
Qed.

Lemma settle_posts ok posts k n : n <= 7 -> unsettled posts k n -> settled_posts (posts ++ [Some ok]) k.
Proof.
  intros Hn Hu. destruct ok.
  - right. exists posts. destruct Hu. split_and!; [done..|lia].
  - pose proof (unsettled_post _ _ _ (Some false) ltac:(done) Hu) as Hu'. rewrite bool_decide_true in Hu' by done.
    eapply unsettled_bound; [|exact Hu']. lia.
Qed.

Lemma settle_ok now ok d : delivery_ok d -> delivery_ok (delivery_step d (ESettle now ok)).
Proof.
  intros Hd. pose proof Hd as [H0 H1 H2 H3 H4 H5 H6]. destruct d as [sp [|f fl] an rp]; [exact Hd|].
  cbn [delivery_step dl_spool dl_inflight dl_posts dl_replays] in *. rewrite record_outcome_spec.
  pose proof (popped_claimed f fl sp an rp (Some ok) Hd) as Hpop.
  apply NoDup_cons in H5 as [_ H5]. destruct (H6 f) as (F1 & (n & Hn7 & Hn & Hans) & F3 & F4); [left|].
  set (sp' := sp <| sp_entries ::= _ |>). assert (sp_next_id sp' = sp_next_id sp) as Hnext by by destruct sp.
  assert (forall e, e ∈ sp_entries sp' -> exists e0, e0 ∈ sp_entries sp /\
    e = (if with_id (ob_id f) e0 then settle_entry now ok f e0 else e0) /\ ob_id e = ob_id e0) as Hsp'.
  { intros e He. change (sp_entries sp') with (update_all (with_id (ob_id f)) (settle_entry now ok f) (sp_entries sp)) in He.
    apply elem_of_update_all in He as (e0 & He0 & ->). exists e0. split_and!; [done..|].
    destruct (with_id _ _); [|done]. unfold settle_entry. destruct ok; [done|]. by case_decide. }
  constructor; cbn [dl_spool dl_inflight dl_posts dl_replays].
  - change (length (update_all (with_id (ob_id f)) (settle_entry now ok f) (sp_entries sp)) <= DEFAULT_CAP).
    unfold update_all. by rewrite length_fmap.
  - apply spool_ok_update; [|done]. intros e. unfold settle_entry. destruct ok; [done|]. by case_decide.
  - intros e (e0 & He0 & -> & Hid)%Hsp'. rewrite Hid, posts_snoc. unfold with_id.
    destruct (decide (ob_id e0 = ob_id f)) as [Heq|Hne].
    2: { rewrite !bool_decide_false, app_nil_r by congruence. by apply H2. }
    rewrite !bool_decide_true by congruence. destruct (F4 e0 He0 Heq) as [Hs Ha]. rewrite Heq. by apply (settle_standing now ok e0 f _ _ n).
  - intros id. rewrite posts_snoc. case_bool_decide as Heq; [|by rewrite app_nil_r]. subst id. by eapply settle_posts.
  - intros id Hid. rewrite posts_snoc, bool_decide_false, app_nil_r; [apply H4; lia|]. lia.
  - done.
  - intros e He. destruct (H6 e) as (E1 & E2 & E3 & E4); [by right|]. destruct (Hpop e He) as [Hne ->].
    split_and!; [lia|done|done|].
    intros e' (e0 & He0 & -> & Hid)%Hsp' Heq. unfold with_id. rewrite bool_decide_false by congruence.
    apply E4; [done|congruence].
Qed.

Lemma unrecorded_ok d : delivery_ok d -> delivery_ok (delivery_step d EUnrecorded).
Proof.
  intros Hd. pose proof Hd as [H0 H1 H2 H3 H4 H5 H6]. destruct d as [sp [|f fl] an rp]; [exact Hd|].
  cbn [delivery_step dl_spool dl_inflight dl_posts dl_replays] in *.
  pose proof (popped_claimed f fl sp an rp None Hd) as Hpop.
  apply NoDup_cons in H5 as [_ H5]. destruct (H6 f) as (F1 & (n & Hn7 & Hn & Hans) & F3 & F4); [left|].
  pose proof (unsettled_post _ _ _ None ltac:(done) Hans) as Hu. rewrite bool_decide_false, Nat.add_0_r in Hu by done.
  constructor; cbn [dl_spool dl_inflight dl_posts dl_replays]; [done..| | | |done|].
  - intros e He. rewrite posts_snoc. case_bool_decide as Heq; [|rewrite app_nil_r; by apply H2].
    destruct (F4 e He) as [Hs Ha]; [done|]. unfold standing. rewrite Hs. exists n. rewrite <- Heq. by rewrite <- Hn, <- Ha.
  - intros id. rewrite posts_snoc. case_bool_decide as Heq; [|by rewrite app_nil_r]. subst id.
    eapply unsettled_bound; [|exact Hu]. lia.
  - intros id Hid. rewrite posts_snoc, bool_decide_false, app_nil_r; [by apply H4|]. lia.
  - intros e He. destruct (H6 e) as (E1 & E2 & E3 & E4); [by right|]. by destruct (Hpop e He) as [_ ->].
Qed.

Lemma update_first_all id f l :
  NoDup (ob_id <$> l) -> update_first (dead_with id) f l = update_all (dead_with id) f l.
Proof.
  induction l as [|e l IH]; [done|]. rewrite fmap_cons. intros [Hx Hnd]%NoDup_cons. unfold update_all in *. cbn.
  destruct (dead_with id e) eqn:Ed; [|by rewrite IH]. f_equal. clear IH Hnd.
  apply andb_true_iff in Ed as [Hid%bool_decide_eq_true _].
  induction l as [|x l IH]; [done|]. rewrite fmap_cons in Hx. apply not_elem_of_cons in Hx as [Hne Hx]. cbn.
  rewrite <- IH by done. unfold dead_with, with_id. by rewrite bool_decide_false by congruence.
Qed.

Lemma replay_ok id now d : delivery_ok d -> delivery_ok (delivery_step d (EReplay id now)).
Proof.
  intros Hd. pose proof Hd as [H0 H1 H2 H3 H4 H5 H6]. destruct d as [sp fl an rp].
  cbn [delivery_step dl_spool dl_inflight dl_posts dl_replays] in *. unfold replay.
  destruct (List.find (dead_with id) (sp_entries sp)) as [f|] eqn:Ef; [|done].
  apply find_elem in Ef as [Hf [Hid Hdead]%andb_true_iff]. apply bool_decide_eq_true in Hid, Hdead.
  pose proof (H2 f Hf) as Hst. unfold standing in Hst. rewrite Hdead, Hid in Hst. destruct Hst as [_ Hu].
  set (sp' := sp <| sp_entries ::= _ |>). assert (sp_next_id sp' = sp_next_id sp) as Hnext by by destruct sp.
  assert (sp_entries sp' = update_all (dead_with id) (revive now) (sp_entries sp)) as Hents.
  { change (sp_entries sp') with (update_first (dead_with id) (revive now) (sp_entries sp)). by apply update_first_all, ids_NoDup. }
  assert (unsettled (posts_to id an) (replays_of id (rp ++ [id])) 0) as Hu'.
  { rewrite replays_snoc, bool_decide_true by done. destruct Hu as [U1 U2]. split; [done|lia]. }
  constructor; cbn [dl_spool dl_inflight dl_posts dl_replays].
  - rewrite Hents. unfold update_all. by rewrite length_fmap.
  - destruct (spool_ok_update sp (dead_with id) (revive now)) as [K1 K2]; [done|done|].
    constructor; [by rewrite Hents|]. rewrite Hents. exact K2.
  - rewrite Hents. intros e (e0 & He0 & ->)%elem_of_update_all. destruct (dead_with id e0) eqn:Ed.
    + apply andb_true_iff in Ed as [Ei%bool_decide_eq_true _]. change (ob_id (revive now e0)) with (ob_id e0). rewrite Ei.
      exists 0. split_and!; [lia|done|done].
    + rewrite replays_snoc, bool_decide_false, Nat.add_0_r; [by apply H2|]. intros Heq.
      assert (e0 = f) as -> by by (eapply ids_unique; [exact H1|done..|congruence]).
      unfold dead_with, with_id in Ed. by rewrite !bool_decide_true in Ed.
  - intros id'. rewrite replays_snoc. case_bool_decide as Heq; [|by rewrite Nat.add_0_r]. subst id'.
    rewrite replays_snoc, bool_decide_true in Hu' by done. eapply unsettled_bound; [|exact Hu']. lia.
  - intros id' Hlt. rewrite replays_snoc, bool_decide_false, Nat.add_0_r; [apply H4; lia|].
    pose proof (so_next _ H1) as Hn. eapply Forall_forall in Hn; [|exact Hf]. lia.
  - done.
  - intros e He. destruct (H6 e He) as (E1 & E2 & E3 & E4).
    assert (id <> ob_id e) as Hne.
    { intros Heq. destruct (E4 f Hf) as [Hp _]; [congruence|]. by rewrite Hdead in Hp. }
    rewrite replays_snoc, bool_decide_false, Nat.add_0_r by done. split_and!; [lia|done|done|].
    rewrite Hents. intros e' (e0 & He0 & ->)%elem_of_update_all Heq. destruct (dead_with id e0) eqn:Ed; [|by apply E4].
    apply andb_true_iff in Ed as [Ei%bool_decide_eq_true _]. change (ob_id (revive now e0)) with (ob_id e0) in Heq. congruence.
Qed.

Lemma delivery_step_ok ev d :
  (sp_next_id (dl_spool d) < u64_max)%N -> delivery_ok d ->
  delivery_ok (delivery_step d ev) /\ (sp_next_id (dl_spool (delivery_step d ev)) <= sp_next_id (dl_spool d) + 1)%N.
Proof.
  intros Hn Hd. destruct ev as [k p m now|now saved|now ok| |id now|].
  - split; [by apply enqueue_ok|]. destruct d. cbn. unfold u64_wrap. pose proof (N.Div0.mod_le (sp_next_id dl_spool0 + 1) 18446744073709551616). lia.
  - split; [by apply claim_ok|]. destruct d as [sp [|] an rp]; cbn; [|lia]. unfold claim_due. destruct (claim_loop _ _ _ _), saved; cbn; lia.
  - split; [by apply settle_ok|]. destruct d as [sp [|] an rp]; cbn [delivery_step dl_spool dl_inflight]; [lia|].
    rewrite record_outcome_spec. destruct sp. cbn. lia.
  - split; [by apply unrecorded_ok|]. destruct d as [sp [|] an rp]; cbn; lia.
  - split; [by apply replay_ok|]. destruct d as [sp fl an rp]. cbn. unfold replay. destruct (List.find _ _), sp; cbn; lia.
  - split; [|destruct d; cbn; lia]. destruct Hd, d as [sp fl an rp]. constructor; cbn in *; try done; [constructor|].
    by intros e ?%elem_of_nil.
Qed.


(** One delivery pass is a claim and the answers to what it claimed. *)
Definition pass_events (now : Z) (post : OutboxEntry -> bool * Z) (posted : list OutboxEntry) : list SpoolEvent :=
  EClaim now true :: ((fun e => ESettle (post e).2 (post e).1) <$> posted).

Lemma settle_events post posted sp an rp :
  exists an', fold_left delivery_step ((fun e => ESettle (post e).2 (post e).1) <$> posted) (mkDelivery sp posted an rp) =
    mkDelivery (fold_left (fun sp e => let '(ok, at_) := post e in record_outcome at_ ok e sp) posted sp) [] an' rp.
Proof.
  revert sp an. induction posted as [|e posted IH]; intros sp an; [by exists an|].
  rewrite fmap_cons. cbn [fold_left delivery_step dl_inflight dl_spool dl_posts dl_replays]. destruct (post e) as [ok at_]. cbn [fst snd]. apply IH.
Qed.

(** [flush_once] is one pass of the flusher of [deliver]. *)
Theorem flush_once_is_pass now post sp an rp :
  let '(sp', posted) := flush_once now post sp in
  exists an', fold_left delivery_step (pass_events now post posted) (mkDelivery sp [] an rp) = mkDelivery sp' [] an' rp.
Proof.
  unfold flush_once, pass_events. destruct (claim_due DEFAULT_LEASE_TTL_SECS now CLAIM_BATCH sp) as [sp1 posted] eqn:E.
  cbn [fold_left delivery_step dl_inflight dl_spool dl_posts dl_replays]. rewrite E. apply settle_events.
Qed.

Lemma clamp_idem m : clamp_message (clamp_message m) = clamp_message m.
Proof.
  destruct (clamp_message_longest m) as (H & _). by apply (clamp_message_longest (clamp_message m)).
Qed.

(** The memory double is the file store with a lease of 59 seconds, on fresh alerts and attempts below the cap. *)
Theorem memory_double kind project message now batch id at_ sp :
  mem_enqueue (pending kind project message now) sp = enqueue DEFAULT_CAP (pending kind project message now) sp /\
  mem_claim_due now batch sp = claim_due 59 now batch sp /\
  (Forall (fun e => (ob_attempts e < 8)%N) (sp_entries sp) -> mem_mark_retry id at_ sp = mark_retry id at_ sp).
Proof.
  split_and!.
  - unfold mem_enqueue, enqueue. do 2 f_equal. unfold pending. cbn. unfold constant. by rewrite clamp_idem.
  - unfold mem_claim_due, claim_due. by replace (now + 59 + 1)%Z with (now + 60)%Z by lia.
  - intros Hf. unfold mem_mark_retry, mark_retry. destruct sp as [n l]. cbn. unfold constant. f_equal.
    cbn in Hf. unfold update_all. apply list_fmap_ext. intros i e He. destruct (with_id id e); [|done].
    eapply Forall_lookup_1 in Hf; [|exact He]. unfold u8_sat_add, OUTBOX_MAX_ATTEMPTS.
    by replace (N.min (N.min (ob_attempts e + 1) 255) 8) with (N.min (ob_attempts e + 1) 255) by lia.
Qed.

(** ** The file store alone *)

Section Alone.
Context {B : Type} (spool_to_json : Spool -> list B) (spool_from_json : list B -> option Spool).

Definition spool_of (fs : Fs B) : Spool := parse_spool spool_from_json (read_path SPOOL_FILE fs).

(** An operation that nobody disturbs does to the stored spool what its function says: it reads the spool, an absent or unreadable one counting as empty, answers the function's answer, and leaves the function's spool. *)
Theorem with_spool_alone {T} who pid (f : Spool -> Spool * T) fs :
  wf fs -> fs_locks fs = ∅ -> (forall sp, spool_from_json (spool_to_json sp) = Some sp) ->
  spool_from_json [] = None ->
  exists fs', run who reliable (with_spool spool_to_json spool_from_json pid f) fs = Some (fs', Ok (f (spool_of fs)).2) /\
    spool_of fs' = (f (spool_of fs)).1.
Proof.
  intros Hw Hl Hrt Hempty. unfold with_spool, under_lock, acquire_lock. cbn [pbind].
  assert (spool_of (open_path SPOOL_FILE false fs).1 = spool_of fs) as Hopen.
  { unfold spool_of, read_path, content, open_path. destruct (fs_dir fs !! SPOOL_FILE) as [i|] eqn:E; cbn; [by rewrite E|].
    rewrite lookup_insert_eq. cbn. unfold bytes_of. cbn. rewrite lookup_insert_eq. unfold parse_spool. cbn. by rewrite Hempty. }
  pose proof (open_wf SPOOL_FILE false fs Hw) as O1. pose proof (open_path_locks SPOOL_FILE false fs) as O2.
  destruct (open_path SPOOL_FILE false fs) as [fs1 l] eqn:Eo. cbn [fst] in *.
  rewrite (run_done who (COpen SPOOL_FILE false) _ fs fs1 (Ok l)) by (cbn [exec run_call]; by rewrite Eo). cbn [io pbind].
  set (fs2 := fs1 <| fs_locks ::= <[l := who]> |>).
  rewrite (run_done who (CLock l) _ fs1 fs2 (Ok tt)) by (cbn; by rewrite O2, Hl, lookup_empty). cbn [io pbind result_bind].
  rewrite (run_done who (CRead SPOOL_FILE) _ fs2 fs2 (read_path SPOOL_FILE fs2)) by done.
  change (parse_spool spool_from_json (read_path SPOOL_FILE fs2)) with (spool_of fs1). rewrite Hopen.
  destruct (f (spool_of fs)) as [sp out]. rewrite pbind_assoc, run_bind.
  destruct (run_atomic_write who pid SPOOL_FILE (spool_to_json sp) fs2) as (fs3 & Hr & _ & _ & Hc & _); [done|by apply wf_locks|].
  rewrite Hr. cbn [pbind]. set (fs4 := fs3 <| fs_locks ::= delete l |>).
  rewrite (run_done who (CUnlock l) _ fs3 fs4 tt) by done. cbn [run fst snd].
  exists fs4. split; [done|]. unfold spool_of, read_path.
  change (content fs4 SPOOL_FILE) with (content fs3 SPOOL_FILE). rewrite Hc. unfold parse_spool. cbn. by rewrite Hrt.
Qed.
End Alone.

(** ** Where the spool does less than it says *)

(** A directory with the state document and the spool, one document per symbol. *)
Inductive HubDoc := HState (st : ProjectState) | HSpool (sp : Spool).

Definition hub_state_json (st : ProjectState) : list HubDoc := [HState st].
Definition hub_state_of (b : list HubDoc) : result string ProjectState :=
  match b with [HState st] => Ok st | _ => Err "missing field `schema_version`" end.
Definition hub_spool_json (sp : Spool) : list HubDoc := [HSpool sp].
Definition hub_spool_of (b : list HubDoc) : option Spool := match b with [HSpool sp] => Some sp | _ => None end.

Definition one_alert : Spool := enqueue DEFAULT_CAP (pending "deploy_failed" "p" "boom" 0) Spool_default.

Definition hub_dir : Fs HubDoc :=
  mkFs {["state.json" := 0; "outbox.json" := 1]} {[0 := [HState one_ready]; 1 := [HSpool one_alert]]} ∅ 2.

Definition hub_turns (turns : list (nat * nat)) : list (Event HubDoc) :=
  turns ≫= (fun '(who, n) => repeat (Step who (fun _ => Done)) n).

Definition posted_ids (w : World HubDoc (list OutboxEntry)) : list (option (list N)) :=
  map (fun p => match p with Some (Ret l) => Some (map ob_id l) | _ => None end) (wd_progs w).

(** The spool's lock excludes nobody. It is taken on the very file the write renames another one over, so whoever waited for it wakes up with the lock of a file that is gone while a newcomer locks the new one: here two flushers run inside their critical sections at once and both claim, and will post, the same alerts. *)
Theorem spool_lock_lost :
  let w := run_world (hub_turns [(0, 2); (1, 1); (0, 6); (1, 2); (2, 3); (1, 10); (2, 10)])
    (mkWorld hub_dir
       [Some (enqueue_program hub_spool_json hub_spool_of 1 (pending "budget" "p" "cap hit" 5));
        Some (claim_due_program hub_spool_json hub_spool_of 2 100 16);
        Some (claim_due_program hub_spool_json hub_spool_of 3 100 16)]) in
  posted_ids w = [Some []; Some [1; 2]%N; Some [1; 2]%N].
Proof. vm_compute. reflexivity. Qed.

(** The same race loses an alert: an enqueue and a claim both answer, and the enqueued alert is nowhere. *)
Theorem spool_alert_lost :
  let w := run_world (hub_turns [(0, 2); (1, 1); (0, 6); (1, 2); (2, 3); (1, 10); (2, 10)])
    (mkWorld hub_dir
       [Some (claim_due_program hub_spool_json hub_spool_of 1 100 16);
        Some (enqueue_program hub_spool_json hub_spool_of 2 (pending "budget" "p" "cap hit" 5));
        Some (claim_due_program hub_spool_json hub_spool_of 3 200 16)]) in
  posted_ids w = [Some [1%N]; Some []; Some [1%N]] /\
  map ob_id (sp_entries (spool_of hub_spool_of (wd_fs w))) = [1%N].
Proof. vm_compute. split; reflexivity. Qed.

(** An alert destroys a save. The state store and the spool of one process stage their writes in the same temporary file under different locks: an alert enqueued between the write and the rename of a save that answers [Ok] puts the spool's bytes into state.json, the saved state is gone, a load answers with the document before it, and the alert is lost too. *)
Theorem alert_overwrites_state :
  let save : Prog HubDoc (list OutboxEntry) :=
    pbind (save_blocking hub_state_json plain_gate (fun _ _ => None) 7 5 one_ready_touched)
      (fun r => Ret (match r with Ok _ => [] | Err _ => sp_entries one_alert end)) in
  let w := run_world (hub_turns [(0, 9); (1, 6); (0, 10); (1, 10)])
    (mkWorld hub_dir [Some save; Some (enqueue_program hub_spool_json hub_spool_of 7 (pending "budget" "p" "cap hit" 5))]) in
  posted_ids w = [Some []; Some []] /\
  content (wd_fs w) STATE_FILE = Some [HSpool (enqueue DEFAULT_CAP (pending "budget" "p" "cap hit" 5) one_alert)] /\
  (snd <$> run 0 reliable (load_blocking hub_state_of) (wd_fs w)) = Some (Ok one_ready) /\
  map ob_id (sp_entries (spool_of hub_spool_of (wd_fs w))) = [1%N].
Proof. vm_compute. split_and!; reflexivity. Qed.

(** The first retry comes a minute late. The claimed copy carries the lease as its deadline, and the next deadline is pushed past it: an alert that fails at once at time 100 is due again at 162, not at 130. *)
Theorem first_retry_late :
  map ob_next_attempt_at (sp_entries (flush_once 100 (fun _ => (false, 100%Z)) one_alert).1) = [162%Z] /\
  (100 + backoff_delay_secs 1)%Z = 130%Z.
Proof. vm_compute. split; reflexivity. Qed.

(** An alert that fails eight times (once unrecorded), is replayed, and is then
    delivered. *)
Definition dead_then_replayed : list SpoolEvent :=
  EEnqueue "deploy_failed" "p" "boom" 0 ::
  ([100; 1000; 3000; 6000; 12000; 20000; 30000; 40000]%Z ≫= (fun t => [EClaim t true; ESettle t false])) ++
  [EReplay 1 50000; EClaim 50000 true; EUnrecorded; ECrash; EClaim 60000 true; ESettle 60000 true].


(** That run, counted: eight failures, the lost answer, the success. *)
Example dead_then_replayed_posts :
  posts_to 1 (dl_posts (deliver dead_then_replayed)) = replicate 8 (Some false) ++ [None; Some true] /\
  map (fun e => (ob_status e, ob_attempts e)) (sp_entries (dl_spool (deliver dead_then_replayed))) = [(Delivered, 0%N)].
Proof. vm_compute. split; reflexivity. Qed.
