(* ===== verification/AuditChain.v ===== *)
(** * The audit trail's hash chain

    [audit_chain.rs] and the Postgres sink of [audit_sink.rs]. SHA-256 is the
    parameter [sha256], from the hashed text to the digest's bytes. The table is
    the list of its rows in id order; a method of the sink is one step, as its
    lock makes it. *)
From S2P Require Import Prelude RustStr Ports.

Definition GENESIS_PREV : string := zeros 64.

Record ChainedEntry := mkChainedEntry {
  ce_prev : string;
  ce_at : string;
  ce_user : string;
  ce_action : string;
  ce_status : N;
  ce_hash : string;
}.

(** [AuditRecord] *)
Record AuditRecord := mkAuditRecord {
  ad_at : string;
  ad_user : string;
  ad_action : string;
  ad_status : N;
}.

Record ChainBreak := mkChainBreak { cb_index : nat; cb_reason : string }.

Record AuditVerification := mkAuditVerification {
  av_supported : bool;
  av_verified : nat;
  av_intact : bool;
  av_broken_at : option nat;
  av_detail : option string;
}.

(** [HEX[b]] *)
Definition hex_digit (n : N) : ascii :=
  default "0"%char (String.get (N.to_nat n) "0123456789abcdef").

Fixpoint to_hex (bytes : list N) : string :=
  match bytes with
  | [] => ""
  | b :: bytes => String (hex_digit (N.shiftr b 4)) (String (hex_digit (N.land b 15)) (to_hex bytes))
  end.

(** [short]: the first eight bytes, when they end a character. *)
Definition short (h : string) : string := default h (str_get_to 8 h).

(** The text [row_hash] feeds the digest. *)
Definition row_text (prev at_ user action : string) (status : N) : string :=
  prev +:+ newline +:+ at_ +:+ newline +:+ user +:+ newline +:+ action +:+ newline +:+ dec status.

Section Chain.
Context (sha256 : string -> list N).

Definition row_hash (prev at_ user action : string) (status : N) : string :=
  to_hex (sha256 (row_text prev at_ user action status)).

(** The hash a row's own content has. *)
Definition content_hash (row : ChainedEntry) : string :=
  row_hash (ce_prev row) (ce_at row) (ce_user row) (ce_action row) (ce_status row).

(** The loop of [verify_chain], from the row at [index]. *)
Fixpoint verify_from (index : nat) (expected_prev : string) (rows : list ChainedEntry)
    : option ChainBreak :=
  match rows with
  | [] => None
  | row :: rows =>
      if negb (bool_decide (ce_prev row = expected_prev))
      then Some (mkChainBreak index ("prev mismatch: row links to " +:+ short (ce_prev row) +:+
                                     " but the chain tip here is " +:+ short expected_prev))
      else
        let want := content_hash row in
        if negb (bool_decide (ce_hash row = want))
        then Some (mkChainBreak index ("content was altered: stored hash " +:+ short (ce_hash row) +:+
                                       " ≠ recomputed " +:+ short want))
        else verify_from (S index) (ce_hash row) rows
  end.

Definition verify_chain (rows : list ChainedEntry) : result ChainBreak nat :=
  match verify_from 0 GENESIS_PREV rows with None => Ok (length rows) | Some b => Err b end.

(** ** The sink *)

(** The hash the next row links to. *)
Definition tip_or_genesis (h : option string) : string :=
  match h with
  | Some h => if bool_decide (h = "") then GENESIS_PREV else h
  | None => GENESIS_PREV
  end.

(** [SqlAuditSink::record], its insert. *)
Definition record (entry : AuditRecord) (rows : list ChainedEntry) : list ChainedEntry :=
  let prev := tip_or_genesis (ce_hash <$> last rows) in
  let hash := row_hash prev (ad_at entry) (ad_user entry) (ad_action entry) (ad_status entry) in
  rows ++ [mkChainedEntry prev (ad_at entry) (ad_user entry) (ad_action entry) (ad_status entry) hash].

(** [prune]: [DELETE FROM audit_log WHERE at < cutoff]. *)
Definition prune (cutoff : string) (rows : list ChainedEntry) : list ChainedEntry :=
  List.filter (fun row => negb (str_lt (ce_at row) cutoff)) rows.

Definition unchained (row : ChainedEntry) : bool := bool_decide (ce_hash row = "").

(** The loop of [backfill_chain]: each row without a hash is sealed, in id order. *)
Fixpoint seal_from (prev : string) (rows : list ChainedEntry) : list ChainedEntry :=
  match rows with
  | [] => []
  | row :: rows =>
      if unchained row
      then
        let hash := row_hash prev (ce_at row) (ce_user row) (ce_action row) (ce_status row) in
        (row <| ce_prev := prev |> <| ce_hash := hash |>) :: seal_from hash rows
      else row :: seal_from prev rows
  end.

Definition backfill_chain (rows : list ChainedEntry) : list ChainedEntry :=
  let tip := ce_hash <$> last (List.filter (fun row => negb (unchained row)) rows) in
  seal_from (default GENESIS_PREV tip) rows.

Definition recent (limit : nat) (rows : list ChainedEntry) : list AuditRecord :=
  take limit (reverse ((fun row => mkAuditRecord (ce_at row) (ce_user row) (ce_action row) (ce_status row)) <$> rows)).

(** [SqlAuditSink::verify] *)
Definition verify (rows : list ChainedEntry) : AuditVerification :=
  match verify_chain rows with
  | Ok n => mkAuditVerification true n true None None
  | Err b => mkAuditVerification true (length rows) false (Some (cb_index b)) (Some (cb_reason b))
  end.

(** *** The in-process ring buffer ([MemoryAuditSink]) *)

Definition MEM_CAP : nat := 1000.

Definition mem_record (entry : AuditRecord) (buf : list AuditRecord) : list AuditRecord :=
  push_capped MEM_CAP entry buf.

Definition mem_recent (limit : nat) (buf : list AuditRecord) : list AuditRecord := take limit (reverse buf).

(** ** What verification means *)

(** The hash a chain standing at [tip] stands at after [rows]. *)
Definition tip_after (tip : string) (rows : list ChainedEntry) : string :=
  foldl (fun _ row => ce_hash row) tip rows.

(** [row] extends a chain standing at [tip]. *)
Definition links (tip : string) (row : ChainedEntry) : Prop :=
  ce_prev row = tip /\ ce_hash row = content_hash row.

Fixpoint chained_from (tip : string) (rows : list ChainedEntry) : Prop :=
  match rows with
  | [] => True
  | row :: rows => links tip row /\ chained_from (ce_hash row) rows
  end.

Definition chained (rows : list ChainedEntry) : Prop := chained_from GENESIS_PREV rows.

(** ** Lemmas *)

#[local] Instance links_dec tip row : Decision (links tip row).
Proof. unfold links. apply _. Defined.

Lemma verify_from_cons n tip row rows :
  verify_from n tip (row :: rows) =
    if decide (links tip row) then verify_from (S n) (ce_hash row) rows else verify_from n tip [row].
Proof.
  cbn. destruct (decide (links tip row)) as [[-> E]|Hn].
  - by rewrite !bool_decide_true by done.
  - case_bool_decide; cbn [negb]; [|done]. case_bool_decide; cbn [negb]; [|done]. exfalso. by apply Hn.
Qed.

Lemma verify_from_broken n tip row :
  ~ links tip row -> exists b, verify_from n tip [row] = Some b /\ cb_index b = n.
Proof.
  intros Hn. cbn. case_bool_decide; cbn [negb]; [|by eexists]. case_bool_decide; cbn [negb]; [|by eexists].
  exfalso. by apply Hn.
Qed.

Lemma tip_after_snoc tip rows row : tip_after tip (rows ++ [row]) = ce_hash row.
Proof. unfold tip_after. by rewrite foldl_app. Qed.

Lemma tip_after_last tip rows : tip_after tip rows = default tip (ce_hash <$> last rows).
Proof. destruct rows as [|row rows _] using rev_ind; [done|]. by rewrite tip_after_snoc, last_snoc. Qed.

Lemma chained_from_app tip rows rows' :
  chained_from tip (rows ++ rows') <-> chained_from tip rows /\ chained_from (tip_after tip rows) rows'.
Proof. revert tip. induction rows as [|row rows IH]; intros tip; cbn; [tauto|]. rewrite IH. unfold tip_after. cbn. tauto. Qed.

Lemma verify_from_spec n tip rows :
  match verify_from n tip rows with
  | None => chained_from tip rows
  | Some b => exists good row bad, rows = good ++ row :: bad /\ cb_index b = n + length good /\
                chained_from tip good /\ ~ links (tip_after tip good) row
  end.
Proof.
  revert n tip. induction rows as [|row rows IH]; intros n tip; [done|]. rewrite verify_from_cons.
  destruct (decide (links tip row)) as [Hl|Hn].
  - specialize (IH (S n) (ce_hash row)). destruct (verify_from _ _ _) as [b|]; [|done].
    destruct IH as (good & r & bad & -> & E & Hg & Hr). exists (row :: good), r, bad.
    split_and!; [done| |done|done]. rewrite E. cbn. lia.
  - destruct (verify_from_broken n tip row Hn) as (b & -> & E). exists [], row, rows.
    split_and!; [done| |done|done]. rewrite E. cbn. lia.
Qed.

Lemma verify_chain_ok rows : chained rows <-> verify_chain rows = Ok (length rows).
Proof.
  unfold verify_chain. pose proof (verify_from_spec 0 GENESIS_PREV rows) as H.
  destruct (verify_from _ _ _) as [b|]; [|done]. split; [|done].
  destruct H as (good & row & bad & -> & _ & _ & Hr). unfold chained. rewrite chained_from_app. cbn. tauto.
Qed.

(** *** Rows and their text *)

Fixpoint newline_free (s : string) : bool :=
  match s with EmptyString => true | String a s' => negb (Ascii.eqb a "010") && newline_free s' end.

(** The recorded fields hold no newline. *)
Definition framed (row : ChainedEntry) : bool :=
  newline_free (ce_at row) && newline_free (ce_user row) && newline_free (ce_action row).

Lemma frame_split a b x y :
  newline_free a = true -> newline_free b = true ->
  a +:+ newline +:+ x = b +:+ newline +:+ y -> a = b /\ x = y.
Proof.
  revert b. induction a as [|c a IH]; intros [|d b]; cbn.
  - intros _ _ E. injection E as E. by split.
  - intros _ [Hd _]%andb_true_iff E. injection E as <- _. done.
  - intros [Hc _]%andb_true_iff _ E. injection E as -> _. done.
  - intros [_ Ha]%andb_true_iff [_ Hb]%andb_true_iff E. injection E as -> E. by destruct (IH b Ha Hb E) as [-> ->].
Qed.

Lemma dec_inj n m : dec n = dec m -> n = m.
Proof. intros E. by rewrite <- (undec_dec n), E, undec_dec. Qed.

Lemma hex_digit_newline n : Ascii.eqb (hex_digit n) "010" = false.
Proof. unfold hex_digit. generalize (N.to_nat n). intros m. do 16 (destruct m as [|m]; [done|]). done. Qed.

Lemma to_hex_newline_free bs : newline_free (to_hex bs) = true.
Proof. induction bs as [|b bs IH]; cbn [to_hex newline_free]; [done|]. by rewrite !hex_digit_newline, IH. Qed.

Lemma hex_digit_inj n m : (n < 16)%N -> (m < 16)%N -> hex_digit n = hex_digit m -> n = m.
Proof.
  intros Hn Hm.
  assert (Hall : forallb (fun p => implb (Ascii.eqb (hex_digit p.1) (hex_digit p.2)) (p.1 =? p.2)%N)
    (list_prod (N.of_nat <$> seq 0 16) (N.of_nat <$> seq 0 16)) = true) by by vm_compute.
  rewrite List.forallb_forall in Hall. intros E.
  assert (Hin : forall k, (k < 16)%N -> List.In k (N.of_nat <$> seq 0 16)).
  { intros k Hk. apply list_elem_of_In, list_elem_of_fmap. exists (N.to_nat k).
    split; [lia|]. apply elem_of_seq. lia. }
  specialize (Hall (n, m) (List.in_prod _ _ _ _ (Hin n Hn) (Hin m Hm))). cbn [fst snd] in Hall.
  rewrite (proj2 (Ascii.eqb_eq _ _) E) in Hall. by apply N.eqb_eq.
Qed.

Lemma to_hex_inj bs bs' :
  Forall (fun b => (b < 256)%N) bs -> Forall (fun b => (b < 256)%N) bs' -> to_hex bs = to_hex bs' -> bs = bs'.
Proof.
  intros H. revert bs'. induction H as [|b bs Hb _ IH]; intros [|b' bs'] H'; cbn [to_hex]; try done.
  apply Forall_cons in H' as [Hb' H']. intros [= E1 E2 E3]. rewrite (IH bs' H' E3). f_equal.
  assert (Hd : forall c, (c = N.shiftr c 4 * 16 + N.land c 15)%N).
  { intros c. rewrite N.shiftr_div_pow2. change 15%N with (N.ones 4). rewrite N.land_ones.
    pose proof (N.div_mod c (2 ^ 4) ltac:(done)). lia. }
  assert (Hs : forall c, (c < 256)%N -> (N.shiftr c 4 < 16)%N).
  { intros c Hc. rewrite N.shiftr_div_pow2. apply N.Div0.div_lt_upper_bound. done. }
  assert (Hl : forall c, (N.land c 15 < 16)%N).
  { intros c. change 15%N with (N.ones 4). rewrite N.land_ones. by apply N.mod_lt. }
  rewrite (Hd b), (Hd b'). apply hex_digit_inj in E1; [|by apply Hs..].
  apply hex_digit_inj in E2; [|by apply Hl..]. by rewrite E1, E2.
Qed.

(** The documented shape of a SHA-256 digest. *)
Context (Hsha : forall s, length (sha256 s) = 32 /\ Forall (fun b => (b < 256)%N) (sha256 s)).

Lemma row_hash_nonempty prev at_ user action status : row_hash prev at_ user action status <> "".
Proof. unfold row_hash. destruct (Hsha (row_text prev at_ user action status)) as [H _]. by destruct (sha256 _). Qed.

Lemma tip_nonempty tip rows : tip <> "" -> chained_from tip rows -> tip_after tip rows <> "".
Proof.
  destruct rows as [|row rows _] using rev_ind; [done|]. rewrite tip_after_snoc, chained_from_app.
  intros _ [_ [[_ ->] _]]. apply row_hash_nonempty.
Qed.

Lemma tip_newline_free tip rows :
  newline_free tip = true -> chained_from tip rows -> newline_free (tip_after tip rows) = true.
Proof.
  destruct rows as [|row rows _] using rev_ind; [done|]. rewrite tip_after_snoc, chained_from_app.
  intros _ [_ [[_ ->] _]]. apply to_hex_newline_free.
Qed.

(** Two rows with one hash are one row, or SHA-256 collides. *)
Definition collision : Prop := exists x y, x <> y /\ sha256 x = sha256 y.

Lemma content_hash_inj row row' :
  framed row = true -> framed row' = true ->
  newline_free (ce_prev row) = true -> newline_free (ce_prev row') = true ->
  ce_hash row = content_hash row -> ce_hash row' = content_hash row' -> ce_hash row = ce_hash row' ->
  row = row' \/ collision.
Proof.
  intros Hf Hf' Hp Hp' E E' Heq. rewrite E, E' in Heq. apply to_hex_inj in Heq; [|apply Hsha..].
  set (x := row_text _ _ _ _ _) in Heq. set (y := row_text _ _ _ _ _) in Heq.
  destruct (decide (x = y)) as [Hxy|Hxy]; [|right; by exists x, y]. left.
  unfold framed in *. rewrite !andb_true_iff in Hf, Hf'. destruct Hf as [[? ?] ?], Hf' as [[? ?] ?].
  subst x y. unfold row_text in Hxy.
  repeat match type of Hxy with _ = _ => apply frame_split in Hxy as [? Hxy]; [|done..] end.
  apply dec_inj in Hxy. assert (ce_hash row = ce_hash row') as Eh by (rewrite E, E'; unfold content_hash, row_hash; by rewrite Heq).
  clear E E' Heq. destruct row, row'; cbn in *. by subst.
Qed.

Lemma genesis_ok : GENESIS_PREV <> "" /\ newline_free GENESIS_PREV = true.
Proof. done. Qed.

Lemma record_chained entry rows : chained rows -> chained (record entry rows).
Proof.
  intros H. unfold record, chained. rewrite chained_from_app. split; [done|].
  pose proof (tip_nonempty _ _ (proj1 genesis_ok) H) as Hne. rewrite tip_after_last in *.
  split; [|done]. split; cbn; [|done]. unfold tip_or_genesis. destruct (last rows) as [row|]; cbn in *; [|done].
  by rewrite bool_decide_false.
Qed.

Lemma seal_from_unchained prev rows :
  Forall (fun row => unchained row = true) rows ->
  chained_from prev (seal_from prev rows) /\ length (seal_from prev rows) = length rows.
Proof.
  intros H. revert prev. induction H as [|row rows Hu _ IH]; intros prev; [done|]. cbn. rewrite Hu. cbn.
  destruct (IH (row_hash prev (ce_at row) (ce_user row) (ce_action row) (ce_status row))) as [H1 H2].
  split; [|by f_equal]. by split.
Qed.

Lemma backfill_fresh rows :
  Forall (fun row => unchained row = true) rows ->
  chained (backfill_chain rows) /\ length (backfill_chain rows) = length rows.
Proof.
  intros H. unfold backfill_chain.
  assert (List.filter (fun row => negb (unchained row)) rows = []) as ->.
  { apply filter_nil_iff. intros row Hr. by rewrite (proj1 (Forall_forall _ _) H row Hr). }
  by apply seal_from_unchained.
Qed.

(** Once sealed, the backfill of a restart changes nothing. *)
Lemma backfill_chained rows : chained rows -> backfill_chain rows = rows.
Proof.
  unfold backfill_chain, chained. generalize (default GENESIS_PREV (ce_hash <$> last (List.filter
    (fun row => negb (unchained row)) rows))). generalize GENESIS_PREV.
  induction rows as [|row rows IH]; intros tip prev; [done|]. intros [[_ E] H]. cbn.
  assert (unchained row = false) as ->.
  { unfold unchained. apply bool_decide_eq_false. rewrite E. apply row_hash_nonempty. }
  f_equal. by eapply IH.
Qed.

(** ** Properties *)

(** C37: The verifier accepts exactly the chains and points at the first break.
    [verify_chain] answers [Ok], with the number of rows, precisely when every
    row links to the hash before it (the genesis constant for the first) and
    stores the hash of its own content; otherwise its index is the first row
    that does not, and everything before that row is a chain. *)
Theorem verify_chain_exact rows :
  match verify_chain rows with
  | Ok n => n = length rows /\ chained rows
  | Err b => exists good row bad, rows = good ++ row :: bad /\ cb_index b = length good /\
               chained good /\ ~ links (tip_after GENESIS_PREV good) row
  end.
Proof.
  unfold verify_chain. pose proof (verify_from_spec 0 GENESIS_PREV rows) as H.
  by destruct (verify_from _ _ _) as [b|].
Qed.

(** The sink only ever writes verifiable trails. Take a table left by a
    version without the chain; connecting seals it, and after any records the
    trail verifies and counts every row, and a restart's backfill changes
    nothing. *)
Theorem audit_trail_verifies rows entries :
  Forall (fun row => unchained row = true) rows ->
  let trail := foldl (fun t e => record e t) (backfill_chain rows) entries in
  verify trail = mkAuditVerification true (length rows + length entries) true None None /\
  backfill_chain trail = trail.
Proof.
  intros H. cbv zeta. destruct (backfill_fresh rows H) as [Hc Hl]. rewrite <- Hl. clear H Hl.
  generalize dependent (backfill_chain rows). clear rows. intros rows Hc.
  assert (Ht : let t := foldl (fun t e => record e t) rows entries in
    chained t /\ length t = length rows + length entries).
  { revert rows Hc. induction entries as [|e entries IH]; intros rows Hc; cbn; [split; [done|lia]|].
    destruct (IH (record e rows) (record_chained e rows Hc)) as [H1 H2]. split; [done|].
    rewrite H2. unfold record. rewrite length_app. cbn. lia. }
  destruct Ht as [Ht Hn]. unfold verify. rewrite (proj1 (verify_chain_ok _) Ht), Hn.
  split; [done|]. by apply backfill_chained.
Qed.

(** Tampering shows, as far as the tip is known. Two trails that both
    verify, have as many rows and the same last hash, and whose fields hold no
    newline, are the same trail row by row, or exhibit two different texts
    with the same SHA-256 digest. *)
Theorem tamper_evident rows rows' n :
  verify_chain rows = Ok n -> verify_chain rows' = Ok n ->
  tip_after GENESIS_PREV rows = tip_after GENESIS_PREV rows' ->
  Forall (fun row => framed row = true) rows -> Forall (fun row => framed row = true) rows' ->
  rows = rows' \/ collision.
Proof.
  intros H H'. pose proof (verify_chain_exact rows) as Hc. pose proof (verify_chain_exact rows') as Hc'.
  rewrite H in Hc. rewrite H' in Hc'. destruct Hc as [-> Hc], Hc' as [Hl Hc']. clear H H'. revert rows' Hl Hc Hc'.
  induction rows as [|row rows IH] using rev_ind; intros rows' Hl Hc Hc' Htip Hf Hf'.
  { destruct rows'; [by left|done]. }
  destruct rows' as [|row' rows' _] using rev_ind; [by rewrite length_app in Hl; cbn in Hl; lia|].
  rewrite !length_app in Hl. cbn in Hl. rewrite !tip_after_snoc in Htip.
  unfold chained in *. rewrite chained_from_app in Hc, Hc'. rewrite Forall_app, Forall_singleton in Hf, Hf'.
  destruct Hc as (Hc & [Hp E] & _), Hc' as (Hc' & [Hp' E'] & _), Hf as [Hf Hr], Hf' as [Hf' Hr'].
  pose proof (tip_newline_free _ _ (proj2 genesis_ok) Hc) as Hn.
  pose proof (tip_newline_free _ _ (proj2 genesis_ok) Hc') as Hn'.
  destruct (content_hash_inj row row') as [->|?]; [done|done|congruence|congruence|done..| |by right].
  destruct (IH rows') as [->|?]; [lia|done|done|congruence|done..|by left|by right].
Qed.

(** The sink's own retention reads as tampering: once a prune has deleted the
    oldest rows and kept some, the first kept row links to a deleted hash, and
    [verify] reports a break at row 0, unless that hash is the genesis constant. *)
Theorem retention_breaks_chain cutoff old keep :
  chained (old ++ keep) -> prune cutoff (old ++ keep) = keep -> keep <> [] ->
  tip_after GENESIS_PREV old <> GENESIS_PREV ->
  exists why, verify (prune cutoff (old ++ keep)) = mkAuditVerification true (length keep) false (Some 0) (Some why).
Proof.
  unfold chained. rewrite chained_from_app. intros [_ Hk] -> Hne Ht. destruct keep as [|row keep]; [done|].
  cbn [chained_from] in Hk. destruct Hk as [[Hp _] _]. unfold verify, verify_chain. cbn [verify_from].
  rewrite bool_decide_false by (by rewrite Hp). cbn [negb cb_index cb_reason]. by eexists.
Qed.

(** A trail cut short still verifies: nothing anchors the last hash. *)
Theorem truncation_undetected rows n :
  chained rows -> verify (take n rows) = mkAuditVerification true (length (take n rows)) true None None.
Proof.
  intros H. unfold verify. enough (chained (take n rows)) as Hc by by rewrite (proj1 (verify_chain_ok _) Hc).
  unfold chained in *. rewrite <- (take_drop n rows), chained_from_app in H. by destruct H.
Qed.

(** A newline moves text from one field to the next under the same hash. *)
Theorem newline_shifts_fields prev at_ status :
  row_hash prev at_ ("ann" +:+ newline +:+ "DELETE") "/x" status
  = row_hash prev at_ "ann" ("DELETE" +:+ newline +:+ "/x") status.
Proof. done. Qed.
End Chain.

(** ** Witnesses: a toy digest of the documented shape *)

(** Thirty-two bytes: position-weighted sums of the text's bytes. *)
Definition toy_digest (s : string) : list N :=
  let bytes := N_of_ascii <$> String.list_ascii_of_string s in
  (fun k => foldl (fun acc b => (acc * 31 + b * (N.of_nat k + 1) + 7) mod 256)%N (N.of_nat k) bytes) <$> seq 0 32.

Lemma toy_digest_shape s : length (toy_digest s) = 32 /\ Forall (fun b => (b < 256)%N) (toy_digest s).
Proof.
  split; [done|]. unfold toy_digest. apply Forall_fmap, Forall_forall. intros k Hk%elem_of_seq. cbn.
  induction (N_of_ascii <$> String.list_ascii_of_string s) as [|b bs _] using rev_ind; cbn; [lia|].
  rewrite foldl_app. cbn. by apply N.mod_lt.
Qed.

Definition old_rows : list ChainedEntry :=
  [mkChainedEntry "" "2026-01-01T00:00:00Z" "ann" "POST /login" 200 "";
   mkChainedEntry "" "2026-01-02T00:00:00Z" "bob" "DELETE /p" 403 ""].
Definition new_records : list AuditRecord :=
  [mkAuditRecord "2026-02-01T00:00:00Z" "ann" "PUT /config" 200; mkAuditRecord "2026-02-02T00:00:00Z" "eve" "GET /" 404].
Definition sample_trail : list ChainedEntry :=
  foldl (fun t e => record toy_digest e t) (backfill_chain toy_digest old_rows) new_records.

Lemma audit_trail_verifies_witness :
  verify toy_digest sample_trail = mkAuditVerification true 4 true None None /\
  backfill_chain toy_digest sample_trail = sample_trail.
Proof. apply (audit_trail_verifies toy_digest toy_digest_shape old_rows new_records). repeat constructor. Defined.

Lemma tamper_evident_witness : sample_trail = sample_trail \/ collision toy_digest.
Proof.
  apply (tamper_evident toy_digest toy_digest_shape sample_trail sample_trail 4);
    [vm_compute; reflexivity|vm_compute; reflexivity|reflexivity|repeat constructor|repeat constructor].
Defined.

Lemma retention_breaks_sample :
  av_broken_at (verify toy_digest (prune "2026-01-15" sample_trail)) = Some 0 /\
  av_intact (verify toy_digest sample_trail) = true.
Proof. by vm_compute. Qed.
