(* ===== verification/Totp.v ===== *)
(** * The second factor: base32 secrets and time-based codes

    [totp.rs] of the infrastructure crate. HMAC-SHA1 is the parameter [hmac],
    from the key's and the message's bytes to the twenty bytes of the tag. *)
From S2P Require Import Prelude RustStr.

Definition STEP : N := 30.
Definition DIGITS : nat := 6.
Definition B32 : string := "ABCDEFGHIJKLMNOPQRSTUVWXYZ234567".

(** [B32[i] as char] *)
Definition b32_char (i : N) : ascii := default "A"%char (String.get (N.to_nat i) B32).

(** [u8::to_ascii_uppercase] *)
Definition ascii_upper (a : ascii) : ascii :=
  let n := nat_of_ascii a in
  if (97 <=? n) && (n <=? 122) then ascii_of_nat (n - 32) else a.

(** [B32.iter().position(|&x| x == a)], from index [i]. *)
Fixpoint position_in (a : ascii) (i : N) (alphabet : string) : option N :=
  match alphabet with
  | EmptyString => None
  | String x alphabet => if Ascii.eqb x a then Some i else position_in a (i + 1)%N alphabet
  end.

(** [(buffer << w) | x] on [u32]. *)
Definition shift_in (w : N) (buffer x : N) : N := N.lor (u32_wrap (N.shiftl buffer w)) x.

(** The low [w] bits of [buffer >> bits]. *)
Definition window (w bits buffer : N) : N := N.land (N.shiftr buffer bits) (N.ones w).

(** The [while bits >= 5] loop; [fuel] bounds its turns. *)
Fixpoint emit (fuel : nat) (buffer bits : N) (out : string) : N * string :=
  if (bits <? 5)%N then (bits, out)
  else match fuel with
  | 0 => (bits, out)
  | S fuel => emit fuel buffer (bits - 5)%N (out +:+ String (b32_char (window 5 (bits - 5) buffer)) "")
  end.

Fixpoint encode_loop (data : list N) (buffer bits : N) (out : string) : N * N * string :=
  match data with
  | [] => (buffer, bits, out)
  | b :: data =>
      let buffer := shift_in 8 buffer b in
      let '(bits, out) := emit (N.to_nat (bits + 8)) buffer (bits + 8) out in
      encode_loop data buffer bits out
  end.

Definition base32_encode (data : list N) : string :=
  let '(buffer, bits, out) := encode_loop data 0 0 "" in
  if (0 <? bits)%N
  then out +:+ String (b32_char (N.land (u32_wrap (N.shiftl buffer (5 - bits))) 31)) ""
  else out.

Fixpoint decode_loop (s : string) (buffer bits : N) (out : list N) : option (list N) :=
  match s with
  | EmptyString => Some out
  | String c s =>
      if Ascii.eqb c "=" then Some out
      else
        pos ← position_in (ascii_upper c) 0 B32;
        let buffer := shift_in 5 buffer pos in
        if (8 <=? bits + 5)%N
        then decode_loop s buffer (bits + 5 - 8)%N (out ++ [window 8 (bits + 5 - 8) buffer])
        else decode_loop s buffer (bits + 5)%N out
  end.

Definition base32_decode (s : string) : option (list N) := decode_loop (trim s) 0 0 [].

(** The secret from the twenty random bytes. *)
Definition generate_secret (bytes : list N) : string := base32_encode bytes.

Definition provisioning_uri (secret account issuer : string) : string :=
  "otpauth://totp/" +:+ issuer +:+ ":" +:+ account +:+ "?secret=" +:+ secret +:+ "&issuer=" +:+ issuer +:+
  "&algorithm=SHA1&digits=" +:+ dec_nat DIGITS +:+ "&period=" +:+ dec STEP.

(** [counter.to_be_bytes()] *)
Definition be_bytes (counter : N) : list N :=
  (fun i => N.land (N.shiftr counter (8 * (7 - N.of_nat i))) 255) <$> seq 0 8.

(** [format!("{:0width$}", n)] *)
Definition dec_width (width : nat) (n : N) : string := zeros (width - String.length (dec n)) +:+ dec n.

Section Totp.
Context (hmac : list N -> list N -> list N).

Definition tag_byte (hs : list N) (i : nat) : N := default 0%N (hs !! i).

Definition hotp (key : list N) (counter : N) : string :=
  let hs := hmac key (be_bytes counter) in
  let offset := N.to_nat (N.land (tag_byte hs 19) 15) in
  let bin :=
    N.lor (N.lor (N.lor (N.shiftl (N.land (tag_byte hs offset) 127) 24)
                        (N.shiftl (tag_byte hs (offset + 1)) 16))
                 (N.shiftl (tag_byte hs (offset + 2)) 8))
          (tag_byte hs (offset + 3)) in
  dec_width DIGITS (bin mod 10 ^ N.of_nat DIGITS).

Definition code_at (secret : string) (now_secs : N) : option string :=
  key ← base32_decode secret;
  Some (hotp key (now_secs / STEP)).

(** [counter.wrapping_sub(1)] *)
Definition wrapping_pred (counter : N) : N := if (counter =? 0)%N then u64_max else (counter - 1)%N.

Definition verify (secret code : string) (now_secs : N) : bool :=
  match base32_decode secret with
  | None => false
  | Some key =>
      let counter := (now_secs / STEP)%N in
      let code := trim code in
      existsb (fun c => bool_decide (hotp key c = code)) [wrapping_pred counter; counter; u64_wrap (counter + 1)]
  end.
End Totp.

(** ** Regrouping bits

    Both codecs push groups of [win] bits into a buffer and pop groups of
    [wout]. The invariant: the input read as one number is the output read as
    one number, followed by the [bits] low bits of the buffer. *)
Section Regroup.
Context (win wout : N).
Implicit Types (ins outs : list N) (buffer bits x : N).

Definition value (w : N) (l : list N) : N := foldl (fun v x => v * 2 ^ w + x)%N 0%N l.

Definition below (w : N) (l : list N) : Prop := Forall (fun x => (x < 2 ^ w)%N) l.

Record regrouped ins outs buffer bits : Prop := {
  rg_count : (win * N.of_nat (length ins) = wout * N.of_nat (length outs) + bits)%N;
  rg_value : (value win ins = value wout outs * 2 ^ bits + buffer mod 2 ^ bits)%N;
  rg_below : below wout outs;
}.

Lemma value_snoc w l x : value w (l ++ [x]) = (value w l * 2 ^ w + x)%N.
Proof. unfold value. by rewrite foldl_app. Qed.

Lemma below_snoc w l x : below w l -> (x < 2 ^ w)%N -> below w (l ++ [x]).
Proof. intros Hl Hx. apply Forall_app. split; [done|by constructor]. Qed.

(** A number determines its groups. *)
Lemma value_inj w l k :
  below w l -> below w k -> length l = length k -> value w l = value w k -> l = k.
Proof.
  revert k. induction l as [|x l IH] using rev_ind; intros k Hl Hk Hlen.
  - by destruct k.
  - destruct k as [|y k _] using rev_ind; [by rewrite length_app in Hlen; cbn in Hlen; lia|].
    apply Forall_app in Hl as [Hl [Hx _]%Forall_cons], Hk as [Hk [Hy _]%Forall_cons].
    rewrite !length_app in Hlen; cbn in Hlen. rewrite !value_snoc. intros Hv.
    assert (value w l = value w k /\ x = y) as [? ->] by (apply (N.div_mod_unique (2 ^ w)); [exact Hx|exact Hy|lia]).
    by rewrite (IH k) by (try done; lia).
Qed.

Lemma window_spec w bits buffer : window w bits buffer = (buffer / 2 ^ bits mod 2 ^ w)%N.
Proof. unfold window. by rewrite N.land_ones, N.shiftr_div_pow2. Qed.

Lemma window_below w bits buffer : (window w bits buffer < 2 ^ w)%N.
Proof. rewrite window_spec. apply N.mod_lt, N.pow_nonzero. done. Qed.

Lemma shift_in_mod w buffer x bits :
  (x < 2 ^ w)%N -> (bits + w <= 32)%N ->
  (shift_in w buffer x mod 2 ^ (bits + w) = buffer mod 2 ^ bits * 2 ^ w + x)%N.
Proof.
  intros Hx Hb.
  assert (Hdis : N.land (N.shiftl (buffer mod 2 ^ bits) w) x = 0%N).
  { apply N.bits_inj_0. intros i. rewrite N.land_spec. destruct (N.lt_ge_cases i w).
    - by rewrite N.shiftl_spec_low.
    - rewrite <- (N.mod_small x (2 ^ w)), N.mod_pow2_bits_high by done. apply andb_false_r. }
  rewrite <- N.shiftl_mul_pow2, (N.add_nocarry_lxor _ _ Hdis), (N.lxor_lor _ _ Hdis).
  apply N.bits_inj. intros i. rewrite N.lor_spec. destruct (N.lt_ge_cases i (bits + w)).
  - rewrite N.mod_pow2_bits_low by done. unfold shift_in, u32_wrap.
    change 4294967296%N with (2 ^ 32)%N. rewrite N.lor_spec, N.mod_pow2_bits_low by lia. f_equal.
    destruct (N.lt_ge_cases i w); [by rewrite !N.shiftl_spec_low|].
    rewrite !N.shiftl_spec_high' by lia. by rewrite N.mod_pow2_bits_low by lia.
  - rewrite N.mod_pow2_bits_high, N.shiftl_spec_high', N.mod_pow2_bits_high by lia.
    by rewrite <- (N.mod_small x (2 ^ w)), N.mod_pow2_bits_high by (try done; lia).
Qed.

Lemma regrouped_nil : regrouped [] [] 0 0.
Proof. split; [cbn; lia|done|constructor]. Qed.

Lemma regrouped_push ins outs buffer bits x :
  (x < 2 ^ win)%N -> (bits + win <= 32)%N ->
  regrouped ins outs buffer bits -> regrouped (ins ++ [x]) outs (shift_in win buffer x) (bits + win).
Proof.
  intros Hx Hb [Hc Hv Hl]. split; [|..|done].
  - rewrite length_app. cbn. lia.
  - rewrite value_snoc, Hv, shift_in_mod by done. rewrite N.pow_add_r. lia.
Qed.

Lemma regrouped_emit ins outs buffer bits :
  (wout <= bits)%N -> regrouped ins outs buffer bits ->
  regrouped ins (outs ++ [window wout (bits - wout) buffer]) buffer (bits - wout).
Proof.
  intros Hb [Hc Hv Hl]. split.
  - rewrite length_app. cbn. lia.
  - rewrite value_snoc, Hv, window_spec. replace bits with (bits - wout + wout)%N at 1 2 by lia.
    rewrite N.pow_add_r, N.Div0.mod_mul_r. lia.
  - by apply below_snoc, window_below.
Qed.
End Regroup.

(** ** The alphabet *)

#[local] Arguments b32_char : simpl never.

(** The text of a list of 5-bit digits. *)
Definition b32_text (ds : list N) : string := foldr (fun d s => String (b32_char d) s) "" ds.

Lemma b32_text_snoc ds d : b32_text ds +:+ String (b32_char d) "" = b32_text (ds ++ [d]).
Proof.
  induction ds as [|x ds IH]; [done|].
  change (String (b32_char x) (b32_text ds +:+ String (b32_char d) "") = b32_text (x :: ds ++ [d])).
  by rewrite IH.
Qed.

(** Every digit's letter, in either case, reads back as the digit. *)
Definition letter_reads_back (d : N) (c : ascii) : bool :=
  implb (Ascii.eqb (ascii_upper c) (b32_char d))
    (plain c && negb (Ascii.eqb c "=") && bool_decide (position_in (ascii_upper c) 0 B32 = Some d)).

Lemma letters_read_back d c :
  (d < 32)%N -> ascii_upper c = b32_char d ->
  plain c = true /\ Ascii.eqb c "=" = false /\ position_in (ascii_upper c) 0 B32 = Some d.
Proof.
  intros Hd Hc.
  assert (Hall : forallb (fun n => forallb (fun i => letter_reads_back (N.of_nat n) (ascii_of_nat i))
                                     (seq 0 256)) (seq 0 32) = true) by by vm_compute.
  rewrite List.forallb_forall in Hall. specialize (Hall (N.to_nat d)). rewrite N2Nat.id in Hall.
  specialize (Hall ltac:(apply List.in_seq; lia)). rewrite List.forallb_forall in Hall.
  specialize (Hall (nat_of_ascii c)). rewrite ascii_nat_embedding in Hall.
  specialize (Hall ltac:(apply List.in_seq; pose proof (nat_ascii_bounded c); lia)).
  unfold letter_reads_back in Hall. rewrite Hc, Ascii.eqb_refl in Hall. cbn [implb] in Hall.
  rewrite Hc. apply andb_true_iff in Hall as [[Hp He%negb_true_iff]%andb_true_iff Hr%bool_decide_eq_true].
  done.
Qed.

Lemma trim_letters s ds : below 5 ds -> str_map ascii_upper s = b32_text ds -> trim s = s.
Proof.
  intros Hds Hs. apply trim_plain. revert s Hs.
  induction Hds as [|d ds Hd _ IH]; intros [|c s]; cbn; intros [=]; constructor; eauto.
  by eapply letters_read_back.
Qed.

(** ** The codec *)

Lemma emit_regrouped fuel : forall ins outs buffer bits,
  N.to_nat bits <= fuel -> regrouped 8 5 ins outs buffer bits ->
  exists outs' bits', emit fuel buffer bits (b32_text outs) = (bits', b32_text outs') /\
    regrouped 8 5 ins outs' buffer bits' /\ (bits' < 5)%N.
Proof.
  induction fuel as [|fuel IH]; intros ins outs buffer bits Hf Hr; cbn [emit].
  - exists outs, bits. rewrite (proj2 (N.ltb_lt bits 5)) by lia. split_and!; [done..|lia].
  - destruct (N.ltb_spec bits 5); [by exists outs, bits|].
    rewrite b32_text_snoc. apply (IH ins); [lia|]. by apply regrouped_emit.
Qed.

Lemma encode_loop_regrouped data : forall ins outs buffer bits,
  below 8 data -> (bits < 5)%N -> regrouped 8 5 ins outs buffer bits ->
  exists outs' buffer' bits', encode_loop data buffer bits (b32_text outs) = (buffer', bits', b32_text outs') /\
    regrouped 8 5 (ins ++ data) outs' buffer' bits' /\ (bits' < 5)%N.
Proof.
  induction data as [|b data IH]; intros ins outs buffer bits Hd Hb Hr; cbn [encode_loop].
  - exists outs, buffer, bits. by rewrite app_nil_r.
  - apply Forall_cons in Hd as [Hx Hd].
    destruct (emit_regrouped (N.to_nat (bits + 8)) (ins ++ [b]) outs (shift_in 8 buffer b) (bits + 8))
      as (outs1 & bits1 & -> & Hr1 & Hb1); [lia|apply regrouped_push; [done|lia|done]|].
    rewrite (cons_middle b ins data), app_assoc. by apply IH.
Qed.

(** The letters of [encode(data)]: the bits of [data], padded with zeros to
    a multiple of five. *)
Lemma encode_digits data :
  below 8 data -> exists ds pad, base32_encode data = b32_text ds /\ below 5 ds /\ (pad < 5)%N /\
    (5 * N.of_nat (length ds) = 8 * N.of_nat (length data) + pad)%N /\
    value 5 ds = (value 8 data * 2 ^ pad)%N.
Proof.
  intros Hd. unfold base32_encode.
  destruct (encode_loop_regrouped data [] [] 0 0 Hd) as (outs & buffer & bits & E & [Hc Hv Hl] & Hb);
    [lia|apply regrouped_nil|].
  cbn [b32_text foldr] in E. rewrite E. cbn [app] in *. destruct (N.ltb_spec 0 bits) as [H0|H0].
  - assert (Hpow : (2 ^ 5 = 2 ^ bits * 2 ^ (5 - bits))%N) by (rewrite <- N.pow_add_r; f_equal; lia).
    set (d := N.land _ 31).
    assert (Hdv : d = (buffer mod 2 ^ bits * 2 ^ (5 - bits))%N).
    { subst d. change 31%N with (N.ones 5). rewrite N.land_ones. unfold u32_wrap.
      change 4294967296%N with (2 ^ 5 * 2 ^ 27)%N. rewrite N.Div0.mod_mul_r, N.mul_comm, N.Div0.mod_add.
      rewrite N.Div0.mod_mod, N.shiftl_mul_pow2, Hpow. apply N.Div0.mul_mod_distr_r. }
    exists (outs ++ [d]), (5 - bits)%N. rewrite b32_text_snoc. split_and!; [done|..].
    + apply below_snoc; [done|]. subst d. change 31%N with (N.ones 5). rewrite N.land_ones.
      by apply N.mod_lt.
    + lia.
    + rewrite length_app. cbn. lia.
    + rewrite value_snoc, Hv, Hdv, Hpow. lia.
  - assert (bits = 0)%N as -> by lia. exists outs, 0%N. split_and!; [done..|lia|].
    rewrite Hv, N.pow_0_r, N.mod_1_r. lia.
Qed.

Lemma decode_loop_regrouped s : forall ds ins outs buffer bits,
  str_map ascii_upper s = b32_text ds -> below 5 ds -> (bits < 8)%N -> regrouped 5 8 ins outs buffer bits ->
  exists outs' buffer' bits', decode_loop s buffer bits outs = Some outs' /\
    regrouped 5 8 (ins ++ ds) outs' buffer' bits' /\ (bits' < 8)%N.
Proof.
  induction s as [|c s IH]; intros [|d ds] ins outs buffer bits; cbn [str_map b32_text foldr decode_loop];
    intros [=] Hd Hb Hr.
  - exists outs, buffer, bits. by rewrite app_nil_r.
  - apply Forall_cons in Hd as [Hx Hd].
    destruct (letters_read_back d c) as (_ & -> & ->); [done..|]. cbn [mbind option_bind].
    rewrite (cons_middle d ins ds), app_assoc.
    assert (Hp : regrouped 5 8 (ins ++ [d]) outs (shift_in 5 buffer d) (bits + 5))
      by (apply regrouped_push; [done|lia|done]).
    destruct (N.leb_spec 8 (bits + 5)); [|by apply IH].
    apply IH; [done..|lia|]. by apply regrouped_emit.
Qed.

(** A secret survives its text form. Decoding what [base32_encode] wrote
    gives the bytes back, for every string of bytes and whether the text is
    typed in upper, lower or mixed case: no byte is lost to the 32-bit
    buffer, and the padding bits of the last letter never become a byte. *)
Theorem base32_roundtrip data s :
  Forall (fun b => (b < 256)%N) data -> str_map ascii_upper s = base32_encode data ->
  base32_decode s = Some data.
Proof.
  intros Hd Hs. destruct (encode_digits data Hd) as (ds & pad & E & Hds & Hp & Hlen & Hval).
  rewrite E in Hs. unfold base32_decode. rewrite (trim_letters s ds) by done.
  destruct (decode_loop_regrouped s ds [] [] 0 0 Hs Hds) as (outs & buffer & bits & -> & [Hc Hv Hl] & Hb);
    [lia|apply regrouped_nil|]. cbn [app] in Hc, Hv.
  assert (bits = pad) as -> by lia. f_equal. apply (value_inj 8); [done..|lia|].
  rewrite Hval in Hv. assert (Hr : (buffer mod 2 ^ pad < 2 ^ pad)%N) by by apply N.mod_lt, N.pow_nonzero.
  symmetry. apply (N.div_mod_unique (2 ^ pad) _ _ 0 (buffer mod 2 ^ pad)); lia.
Qed.

Lemma base32_roundtrip_witness : base32_decode "jBswY3dp" = Some [72; 101; 108; 108; 111]%N.
Proof. apply base32_roundtrip; [by repeat constructor|by vm_compute]. Defined.

(** ** Codes *)

Lemma length_pretty_go k : forall n s,
  (n < 10 ^ N.of_nat k)%N -> String.length (pretty_N_go n s) <= k + String.length s.
Proof.
  induction k as [|k IH]; intros n s Hn.
  - assert (n = 0)%N as -> by (cbn in Hn; lia). by rewrite pretty_N_go_0.
  - destruct (decide (n = 0)%N) as [->|H0]; [rewrite pretty_N_go_0; lia|].
    rewrite pretty_N_go_step by lia. rewrite IH; [cbn; lia|].
    apply N.Div0.div_lt_upper_bound. rewrite Nat2N.inj_succ, N.pow_succ_r' in Hn. lia.
Qed.

Lemma length_dec k n : (n < 10 ^ N.of_nat (S k))%N -> String.length (dec n) <= S k.
Proof.
  intros Hn. unfold dec, pretty, pretty_N. case_decide; [cbn; lia|].
  pose proof (length_pretty_go (S k) n "" Hn) as Hl. cbn in *. lia.
Qed.

Lemma length_zeros_app k s : String.length (zeros k +:+ s) = k + String.length s.
Proof. induction k as [|k IH]; cbn; [done|]. by rewrite <- IH. Qed.

Section Codes.
Context (hmac : list N -> list N -> list N).

(** A code is six characters, and they spell a number below a million. *)
Lemma hotp_six key counter :
  String.length (hotp hmac key counter) = 6 /\ (undec (hotp hmac key counter) < 1000000)%N.
Proof.
  unfold hotp, dec_width. set (bin := N.lor _ _).
  assert (Hm : (bin mod 10 ^ N.of_nat DIGITS < 10 ^ N.of_nat 6)%N) by by apply N.mod_lt.
  rewrite undec_zeros, undec_dec, length_zeros_app. split; [|exact Hm].
  pose proof (length_dec 5 _ Hm). unfold DIGITS in *. lia.
Qed.

(** Every byte [hotp] reads is one of the twenty of the tag. *)
Lemma hotp_in_bounds hs i : i < 4 -> N.to_nat (N.land (tag_byte hs 19) 15) + i < 20.
Proof.
  intros Hi. change 15%N with (N.ones 4). rewrite N.land_ones.
  pose proof (N.mod_lt (tag_byte hs 19) (2 ^ 4) ltac:(done)). cbn in *. lia.
Qed.

(** The skew window is one step either way and nothing else. At any time
    past the first step, a code is accepted exactly when it is, up to
    surrounding blanks, the code of some instant whose 30-second step is the
    current one or a neighbour; a secret that does not decode accepts
    nothing. *)
Theorem verify_window secret code now :
  (STEP <= now <= u64_max)%N ->
  verify hmac secret code now = true <->
  exists t, (t / STEP <= now / STEP + 1)%N /\ (now / STEP <= t / STEP + 1)%N /\
            code_at hmac secret t = Some (trim code).
Proof.
  intros [Hlo Hhi]. unfold verify, code_at.
  destruct (base32_decode secret) as [key|]; cbn [mbind option_bind]; [|naive_solver].
  assert (Hc : (1 <= now / STEP)%N) by by apply N.div_le_lower_bound.
  assert (Hw : u64_wrap (now / STEP + 1) = (now / STEP + 1)%N).
  { apply N.mod_small. assert (now / STEP <= now)%N by (apply N.Div0.div_le_upper_bound; unfold STEP; lia).
    assert (now / STEP <= u64_max / STEP)%N by by apply N.Div0.div_le_mono.
    unfold u64_max, STEP in *. vm_compute (18446744073709551615 / 30)%N in *. lia. }
  rewrite Hw. unfold wrapping_pred. destruct (N.eqb_spec (now / STEP) 0); [lia|].
  rewrite List.existsb_exists. split.
  - intros (c & Hin & Hv%bool_decide_eq_true). exists (c * STEP)%N. rewrite N.div_mul by done.
    rewrite Hv. cbn in Hin. destruct Hin as [<-|[<-|[<-|[]]]]; split_and!; (done || lia).
  - intros (t & H1 & H2 & [= Hv]). exists (t / STEP)%N. rewrite bool_decide_true by done.
    split; [|done]. cbn. lia.
Qed.
End Codes.

(** A stand-in tag: the message's bytes over and over, then the key's length. *)
Definition sample_hmac (key msg : list N) : list N := msg ++ msg ++ take 3 msg ++ [N.of_nat (length key)].

Lemma verify_window_witness :
  verify sample_hmac "JBSWY3DP" " 000256 " 89 = true /\ verify sample_hmac "JBSWY3DP" "000256" 120 = false.
Proof.
  split.
  - apply verify_window; [by vm_compute|]. exists 59%N. by vm_compute.
  - by vm_compute.
Defined.
