(* ===== verification/Auth.v ===== *)
(** * Accounts, sessions and API tokens

    The roles of application [auth.rs] and [FileAuthService] of infrastructure
    [auth.rs]. Argon2 is the parameter [argon_verify] (a hash text and a
    password), SHA-256 the parameter [sha256], HMAC-SHA1 the parameter [hmac];
    the clocks, the random bytes, the fresh hash and the outcome of each file
    write are the fields of a [Call]. Each operation is one step: the interleaving
    of two logins is shown where it matters ([parallel_guesses]). A file is the
    value serde reads back from it. *)
From S2P Require Import Prelude RustStr AuditChain Totp.

(** ** Roles *)

Inductive AuthRole :=
  | Super | Admin | Director | Manager | TechLead | DsLead | DaLead
  | Ba | Po | Sa | Sm | Qa | Fe | Be | Aie | Ds | Da | De | Reviewer | Viewer.

#[export] Instance AuthRole_eq_dec : EqDecision AuthRole.
Proof. solve_decision. Defined.

Definition is_lead (r : AuthRole) : bool :=
  match r with Director | Manager | TechLead | DsLead | DaLead => true | _ => false end.

Definition can_write (r : AuthRole) : bool := match r with Viewer => false | _ => true end.

Definition is_dev (r : AuthRole) : bool :=
  match r with Fe | Be | Aie | Ds | Da | De => true | _ => false end.

Definition can_review (r : AuthRole) : bool :=
  match r with Super | Admin | Sa | Reviewer => true | _ => false end || is_lead r || is_dev r.

Definition can_create_channel (r : AuthRole) : bool :=
  match r with Super | Admin => true | _ => false end || is_lead r.

Definition can_manage (r : AuthRole) : bool :=
  match r with Super | Admin => true | _ => false end || is_lead r.

Definition can_approve_ready (r : AuthRole) : bool :=
  match r with Super | Admin | Ba | Po => true | _ => false end || is_lead r.

Definition can_verify (r : AuthRole) : bool :=
  match r with Super | Admin | Qa | Reviewer => true | _ => false end || is_lead r.

Definition is_super (r : AuthRole) : bool := match r with Super => true | _ => false end.

Definition as_str (r : AuthRole) : string :=
  match r with
  | Super => "super" | Admin => "admin" | Director => "director" | Manager => "manager"
  | TechLead => "techlead" | DsLead => "dslead" | DaLead => "dalead"
  | Ba => "ba" | Po => "po" | Sa => "sa" | Sm => "sm" | Qa => "qa"
  | Fe => "fe" | Be => "be" | Aie => "aie" | Ds => "ds" | Da => "da" | De => "de"
  | Reviewer => "reviewer" | Viewer => "viewer"
  end.

Definition label (r : AuthRole) : string :=
  match r with
  | Super => "Super Admin" | Admin => "Admin" | Director => "Director" | Manager => "Manager"
  | TechLead => "Tech.Lead" | DsLead => "DS.Lead" | DaLead => "DA.Lead"
  | Ba => "BA" | Po => "PO" | Sa => "SA" | Sm => "SM" | Qa => "QA"
  | Fe => "FE" | Be => "BE" | Aie => "AIE" | Ds => "DS" | Da => "DA" | De => "DE"
  | Reviewer => "Reviewer" | Viewer => "Viewer"
  end.

(** [s.replace(['.', ' ', '-', '_'], "")] *)
Fixpoint drop_separators (s : string) : string :=
  match s with
  | EmptyString => ""
  | String a s =>
      if bool_decide (a ∈ ["."; " "; "-"; "_"]%char) then drop_separators s else String a (drop_separators s)
  end.

Definition from_str_lenient (s : string) : AuthRole :=
  match drop_separators (str_map ascii_lower (trim s)) with
  | "super" | "superadmin" => Super
  | "admin" => Admin
  | "director" => Director
  | "manager" => Manager
  | "techlead" => TechLead
  | "dslead" => DsLead
  | "dalead" => DaLead
  | "ba" => Ba
  | "po" => Po
  | "sa" => Sa
  | "sm" => Sm
  | "qa" | "tester" | "test" => Qa
  | "fe" => Fe
  | "be" => Be
  | "aie" => Aie
  | "ds" => Ds
  | "da" => Da
  | "de" => De
  | "reviewer" => Reviewer
  | _ => Viewer
  end.

(** [AuthRole::all] *)
Definition all_roles : list AuthRole :=
  [Admin; Director; Manager; TechLead; DsLead; DaLead; Ba; Po; Sa; Sm; Qa; Fe; Be; Aie; Ds; Da; De].

(** ** Data *)

Definition SESSION_TTL : N := 30 * 24 * 60 * 60.
Definition MAX_FAILS : N := 5.
(** In the nanoseconds of an [Instant]. *)
Definition LOCKOUT : N := 15 * 60 * 1000000000.

Record StoredUser := mkUser {
  su_username : string;
  su_hash : string;
  su_name : string;
  su_email : string;
  su_role : AuthRole;
  su_totp_secret : option string;
  su_projects : list string;
}.

Record StoredToken := mkToken {
  st_label : string;
  st_role : AuthRole;
  st_hash : string;
  st_created : string;
  st_owner : string;
}.

Record UserFile := mkFile { uf_users : list StoredUser; uf_tokens : list StoredToken }.

Record AuthUser := mkAuthUser {
  au_username : string;
  au_name : string;
  au_email : string;
  au_role : AuthRole;
  au_projects : list string;
}.

Record Session := mkSession {
  ss_user : AuthUser;
  ss_expires : N;
  ss_label : string;
  ss_at : string;
}.

Record Attempts := mkAttempts { fails : N; locked_until : option N }.

Record SessionInfo := mkSessionInfo { si_label : string; si_at : string; si_current : bool }.
Record TokenInfo := mkTokenInfo { ti_label : string; ti_role : AuthRole; ti_created : string }.

Inductive LoginResult := LoginOk (token : string) | TotpRequired | Denied.

(** A file: unreadable, text serde refuses, or a value. *)
Inductive Stored (A : Type) := Unread | Unparsable (e : string) | Holds (a : A).
Arguments Unread {A}.
Arguments Unparsable {A} e.
Arguments Holds {A} a.

Record FileAuthService := mkService {
  users : list StoredUser;
  tokens : list StoredToken;
  sessions : gmap string Session;
  attempts : gmap string Attempts;
  pending_totp : gmap string string;
  auth_json : Stored UserFile;
  sessions_json : Stored (gmap string Session);
}.

(** The outcome of [std::fs::write]: done, failed with the old text in place,
    or failed after the truncation. *)
Inductive Write := Written | Kept (e : string) | Torn (e : string).

(** What one call reads from its surroundings: [instant] when it asks whether
    the account is locked and [settled] when it counts a failure, the unix
    clock, the formatted clock, the random bytes, the fresh password hash. *)
Record Call := mkCall {
  instant : N;
  settled : N;
  unix : N;
  rfc3339 : string;
  random : list N;
  hashed : result string string;
  wrote_users : Write;
  wrote_sessions : Write;
}.

Definition write_file {A} (w : Write) (new : A) (old : Stored A) : Stored A :=
  match w with Written => Holds new | Kept _ => old | Torn e => Unparsable e end.

Definition write_result (w : Write) : result string unit :=
  match w with Written => Ok tt | Kept e | Torn e => Err e end.

(** [now_unix() + SESSION_TTL.as_secs()] *)
Definition session_deadline (now : N) : N := u64_wrap (now + SESSION_TTL).

Definition fresh_session (username : string) (role : AuthRole) (c : Call) : Session :=
  mkSession (mkAuthUser username "" "" role []) (session_deadline (unix c)) "" (rfc3339 c).

Definition mint_token (bytes : list N) : string := to_hex bytes.

(** The loop of [ct_eq] over the zipped bytes. *)
Fixpoint ct_diff (diff : N) (a b : string) : N :=
  match a, b with
  | String x a, String y b => ct_diff (N.lor diff (N.lxor (N_of_ascii x) (N_of_ascii y))) a b
  | _, _ => diff
  end.

Definition ct_eq (a b : string) : bool :=
  if negb (String.length a =? String.length b) then false else (ct_diff 0 a b =? 0)%N.

(** ** Opening and persisting *)

Definition live_sessions (now : N) (m : gmap string Session) : gmap string Session :=
  filter (fun '(_, s) => (now < ss_expires s)%N) m.

(** What [open] and [bootstrap_admin] read: a file that cannot be read counts as empty. *)
Definition read_users (json : Stored UserFile) : result string UserFile :=
  match json with
  | Holds f => Ok f
  | Unparsable e => Err ("bad auth file: " +:+ e)
  | Unread => Ok (mkFile [] [])
  end.

Definition open (now : N) (json : Stored UserFile) (sjson : Stored (gmap string Session))
    : result string FileAuthService :=
  let? file := read_users json in
  let restored := match sjson with Holds m => live_sessions now m | _ => ∅ end in
  Ok (mkService (uf_users file) (uf_tokens file) restored ∅ ∅ json sjson).

Definition persist (w : Write) (s : FileAuthService) : FileAuthService * result string unit :=
  (s <| auth_json ::= write_file w (mkFile (users s) (tokens s)) |>, write_result w).

Definition persist_sessions (w : Write) (s : FileAuthService) : FileAuthService :=
  s <| sessions_json ::= write_file w (sessions s) |>.

Definition user_named (username : string) (u : StoredUser) : bool := bool_decide (su_username u = username).

Definition new_user (username hash : string) (role : AuthRole) : StoredUser :=
  mkUser username hash "" "" role None [].

(** The upsert [bootstrap_admin] and [create_user] share. *)
Definition upsert_user (username hash : string) (role : AuthRole) (us : list StoredUser) : list StoredUser :=
  match List.find (user_named username) us with
  | Some _ => update_first (user_named username) (fun u => u <| su_hash := hash |> <| su_role := role |>) us
  | None => us ++ [new_user username hash role]
  end.

(** [bootstrap_admin]: the file after it, or why it fails. *)
Definition bootstrap_admin (c : Call) (username : string) (json : Stored UserFile)
    : Stored UserFile * result string unit :=
  match (let? hash := hashed c in let? f := read_users json in Ok (f <| uf_users ::= upsert_user username hash Super |>)) with
  | Err e => (json, Err e)
  | Ok f => (write_file (wrote_users c) f json, write_result (wrote_users c))
  end.

Definition has_users (s : FileAuthService) : bool := match users s with [] => false | _ => true end.

(** ** The throttle *)

Definition is_locked (now : N) (username : string) (s : FileAuthService) : FileAuthService * bool :=
  match attempts s !! username with
  | None => (s, false)
  | Some a =>
      match locked_until a with
      | Some until =>
          if (now <? until)%N then (s, true)
          else (s <| attempts ::= <[username := mkAttempts 0 None]> |>, false)
      | None => (s, false)
      end
  end.

Definition record_failure (now : N) (username : string) (s : FileAuthService) : FileAuthService :=
  let a := default (mkAttempts 0 None) (attempts s !! username) in
  let n := u32_wrap (fails a + 1) in
  let a := a <| fails := n |> in
  let a := if (MAX_FAILS <=? n)%N then a <| locked_until := Some (now + LOCKOUT)%N |> else a in
  s <| attempts ::= <[username := a]> |>.

Definition clear_failures (username : string) (s : FileAuthService) : FileAuthService :=
  s <| attempts ::= delete username |>.

(** ** Lookups and small writes *)

Definition find_user (username : string) (s : FileAuthService) : option StoredUser :=
  List.find (user_named username) (users s).

Definition profile (u : StoredUser) : AuthUser :=
  mkAuthUser (su_username u) (su_name u) (su_email u) (su_role u) (su_projects u).

Definition owner_projects (owner : string) (s : FileAuthService) : list string :=
  default [] (su_projects <$> find_user owner s).

(** A write through [users.iter_mut().find(username)]. *)
Definition set_user (username : string) (f : StoredUser -> StoredUser) (s : FileAuthService) : FileAuthService :=
  s <| users ::= update_first (user_named username) f |>.

(** [self.persist().is_ok()], and [let _ = self.persist()]. *)
Definition persisted (c : Call) (s : FileAuthService) : FileAuthService * bool :=
  let '(s, r) := persist (wrote_users c) s in (s, is_ok r).

Definition best_effort (c : Call) (s : FileAuthService) : FileAuthService := fst (persist (wrote_users c) s).

Section Auth.
Context (argon_verify : string -> string -> bool) (sha256 : string -> list N) (hmac : list N -> list N -> list N).

Definition sha256_hex (token : string) : string := to_hex (sha256 token).

(** ** Sessions *)

Definition verified (username password : string) (s : FileAuthService) : option (AuthRole * option string) :=
  user ← find_user username s;
  if argon_verify (su_hash user) password then Some (su_role user, su_totp_secret user) else None.

Definition login (c : Call) (username password : string) (totp : option string) (s : FileAuthService)
    : FileAuthService * LoginResult :=
  let '(s, locked) := is_locked (instant c) username s in
  if locked then (s, Denied)
  else
    let refuse := (record_failure (settled c) username s, Denied) in
    match verified username password s with
    | None => refuse
    | Some (role, totp_secret) =>
        let grant :=
          let s := clear_failures username s in
          let token := mint_token (random c) in
          let s := s <| sessions ::= <[token := fresh_session username role c]> |> in
          (persist_sessions (wrote_sessions c) s, LoginOk token) in
        match totp_secret with
        | None => grant
        | Some secret =>
            match totp with
            | None => (s, TotpRequired)
            | Some code => if verify hmac secret code (unix c) then grant else refuse
            end
        end
    end.

Definition user_for (c : Call) (token : string) (s : FileAuthService) : FileAuthService * option AuthUser :=
  match sessions s !! token with
  | None => (s, None)
  | Some session =>
      if (ss_expires session <=? unix c)%N
      then (persist_sessions (wrote_sessions c) (s <| sessions ::= delete token |>), None)
      else (s, profile <$> find_user (au_username (ss_user session)) s)
  end.

Definition logout (c : Call) (token : string) (s : FileAuthService) : FileAuthService :=
  match sessions s !! token with
  | Some _ => persist_sessions (wrote_sessions c) (s <| sessions ::= delete token |>)
  | None => s
  end.

Definition attach_device (c : Call) (token device : string) (s : FileAuthService) : FileAuthService :=
  match sessions s !! token with
  | Some ss => persist_sessions (wrote_sessions c) (s <| sessions ::= <[token := ss <| ss_label := device |>]> |>)
  | None => s
  end.

(** The map is walked in an order of its own before the sort. *)
Definition sessions_for (c : Call) (username current_token : string) (s : FileAuthService) : list SessionInfo :=
  sort_by (fun a b => str_le (si_at b) (si_at a))
    (omap (fun '(tok, ss) =>
       if bool_decide (au_username (ss_user ss) = username) && (unix c <? ss_expires ss)%N
       then Some (mkSessionInfo (if bool_decide (ss_label ss = "") then "Unknown device" else ss_label ss)
                    (ss_at ss) (bool_decide (tok = current_token)))
       else None)
     (map_to_list (sessions s))).

(** ** API tokens *)

Definition token_labelled (lbl : string) (t : StoredToken) : bool := bool_decide (st_label t = lbl).

Definition mint_api_token (c : Call) (lbl : string) (role : AuthRole) (owner : string) (s : FileAuthService)
    : FileAuthService * option string :=
  if existsb (token_labelled lbl) (tokens s) then (s, None)
  else
    let secret := mint_token (random c) in
    let t := mkToken lbl role (sha256_hex secret) (rfc3339 c) owner in
    let '(s, ok) := persisted c (s <| tokens ::= fun ts => ts ++ [t] |>) in
    (s, if ok then Some secret else None).

Definition create_token (c : Call) (lbl : string) (role : AuthRole) : FileAuthService -> FileAuthService * option string :=
  mint_api_token c lbl role "".

Definition create_token_for (c : Call) (lbl : string) (role : AuthRole) (owner : option string)
    : FileAuthService -> FileAuthService * option string :=
  mint_api_token c lbl role (default "" owner).

Definition principal_for_bearer (token : string) (s : FileAuthService) : option AuthUser :=
  stored ← List.find (fun t => ct_eq (st_hash t) (sha256_hex token)) (tokens s);
  let projects := if bool_decide (st_owner stored = "") then [] else owner_projects (st_owner stored) s in
  Some (mkAuthUser ("svc:" +:+ st_label stored) "" "" (st_role stored) projects).

Definition list_tokens (s : FileAuthService) : list TokenInfo :=
  (fun t => mkTokenInfo (st_label t) (st_role t) (st_created t)) <$> tokens s.

Definition revoke_token (c : Call) (lbl : string) (s : FileAuthService) : FileAuthService * bool :=
  let s' := s <| tokens ::= List.filter (fun t => negb (token_labelled lbl t)) |> in
  let removed := negb (length (tokens s') =? length (tokens s)) in
  (if removed then best_effort c s' else s', removed).

(** ** Accounts *)

Definition list_users (s : FileAuthService) : list AuthUser := profile <$> users s.

Definition create_user (c : Call) (username password : string) (role : AuthRole) (s : FileAuthService)
    : FileAuthService * bool :=
  if bool_decide (trim username = "") || bool_decide (password = "") then (s, false)
  else match hashed c with
  | Err _ => (s, false)
  | Ok hash => persisted c (s <| users ::= upsert_user username hash role |>)
  end.

Definition update_user (c : Call) (username name email : string) (role : option AuthRole) (s : FileAuthService)
    : FileAuthService * bool :=
  match find_user username s with
  | None => (s, false)
  | Some _ =>
      let f u :=
        let u := u <| su_name := trim name |> <| su_email := trim email |> in
        match role with Some r => u <| su_role := r |> | None => u end in
      persisted c (set_user username f s)
  end.

Definition set_password (c : Call) (username password : string) (s : FileAuthService) : FileAuthService * bool :=
  if bool_decide (password = "") then (s, false)
  else match hashed c with
  | Err _ => (s, false)
  | Ok hash =>
      match find_user username s with
      | None => (s, false)
      | Some _ => persisted c (set_user username (fun u => u <| su_hash := hash |>) s)
      end
  end.

Definition is_admin_tier (r : AuthRole) : bool := match r with Admin | Super => true | _ => false end.

Definition delete_user (c : Call) (username : string) (s : FileAuthService) : FileAuthService * bool :=
  let us := users s in
  if negb (existsb (user_named username) us) then (s, false)
  else
    let admins_left :=
      length (List.filter (fun u => is_admin_tier (su_role u) && negb (user_named username u)) us) in
    let removing_admin := existsb (fun u => user_named username u && is_admin_tier (su_role u)) us in
    if removing_admin && (admins_left =? 0) then (s, false)
    else persisted c (s <| users ::= List.filter (fun u => negb (user_named username u)) |>).

Definition assign_project (c : Call) (username pid : string) (s : FileAuthService) : FileAuthService * bool :=
  match find_user username s with
  | None => (s, false)
  | Some u =>
      if bool_decide (pid ∈ su_projects u) then (s, true)
      else persisted c (set_user username (fun u => u <| su_projects ::= fun ps => ps ++ [pid] |>) s)
  end.

Definition without_project (pid : string) (ps : list string) : list string :=
  List.filter (fun p => negb (bool_decide (p = pid))) ps.

Definition unassign_project (c : Call) (username pid : string) (s : FileAuthService) : FileAuthService * bool :=
  match find_user username s with
  | None => (s, false)
  | Some u =>
      let removed := negb (length (without_project pid (su_projects u)) =? length (su_projects u)) in
      let s := set_user username (fun u => u <| su_projects ::= without_project pid |>) s in
      (if removed then best_effort c s else s, removed)
  end.

(** ** Second factor *)

Definition enroll_2fa (c : Call) (username : string) (s : FileAuthService)
    : FileAuthService * option (string * string) :=
  if negb (existsb (user_named username) (users s)) then (s, None)
  else
    let secret := generate_secret (random c) in
    let uri := provisioning_uri secret username "CoXAgent" in
    (s <| pending_totp ::= <[username := secret]> |>, Some (secret, uri)).

Definition enable_2fa (c : Call) (username code : string) (s : FileAuthService) : FileAuthService * bool :=
  match pending_totp s !! username with
  | None => (s, false)
  | Some secret =>
      if negb (verify hmac secret code (unix c)) then (s, false)
      else match find_user username s with
      | None => (s, false)
      | Some _ =>
          let s := set_user username (fun u => u <| su_totp_secret := Some secret |>) s in
          persisted c (s <| pending_totp ::= delete username |>)
      end
  end.

Definition disable_2fa (c : Call) (username : string) (s : FileAuthService) : FileAuthService * bool :=
  let was_enabled :=
    match find_user username s with Some u => bool_decide (is_Some (su_totp_secret u)) | None => false end in
  let s := set_user username (fun u => u <| su_totp_secret := None |>) s in
  (if was_enabled then best_effort c s else s, was_enabled).

Definition has_2fa (username : string) (s : FileAuthService) : bool :=
  existsb (fun u => user_named username u && bool_decide (is_Some (su_totp_secret u))) (users s).

(** ** Runs: calls served one after another, and restarts *)

Inductive AuthOp :=
  | OpLogin (username password : string) (totp : option string)
  | OpUserFor (token : string)
  | OpLogout (token : string)
  | OpAttachDevice (token device : string)
  | OpCreateToken (lbl : string) (role : AuthRole) (owner : option string)
  | OpRevokeToken (lbl : string)
  | OpCreateUser (username password : string) (role : AuthRole)
  | OpUpdateUser (username name email : string) (role : option AuthRole)
  | OpSetPassword (username password : string)
  | OpDeleteUser (username : string)
  | OpAssignProject (username pid : string)
  | OpUnassignProject (username pid : string)
  | OpEnroll2fa (username : string)
  | OpEnable2fa (username code : string)
  | OpDisable2fa (username : string).

Definition perform (c : Call) (op : AuthOp) (s : FileAuthService) : FileAuthService :=
  match op with
  | OpLogin u pw totp => fst (login c u pw totp s)
  | OpUserFor tok => fst (user_for c tok s)
  | OpLogout tok => logout c tok s
  | OpAttachDevice tok device => attach_device c tok device s
  | OpCreateToken lbl role owner => fst (create_token_for c lbl role owner s)
  | OpRevokeToken lbl => fst (revoke_token c lbl s)
  | OpCreateUser u pw role => fst (create_user c u pw role s)
  | OpUpdateUser u name email role => fst (update_user c u name email role s)
  | OpSetPassword u pw => fst (set_password c u pw s)
  | OpDeleteUser u => fst (delete_user c u s)
  | OpAssignProject u pid => fst (assign_project c u pid s)
  | OpUnassignProject u pid => fst (unassign_project c u pid s)
  | OpEnroll2fa u => fst (enroll_2fa c u s)
  | OpEnable2fa u code => fst (enable_2fa c u code s)
  | OpDisable2fa u => fst (disable_2fa c u s)
  end.

(** [build_auth] on the files: the admin of the environment, then [open]. *)
Definition boot (c : Call) (admin : option string) (json : Stored UserFile) (sjson : Stored (gmap string Session))
    : result string FileAuthService :=
  match admin with
  | None => open (unix c) json sjson
  | Some username =>
      let '(json, r) := bootstrap_admin c username json in
      let? _ := r in
      open (unix c) json sjson
  end.

Inductive AuthEvent := Served (c : Call) (op : AuthOp) | Restarted (c : Call) (admin : option string).

Definition happen (e : AuthEvent) (s : FileAuthService) : result string FileAuthService :=
  match e with
  | Served c op => Ok (perform c op s)
  | Restarted c admin => boot c admin (auth_json s) (sessions_json s)
  end.

Fixpoint replay (evs : list AuthEvent) (s : FileAuthService) : result string FileAuthService :=
  match evs with [] => Ok s | e :: evs => let? s := happen e s in replay evs s end.

(** ** What each operation leaves alone *)

(** The login's own answer. *)
Definition login_result (c : Call) (u pw : string) (totp : option string) (s : FileAuthService) : LoginResult :=
  snd (login c u pw totp s).

Definition locked (c : Call) (u : string) (s : FileAuthService) : bool := snd (is_locked (instant c) u s).

(** The password is that of the account, and so is the code where one is enrolled. *)
Definition accepted (c : Call) (u pw : string) (totp : option string) (s : FileAuthService) : Prop :=
  exists a, find_user u s = Some a /\ argon_verify (su_hash a) pw = true /\
    (su_totp_secret a = None \/
     exists secret code, su_totp_secret a = Some secret /\ totp = Some code /\ verify hmac secret code (unix c) = true).

Lemma is_locked_frame now u s :
  let s' := fst (is_locked now u s) in
  users s' = users s /\ tokens s' = tokens s /\ sessions s' = sessions s /\
  auth_json s' = auth_json s /\ sessions_json s' = sessions_json s.
Proof. unfold is_locked. by repeat case_match. Qed.

Lemma verified_is_locked now u v pw s : verified v pw (fst (is_locked now u s)) = verified v pw s.
Proof. unfold verified, find_user. by destruct (is_locked_frame now u s) as (-> & _). Qed.

(** The three ways a login ends. *)
Variant login_spec (c : Call) (u pw : string) (totp : option string) (s : FileAuthService) :
    FileAuthService * LoginResult -> Prop :=
  | login_locked : locked c u s = true -> login_spec c u pw totp s (fst (is_locked (instant c) u s), Denied)
  | login_refused :
      locked c u s = false -> ~ accepted c u pw totp s ->
      login_spec c u pw totp s (record_failure (settled c) u (fst (is_locked (instant c) u s)), Denied)
  | login_needs_code :
      locked c u s = false -> ~ accepted c u pw totp s ->
      login_spec c u pw totp s (fst (is_locked (instant c) u s), TotpRequired)
  | login_granted r :
      locked c u s = false -> accepted c u pw totp s ->
      login_spec c u pw totp s
        (persist_sessions (wrote_sessions c)
           (clear_failures u (fst (is_locked (instant c) u s))
              <| sessions ::= <[mint_token (random c) := fresh_session u r c]> |>),
         LoginOk (mint_token (random c))).

Lemma login_ok c u pw totp s : login_spec c u pw totp s (login c u pw totp s).
Proof.
  unfold login. pose proof (verified_is_locked (instant c) u u pw s) as Hv.
  destruct (is_locked (instant c) u s) as [s1 l] eqn:E.
  assert (Hs : s1 = fst (is_locked (instant c) u s)) by by rewrite E.
  assert (Hl : l = locked c u s) by (unfold locked; by rewrite E).
  rewrite Hs. cbn [fst] in Hv. destruct l; [by apply login_locked|]. symmetry in Hl.
  rewrite verified_is_locked. unfold verified. destruct (find_user u s) as [a|] eqn:Ef; cbn [mbind option_bind].
  2: { apply login_refused; [done|]. intros (a & Ha & _). congruence. }
  destruct (argon_verify (su_hash a) pw) eqn:Ea.
  2: { apply login_refused; [done|]. intros (b & Hb & Hb' & _). congruence. }
  destruct (su_totp_secret a) as [secret|] eqn:Et.
  - destruct totp as [code|].
    + destruct (verify hmac secret code (unix c)) eqn:Ec.
      * apply login_granted; [done|]. exists a. split_and!; [done..|right]. by exists secret, code.
      * apply login_refused; [done|]. intros (b & Hb & _ & [?|(? & ? & ? & [= <-] & ?)]); congruence.
    + apply login_needs_code; [done|]. intros (b & Hb & _ & [?|(? & ? & ? & ? & ?)]); congruence.
  - apply login_granted; [done|]. exists a. split_and!; [done..|by left].
Qed.

(** Two states that agree on what a group of fields holds. *)
Definition same_sessions (s s' : FileAuthService) : Prop :=
  sessions s' = sessions s /\ sessions_json s' = sessions_json s.
Definition same_accounts (s s' : FileAuthService) : Prop :=
  users s' = users s /\ tokens s' = tokens s /\ auth_json s' = auth_json s.

Ltac unfold_ops :=
  unfold perform, create_token_for, mint_api_token, revoke_token, create_user, update_user, set_password,
    delete_user, assign_project, unassign_project, enroll_2fa, enable_2fa, disable_2fa, user_for, logout,
    attach_device, persisted, best_effort, persist, persist_sessions, set_user.

(** Sessions change by a login, a lookup, a logout or a device label only. *)
Definition is_session_op (op : AuthOp) : bool :=
  match op with OpLogin _ _ _ | OpUserFor _ | OpLogout _ | OpAttachDevice _ _ => true | _ => false end.

Lemma account_op_sessions c op s : is_session_op op = false -> same_sessions s (perform c op s).
Proof. destruct op; intros [=]; unfold_ops; by repeat case_match. Qed.

Lemma session_op_accounts c op s : is_session_op op = true -> same_accounts s (perform c op s).
Proof.
  destruct op as [u pw totp| | | | | | | | | | | | | |]; intros [=]; cbn [perform].
  - destruct (is_locked_frame (instant c) u s) as (Hu & Ht & _ & Hj & _).
    destruct (login_ok c u pw totp s); done.
  - unfold_ops. by repeat case_match.
  - unfold_ops. by repeat case_match.
  - unfold_ops. by repeat case_match.
Qed.

(** A session in memory or in the file. *)
Definition known (s : FileAuthService) (tok : string) (ss : Session) : Prop :=
  sessions s !! tok = Some ss \/ exists m, sessions_json s = Holds m /\ m !! tok = Some ss.

Definition same_holder (ss ss' : Session) : Prop :=
  ss_user ss' = ss_user ss /\ ss_expires ss' = ss_expires ss.

Lemma known_persist w s tok ss :
  known (persist_sessions w s) tok ss -> known s tok ss.
Proof.
  intros [H|(m & H & Hm)]; [by left|]. destruct w; cbn in H.
  - injection H as <-. by left.
  - right. by exists m.
  - done.
Qed.

Lemma known_delete s t tok ss : known (s <| sessions ::= delete t |>) tok ss -> known s tok ss.
Proof. intros [H|H]; [left|by right]. cbn in H. by apply lookup_delete_Some in H as [_ ?]. Qed.

(** Where a session of the next state comes from. *)
Lemma perform_known c op s tok ss' :
  known (perform c op s) tok ss' ->
  (exists ss, known s tok ss /\ same_holder ss ss') \/
  (exists u pw totp, op = OpLogin u pw totp /\ tok = mint_token (random c) /\
     accepted c u pw totp s /\ locked c u s = false /\
     au_username (ss_user ss') = u /\ ss_expires ss' = session_deadline (unix c)).
Proof.
  intros H. destruct (is_session_op op) eqn:Eo.
  2: { left. exists ss'. destruct (account_op_sessions c op s Eo) as [E1 E2]. split; [|done].
       destruct H as [H|H]; [left; by rewrite <- E1|right; by rewrite <- E2]. }
  destruct op as [u pw totp|t|t|t dev| | | | | | | | | | |]; try done; cbn [perform] in H.
  - destruct (is_locked_frame (instant c) u s) as (_ & _ & Es & _ & Ej).
    assert (Hk : forall s', sessions s' = sessions s -> sessions_json s' = sessions_json s ->
                   known s' tok ss' -> known s tok ss').
    { intros s' E1 E2 [K|K]; [left; by rewrite <- E1|right; by rewrite <- E2]. }
    destruct (login_ok c u pw totp s) as [| | |r Hl Ha];
      [left; exists ss'; split; [by eapply Hk in H|done]..|].
    cbn [fst] in H. apply known_persist in H as [H|H].
    + cbn in H. apply lookup_insert_Some in H as [[<- <-]|[_ H]].
      * right. exists u, pw, totp. done.
      * left. exists ss'. split; [|done]. left. by rewrite <- Es.
    + left. exists ss'. split; [|done]. right. by rewrite <- Ej.
  - left. exists ss'. split; [|done]. unfold user_for in H.
    repeat case_match; cbn [fst] in H; try done. by apply known_persist, known_delete in H.
  - left. exists ss'. split; [|done]. unfold logout in H.
    case_match; [by apply known_persist, known_delete in H|done].
  - left. unfold attach_device in H. destruct (sessions s !! t) as [ss|] eqn:E; [|by exists ss'].
    apply known_persist in H as [H|H].
    + cbn in H. apply lookup_insert_Some in H as [[<- <-]|[_ H]]; [exists ss|exists ss']; split; [by left|done..|by left|done].
    + exists ss'. split; [by right|done].
Qed.

(** ** Restarts *)

Lemma boot_ok c admin json sjson s :
  boot c admin json sjson = Ok s ->
  sessions_json s = sjson /\ attempts s = ∅ /\ pending_totp s = ∅ /\
  sessions s = (match sjson with Holds m => live_sessions (unix c) m | _ => ∅ end) /\
  exists f, read_users (auth_json s) = Ok f /\ users s = uf_users f /\ tokens s = uf_tokens f /\
    (admin = None -> auth_json s = json) /\
    (forall u, admin = Some u -> exists h f0, read_users json = Ok f0 /\ hashed c = Ok h /\
       f = f0 <| uf_users ::= upsert_user u h Super |>).
Proof.
  unfold boot. assert (Hopen : forall j, open (unix c) j sjson = Ok s ->
    sessions_json s = sjson /\ attempts s = ∅ /\ pending_totp s = ∅ /\
    sessions s = (match sjson with Holds m => live_sessions (unix c) m | _ => ∅ end) /\
    exists f, read_users j = Ok f /\ users s = uf_users f /\ tokens s = uf_tokens f /\ auth_json s = j).
  { unfold open. intros j H. apply result_bind_ok in H as (f & Hf & [= <-]). split_and!; [done..|]. by exists f. }
  destruct admin as [u|].
  - unfold bootstrap_admin. destruct (hashed c) as [h|e]; [|done].
    destruct (read_users json) as [f0|e] eqn:Ej; [|done].
    destruct (wrote_users c); [|done..].
    intros H. change (open (unix c) (Holds (f0 <| uf_users ::= upsert_user u h Super |>)) sjson = Ok s) in H.
    destruct (Hopen _ H) as (? & ? & ? & ? & f & [= <-] & ? & ? & Ea). split_and!; [done..|].
    exists (f0 <| uf_users ::= upsert_user u h Super |>). rewrite Ea. split_and!; [done..|].
    intros ? [= <-]. by exists h, f0.
  - intros H. destruct (Hopen _ H) as (? & ? & ? & ? & f & ? & ? & ? & Ea). split_and!; [done..|].
    exists f. rewrite Ea. by split_and!.
Qed.

Lemma boot_known c admin s s' tok ss :
  boot c admin (auth_json s) (sessions_json s) = Ok s' -> known s' tok ss -> known s tok ss.
Proof.
  intros (E & _ & _ & Es & _)%boot_ok [H|(m & H & Hm)]; right.
  - rewrite Es in H. destruct (sessions_json s) as [| |m]; [done..|].
    apply map_lookup_filter_Some in H as [H _]. by exists m.
  - exists m. by rewrite <- E.
Qed.

Lemma replay_snoc evs e s :
  replay (evs ++ [e]) s = let? s := replay evs s in happen e s.
Proof.
  revert s. induction evs as [|e' evs IH]; intros s; cbn; [by destruct (happen e s)|].
  destruct (happen e' s); cbn; [apply IH|done].
Qed.

(** Every known session was opened by a login whose credentials were right. *)
Lemma known_origin evs s0 s tok ss :
  (forall t x, ~ known s0 t x) -> replay evs s0 = Ok s -> known s tok ss ->
  exists pre c pw totp post s1,
    evs = pre ++ Served c (OpLogin (au_username (ss_user ss)) pw totp) :: post /\ replay pre s0 = Ok s1 /\
    tok = mint_token (random c) /\ accepted c (au_username (ss_user ss)) pw totp s1 /\
    locked c (au_username (ss_user ss)) s1 = false /\ ss_expires ss = session_deadline (unix c).
Proof.
  intros H0. revert s ss. induction evs as [|e evs IH] using rev_ind; intros s ss.
  { intros [= <-] H. by apply H0 in H. }
  rewrite replay_snoc. intros (s1 & H1 & He)%result_bind_ok Hk.
  assert (Hold : forall x, known s1 tok x -> same_holder x ss ->
    exists pre c pw totp post s1,
      evs ++ [e] = pre ++ Served c (OpLogin (au_username (ss_user ss)) pw totp) :: post /\ replay pre s0 = Ok s1 /\
      tok = mint_token (random c) /\ accepted c (au_username (ss_user ss)) pw totp s1 /\
      locked c (au_username (ss_user ss)) s1 = false /\ ss_expires ss = session_deadline (unix c)).
  { intros x Hx [-> ->]. destruct (IH s1 x H1 Hx) as (pre & c & pw & totp & post & s2 & -> & ?).
    exists pre, c, pw, totp, (post ++ [e]), s2. by rewrite <- app_assoc. }
  destruct e as [c op|c admin]; cbn [happen] in He.
  - injection He as <-. apply perform_known in Hk as [(x & Hx & Hs)|(u & pw & totp & -> & -> & Ha & Hl & Hu & Hx)].
    + by eapply Hold.
    + exists evs, c, pw, totp, [], s1. by rewrite Hu.
  - eapply Hold; [by eapply boot_known|done].
Qed.

(** ** Authentication *)

(** C15: Nobody is signed in without credentials. Take any history of calls and
    restarts of a hub that started without sessions, whatever the file writes
    did. When a token resolves to a principal, then the history contains a
    login for that principal's name that returned the token: the account was
    not locked, its password hash at that moment accepted the given password,
    and the code was right if the account had a second factor; that login is
    less than thirty days old; and the principal is the account as it is now,
    with its present role and projects. *)
Theorem signed_in_means_authenticated evs c0 admin json s0 s c tok u :
  boot c0 admin json Unread = Ok s0 -> replay evs s0 = Ok s -> snd (user_for c tok s) = Some u ->
  (exists pre cl pw totp post s1,
     evs = pre ++ Served cl (OpLogin (au_username u) pw totp) :: post /\ replay pre s0 = Ok s1 /\
     login_result cl (au_username u) pw totp s1 = LoginOk tok /\
     accepted cl (au_username u) pw totp s1 /\ locked cl (au_username u) s1 = false /\
     (unix c < session_deadline (unix cl))%N) /\
  profile <$> find_user (au_username u) s = Some u.
Proof.
  intros Hb Hr. unfold user_for. destruct (sessions s !! tok) as [ss|] eqn:E; [|done].
  destruct (ss_expires ss <=? unix c)%N eqn:Ex; [done|]. cbn [snd]. intros Hu.
  assert (Hn : au_username u = au_username (ss_user ss)).
  { unfold find_user in Hu. destruct (List.find _ _) as [a|] eqn:Ef; [|done]. injection Hu as <-.
    apply find_elem in Ef as [_ Ha%bool_decide_eq_true]. exact Ha. }
  rewrite Hn. split; [|done].
  apply boot_ok in Hb as (Ej & _ & _ & Es & _).
  destruct (known_origin evs s0 s tok ss) as (pre & cl & pw & totp & post & s1 & ? & ? & -> & Ha & Hl & Hd).
  - intros t x [H|(m & H & _)]; [by rewrite Es in H|congruence].
  - done.
  - by left.
  - exists pre, cl, pw, totp, post, s1. split_and!; [done..| |done|done|].
    + unfold login_result. destruct (login_ok cl (au_username (ss_user ss)) pw totp s1); try done; congruence.
    + apply N.leb_gt in Ex. congruence.
Qed.

(** ** Revocation *)

Lemma ct_diff_zero a : forall b d,
  String.length a = String.length b -> ct_diff d a b = 0%N <-> d = 0%N /\ a = b.
Proof.
  induction a as [|x a IH]; intros [|y b] d; cbn; intros Hl; try done; [by split; [|intros []]|].
  rewrite IH by lia. rewrite N.lor_eq_0_iff, N.lxor_eq_0_iff. split.
  - intros [[-> E] ->]. by rewrite <- (ascii_N_embedding x), E, ascii_N_embedding.
  - by intros [-> [= -> ->]].
Qed.

(** The constant-time comparison is equality. *)
Lemma ct_eq_spec a b : ct_eq a b = bool_decide (a = b).
Proof.
  unfold ct_eq. destruct (Nat.eqb_spec (String.length a) (String.length b)) as [E|E]; cbn [negb].
  - apply eq_bool_prop_intro. rewrite bool_decide_spec.
    rewrite Is_true_true, N.eqb_eq, ct_diff_zero by done. naive_solver.
  - rewrite bool_decide_false; [done|]. by intros ->.
Qed.

(** A token in memory or in the file. *)
Definition known_token (s : FileAuthService) (t : StoredToken) : Prop :=
  t ∈ tokens s \/ exists f, auth_json s = Holds f /\ t ∈ uf_tokens f.

Lemma known_token_persisted c s t : known_token (fst (persisted c s)) t -> known_token s t.
Proof.
  unfold persisted, persist. intros [H|(f & H & Hf)]; [by left|]. destruct (wrote_users c); cbn in H.
  - injection H as <-. by left.
  - right. by exists f.
  - done.
Qed.

Lemma known_token_frame s s' t :
  tokens s' = tokens s -> auth_json s' = auth_json s -> known_token s' t -> known_token s t.
Proof. unfold known_token. by intros -> ->. Qed.

Lemma best_effort_eq c s : best_effort c s = fst (persisted c s).
Proof. done. Qed.

Lemma perform_known_token c op s t :
  known_token (perform c op s) t ->
  known_token s t \/
  exists lbl role owner, op = OpCreateToken lbl role owner /\ st_hash t = sha256_hex (mint_token (random c)).
Proof.
  assert (Hp : forall s', tokens s' = tokens s -> auth_json s' = auth_json s ->
             known_token (fst (persisted c s')) t -> known_token s t).
  { intros s' E1 E2 H%known_token_persisted. by eapply known_token_frame in H. }
  intros H. destruct (is_session_op op) eqn:Eo.
  { left. destruct (session_op_accounts c op s Eo) as (_ & ? & ?). by eapply known_token_frame. }
  destruct op as [| | | |lbl role owner|lbl| | | | | | | | |]; try done; cbn [perform] in H;
    try solve [left; unfold create_user, update_user, set_password, delete_user, assign_project, unassign_project,
                 enroll_2fa, enable_2fa, disable_2fa in H; repeat case_match; cbn [fst] in H;
               try rewrite best_effort_eq in H; try done; by eapply Hp in H].
  - unfold create_token_for, mint_api_token in H. case_match; [by left|].
    destruct (persisted c _) as [s1 ok] eqn:E.
    assert (Hs : known_token s1 t) by (destruct ok; exact H).
    change s1 with (fst (s1, ok)) in Hs. rewrite <- E in Hs. apply known_token_persisted in Hs as [Hs|Hs].
    + cbn in Hs. apply elem_of_app in Hs as [Hs|Hs%list_elem_of_singleton]; [by left; left|].
      right. exists lbl, role, owner. by rewrite Hs.
    + by left; right.
  - left. unfold revoke_token in H. case_match; cbn [fst] in H.
    + rewrite best_effort_eq in H. apply known_token_persisted in H as [H|H]; [|by right].
      cbn in H. apply elem_of_filter_bool in H as [H _]. by left.
    + destruct H as [H|H]; [|by right]. cbn in H. apply elem_of_filter_bool in H as [H _]. by left.
Qed.

Lemma known_token_boot c admin s s' t :
  boot c admin (auth_json s) (sessions_json s) = Ok s' -> known_token s' t -> known_token s t.
Proof.
  intros (_ & _ & _ & _ & f & Hf & _ & Ht & Hn & Ha)%boot_ok Hk.
  assert (Hs : t ∈ uf_tokens f).
  { destruct Hk as [Hk|(f' & Hf' & Hk)]; [by rewrite <- Ht|]. rewrite Hf' in Hf. by injection Hf as <-. }
  right. destruct admin as [u|].
  - destruct (Ha u eq_refl) as (h & f0 & Hr & _ & ->). cbn in Hs.
    destruct (auth_json s) as [|e|g]; [injection Hr as <-|done|injection Hr as <-; by exists g].
    by apply elem_of_nil in Hs.
  - rewrite <- Hn by done. destruct (auth_json s') as [|e|g]; [injection Hf as <-|done|injection Hf as <-; by exists g].
    by apply elem_of_nil in Hs.
Qed.

(** No login of the history hands out the token again. *)
Definition never_minted (tok : string) (evs : list AuthEvent) : Prop :=
  forall c u pw totp, Served c (OpLogin u pw totp) ∈ evs -> mint_token (random c) <> tok.

(** No call of the history mints an API token with this hash. *)
Definition never_hashed (h : string) (evs : list AuthEvent) : Prop :=
  forall c lbl role owner, Served c (OpCreateToken lbl role owner) ∈ evs -> sha256_hex (mint_token (random c)) <> h.

Lemma replay_unknown evs s s' tok :
  replay evs s = Ok s' -> never_minted tok evs -> (forall ss, ~ known s tok ss) -> forall ss, ~ known s' tok ss.
Proof.
  revert s. induction evs as [|e evs IH]; intros s; cbn [replay]; [by intros [= <-]|].
  intros (s1 & He & Hr)%result_bind_ok Hm Hk. apply (IH s1 Hr).
  { intros c u pw totp H. eapply Hm. by right. }
  intros ss H. destruct e as [c op|c admin]; cbn [happen] in He.
  - injection He as <-. apply perform_known in H as [(x & Hx & _)|(u & pw & totp & -> & -> & _)].
    + by eapply Hk.
    + eapply Hm; [by left|done].
  - eapply Hk, boot_known; done.
Qed.

Lemma replay_unhashed evs s s' h :
  replay evs s = Ok s' -> never_hashed h evs -> (forall t, known_token s t -> st_hash t <> h) ->
  forall t, known_token s' t -> st_hash t <> h.
Proof.
  revert s. induction evs as [|e evs IH]; intros s; cbn [replay]; [by intros [= <-]|].
  intros (s1 & He & Hr)%result_bind_ok Hm Hk. apply (IH s1 Hr).
  { intros c lbl role owner H. eapply Hm. by right. }
  intros t H. destruct e as [c op|c admin]; cbn [happen] in He.
  - injection He as <-. apply perform_known_token in H as [H|(lbl & role & owner & -> & ->)].
    + by apply Hk.
    + eapply Hm. by left.
  - eapply Hk, known_token_boot; done.
Qed.

Lemma unknown_unresolved c s tok : (forall ss, ~ known s tok ss) -> snd (user_for c tok s) = None.
Proof.
  intros H. unfold user_for. destruct (sessions s !! tok) as [ss|] eqn:E; [|done].
  exfalso. apply (H ss). by left.
Qed.

Lemma unhashed_unresolved s secret :
  (forall t, known_token s t -> st_hash t <> sha256_hex secret) -> principal_for_bearer secret s = None.
Proof.
  intros H. unfold principal_for_bearer. destruct (List.find _ _) as [t|] eqn:E; [|done].
  apply find_elem in E as [Ht He]. rewrite ct_eq_spec in He. apply bool_decide_eq_true in He.
  exfalso. by apply (H t); [left|].
Qed.

(** C17: What is revoked stays revoked. After a logout of a live session whose
    file write succeeded, the session token resolves to nobody, and after the
    revocation of a label that held the secret, written as well, the secret
    does: at once, and after any further calls and restarts, failing writes
    included, until some later call draws the same random token again. *)
Theorem revocation_is_final s c evs s' :
  (forall tok, is_Some (sessions s !! tok) -> wrote_sessions c = Written ->
     replay evs (logout c tok s) = Ok s' -> never_minted tok evs ->
     forall c', snd (user_for c' tok s') = None) /\
  (forall lbl secret, wrote_users c = Written ->
     snd (revoke_token c lbl s) = true -> replay evs (fst (revoke_token c lbl s)) = Ok s' ->
     (forall t, t ∈ tokens s -> st_hash t = sha256_hex secret -> st_label t = lbl) ->
     never_hashed (sha256_hex secret) evs -> principal_for_bearer secret s' = None).
Proof.
  split.
  - intros tok [ss Hs] Hw Hr Hm c'. apply unknown_unresolved. eapply replay_unknown; [done..|].
    unfold logout. rewrite Hs. unfold persist_sessions. rewrite Hw. intros x [H|(m & [= <-] & H)];
      cbn in H; by rewrite lookup_delete_eq in H.
  - intros lbl secret Hw Hrem Hr Hu Hm. apply unhashed_unresolved. eapply replay_unhashed; [done..|].
    assert (Hf : forall t, t ∈ List.filter (fun t => negb (token_labelled lbl t)) (tokens s) -> st_hash t <> sha256_hex secret).
    { intros t [Ht Hn]%elem_of_filter_bool Hh. unfold token_labelled in Hn.
      rewrite bool_decide_true in Hn; [done|]. by apply Hu. }
    revert Hrem. unfold revoke_token, best_effort, persist. cbn. rewrite Hw. intros ->.
    intros t [Ht|(f & [= <-] & Ht)]; by apply Hf.
Qed.

(** ** The lockout *)

(** Five failures and the lock come together. *)
Definition attempts_ok (a : Attempts) : Prop :=
  (locked_until a = None /\ (fails a < MAX_FAILS)%N) \/ (is_Some (locked_until a) /\ fails a = MAX_FAILS).

Definition throttle_ok (s : FileAuthService) : Prop := map_Forall (fun _ => attempts_ok) (attempts s).

Lemma non_login_attempts c op s :
  (forall u pw totp, op <> OpLogin u pw totp) -> attempts (perform c op s) = attempts s.
Proof. destruct op; intros H; [by edestruct H|unfold_ops; by repeat case_match..]. Qed.

Lemma is_locked_cases now u s :
  (is_locked now u s = (s, true) /\ exists a until, attempts s !! u = Some a /\ locked_until a = Some until /\ (now < until)%N) \/
  (is_locked now u s = (s, false) /\ forall a, attempts s !! u = Some a -> locked_until a = None) \/
  (is_locked now u s = (s <| attempts ::= <[u := mkAttempts 0 None]> |>, false) /\
   exists a until, attempts s !! u = Some a /\ locked_until a = Some until /\ (until <= now)%N).
Proof.
  unfold is_locked. destruct (attempts s !! u) as [a|] eqn:E; [|by right; left].
  destruct (locked_until a) as [until|] eqn:El.
  - destruct (N.ltb_spec now until); [left|right; right]; (split; [done|]); by exists a, until.
  - right; left. split; [done|]. by intros ? [= <-].
Qed.

(** What an answered login leaves in the counter of each account. *)
Definition counter_after (c : Call) (u : string) (a : option Attempts) : option Attempts :=
  let n := match a with Some (mkAttempts n None) => n | _ => 0%N end in
  let n := u32_wrap (n + 1) in
  Some (mkAttempts n (if (MAX_FAILS <=? n)%N then Some (settled c + LOCKOUT)%N else None)).

Definition reset_counter (a : option Attempts) : option Attempts :=
  match a with Some (mkAttempts _ (Some _)) => Some (mkAttempts 0 None) | _ => a end.

Lemma attempts_set f s : attempts (s <| attempts ::= f |>) = f (attempts s).
Proof. done. Qed.

Lemma record_failure_attempts now u s v :
  attempts (record_failure now u s) !! v =
  if decide (v = u) then
    let n := u32_wrap (fails (default (mkAttempts 0 None) (attempts s !! u)) + 1) in
    Some (mkAttempts n (if (MAX_FAILS <=? n)%N then Some (now + LOCKOUT)%N
                        else locked_until (default (mkAttempts 0 None) (attempts s !! u))))
  else attempts s !! v.
Proof.
  unfold record_failure. cbv zeta. generalize (default (mkAttempts 0 None) (attempts s !! u)). intros [n l].
  rewrite attempts_set. case_decide as Ed.
  - subst. rewrite lookup_insert_eq. by destruct (MAX_FAILS <=? _)%N.
  - by rewrite lookup_insert_ne.
Qed.

Lemma login_attempts c u pw totp s v :
  let s' := fst (login c u pw totp s) in
  attempts s' !! v = (if decide (v = u) then
     (if locked c u s then attempts s !! u
      else match login_result c u pw totp s with
           | LoginOk _ => None
           | TotpRequired => reset_counter (attempts s !! u)
           | Denied => counter_after c u (attempts s !! u)
           end)
   else attempts s !! v).
Proof.
  unfold login_result. pose proof (is_locked_cases (instant c) u s) as Hc. unfold locked.
  destruct (login_ok c u pw totp s) as [Hl|Hl _|Hl _|r Hl _]; unfold locked in Hl; rewrite Hl; cbn [fst snd];
    destruct Hc as [[E (a & until & Ha & Hu & Ht)]|[[E Hn]|[E (a & until & Ha & Hu & Ht)]]];
    rewrite E in Hl |- *; try discriminate; cbn [fst].
  - by case_decide as Ed; [subst|].
  - rewrite record_failure_attempts. case_decide as Ed; [|done]. unfold counter_after.
    destruct (attempts s !! u) as [[n l]|]; [|done]. specialize (Hn _ eq_refl). cbn in Hn. by subst l.
  - rewrite record_failure_attempts, attempts_set, lookup_insert_eq. case_decide as Ed.
    + rewrite Ha. destruct a as [n l]. cbn in Hu. by subst l.
    + by rewrite lookup_insert_ne.
  - case_decide; [subst|done]. destruct (attempts s !! u) as [[n l]|]; [|done].
    specialize (Hn _ eq_refl). cbn in Hn. by subst.
  - cbn. case_decide as Ed; [subst; rewrite lookup_insert_eq, Ha|by rewrite lookup_insert_ne].
    destruct a as [n l]. cbn in *. by subst.
  - cbn. case_decide as Ed; [subst; by rewrite lookup_delete_eq|by rewrite lookup_delete_ne].
  - cbn. case_decide as Ed; [subst; by rewrite lookup_delete_eq|by rewrite lookup_delete_ne, lookup_insert_ne].
Qed.

(** A call that had the account's password or code tested, in vain. *)
Definition failed_guess (u : string) (c : Call) (op : AuthOp) (s : FileAuthService) : bool :=
  match op with
  | OpLogin v pw totp =>
      bool_decide (v = u) && negb (locked c v s) && match login_result c v pw totp s with Denied => true | _ => false end
  | _ => false
  end.

Definition signs_in (u : string) (c : Call) (op : AuthOp) (s : FileAuthService) : bool :=
  match op with
  | OpLogin v pw totp => bool_decide (v = u) && match login_result c v pw totp s with LoginOk _ => true | _ => false end
  | _ => false
  end.

(** Over calls served one after another. *)
Fixpoint failed_guesses (u : string) (calls : list (Call * AuthOp)) (s : FileAuthService) : nat :=
  match calls with
  | [] => 0
  | (c, op) :: calls => (if failed_guess u c op s then 1 else 0) + failed_guesses u calls (perform c op s)
  end.

Fixpoint never_signs_in (u : string) (calls : list (Call * AuthOp)) (s : FileAuthService) : bool :=
  match calls with
  | [] => true
  | (c, op) :: calls => negb (signs_in u c op s) && never_signs_in u calls (perform c op s)
  end.

(** How many more guesses the counter lets through before [until]. *)
Definition guess_budget (deadline : N) (a : option Attempts) : nat :=
  match a with
  | None => 5
  | Some (mkAttempts n None) => 5 - N.to_nat n
  | Some (mkAttempts _ (Some until)) => if (deadline <=? until)%N then 0 else 5
  end.

Lemma counter_after_ok c u a :
  (forall x, a = Some x -> attempts_ok x) -> (forall x, counter_after c u a = Some x -> attempts_ok x) /\
  (forall t0, (t0 <= settled c)%N -> (forall n w, a = Some (mkAttempts n (Some w)) -> (w < t0 + LOCKOUT)%N) ->
     1 + guess_budget (t0 + LOCKOUT) (counter_after c u a) <= guess_budget (t0 + LOCKOUT) a).
Proof.
  intros Ha. set (n := match a with Some (mkAttempts n None) => n | _ => 0%N end).
  assert (Hn : (n < 5)%N).
  { subst n. destruct a as [[n [w|]]|]; [lia| |lia]. destruct (Ha _ eq_refl) as [[_ H]|[[? [=]] _]]. exact H. }
  assert (Hw : u32_wrap (n + 1) = (n + 1)%N) by (apply N.mod_small; lia).
  unfold counter_after. fold n. rewrite Hw. unfold MAX_FAILS. split.
  - intros x [= <-]. destruct (N.leb_spec 5 (n + 1)).
    + right. cbn. split; [by eexists|unfold MAX_FAILS; lia].
    + left. cbn. split; [done|unfold MAX_FAILS; lia].
  - intros t0 Ht Hu. assert (Hb : guess_budget (t0 + LOCKOUT) a = 5 - N.to_nat n).
    { subst n. destruct a as [[n [w|]]|]; cbn; [|done..]. rewrite (proj2 (N.leb_gt _ _)); [done|by eapply Hu]. }
    rewrite Hb. destruct (N.leb_spec 5 (n + 1)); cbn; [|lia].
    rewrite (proj2 (N.leb_le _ _)); lia.
Qed.

Lemma reset_counter_ok a deadline :
  (forall n w, a = Some (mkAttempts n (Some w)) -> (w < deadline)%N) ->
  guess_budget deadline (reset_counter a) <= guess_budget deadline a /\
  ((forall x, a = Some x -> attempts_ok x) -> forall x, reset_counter a = Some x -> attempts_ok x).
Proof.
  intros Hu. split.
  - destruct a as [[n [w|]]|]; cbn; [|done..]. rewrite (proj2 (N.leb_gt _ _)); [lia|by eapply Hu].
  - intros Ha x. destruct a as [[n [w|]]|]; cbn; intros H; [|by apply Ha|done].
    injection H as <-. by left.
Qed.

(** An unlocked account's lock, if any, is over. *)
Lemma unlocked_expired c u s n w :
  locked c u s = false -> attempts s !! u = Some (mkAttempts n (Some w)) -> (w <= instant c)%N.
Proof.
  unfold locked, is_locked. intros Hl Ha. rewrite Ha in Hl. cbn in Hl.
  destruct (N.ltb_spec (instant c) w); [done|lia].
Qed.

Lemma perform_throttle c op s : throttle_ok s -> throttle_ok (perform c op s).
Proof.
  intros Hs v a. destruct op as [u pw totp| | | | | | | | | | | | | |];
    try (rewrite non_login_attempts by done; apply Hs).
  cbn [perform]. rewrite login_attempts. case_decide as Ed; [subst|apply Hs].
  destruct (locked c u s) eqn:El; [apply Hs|].
  destruct (login_result c u pw totp s); [done|..].
  - eapply (reset_counter_ok _ (instant c + 1)); [|apply Hs].
    intros n w H. pose proof (unlocked_expired c u s n w El H). lia.
  - eapply counter_after_ok, Hs.
Qed.

Lemma perform_budget u c op s t0 :
  throttle_ok s -> (t0 <= settled c)%N -> (instant c < t0 + LOCKOUT)%N -> signs_in u c op s = false ->
  (if failed_guess u c op s then 1 else 0) + guess_budget (t0 + LOCKOUT) (attempts (perform c op s) !! u) <=
  guess_budget (t0 + LOCKOUT) (attempts s !! u).
Proof.
  intros Hs Ht0 Ht1. destruct op as [v pw totp| | | | | | | | | | | | | |];
    try (rewrite non_login_attempts by done; cbn; lia).
  cbn [perform failed_guess signs_in]. rewrite login_attempts.
  destruct (decide (v = u)) as [->|Hne].
  2: { rewrite bool_decide_false by done. rewrite decide_False by done. cbn. lia. }
  rewrite bool_decide_true, decide_True by done. cbn [andb].
  destruct (locked c u s) eqn:El; [cbn; lia|]. cbn [negb andb].
  assert (Hw : forall n w, attempts s !! u = Some (mkAttempts n (Some w)) -> (w < t0 + LOCKOUT)%N).
  { intros n w H. pose proof (unlocked_expired c u s n w El H). lia. }
  destruct (login_result c u pw totp s); intros Hn; [done|..].
  - by apply reset_counter_ok.
  - apply counter_after_ok; [by apply Hs|done..].
Qed.

Lemma failed_guesses_budget u t0 calls : forall s,
  throttle_ok s ->
  Forall (fun '(c, _) => (t0 <= settled c)%N /\ (instant c < t0 + LOCKOUT)%N) calls ->
  never_signs_in u calls s = true ->
  failed_guesses u calls s <= guess_budget (t0 + LOCKOUT) (attempts s !! u).
Proof.
  induction calls as [|[c op] calls IH]; intros s Hs Hc Hn; cbn [failed_guesses]; [lia|].
  apply Forall_cons in Hc as [[Ht0 Ht1] Hc]. cbn [never_signs_in] in Hn.
  apply andb_true_iff in Hn as [Hn1%negb_true_iff Hn].
  pose proof (perform_budget u c op s t0 Hs Ht0 Ht1 Hn1).
  pose proof (IH (perform c op s) (perform_throttle c op s Hs) Hc Hn). lia.
Qed.

Lemma replay_throttle evs s s' : throttle_ok s -> replay evs s = Ok s' -> throttle_ok s'.
Proof.
  revert s. induction evs as [|e evs IH]; intros s Hs; cbn [replay]; [by intros [= <-]|].
  intros (s1 & He & Hr)%result_bind_ok. apply (IH s1); [|done].
  destruct e as [c op|c admin]; cbn [happen] in He.
  - injection He as <-. by apply perform_throttle.
  - apply boot_ok in He as (_ & Ha & _). unfold throttle_ok. rewrite Ha. apply map_Forall_empty.
Qed.

(** Five guesses a quarter of an hour. On a hub with any history, take any
    calls of any users within less than fifteen minutes, none of which signs
    the account [u] in: at most five of them had a password or a second-factor
    code of [u] tested and found wrong; every further attempt was refused
    unseen. And the throttle is all that stands between right credentials and
    a session: a login succeeds exactly when the account is not locked, the
    hash accepts the password and the code is right where one is enrolled. *)
Theorem lockout_bound evs c0 admin json sjson s0 s u t0 calls :
  boot c0 admin json sjson = Ok s0 -> replay evs s0 = Ok s ->
  Forall (fun '(c, _) => (t0 <= settled c)%N /\ (instant c < t0 + LOCKOUT)%N) calls ->
  never_signs_in u calls s = true ->
  failed_guesses u calls s <= N.to_nat MAX_FAILS /\
  (forall c pw totp tok, login_result c u pw totp s = LoginOk tok <->
     locked c u s = false /\ accepted c u pw totp s /\ tok = mint_token (random c)).
Proof.
  intros Hb Hr Hc Hn. split.
  - assert (Hs : throttle_ok s).
    { eapply replay_throttle; [|exact Hr]. apply boot_ok in Hb as (_ & Ha & _).
      unfold throttle_ok. rewrite Ha. apply map_Forall_empty. }
    etrans; [by eapply failed_guesses_budget|].
    unfold guess_budget, MAX_FAILS. repeat case_match; lia.
  - intros c pw totp tok. unfold login_result. destruct (login_ok c u pw totp s); cbn [snd]; naive_solver congruence.
Qed.

(** ** Durability *)

Definition stored_sessions (j : Stored (gmap string Session)) : gmap string Session :=
  match j with Holds m => m | _ => ∅ end.

(** The files hold what the service holds, as far as a reader at or after [now] can tell. *)
Record in_sync (now : N) (s : FileAuthService) : Prop := {
  sync_users : read_users (auth_json s) = Ok (mkFile (users s) (tokens s));
  sync_sessions : forall t, (now <= t)%N -> live_sessions t (stored_sessions (sessions_json s)) = live_sessions t (sessions s);
}.

Lemma live_sessions_later now t m :
  (now <= t)%N -> live_sessions t (live_sessions now m) = live_sessions t m.
Proof.
  intros H. unfold live_sessions. apply map_eq. intros k. apply option_eq. intros x.
  rewrite !map_lookup_filter_Some. split; [tauto|]. intros [? ?]. split; [split; [done|lia]|done].
Qed.

Lemma boot_in_sync c admin json sjson s : boot c admin json sjson = Ok s -> in_sync (unix c) s.
Proof.
  intros (Ej & _ & _ & Es & f & Hf & Hu & Ht & _)%boot_ok. split.
  - rewrite Hf, Hu, Ht. by destruct f.
  - intros t Hle. rewrite Ej, Es. destruct sjson as [| |m]; cbn; [done..|]. by rewrite live_sessions_later.
Qed.

Lemma in_sync_persisted now c s :
  wrote_users c = Written ->
  (forall t, (now <= t)%N -> live_sessions t (stored_sessions (sessions_json s)) = live_sessions t (sessions s)) ->
  in_sync now (fst (persisted c s)).
Proof. intros Hw Hs. unfold persisted, persist. rewrite Hw. by split. Qed.

Lemma in_sync_persist_sessions now c s :
  wrote_sessions c = Written -> read_users (auth_json s) = Ok (mkFile (users s) (tokens s)) ->
  in_sync now (persist_sessions (wrote_sessions c) s).
Proof. intros Hw Hs. unfold persist_sessions. rewrite Hw. by split. Qed.

Lemma in_sync_frame now s s' :
  users s' = users s -> tokens s' = tokens s -> sessions s' = sessions s ->
  auth_json s' = auth_json s -> sessions_json s' = sessions_json s -> in_sync now s -> in_sync now s'.
Proof. intros E1 E2 E3 E4 E5 [H1 H2]. split; [by rewrite E4, E1, E2|by rewrite E5, E3]. Qed.

Lemma filter_length_id {A} (p : A -> bool) (l : list A) :
  length (List.filter p l) = length l -> List.filter p l = l.
Proof.
  intros H. induction l as [|x l IH]; cbn in *; [done|]. pose proof (List.filter_length_le p l) as Hl.
  destruct (p x); cbn in *; [f_equal; apply IH; lia|lia].
Qed.

Lemma update_first_id {A} (p : A -> bool) f (l : list A) x :
  List.find p l = Some x -> f x = x -> update_first p f l = l.
Proof. intros (l1 & l2 & -> & ->)%(update_first_found p f) ->. done. Qed.

Lemma in_sync_perform now c op s :
  wrote_users c = Written -> wrote_sessions c = Written -> in_sync now s -> in_sync now (perform c op s).
Proof.
  intros Hwu Hws [Hu Hs].
  assert (Hp : forall s', sessions s' = sessions s -> sessions_json s' = sessions_json s -> in_sync now (fst (persisted c s'))).
  { intros s' E1 E2. apply in_sync_persisted; [done|]. by rewrite E1, E2. }
  destruct op as [u pw totp|t|t|t dev|lbl role owner|lbl|u pw role|u name email role|u pw|u|u pid|u pid|u|u code|u]; cbn [perform].
  - destruct (is_locked_frame (instant c) u s) as (E1 & E2 & E3 & E4 & E5).
    assert (Hf : in_sync now (fst (is_locked (instant c) u s))) by (by eapply in_sync_frame).
    destruct (login_ok c u pw totp s); cbn [fst]; [done| |done|].
    + by eapply in_sync_frame, Hf.
    + apply in_sync_persist_sessions; [done|]. by destruct Hf.
  - unfold user_for. repeat case_match; cbn [fst]; try done. by apply in_sync_persist_sessions.
  - unfold logout. case_match; [|done]. by apply in_sync_persist_sessions.
  - unfold attach_device. case_match; [|done]. by apply in_sync_persist_sessions.
  - unfold create_token_for, mint_api_token. case_match; [done|].
    match goal with |- context [persisted c ?x] => specialize (Hp x eq_refl eq_refl); by destruct (persisted c x) end.
  - unfold revoke_token. destruct (negb _) eqn:E; [by apply Hp|].
    apply negb_false_iff, Nat.eqb_eq in E. cbn in E. apply filter_length_id in E.
    eapply in_sync_frame; [| | | | |by split]; done.
  - unfold create_user. repeat case_match; try done. by apply Hp.
  - unfold update_user. repeat case_match; try done; by apply Hp.
  - unfold set_password. repeat case_match; try done; by apply Hp.
  - unfold delete_user. repeat case_match; try done; by apply Hp.
  - unfold assign_project. repeat case_match; try done; by apply Hp.
  - unfold unassign_project. destruct (find_user u s) as [a|] eqn:Ea; [|done].
    destruct (negb _) eqn:E; cbn [fst]; [by apply Hp|].
    apply negb_false_iff, Nat.eqb_eq, filter_length_id in E.
    eapply in_sync_frame; [| | | | |by split]; try done.
    apply (update_first_id _ _ _ a); [exact Ea|]. destruct a as [un h na em r ts ps]. cbn in E |- *.
    unfold without_project. by rewrite E.
  - unfold enroll_2fa. case_match; [done|]. cbn [fst]. eapply in_sync_frame; [| | | | |by split]; done.
  - unfold enable_2fa. repeat case_match; try done. by apply Hp.
  - unfold disable_2fa. destruct (find_user u s) as [a|] eqn:Ea.
    + destruct (bool_decide_reflect (is_Some (su_totp_secret a))) as [Hs'|Hs']; cbn [fst]; [by apply Hp|].
      eapply in_sync_frame; [| | | | |by split]; try done.
      apply (update_first_id _ _ _ a); [exact Ea|]. apply eq_None_not_Some in Hs'.
      destruct a as [un h na em r ts ps]. cbn in Hs' |- *. by rewrite Hs'.
    + eapply in_sync_frame; [| | | | |by split]; try done. cbn.
      by apply update_first_none.
Qed.

(** A relaunch signs nobody out. Take a hub that came up at some time and
    served any calls, none of whose file writes failed. At any later time the
    files open again; the service that comes up has the same accounts and API
    tokens, and from then on every session token and every bearer secret
    resolves to exactly the principal it did before the relaunch. *)
Theorem relaunch_invisible c0 admin json sjson s0 calls s now :
  boot c0 admin json sjson = Ok s0 ->
  Forall (fun '(c, _) => wrote_users c = Written /\ wrote_sessions c = Written) calls ->
  s = fold_left (fun s '(c, op) => perform c op s) calls s0 -> (unix c0 <= now)%N ->
  exists s', open now (auth_json s) (sessions_json s) = Ok s' /\
    users s' = users s /\ tokens s' = tokens s /\
    (forall c tok, (now <= unix c)%N -> snd (user_for c tok s') = snd (user_for c tok s)) /\
    (forall secret, principal_for_bearer secret s' = principal_for_bearer secret s).
Proof.
  intros Hb Hc -> Hn. assert (Hsync : in_sync (unix c0) (fold_left (fun s '(c, op) => perform c op s) calls s0)).
  { apply boot_in_sync in Hb. clear Hn. revert s0 Hb. induction Hc as [|[c op] calls [Hu Hs] _ IH]; intros s0 Hb; [done|].
    cbn [fold_left]. by apply IH, in_sync_perform. }
  revert Hsync. generalize (fold_left (fun s '(c, op) => perform c op s) calls s0). intros s [Hu Hs].
  unfold open. rewrite Hu. cbn [result_bind uf_users uf_tokens]. eexists. split; [done|]. cbn [users tokens].
  split_and!; [done..| |done]. intros c tok Hle.
  assert (Hl : live_sessions (unix c) (live_sessions now (stored_sessions (sessions_json s))) =
               live_sessions (unix c) (sessions s)) by (rewrite live_sessions_later, Hs by lia; done).
  assert (Hres : forall s1, users s1 = users s -> snd (user_for c tok s1) =
            (ss ← live_sessions (unix c) (sessions s1) !! tok; profile <$> find_user (au_username (ss_user ss)) s)).
  { intros s1 E. unfold user_for, live_sessions. rewrite map_lookup_filter.
    destruct (sessions s1 !! tok) as [ss|]; [|done]. cbn [mbind option_bind].
    destruct (N.leb_spec (ss_expires ss) (unix c)).
    - rewrite option_guard_False by lia. done.
    - rewrite option_guard_True by lia. cbn. unfold find_user. by rewrite E. }
  rewrite !Hres by done. cbn [sessions].
  assert (Hm : match sessions_json s with Holds m => live_sessions now m | _ => ∅ end =
               live_sessions now (stored_sessions (sessions_json s))) by by destruct (sessions_json s).
  by rewrite Hm, Hl.
Qed.
End Auth.

(** ** A concrete hub *)

Definition demo_argon (h pw : string) : bool := String.eqb h ("argon2:" +:+ pw).
Definition demo_sha (s : string) : list N := N_of_ascii <$> bytes s.
Definition demo_hmac (key msg : list N) : list N := repeat 0%N 20.

Definition demo_call (at_secs : N) (seed : N) (pw : string) : Call :=
  mkCall (at_secs * 1000000000) (at_secs * 1000000000 + 5) at_secs "now" [seed] (Ok ("argon2:" +:+ pw)) Written Written.

Definition demo_boot : result string FileAuthService :=
  boot (demo_call 1000 0 "root-pw") (Some "root") Unread Unread.

Definition demo_hub : FileAuthService :=
  match demo_boot with Ok s => s | Err _ => mkService [] [] ∅ ∅ ∅ Unread Unread end.

Definition demo_perform := perform demo_argon demo_sha demo_hmac.

Definition root_login : AuthEvent := Served (demo_call 2000 7 "") (OpLogin "root" "root-pw" None).

Lemma signed_in_means_authenticated_witness :
  profile <$> find_user "root" (demo_perform (demo_call 2000 7 "") (OpLogin "root" "root-pw" None) demo_hub) =
  Some (mkAuthUser "root" "" "" Super []).
Proof.
  exact (proj2 (signed_in_means_authenticated demo_argon demo_sha demo_hmac [root_login]
    (demo_call 1000 0 "root-pw") (Some "root") Unread demo_hub
    (demo_perform (demo_call 2000 7 "") (OpLogin "root" "root-pw" None) demo_hub)
    (demo_call 3000 1 "") (mint_token [7%N]) (mkAuthUser "root" "" "" Super [])
    ltac:(vm_compute; reflexivity) ltac:(vm_compute; reflexivity) ltac:(vm_compute; reflexivity))).
Defined.

Definition six_wrong : list (Call * AuthOp) :=
  (fun i => (demo_call (2000 + N.of_nat i) 1 "", OpLogin "root" "guess" None)) <$> seq 0 6.

Lemma lockout_bound_witness :
  failed_guesses demo_argon demo_sha demo_hmac "root" six_wrong demo_hub <= N.to_nat MAX_FAILS.
Proof.
  exact (proj1 (lockout_bound demo_argon demo_sha demo_hmac [] (demo_call 1000 0 "root-pw") (Some "root") Unread Unread
    demo_hub demo_hub "root" (2000 * 1000000000)%N six_wrong
    ltac:(vm_compute; reflexivity) ltac:(reflexivity)
    ltac:(cbv -[N.le N.lt]; repeat constructor; lia) ltac:(vm_compute; reflexivity))).
Defined.

(** Five of the six were tested. *)
Example five_of_six : failed_guesses demo_argon demo_sha demo_hmac "root" six_wrong demo_hub = 5.
Proof. vm_compute. reflexivity. Qed.

Lemma relaunch_invisible_witness :
  exists s', open 5000 (auth_json demo_hub) (sessions_json demo_hub) = Ok s' /\ users s' = users demo_hub.
Proof.
  destruct (relaunch_invisible demo_argon demo_sha demo_hmac (demo_call 1000 0 "root-pw") (Some "root") Unread Unread
    demo_hub [] demo_hub 5000) as (s' & H1 & H2 & _).
  - vm_compute. reflexivity.
  - constructor.
  - reflexivity.
  - vm_compute. discriminate.
  - exists s'. exact (conj H1 H2).
Defined.

Definition signed_in_hub : FileAuthService :=
  demo_perform (demo_call 2000 7 "") (OpLogin "root" "root-pw" None) demo_hub.

Lemma revocation_is_final_witness :
  is_Some (sessions signed_in_hub !! mint_token [7%N]) /\
  snd (user_for (demo_call 2100 0 "") (mint_token [7%N]) (logout (demo_call 2050 0 "") (mint_token [7%N]) signed_in_hub)) = None.
Proof.
  assert (H : is_Some (sessions signed_in_hub !! mint_token [7%N])) by (vm_compute; eexists; reflexivity).
  split; [exact H|].
  exact (proj1 (revocation_is_final demo_argon demo_sha demo_hmac signed_in_hub (demo_call 2050 0 "") []
    (logout (demo_call 2050 0 "") (mint_token [7%N]) signed_in_hub)) (mint_token [7%N]) H eq_refl eq_refl
    ltac:(intros c u pw totp Hin; inversion Hin) (demo_call 2100 0 "")).
Defined.

(** ** What the model shows *)

(** Deleting an account leaves its sessions: whoever gets the name next gets
    them too, with the new role. *)
Example session_outlives_account :
  let s1 := fold_left (fun s '(c, op) => demo_perform c op s)
    [(demo_call 10 1 "old", OpCreateUser "bob" "old" Viewer);
     (demo_call 20 2 "", OpLogin "bob" "old" None);
     (demo_call 30 3 "", OpDeleteUser "bob");
     (demo_call 40 4 "new", OpCreateUser "bob" "new" Admin)] demo_hub in
  snd (user_for (demo_call 50 5 "") (mint_token [2%N]) s1) = Some (mkAuthUser "bob" "" "" Admin []).
Proof. vm_compute. reflexivity. Qed.

(** The last administrator cannot be deleted, but can be demoted and then
    deleted; a hub without accounts comes up without authentication. *)
Example last_admin_demoted_then_deleted :
  let gone := demo_perform (demo_call 20 2 "") (OpDeleteUser "root")
                (demo_perform (demo_call 10 1 "") (OpUpdateUser "root" "" "" (Some Viewer)) demo_hub) in
  snd (delete_user (demo_call 20 2 "") "root" demo_hub) = false /\
  (has_users <$> result_ok (open 30 (auth_json gone) (sessions_json gone))) = Some false.
Proof. vm_compute. done. Qed.

(** Creating an account that exists replaces its password. *)
Example create_user_overwrites :
  su_hash <$> find_user "root" (demo_perform (demo_call 10 1 "random") (OpCreateUser "root" "random" Super) demo_hub) =
  Some "argon2:random".
Proof. vm_compute. reflexivity. Qed.

(** Any number of logins that have all asked before one of them failed get
    their password tested. *)
Lemma parallel_guesses (n : nat) now u s :
  attempts s !! u = None -> Forall (fun _ : nat => is_locked now u s = (s, false)) (seq 0 n).
Proof. intros H. apply Forall_true. intros _. unfold is_locked. by rewrite H. Qed.

(** ** Roles *)

(** Each name and each label of a role reads back as the role. *)
Lemma from_str_lenient_roundtrip r : from_str_lenient (as_str r) = r /\ from_str_lenient (label r) = r.
Proof. by destruct r. Qed.
