(* ===== verification/AccessGate.v ===== *)
(** * The front door of the hub: who may call which route

    The middleware [auth_mw] of presentation [server/auth.rs] with its path
    predicates, the principal resolution of [server/guards.rs], and the account
    and token endpoints of [server/auth.rs], [people.rs], [assets.rs] and
    [engines.rs], in front of [FileAuthService]. A header whose bytes are not
    text counts as absent. *)
From S2P Require Import Prelude RustStr Auth.

(** ** Who is calling *)

Definition SESSION_COOKIE : string := "cox_session".

Record Headers := mkHeaders { h_cookie : option string; h_authorization : option string }.

(** [raw.split(';').find_map(..)] *)
Fixpoint find_cookie (name : string) (pairs : list string) : option string :=
  match pairs with
  | [] => None
  | kv :: pairs =>
      match split_once "=" kv with
      | Some (k, v) => if bool_decide (trim k = name) then Some (trim v) else find_cookie name pairs
      | None => find_cookie name pairs
      end
  end.

Definition cookie_value (h : Headers) (name : string) : option string :=
  raw ← h_cookie h; find_cookie name (split_byte ";" raw).

Definition bearer_token (h : Headers) : option string :=
  raw ← h_authorization h; trim <$> strip_prefix "Bearer " raw.

(** ** Which surface *)

Inductive HubRole := All | Gateway | Realtime | Knowledge.

(** The value of [COXAGENT_ROLE], empty when unset. *)
Definition hub_role (env : string) : HubRole :=
  match env with "gateway" => Gateway | "realtime" => Realtime | "knowledge" => Knowledge | _ => All end.

Definition role_guard (hub : HubRole) (need_realtime : bool) : option N :=
  let ok := match hub with
            | All => true
            | Gateway => negb need_realtime
            | Realtime => need_realtime
            | Knowledge => false
            end in
  if ok then None else Some 503%N.

Definition realtime_path (path : string) : bool :=
  ends_with "/ws" path || ends_with "/events" path || ends_with "/river" path || ends_with "/terminal" path ||
  contains "/docs-ws" path.

Definition role_ok (hub : HubRole) (path : string) : bool :=
  match hub with
  | All => true
  | Gateway => negb (realtime_path path)
  | Realtime =>
      realtime_path path || String.eqb path "/api/health" || String.eqb path "/api/ready" ||
      String.eqb path "/api/auth/me" || String.eqb path "/"
  | Knowledge => String.eqb path "/api/health" || String.eqb path "/api/ready"
  end.

(** ** Which route *)

Inductive Method := GET | HEAD | OPTIONS | POST | PUT | DELETE | PATCH | OtherMethod (name : string).

Definition method_text (m : Method) : string :=
  match m with
  | GET => "GET" | HEAD => "HEAD" | OPTIONS => "OPTIONS" | POST => "POST" | PUT => "PUT"
  | DELETE => "DELETE" | PATCH => "PATCH" | OtherMethod name => name
  end.

Definition mutates (m : Method) : bool := match m with POST | PUT | DELETE | PATCH => true | _ => false end.

Definition is_public (path : string) : bool :=
  String.eqb path "/" || String.eqb path "/api/health" || String.eqb path "/api/ready" ||
  String.eqb path "/api/auth/oidc/login" || String.eqb path "/api/auth/oidc/callback" ||
  String.eqb path "/api/openapi.json" || String.eqb path "/api/auth/login" ||
  starts_with "/assets/" path || starts_with "/api/app/download/" path || starts_with "/api/chat/hook/" path ||
  starts_with "/join/" path || String.eqb path "/api/workspace/join" || starts_with "/s/" path.

Definition extract_pid_from_path (path : string) : option string :=
  split_first "/" <$> strip_prefix "/api/projects/" path.

Definition is_pr_review_path (path : string) : bool := contains "/prs/" path.

Definition is_service_mgmt_path (path : string) : bool :=
  match (rest ← strip_prefix "/api/projects/" path; split_once "/" rest) with
  | Some (pid, tail) =>
      negb (String.eqb pid "") && (String.eqb tail "services" || starts_with "services/" tail)
  | None => false
  end.

(** [s.strip_suffix(suffix)] *)
Fixpoint strip_suffix (suffix s : string) : option string :=
  if String.eqb s suffix then Some ""
  else match s with EmptyString => None | String a s => String a <$> strip_suffix suffix s end.

Definition is_store_rpc_path (path : string) : bool :=
  match (rest ← strip_prefix "/api/projects/" path; strip_suffix "/store" rest) with
  | Some pid => negb (String.eqb pid "") && negb (contains "/" pid)
  | None => false
  end.

(** [s.split_once(mark)] *)
Fixpoint split_mark (mark s : string) : option (string * string) :=
  match strip_prefix mark s with
  | Some rest => Some ("", rest)
  | None => match s with EmptyString => None | String a s => prod_map (String a) id <$> split_mark mark s end
  end.

Definition SHARE_MARK : string := "/share-links/".

Definition audit_safe_path (path : string) : string :=
  match split_mark SHARE_MARK path with
  | Some (head, token) =>
      if negb (String.eqb token "") && negb (contains "/" token) then head +:+ SHARE_MARK +:+ "<redacted>" else path
  | None => path
  end.

Definition write_gate_ok (role : AuthRole) (path : string) : bool :=
  if is_pr_review_path path then can_review role
  else if is_store_rpc_path path || String.eqb path "/api/pr-report" then can_manage role
  else if is_service_mgmt_path path then can_manage role
  else can_write role.

Definition is_write (m : Method) (path : string) : bool :=
  mutates m && negb (String.eqb path "/api/auth/logout") && negb (starts_with "/api/auth/2fa/" path) &&
  negb (starts_with "/api/auth/my/" path) && negb (starts_with "/api/meetings" path) &&
  negb (starts_with "/api/profile" path) && negb (ends_with "/chat" path) &&
  negb (String.eqb path "/api/chat/send") && negb (String.eqb path "/api/chat/dm") &&
  negb (starts_with "/api/engines/opencode" path) && negb (contains "/channels" path) &&
  negb (ends_with "/upload" path) && negb (String.eqb path "/api/mcp").

Definition is_manage_surface (m : Method) (path : string) : bool :=
  starts_with "/api/auth/users" path || starts_with "/api/auth/tokens" path ||
  (ends_with "/config" path && match m with PUT | POST | PATCH => true | _ => false end).

(** ** The gate *)

(** A refusal with what it writes to the audit log, or the handler's turn and
    what is logged after it (with the handler's own status). *)
Inductive Verdict :=
  | Deny (code : N) (reason : string) (logged : option (string * string))
  | Next (logged : option (string * string)).

Definition passes (v : Verdict) : bool := match v with Next _ => true | Deny _ _ _ => false end.

Definition is_super_or_admin (r : AuthRole) : bool := match r with Super | Admin => true | _ => false end.

Definition is_member (u : AuthUser) (pid : string) : bool :=
  is_super_or_admin (au_role u) || bool_decide (pid ∈ au_projects u).

(** The decision about a known caller. *)
Definition decide_gate (m : Method) (path : string) (u : AuthUser) : Verdict :=
  let entry := (au_username u, method_text m +:+ " " +:+ audit_safe_path path) in
  let refuse reason := Deny 403 reason (Some entry) in
  if is_manage_surface m path && negb (can_manage (au_role u)) then refuse "management role required"
  else if String.eqb path "/api/mcp" && negb (can_write (au_role u)) then refuse "insufficient role"
  else
    let outside := match extract_pid_from_path path with Some pid => negb (is_member u pid) | None => false end in
    if outside then refuse "not a member of this project"
    else if is_write m path && negb (write_gate_ok (au_role u) path) then refuse "insufficient role"
    else Next (if is_write m path then Some entry else None).

Section Gate.
Context (argon_verify : string -> string -> bool) (sha256 : string -> list N) (hmac : list N -> list N -> list N).

Definition resolve_principal (c : Call) (h : Headers) (s : FileAuthService) : FileAuthService * option AuthUser :=
  match (token ← bearer_token h; principal_for_bearer sha256 token s) with
  | Some u => (s, Some u)
  | None =>
      match cookie_value h SESSION_COOKIE with
      | Some token => user_for c token s
      | None => (s, None)
      end
  end.

(** [auth] is absent when the hub runs open. *)
Definition auth_mw (hub : HubRole) (c : Call) (m : Method) (path : string) (h : Headers)
    (auth : option FileAuthService) : option FileAuthService * Verdict :=
  if negb (role_ok hub path) then (auth, Deny 503 "wrong service role for this endpoint" None)
  else match auth with
  | None => (None, Next None)
  | Some s =>
      if is_public path then (Some s, Next None)
      else match resolve_principal c h s with
      | (s, None) => (Some s, Deny 401 "unauthenticated" None)
      | (s, Some u) => (Some s, decide_gate m path u)
      end
  end.

(** ** Account and token endpoints *)

Inductive Body := Plain (text : string) | Done | Issued (lbl token : string).

Definition Reply : Type := N * Body.

Definition with_auth (auth : option FileAuthService) (k : FileAuthService -> FileAuthService * Reply)
    : option FileAuthService * Reply :=
  match auth with
  | None => (None, (501%N, Plain "auth not configured"))
  | Some s => let '(s, r) := k s in (Some s, r)
  end.

Definition role_from_strict (s : option string) : result string AuthRole :=
  let raw := trim (default "" s) in
  let role := from_str_lenient raw in
  if bool_decide (role = Viewer) && negb (bool_decide (raw = "")) && negb (String.eqb (str_map ascii_lower raw) "viewer")
  then Err ("unknown role '" +:+ raw +:+ "' — valid: " +:+ join ", " (as_str <$> all_roles))
  else Ok role.

Definition done_or (s : FileAuthService) (ok : bool) (code : N) (why : string) : FileAuthService * Reply :=
  (s, if ok then (200%N, Done) else (code, Plain why)).

(** [at_ pid] is what the assignment to [pid] reads from its surroundings. *)
Definition create_user_ep (c c_profile : Call) (at_ : string -> Call) (h : Headers)
    (username password name email : string) (role : option string) (projects : list string)
    (auth : option FileAuthService) : option FileAuthService * Reply :=
  with_auth auth (fun s =>
    let '(s, who) := resolve_principal c h s in
    if negb (match who with Some u => can_manage (au_role u) | None => false end)
    then (s, (403%N, Plain "admin role required"))
    else if bool_decide (trim username = "") || bool_decide (password = "")
    then (s, (400%N, Plain "username and password required"))
    else match role_from_strict role with
    | Err e => (s, (400%N, Plain e))
    | Ok role =>
        let username := trim username in
        let '(s, ok) := create_user c username password role s in
        if negb ok then (s, (500%N, Plain "could not create user"))
        else
          let s := if negb (bool_decide (trim name = "")) || negb (bool_decide (trim email = ""))
                   then fst (update_user c_profile username (trim name) (trim email) None s) else s in
          let s := fold_left (fun s pid => fst (assign_project (at_ pid) username pid s)) projects s in
          (s, (200%N, Done))
    end).

Definition update_user_ep (c : Call) (username name email : string) (role : option string)
    (auth : option FileAuthService) : option FileAuthService * Reply :=
  with_auth auth (fun s =>
    match (match role with None => Ok None | Some r => result_map Some (role_from_strict (Some r)) end) with
    | Err e => (s, (400%N, Plain e))
    | Ok role =>
        let '(s, ok) := update_user c username (trim name) (trim email) role s in
        done_or s ok 404 "no such user"
    end).

Definition delete_user_ep (c : Call) (username : string) (auth : option FileAuthService)
    : option FileAuthService * Reply :=
  with_auth auth (fun s =>
    let '(s, ok) := delete_user c username s in
    done_or s ok 409 "cannot delete (unknown user or last admin)").

Definition reset_password_ep (c : Call) (username password : string) (auth : option FileAuthService)
    : option FileAuthService * Reply :=
  with_auth auth (fun s =>
    if String.length password <? 8 then (s, (400%N, Plain "password too short"))
    else let '(s, ok) := set_password c username password s in done_or s ok 404 "no such user").

Definition self_profile_ep (c c_password : Call) (h : Headers) (name email : string) (password : option string)
    (auth : option FileAuthService) : option FileAuthService * Reply :=
  with_auth auth (fun s =>
    match resolve_principal c h s with
    | (s, None) => (s, (401%N, Plain "sign in first"))
    | (s, Some u) =>
        let '(s, ok) := update_user c (au_username u) (trim name) (trim email) None s in
        if negb ok then (s, (404%N, Plain "no such user"))
        else match password with
        | None => (s, (200%N, Done))
        | Some pw =>
            if bool_decide (pw = "") then (s, (200%N, Done))
            else if String.length pw <? 8 then (s, (400%N, Plain "password too short (min 8)"))
            else let '(s, ok) := set_password c_password (au_username u) pw s in done_or s ok 404 "no such user"
        end
    end).

Definition create_token_ep (c : Call) (lbl : string) (role : option string) (auth : option FileAuthService)
    : option FileAuthService * Reply :=
  with_auth auth (fun s =>
    let lbl := trim lbl in
    if bool_decide (lbl = "") then (s, (400%N, Plain "label is required"))
    else match create_token sha256 c lbl (from_str_lenient (default "" role)) s with
    | (s, Some secret) => (s, (200%N, Issued lbl secret))
    | (s, None) => (s, (409%N, Plain "label already in use"))
    end).

Definition revoke_token_ep (c : Call) (lbl : string) (auth : option FileAuthService)
    : option FileAuthService * Reply :=
  with_auth auth (fun s => let '(s, ok) := revoke_token c lbl s in done_or s ok 404 "no such token").

Definition personal_token_prefix (username : string) : string :=
  "user:" +:+ str_map ascii_lower username +:+ ":".

Definition label_char (c : string) : bool :=
  match c with
  | String a EmptyString => is_ascii_alnum a || bool_decide (a ∈ ["-"; "_"; "."]%char)
  | _ => false
  end.

Definition short_label (lbl : string) : string := unchars (take 40 (List.filter label_char (chars (trim lbl)))).

Definition create_my_token_ep (c : Call) (h : Headers) (lbl : string) (auth : option FileAuthService)
    : option FileAuthService * Reply :=
  with_auth auth (fun s =>
    match resolve_principal c h s with
    | (s, None) => (s, (401%N, Plain "sign in first"))
    | (s, Some u) =>
        if bool_decide (short_label lbl = "") then (s, (400%N, Plain "label is required"))
        else
          let lbl := personal_token_prefix (au_username u) +:+ short_label lbl in
          match create_token_for sha256 c lbl (au_role u) (Some (au_username u)) s with
          | (s, Some secret) => (s, (200%N, Issued lbl secret))
          | (s, None) => (s, (409%N, Plain "label already in use"))
          end
    end).

Definition revoke_my_token_ep (c : Call) (h : Headers) (lbl : string) (auth : option FileAuthService)
    : option FileAuthService * Reply :=
  with_auth auth (fun s =>
    match resolve_principal c h s with
    | (s, None) => (s, (401%N, Plain "sign in first"))
    | (s, Some u) =>
        if negb (starts_with (personal_token_prefix (au_username u)) lbl) then (s, (403%N, Plain "not your token"))
        else let '(s, ok) := revoke_token c lbl s in done_or s ok 404 "no such token"
    end).

(** ** Project routes *)

Lemma auth_mw_decides hub c m path h s s' u :
  role_ok hub path = true -> is_public path = false -> resolve_principal c h s = (s', Some u) ->
  auth_mw hub c m path h (Some s) = (Some s', decide_gate m path u).
Proof. intros H1 H2 H3. unfold auth_mw. by rewrite H1, H2, H3. Qed.

Definition gate_passes (m : Method) (path : string) (u : AuthUser) : bool := passes (decide_gate m path u).

Lemma gate_passes_eq m path u :
  gate_passes m path u =
  negb (is_manage_surface m path && negb (can_manage (au_role u))) &&
  negb (String.eqb path "/api/mcp" && negb (can_write (au_role u))) &&
  (match extract_pid_from_path path with Some pid => is_member u pid | None => true end) &&
  (negb (is_write m path) || write_gate_ok (au_role u) path).
Proof.
  unfold gate_passes, decide_gate. destruct (is_manage_surface m path && _); [done|].
  destruct (String.eqb path "/api/mcp" && _); [done|]. cbn [negb andb].
  destruct (match extract_pid_from_path path with Some pid => negb (is_member u pid) | None => false end) eqn:E.
  - destruct (extract_pid_from_path path); [|done]. apply negb_true_iff in E. by rewrite E.
  - assert (match extract_pid_from_path path with Some pid => is_member u pid | None => true end = true) as ->.
    { destruct (extract_pid_from_path path); [|done]. by apply negb_false_iff in E. }
    destruct (is_write m path); cbn; [|done]. by destruct (write_gate_ok _ _).
Qed.
End Gate.

(** A project id that no path pattern of the gate mistakes for something else. *)
Record plain_pid (pid : string) : Prop := {
  pp_nonempty : pid <> "";
  pp_slash : byte_free "/" pid = true;
  pp_channels : starts_with "channels" pid = false;
  pp_prs : pid <> "prs";
}.

Definition project_path (pid tail : string) : string := "/api/projects/" +:+ pid +:+ String "/" tail.

Section ProjectPaths.
Context (pid : string) (Hp : plain_pid pid).

Lemma project_path_pid tail : extract_pid_from_path (project_path pid tail) = Some pid.
Proof.
  unfold extract_pid_from_path, project_path. rewrite (proj2 (strip_prefix_spec _ _ (pid +:+ String "/" tail)) eq_refl).
  cbn [fmap option_fmap option_map]. by rewrite split_first_free by apply Hp.
Qed.

Lemma project_path_private tail : is_public (project_path pid tail) = false.
Proof. done. Qed.

Lemma prefix_free_app w a t :
  byte_free "/" w = true -> String.prefix w (a +:+ String "/" t) = true -> String.prefix w a = true.
Proof.
  revert a. induction w as [|x w IH]; intros a Hw; [by destruct a|].
  apply andb_true_iff in Hw as [Hx Hw]. destruct a as [|y a]; unfold String.append; fold String.append; cbn [String.prefix].
  - destruct (ascii_dec x "/") as [->|]; [by rewrite Ascii.eqb_refl in Hx|done].
  - destruct (ascii_dec x y); [|done]. by apply IH.
Qed.

Lemma prefix_segment w a t :
  byte_free "/" w = true -> byte_free "/" a = true ->
  String.prefix (w +:+ "/") (a +:+ String "/" t) = true -> a = w.
Proof.
  revert a. induction w as [|x w IH]; intros a Hw Ha.
  - destruct a as [|y a]; [done|]. change (("" +:+ "/")) with "/". change (String y a +:+ String "/" t) with (String y (a +:+ String "/" t)).
    cbn [String.prefix]. destruct (ascii_dec "/" y) as [<-|]; [|done]. by cbn in Ha.
  - apply andb_true_iff in Hw as [Hx Hw]. destruct a as [|y a]; unfold String.append; fold String.append; cbn [String.prefix].
    + destruct (ascii_dec x "/") as [->|]; [by rewrite Ascii.eqb_refl in Hx|done].
    + apply andb_true_iff in Ha as [_ Ha]. change (String x w +:+ "/") with (String x (w +:+ "/")). cbn [String.prefix]. destruct (ascii_dec x y) as [->|]; [|done].
      intros H. by rewrite (IH a).
Qed.

Lemma project_path_channels tail :
  contains "/channels" (project_path pid tail) = contains "/channels" (String "/" tail).
Proof.
  destruct Hp as [_ Hs Hc _]. rewrite <- (contains_skip "/" "channels" pid (String "/" tail)) by done.
  unfold project_path. change (contains "/channels" ("/api/projects/" +:+ pid +:+ String "/" tail)) with
    (String.prefix "channels" (pid +:+ String "/" tail) || contains "/channels" (pid +:+ String "/" tail)).
  destruct (String.prefix "channels" _) eqn:E; [|done].
  apply prefix_free_app in E; [|done]. unfold starts_with in Hc. congruence.
Qed.

Lemma project_path_prs tail :
  is_pr_review_path (project_path pid tail) = contains "/prs/" (String "/" tail).
Proof.
  destruct Hp as [_ Hs _ Hc]. rewrite <- (contains_skip "/" "prs/" pid (String "/" tail)) by done.
  unfold is_pr_review_path, project_path. change (contains "/prs/" ("/api/projects/" +:+ pid +:+ String "/" tail)) with
    (String.prefix ("prs" +:+ "/") (pid +:+ String "/" tail) || contains "/prs/" (pid +:+ String "/" tail)).
  destruct (String.prefix _ _) eqn:E; [|done]. by apply prefix_segment in E.
Qed.

Lemma project_path_last tail : last_byte tail <> None -> last_byte (project_path pid tail) = last_byte tail.
Proof.
  intros H. unfold project_path. rewrite !last_byte_app. cbn [last_byte]. by destruct (last_byte tail).
Qed.

Lemma project_path_ends suf tail :
  last_byte suf <> None -> last_byte tail <> None -> last_byte tail <> last_byte suf ->
  ends_with suf (project_path pid tail) = false.
Proof. intros. apply ends_with_last; [done|]. by rewrite project_path_last. Qed.

Lemma strip_suffix_spec suf s q : strip_suffix suf s = Some q -> s = q +:+ suf.
Proof.
  revert q. induction s as [|x s IH]; intros q; cbn [strip_suffix].
  - destruct (String.eqb_spec "" suf) as [<-|_]; [by intros [= <-]|done].
  - destruct (String.eqb_spec (String x s) suf) as [<-|_]; [by intros [= <-]|].
    destruct (strip_suffix suf s) as [r|]; [|done]. intros [= <-]. by rewrite (IH r).
Qed.

Lemma strip_suffix_app suf q : strip_suffix suf (q +:+ suf) = Some q.
Proof.
  induction q as [|x q IH].
  - change ("" +:+ suf) with suf. destruct suf; cbn [strip_suffix]; by rewrite String.eqb_refl.
  - change (String x q +:+ suf) with (String x (q +:+ suf)). cbn [strip_suffix]. rewrite IH.
    destruct (String.eqb_spec (String x (q +:+ suf)) suf) as [E|_]; [|done].
    apply (f_equal String.length) in E. cbn in E. rewrite length_append in E. lia.
Qed.

Lemma contains_byte_free x q : contains (String x "") q = false -> byte_free x q = true.
Proof.
  induction q as [|y q IH]; [done|]. cbn [contains String.prefix]. intros [Hy Hq]%orb_false_iff.
  apply andb_true_iff. split; [|by apply IH].
  destruct (Ascii.eqb_spec y x) as [->|]; [|done]. destruct (ascii_dec x x); [|done]. by destruct q.
Qed.

Lemma project_path_store tail : is_store_rpc_path (project_path pid tail) = String.eqb tail "store".
Proof.
  destruct Hp as [Hn Hs _ _]. unfold is_store_rpc_path, project_path.
  rewrite (proj2 (strip_prefix_spec _ _ (pid +:+ String "/" tail)) eq_refl). cbn [mbind option_bind].
  destruct (String.eqb_spec tail "store") as [->|Ht].
  - change (String "/" "store") with "/store". rewrite strip_suffix_app. apply andb_true_iff. split.
    + apply negb_true_iff, String.eqb_neq. done.
    + apply negb_true_iff. rewrite <- (app_nil_r_str pid), (contains_skip "/" "" pid ""); done.
  - destruct (strip_suffix _ _) as [q|] eqn:E; [|done]. apply strip_suffix_spec in E.
    apply andb_false_iff. right. apply negb_false_iff, not_false_is_true. intros Hq%contains_byte_free.
    apply (f_equal (split_once "/")) in E. change "/store" with (String "/" "store") in E.
    rewrite !split_once_free in E by done. congruence.
Qed.

Lemma project_path_services tail :
  is_service_mgmt_path (project_path pid tail) = String.eqb tail "services" || starts_with "services/" tail.
Proof.
  destruct Hp as [Hn Hs _ _]. unfold is_service_mgmt_path, project_path.
  rewrite (proj2 (strip_prefix_spec _ _ (pid +:+ String "/" tail)) eq_refl). cbn [mbind option_bind].
  rewrite split_once_free by done. by rewrite (proj2 (String.eqb_neq pid "") Hn).
Qed.

Lemma project_path_is_write m tail :
  is_write m (project_path pid tail) =
  mutates m && negb (ends_with "/chat" (project_path pid tail)) && negb (contains "/channels" (String "/" tail)) &&
  negb (ends_with "/upload" (project_path pid tail)).
Proof.
  rewrite <- project_path_channels. unfold is_write, project_path, starts_with.
  generalize (pid +:+ String "/" tail). intros t. cbn -[ends_with contains mutates].
  by rewrite !andb_true_r.
Qed.

Lemma project_path_surface m tail :
  is_manage_surface m (project_path pid tail) =
  ends_with "/config" (project_path pid tail) && match m with PUT | POST | PATCH => true | _ => false end.
Proof. done. Qed.

Lemma gate_passes_project m tail u :
  gate_passes m (project_path pid tail) u =
  negb (is_manage_surface m (project_path pid tail) && negb (can_manage (au_role u))) && is_member u pid &&
  (negb (is_write m (project_path pid tail)) || write_gate_ok (au_role u) (project_path pid tail)).
Proof. rewrite gate_passes_eq, project_path_pid. by rewrite andb_true_r. Qed.
End ProjectPaths.

(** Each capability of the other gates includes the plain one to write. *)
Lemma capabilities r :
  (can_manage r = true -> can_write r = true /\ can_review r = true /\ can_approve_ready r = true /\
                          can_verify r = true /\ can_create_channel r = true) /\
  (can_review r || can_approve_ready r || can_verify r = true -> can_write r = true) /\
  (is_super r = true -> can_manage r = true).
Proof. by destruct r. Qed.

Definition PR_ACTIONS : list string := ["merge"; "request-changes"; "close"; "preview"; "preview-stop"; "force-merge"].

(** Routes under [services] that change a project's services. *)
Definition SERVICE_ROUTES : list string :=
  ["services"; "services/scan"; "services/assignments"].

(** Routes with no gate of their own. *)
Definition WRITE_ROUTES : list string :=
  ["tickets"; "tickets/archive"; "goals"; "sprint/close"; "burn-mode"; "merge-sweep"; "ticket-refine"; "sprint-queue"].

(** A tail none of the exemptions and none of the special gates matches. *)
Definition quiet_tail (tail : string) : bool :=
  match last_byte tail with
  | Some b => negb (bool_decide (b ∈ ["t"; "d"; "g"]%char))
  | None => false
  end && negb (contains "/channels" (String "/" tail)).

Lemma quiet_write m pid tail u :
  plain_pid pid -> quiet_tail tail = true -> mutates m = true ->
  gate_passes m (project_path pid tail) u = is_member u pid && write_gate_ok (au_role u) (project_path pid tail).
Proof.
  intros Hp Hq Hm. unfold quiet_tail in Hq. apply andb_true_iff in Hq as [Hl Hc].
  destruct (last_byte tail) as [b|] eqn:Eb; [|done]. apply negb_true_iff, bool_decide_eq_false in Hl.
  assert (He : forall suf x, last_byte suf = Some x -> x ∈ ["t"; "d"; "g"]%char -> ends_with suf (project_path pid tail) = false).
  { intros suf x Hx Hin. apply project_path_ends; rewrite ?Hx, ?Eb; congruence. }
  rewrite gate_passes_project, project_path_surface, project_path_is_write, Hm, Hc by done.
  rewrite (He "/config" "g"%char), (He "/chat" "t"%char), (He "/upload" "d"%char)
    by first [done|set_solver]. done.
Qed.

Lemma project_write_gate pid tail r :
  plain_pid pid ->
  write_gate_ok r (project_path pid tail) =
  if contains "/prs/" (String "/" tail) then can_review r
  else if is_store_rpc_path (project_path pid tail) then can_manage r
  else if String.eqb tail "services" || starts_with "services/" tail then can_manage r
  else can_write r.
Proof.
  intros Hp. unfold write_gate_ok. rewrite project_path_prs, project_path_services by done.
  assert (String.eqb (project_path pid tail) "/api/pr-report" = false) as -> by done. by rewrite orb_false_r.
Qed.

Lemma digits_slash num : all_bytes is_digit num = true -> byte_free "/" num = true.
Proof.
  induction num as [|a num IH]; [done|]. intros [Ha Hn]%andb_true_iff.
  apply andb_true_iff. split; [|by apply IH]. by destruct (Ascii.eqb_spec a "/") as [->|].
Qed.

Lemma pr_tail_quiet num action :
  all_bytes is_digit num = true -> action ∈ PR_ACTIONS -> quiet_tail ("prs/" +:+ num +:+ "/" +:+ action) = true.
Proof.
  intros Hd Ha. assert (Hc : contains "/channels" (String "/" ("prs/" +:+ num +:+ "/" +:+ action)) = false).
  { change (String.prefix "channels" (num +:+ String "/" action) || contains "/channels" (num +:+ String "/" action) = false).
    rewrite contains_skip by by apply digits_slash.
    destruct (String.prefix _ _) eqn:E.
    - apply prefix_free_app in E; [|done]. destruct num as [|a num]; [done|].
      cbn [String.prefix] in E. revert E. by destruct (ascii_dec "c" a) as [<-|].
    - by repeat (apply elem_of_cons in Ha as [->|Ha]); [..|apply elem_of_nil in Ha]. }
  unfold quiet_tail. rewrite Hc, !last_byte_app.
  by repeat (apply elem_of_cons in Ha as [->|Ha]); [..|apply elem_of_nil in Ha].
Qed.


Lemma strip_prefix_is_prefix p s : strip_prefix p s <> None -> String.prefix p s = true.
Proof.
  revert s. induction p as [|x p IH]; intros [|y s]; cbn; [done..|].
  destruct (bool_decide_reflect (x = y)) as [->|]; [|done]. destruct (ascii_dec y y); [apply IH|done].
Qed.

Lemma split_mark_skip mark a s :
  byte_free "/" a = true -> split_mark (String "/" mark) (a +:+ s) = prod_map (String.append a) id <$> split_mark (String "/" mark) s.
Proof.
  induction a as [|x a IH].
  - intros _. change ("" +:+ s) with s. by destruct (split_mark _ s) as [[h t]|].
  - intros [Hx Ha]%andb_true_iff. change (String x a +:+ s) with (String x (a +:+ s)). cbn [split_mark strip_prefix].
    rewrite bool_decide_false; [|intros <-; by rewrite Ascii.eqb_refl in Hx].
    rewrite IH by done. by destruct (split_mark _ s) as [[h t]|].
Qed.

Lemma split_mark_here mark t : split_mark mark (mark +:+ t) = Some ("", t).
Proof.
  pose proof (proj2 (strip_prefix_spec mark (mark +:+ t) t) eq_refl) as H.
  destruct (mark +:+ t); cbn [split_mark]; by rewrite H.
Qed.

Lemma share_path_masked pid token :
  byte_free "/" pid = true -> byte_free "/" token = true -> pid <> "share-links" -> token <> "" ->
  audit_safe_path (project_path pid ("share-links/" +:+ token)) = project_path pid "share-links/<redacted>".
Proof.
  intros Hp Ht Hn Hne.
  assert (E : split_mark SHARE_MARK (project_path pid ("share-links/" +:+ token)) = Some ("/api/projects/" +:+ pid, token)).
  { assert (E1 : split_mark SHARE_MARK (pid +:+ SHARE_MARK +:+ token) = Some (pid, token)).
    { unfold SHARE_MARK. rewrite split_mark_skip, split_mark_here by done.
      cbn [fmap option_fmap option_map prod_map fst snd]. by rewrite app_nil_r_str. }
    set (r := pid +:+ SHARE_MARK +:+ token) in *.
    assert (Hstep : forall x, strip_prefix SHARE_MARK (String "/" x) = None ->
              split_mark SHARE_MARK (String "/" x) = prod_map (String "/") id <$> split_mark SHARE_MARK x).
    { intros x Hx. cbn [split_mark]. by rewrite Hx. }
    assert (E2 : split_mark SHARE_MARK (String "/" r) = Some (String "/" pid, token)).
    { rewrite Hstep, E1; [done|]. destruct (strip_prefix _ _) as [q|] eqn:Er; [|done]. exfalso. apply Hn.
      apply (prefix_segment "share-links" pid ("share-links/" +:+ token)); [done..|].
      apply (strip_prefix_is_prefix "share-links/"). change (strip_prefix SHARE_MARK (String "/" r)) with (strip_prefix "share-links/" r) in Er.
      fold r. change (pid +:+ String "/" ("share-links/" +:+ token)) with r. by rewrite Er. }
    change (project_path pid ("share-links/" +:+ token)) with (String "/" ("api" +:+ String "/" ("projects" +:+ String "/" r))).
    unfold SHARE_MARK in *. rewrite Hstep, split_mark_skip, Hstep, split_mark_skip, E2 by done. done. }
  unfold audit_safe_path. rewrite E.
  rewrite (proj2 (String.eqb_neq token "")) by done.
  rewrite <- (app_nil_r_str token) at 1. rewrite (contains_skip "/" "" token "") by done.
  cbn [negb andb contains String.prefix]. unfold project_path, SHARE_MARK. by rewrite app_assoc_str.
Qed.

(** No share token reaches the audit log. Revoking a share link of a
    project not itself called "share-links" is logged with the token masked,
    whether the revocation is refused or carried out and whoever asks, and two
    requests that differ in the token only leave the same line; a path that
    does not name a share link is logged as it is. *)
Theorem share_token_masked pid token m u :
  byte_free "/" pid = true -> byte_free "/" token = true -> pid <> "share-links" -> token <> "" ->
  match decide_gate m (project_path pid ("share-links/" +:+ token)) u with
  | Next logged | Deny _ _ logged =>
      forall line, logged = Some line ->
        line = (au_username u, method_text m +:+ " /api/projects/" +:+ pid +:+ "/share-links/<redacted>")
  end /\
  (forall path, contains SHARE_MARK path = false -> audit_safe_path path = path).
Proof.
  intros Hp Ht Hn Hne. split.
  - assert (El : method_text m +:+ " /api/projects/" +:+ pid +:+ "/share-links/<redacted>" =
                 method_text m +:+ " " +:+ audit_safe_path (project_path pid ("share-links/" +:+ token)))
      by by rewrite share_path_masked.
    unfold decide_gate. rewrite El. repeat case_match; naive_solver.
  - intros path Hc. unfold audit_safe_path. assert (split_mark SHARE_MARK path = None) as ->; [|done].
    revert Hc. induction path as [|a path IH]; cbn [contains split_mark]; intros [H1 H2]%orb_false_iff.
    + done.
    + destruct (strip_prefix SHARE_MARK (String a path)) eqn:E.
      * rewrite strip_prefix_is_prefix in H1; [done|by rewrite E].
      * by rewrite IH.
Qed.

(** ** A concrete hub *)

Definition bob_cookie : Headers := mkHeaders (Some ("theme=dark; cox_session=" +:+ mint_token [2%N])) None.

(** [demo_hub] with a member of the project cxa, signed in. *)
Definition member_hub (username : string) (role : AuthRole) (pid : string) : FileAuthService :=
  fold_left (fun s '(c, op) => demo_perform c op s)
    [(demo_call 10 1 "pw", OpCreateUser username "pw" role);
     (demo_call 20 1 "", OpAssignProject username pid);
     (demo_call 30 2 "", OpLogin username "pw" None)] demo_hub.


Lemma share_token_masked_witness :
  audit_safe_path "/api/projects/cxa/tickets" = "/api/projects/cxa/tickets".
Proof.
  exact (proj2 (share_token_masked "cxa" "tok123" DELETE (mkAuthUser "bob" "" "" Fe ["cxa"]) eq_refl eq_refl
    ltac:(discriminate) ltac:(discriminate)) "/api/projects/cxa/tickets" eq_refl).
Defined.

(** ** What the model shows *)

(** In a project whose id starts with "channels" no request counts as a write:
    a read-only member merges pull requests, unlogged. *)
Example channels_project_ungated :
  can_write Viewer = false /\
  decide_gate POST (project_path "channels" "prs/7/merge") (mkAuthUser "eve" "" "" Viewer ["channels"]) = Next None /\
  decide_gate POST (project_path "channels" "store") (mkAuthUser "eve" "" "" Viewer ["channels"]) = Next None.
Proof. done. Qed.

(** So does a service of that name in any project. *)
Example channels_service_ungated :
  decide_gate POST (project_path "cxa" "services/channels-api/status") (mkAuthUser "eve" "" "" Viewer ["cxa"]) = Next None.
Proof. done. Qed.

(** A project called "prs" asks for review rights where management rights are due. *)
Example prs_project_store :
  can_manage Fe = false /\
  gate_passes POST (project_path "prs" "store") (mkAuthUser "dev" "" "" Fe ["prs"]) = true.
Proof. done. Qed.

(** A project called "share-links" logs its share tokens. *)
Example share_links_project_leaks :
  audit_safe_path (project_path "share-links" "share-links/tok123") = project_path "share-links" "share-links/tok123".
Proof. done. Qed.

(** A lead makes themselves the owner of the hub. *)
Example lead_becomes_super :
  let hub := member_hub "lead" TechLead "cxa" in
  passes (snd (auth_mw demo_sha All (demo_call 40 0 "") PATCH "/api/auth/users/lead" bob_cookie (Some hub))) = true /\
  (s ← fst (update_user_ep (demo_call 50 0 "") "lead" "" "" (Some "super") (Some hub)); su_role <$> find_user "lead" s) =
  Some Super.
Proof. vm_compute. done. Qed.

(** The personal token of an administrator outlives the account: it still
    reaches every project. *)
Example deleted_admin_token_reaches_all :
  let hub := member_hub "ada" Admin "cxa" in
  let minted := fst (create_my_token_ep demo_sha (demo_call 40 9 "") bob_cookie "laptop" (Some hub)) in
  let gone := s ← minted; fst (delete_user_ep (demo_call 50 0 "") "ada" (Some s)) in
  let bearer := mkHeaders None (Some ("Bearer " +:+ mint_token [9%N])) in
  (s ← gone; find_user "ada" s) = None /\
  passes (snd (auth_mw demo_sha All (demo_call 60 0 "") POST (project_path "other" "store") bearer gone)) = true.
Proof. vm_compute. done. Qed.

(** Two accounts whose names differ in case share the prefix of their personal
    tokens, and either revokes the other's. *)
Example other_accounts_token_revoked :
  let hub := member_hub "Bob" Fe "cxa" in
  let hub := demo_perform (demo_call 35 9 "") (OpCreateToken "user:bob:laptop" Fe (Some "bob")) hub in
  snd (revoke_my_token_ep demo_sha (demo_call 40 0 "") bob_cookie "user:bob:laptop" (Some hub)) = (200%N, Done).
Proof. vm_compute. done. Qed.

(** A service token below the admin tier reaches no project at all. *)
Example service_token_reaches_nothing :
  gate_passes GET (project_path "cxa" "state") (mkAuthUser "svc:runner" "" "" TechLead []) = false.
Proof. done. Qed.
