(* ===== verification/Titles.v ===== *)
(** * Ticket titles: normalisation and duplicates

    The title part of [parsing.rs]: the normal form of a title, its content
    words, the similarity of two titles and [duplicates_existing], the one
    predicate the creation path of tickets, the analyst and the duplicate radar
    share. Only ASCII letters and digits survive normalisation, so the functions
    are exact on the bytes of any text; the similarity is IEEE arithmetic on
    [f64]. *)
From S2P Require Import Prelude RustStr Kinds TestCase Ticket State.
From Stdlib Require Import SpecFloat.

(** ** Normal forms *)

(** The loop of [normalize_title]: [started] is [!out.is_empty()]. *)
Fixpoint norm_loop (s : string) (started prev_space : bool) : string :=
  match s with
  | EmptyString => ""
  | String a s' =>
      if is_ascii_alnum a then String (ascii_lower a) (norm_loop s' true false)
      else if negb prev_space && started then String " " (norm_loop s' true true)
      else norm_loop s' started prev_space
  end.

Definition normalize_title (title : string) : string := trim (norm_loop title false false).

Definition STOP : list string :=
  ["the"; "and"; "for"; "with"; "a"; "an"; "of"; "to"; "in"; "on"; "per"; "via"; "your"; "our"; "support";
   "feature"; "add"; "enable"].

Definition is_content (w : string) : bool := (2 <? String.length w) && negb (one_of w STOP).

Definition title_tokens (title : string) : gset string :=
  list_to_set (List.filter is_content (split_byte " " (normalize_title title))).

(** ** Similarity *)

Definition f64_of_nat (n : nat) : f64 := binary_normalize 53 1024 (Z.of_nat n) 0 false.
Definition f64_div : f64 -> f64 -> f64 := SFdiv 53 1024.
Definition f64_leb : f64 -> f64 -> bool := SFleb.

(** [0.6], the nearest [f64]. *)
Definition DUPLICATE_JACCARD_THRESHOLD : f64 := S754_finite false 5404319552844595 (-53).

Definition jaccard (a b : gset string) : f64 :=
  if bool_decide (a = ∅) || bool_decide (b = ∅) then f64_zero
  else
    let inter := size (a ∩ b) in
    let union := size (a ∪ b) in
    if union =? 0 then f64_zero else f64_div (f64_of_nat inter) (f64_of_nat union).

Definition is_backlog_meta (title : string) : bool :=
  let t := normalize_title title in
  existsb (fun k => contains k t) ["triage"; "burndown"; "burn down"; "stabiliz"; "grooming"] &&
  existsb (fun k => contains k t) ["bug"; "backlog"; "sprint"].

(** The two titles name the same work. *)
Definition same_theme (title e : string) : bool :=
  bool_decide (normalize_title e = normalize_title title) ||
  (is_backlog_meta title && is_backlog_meta e) ||
  f64_leb DUPLICATE_JACCARD_THRESHOLD (jaccard (title_tokens title) (title_tokens e)).

Definition duplicates_existing (title : string) (existing : list string) : bool :=
  if bool_decide (normalize_title title = "") then true else existsb (same_theme title) existing.

(** ** Lemmas: the normal form is the words *)

Definition flush (cur : string) : list string := if bool_decide (cur = "") then [] else [cur].

(** The runs of ASCII letters and digits of a text, in lower case. *)
Fixpoint words_from (s cur : string) : list string :=
  match s with
  | EmptyString => flush cur
  | String a s' =>
      if is_ascii_alnum a then words_from s' (cur +:+ String (ascii_lower a) "")
      else flush cur ++ words_from s' ""
  end.

Definition words (s : string) : list string := words_from s "".

Definition word_byte (a : ascii) : bool := is_ascii_alnum a && bool_decide (ascii_lower a = a).

Definition is_word (w : string) : Prop := w <> "" /\ all_bytes word_byte w = true.

Lemma word_byte_lower a : is_ascii_alnum a = true -> word_byte (ascii_lower a) = true.
Proof. destruct a as [[] [] [] [] [] [] [] []]; done. Qed.

Lemma word_byte_plain a : word_byte a = true -> plain a = true /\ is_ascii_alnum a = true /\ ascii_lower a = a.
Proof.
  unfold word_byte. intros [Ha Hl%bool_decide_eq_true]%andb_prop. split; [|done].
  revert Ha. clear Hl. destruct a as [[] [] [] [] [] [] [] []]; done.
Qed.

Lemma words_from_ok s : forall cur,
  all_bytes word_byte cur = true -> Forall is_word (words_from s cur).
Proof.
  assert (Hflush : forall cur, all_bytes word_byte cur = true -> Forall is_word (flush cur)).
  { intros cur Hc. unfold flush. case_bool_decide; [constructor|]. by constructor. }
  induction s as [|a s IH]; intros cur Hc; cbn; [by apply Hflush|].
  destruct (is_ascii_alnum a) eqn:Ea.
  - apply IH. rewrite all_bytes_app, Hc. cbn. by rewrite word_byte_lower.
  - apply Forall_app. split; [by apply Hflush|by apply IH].
Qed.

Lemma words_ok s : Forall is_word (words s).
Proof. by apply words_from_ok. Qed.

Lemma join_cons w ws : ws <> [] -> join " " (w :: ws) = w +:+ " " +:+ join " " ws.
Proof. by destruct ws. Qed.

Lemma flush_some cur : cur <> "" -> flush cur = [cur].
Proof. intros H. unfold flush. by rewrite bool_decide_false. Qed.

Lemma norm_loop_words s :
  (forall cur, cur <> "" -> exists e, (e = "" \/ e = " ") /\ cur +:+ norm_loop s true false = join " " (words_from s cur) +:+ e) /\
  (exists e, (e = "" \/ e = " ") /\ (words s = [] -> e = "") /\ norm_loop s true true = join " " (words s) +:+ e).
Proof.
  induction s as [|a s [IH1 IH2]].
  - split.
    + intros cur Hc. exists "". split; [by left|]. unfold words_from. by rewrite flush_some.
    + exists "". split_and!; [by left|done|done].
  - unfold words in *. cbn [norm_loop words_from]. destruct (is_ascii_alnum a).
    + assert (Hstep : forall cur, cur +:+ String (ascii_lower a) (norm_loop s true false)
                      = (cur +:+ String (ascii_lower a) "") +:+ norm_loop s true false).
      { intros cur. by rewrite app_assoc_str. }
      split.
      * intros cur Hc. rewrite Hstep. apply IH1. by destruct cur.
      * destruct (IH1 (String (ascii_lower a) "")) as (e & He & Heq); [done|]. exists e. split_and!; [done| |exact Heq].
        intros Hnil. exfalso. revert Hnil. clear. cbn.
        assert (Hne : forall cur, cur <> "" -> words_from s cur <> []).
        { induction s as [|b s IH]; intros cur Hc; cbn; [by rewrite flush_some|]. destruct (is_ascii_alnum b).
          - apply IH. by destruct cur.
          - by rewrite flush_some. }
        by apply Hne.
    + cbn [negb andb]. destruct IH2 as (e & He & Hnil & Heq). split.
      * intros cur Hc. rewrite (flush_some cur) by done. cbn [app]. rewrite Heq.
        destruct (decide (words_from s "" = [])) as [Hw|Hw].
        -- exists " ". split; [by right|]. by rewrite Hnil, Hw.
        -- exists e. split; [done|]. rewrite join_cons by done. by rewrite !app_assoc_str.
      * cbn [flush bool_decide app]. by exists e.
Qed.

Lemma norm_loop_start s : norm_loop s false false = norm_loop s true true.
Proof. induction s as [|a s IH]; cbn; [done|]. destruct (is_ascii_alnum a); [done|exact IH]. Qed.

Lemma word_ends w : is_word w ->
  exists a l b l', bytes w = a :: l /\ bytes w = l' ++ [b] /\ plain a = true /\ plain b = true.
Proof.
  intros [Hne Hw%all_bytes_Forall]. destruct (bytes w) as [|a l] eqn:E; [by destruct w|].
  destruct (exists_last (l := a :: l)) as (l' & b & Hl); [done|]. exists a, l, b, l'.
  split_and!; [done|by rewrite Hl| |].
  - apply Forall_cons in Hw as [Ha _]. by apply word_byte_plain in Ha as [? _].
  - rewrite Hl in Hw. apply Forall_app in Hw as [_ [Hb _]%Forall_cons]. by apply word_byte_plain in Hb as [? _].
Qed.

Lemma join_words_ends ws : ws <> [] -> Forall is_word ws ->
  exists a l b l', bytes (join " " ws) = a :: l /\ bytes (join " " ws) = l' ++ [b] /\ plain a = true /\ plain b = true.
Proof.
  induction ws as [|w ws IH]; [done|]. intros _ [Hw Hws]%Forall_cons.
  destruct (word_ends w Hw) as (a & l & b & l' & Ha & Hb & Hpa & Hpb).
  destruct (decide (ws = [])) as [->|Hne]; [by exists a, l, b, l'|].
  destruct (IH Hne Hws) as (_ & _ & d & r & _ & Hd & _ & Hpd). rewrite join_cons by done.
  rewrite !bytes_app, Ha, Hd. exists a, (l ++ bytes " " ++ r ++ [d]), d, (a :: l ++ bytes " " ++ r).
  split_and!; [done| |done|done]. cbn. by rewrite <- app_assoc.
Qed.

Lemma join_words_ascii ws : Forall is_word ws -> Forall (fun a => is_cont a = false) (bytes (join " " ws)).
Proof.
  induction ws as [|w ws IH]; [constructor|]. intros [[_ Hw%all_bytes_Forall] Hws]%Forall_cons.
  assert (Hc : Forall (fun a => is_cont a = false) (bytes w)).
  { eapply Forall_impl; [exact Hw|]. intros a [Ha _]%word_byte_plain. by apply andb_prop in Ha as [?%negb_true_iff _]. }
  destruct (decide (ws = [])) as [->|Hne]; [done|]. rewrite join_cons, !bytes_app by done.
  apply Forall_app. split; [done|]. apply Forall_app. split; [by repeat constructor|by apply IH].
Qed.

(** [normalize_title] is the words of the title, one space apart. *)
Lemma normalize_title_words s : normalize_title s = join " " (words s).
Proof.
  unfold normalize_title. rewrite norm_loop_start.
  destruct (norm_loop_words s) as [_ (e & He & Hnil & ->)]. pose proof (words_ok s) as Hok.
  destruct (decide (words s = [])) as [Hw|Hw]; [by rewrite Hnil, Hw|].
  destruct (join_words_ends _ Hw Hok) as (a & l & b & l' & Ha & Hb & Hpa & Hpb).
  eapply trim_inner; try done. by apply join_words_ascii.
Qed.

Lemma words_from_app w : forall rest cur, all_bytes word_byte w = true ->
  words_from (w +:+ rest) cur = words_from rest (cur +:+ w).
Proof.
  induction w as [|a w IH]; intros rest cur Hw; [by rewrite app_nil_r_str|].
  cbn in Hw. apply andb_prop in Hw as [Ha Hw]. apply word_byte_plain in Ha as (_ & Ha & Hl).
  change (words_from (String a (w +:+ rest)) cur = words_from rest (cur +:+ String a w)).
  cbn [words_from]. rewrite Ha, Hl, IH by done. f_equal. by rewrite app_assoc_str.
Qed.

(** The words of a normal form are the words it was made of. *)
Lemma words_join ws : Forall is_word ws -> words (join " " ws) = ws.
Proof.
  unfold words. induction ws as [|w ws IH]; [done|]. intros [[Hne Hw] Hws]%Forall_cons.
  destruct (decide (ws = [])) as [->|Hn].
  - cbn [join]. rewrite <- (app_nil_r_str w) at 1. rewrite words_from_app by done. cbn. by apply flush_some.
  - rewrite join_cons, words_from_app by done.
    change (flush ("" +:+ w) ++ words_from (join " " ws) "" = w :: ws). rewrite flush_some by done.
    cbn [app]. f_equal. by apply IH.
Qed.

Lemma normalize_title_eq s s' : normalize_title s = normalize_title s' <-> words s = words s'.
Proof.
  rewrite !normalize_title_words. split; [|by intros ->]. intros H%(f_equal words).
  by rewrite !words_join in H by apply words_ok.
Qed.

Lemma normalize_title_nil s : normalize_title s = "" <-> words s = [].
Proof. change "" with (normalize_title ""). apply normalize_title_eq. Qed.

(** A text of white space has no words. *)
Lemma words_nonblank s : words s <> [] -> blank s = false.
Proof.
  intros Hw. apply blank_false. intros Ht. apply Hw. clear Hw.
  assert (Hall : Forall (fun c => is_whitespace c = true) (chars s)).
  { unfold trim in Ht. apply unchars_nil in Ht; [|by apply well_chars_trim].
    assert (Hend : forall l, drop_while_end is_whitespace l = [] -> Forall (fun c => is_whitespace c = true) l).
    { intros l. induction l as [|c l IH] using rev_ind; [constructor|]. rewrite drop_while_end_snoc.
      destruct (is_whitespace c) eqn:E; [|by destruct l]. intros H. apply Forall_app. split; [by apply IH|].
      by apply Forall_singleton. }
    apply Hend in Ht. revert Ht. generalize (chars s). intros l. induction l as [|c l IH]; cbn; [done|].
    destruct (is_whitespace c) eqn:E; [intros H; constructor; auto|done]. }
  rewrite <- (unchars_chars s). revert Hall. generalize (chars s). intros cs. clear Ht s.
  assert (Hws : forallb (fun c => all_bytes (fun a => negb (is_ascii_alnum a)) c) whitespace_chars = true) by by vm_compute.
  rewrite forallb_forall in Hws.
  assert (Hskip : forall c rest, all_bytes (fun a => negb (is_ascii_alnum a)) c = true ->
                    words_from (c +:+ rest) "" = words_from rest "").
  { induction c as [|a c IH]; intros rest; [done|].
    change (String a c +:+ rest) with (String a (c +:+ rest)). cbn [all_bytes words_from].
    intros [Ha%negb_true_iff Hc]%andb_prop. rewrite Ha. by apply IH. }
  induction cs as [|c cs IH]; [done|]. intros [Hc Hcs]%Forall_cons. unfold words. cbn [unchars foldr].
  assert (Hin : In c whitespace_chars) by (by apply list_elem_of_In; apply bool_decide_eq_true in Hc).
  apply Hws in Hin. rewrite Hskip by done. by apply IH.
Qed.

(** *** Content words *)

Lemma split_byte_word sep w rest :
  Forall (fun a => a <> sep) (bytes w) ->
  split_byte sep (w +:+ String sep rest) = w :: split_byte sep rest /\ split_byte sep w = [w].
Proof.
  unfold bytes. induction w as [|a w IH].
  - intros _. cbn [split_byte String.append]. split; [|done].
    change (split_byte sep (String sep rest) = "" :: split_byte sep rest). cbn [split_byte]. by rewrite bool_decide_true.
  - change (String a w +:+ String sep rest) with (String a (w +:+ String sep rest)).
    cbn [split_byte String.list_ascii_of_string]. intros [Ha Hw]%Forall_cons. rewrite bool_decide_false by done. by destruct (IH Hw) as [-> ->].
Qed.

Lemma split_join_words ws : ws <> [] -> Forall is_word ws -> split_byte " " (join " " ws) = ws.
Proof.
  induction ws as [|w ws IH]; [done|]. intros _ [[_ Hw%all_bytes_Forall] Hws]%Forall_cons.
  assert (Hns : Forall (fun a => a <> " "%char) (bytes w)).
  { eapply Forall_impl; [exact Hw|]. by intros a Ha ->. }
  destruct (decide (ws = [])) as [->|Hne]; [by apply split_byte_word|].
  rewrite join_cons by done. change (" " +:+ join " " ws) with (String " " (join " " ws)).
  rewrite (proj1 (split_byte_word _ _ _ Hns)). f_equal. by apply IH.
Qed.

Lemma title_tokens_words s : title_tokens s = list_to_set (List.filter is_content (words s)).
Proof.
  unfold title_tokens. rewrite normalize_title_words. destruct (decide (words s = [])) as [->|Hne]; [done|].
  by rewrite split_join_words by (done || apply words_ok).
Qed.

(** *** The threshold *)

(** Up to this many words, the comparison of quotients is the comparison of
    integers: checked on every pair. *)
Definition max_words : nat := 64.

Definition threshold_agrees (i u : nat) : bool :=
  Bool.eqb (f64_leb DUPLICATE_JACCARD_THRESHOLD (f64_div (f64_of_nat i) (f64_of_nat u))) (3 * u <=? 5 * i).

Lemma threshold_table :
  forallb (fun u => forallb (fun i => threshold_agrees i u) (seq 0 (S u))) (seq 1 max_words) = true.
Proof. by vm_compute. Qed.

Lemma threshold_exact i u : i <= u -> 1 <= u <= max_words ->
  f64_leb DUPLICATE_JACCARD_THRESHOLD (f64_div (f64_of_nat i) (f64_of_nat u)) = (3 * u <=? 5 * i).
Proof.
  intros Hi Hu. pose proof threshold_table as H. rewrite forallb_forall in H.
  specialize (H u ltac:(apply in_seq; lia)). rewrite forallb_forall in H.
  specialize (H i ltac:(apply in_seq; lia)). by apply Bool.eqb_prop in H.
Qed.

(** Three fifths of the words of two sets are common to both. *)
Definition close_sets (a b : gset string) : Prop :=
  a <> ∅ /\ b <> ∅ /\ 3 * size (a ∪ b) <= 5 * size (a ∩ b).

Lemma jaccard_exact a b : size (a ∪ b) <= max_words ->
  f64_leb DUPLICATE_JACCARD_THRESHOLD (jaccard a b) = true <-> close_sets a b.
Proof.
  intros Hu. unfold jaccard, close_sets.
  assert (Hz : f64_leb DUPLICATE_JACCARD_THRESHOLD f64_zero = false) by reflexivity.
  destruct (bool_decide_reflect (a = ∅)) as [|Ha]; cbn [orb]; [rewrite Hz; by split; [|intros [? _]]|].
  destruct (bool_decide_reflect (b = ∅)) as [|Hb]; [rewrite Hz; by split; [|intros (_ & ? & _)]|].
  assert (Hpos : size (a ∪ b) <> 0). { intros H%size_empty_inv. set_solver. }
  rewrite (proj2 (Nat.eqb_neq _ _)) by done.
  rewrite threshold_exact; [|apply subseteq_size; set_solver|lia]. rewrite Nat.leb_le. tauto.
Qed.

(** ** Properties *)

(** The duplicate gate is the exact predicate over words. Read a title as its
    runs of ASCII letters and digits in lower case. A title is refused exactly
    when it has none; or when some existing title has the same words in the same
    order; or when both are backlog ceremonies; or when at least three fifths of
    all the content words of the two are common to both (for titles of up to
    sixty-four content words together, where the floating-point quotient is
    shown to decide the same as integers). So the gate does not see case,
    punctuation or any other script, and never depends on rounding. *)
Theorem duplicates_exact title existing :
  (forall e, e ∈ existing -> size (title_tokens title ∪ title_tokens e) <= max_words) ->
  duplicates_existing title existing = true <->
  words title = [] \/
  exists e, e ∈ existing /\
    (words e = words title \/ (is_backlog_meta title = true /\ is_backlog_meta e = true) \/
     close_sets (list_to_set (List.filter is_content (words title))) (list_to_set (List.filter is_content (words e)))).
Proof.
  intros Hsize. unfold duplicates_existing.
  destruct (bool_decide_reflect (normalize_title title = "")) as [Hb|Hb]; rewrite normalize_title_nil in Hb.
  { split; [by left|done]. }
  rewrite existsb_exists. split.
  - intros (e & Hin & He). right. exists e. apply list_elem_of_In in Hin. split; [done|]. revert He.
    unfold same_theme. rewrite !orb_true_iff, andb_true_iff, bool_decide_eq_true, normalize_title_eq.
    rewrite <- !title_tokens_words, jaccard_exact by by apply Hsize. tauto.
  - intros [?|(e & Hin & He)]; [done|]. exists e. split; [by apply list_elem_of_In|]. revert He.
    unfold same_theme. rewrite !orb_true_iff, andb_true_iff, bool_decide_eq_true, normalize_title_eq.
    rewrite <- !title_tokens_words, jaccard_exact by by apply Hsize. tauto.
Qed.

Lemma duplicates_exact_witness :
  duplicates_existing "Read receipts for delivery" ["Login page"; "Delivery and read receipts"] = true <->
  words "Read receipts for delivery" = [] \/
  exists e, e ∈ ["Login page"; "Delivery and read receipts"] /\
    (words e = words "Read receipts for delivery" \/
     (is_backlog_meta "Read receipts for delivery" = true /\ is_backlog_meta e = true) \/
     close_sets (list_to_set (List.filter is_content (words "Read receipts for delivery")))
       (list_to_set (List.filter is_content (words e)))).
Proof.
  apply duplicates_exact. intros e He. repeat (apply elem_of_cons in He as [->|He]); [..|by apply elem_of_nil in He];
    vm_compute; lia.
Defined.

(** The gate compares what is left of a title after everything but ASCII letters
    and digits: two Vietnamese titles that differ in their accents only are one
    title to it, and a title in another script can never be filed. *)
Theorem accents_are_invisible :
  duplicates_existing "Sửa lỗi đăng nhập" ["Sửa lối đăng nhập"] = true /\
  duplicates_existing "検索を速くする" [] = true.
Proof. split; by vm_compute. Qed.
