(* ===== verification/Board.v ===== *)
(** * The board: what every list of tickets keeps

    The tickets of a state together: the dependency graph [validate] accepts and
    the aggregate's own invariant on every ticket. The use cases that file, split
    and move tickets are shown to keep it ([AddTicket], [Escalation]). *)
From S2P Require Import Prelude RustStr Kinds TestCase Ticket Lifecycle State DepGraph.

Record board_ok (ts : list Ticket) : Prop := {
  board_graph : sound_graph ts;
  board_wf : Forall ticket_wf ts;
}.

Lemma board_validates ts : board_ok ts -> validate ts = Ok tt.
Proof. intros [H _]. by apply validate_ok. Qed.

Lemma board_ids ts : board_ok ts -> NoDup (t_id <$> ts).
Proof. intros [(H & _) _]. exact H. Qed.

(** On a sound board the last ticket's id is not an earlier one's. *)
Lemma board_graph_ids ts t : sound_graph (ts ++ [t]) -> t_id t ∉ (t_id <$> ts).
Proof.
  intros (Hnd & _). rewrite fmap_app in Hnd. apply NoDup_app in Hnd as (_ & H & _). intros Hin.
  apply (H (t_id t) Hin). left.
Qed.

Lemma board_snoc ts t :
  board_ok ts -> ticket_wf t -> t_id t ∉ (t_id <$> ts) -> (forall d, d ∈ t_depends_on t -> d ∈ (t_id <$> ts)) ->
  board_ok (ts ++ [t]).
Proof.
  intros [Hg Hw] Ht Hf Hd. split; [by apply sound_graph_snoc|]. apply Forall_app.
  split; [done|by apply Forall_singleton].
Qed.

(** ** Changes that leave ids and dependencies alone *)

Definition safe_change (f : Ticket -> Ticket) : Prop :=
  forall t, node_of (f t) = node_of t /\ (ticket_wf t -> ticket_wf (f t)).

Lemma safe_change_id f t : safe_change f -> t_id (f t) = t_id t.
Proof. intros H. destruct (H t) as [Hn _]. by injection Hn. Qed.

Lemma board_update p f ts : safe_change f -> board_ok ts -> board_ok (update_first p f ts).
Proof.
  intros Hf [Hg Hw]. split.
  - eapply sound_graph_ext; [|exact Hg]. symmetry. apply map_update_first. intros t _. by destruct (Hf t).
  - apply update_first_Forall; [|done]. intros t Ht _. by apply Hf.
Qed.

Lemma board_map f ts : safe_change f -> board_ok ts -> board_ok (f <$> ts).
Proof.
  intros Hf [Hg Hw]. split.
  - eapply sound_graph_ext; [|exact Hg]. rewrite <- list_fmap_compose. apply list_fmap_ext. intros i t _. cbn.
    by destruct (Hf t).
  - apply Forall_fmap. eapply Forall_impl; [exact Hw|]. intros t. by destruct (Hf t).
Qed.

Definition edits_deps (op : TicketOp) : bool :=
  match op with OpRemoveDep _ _ | OpAddDep _ _ => true | _ => false end.

Lemma with_case_node d f t : node_of (with_case d f t).1 = node_of t.
Proof. unfold with_case. destruct (find_case _ _); by destruct t. Qed.

Lemma transition_node r to t t' : transition_to r to t = Ok t' -> node_of t' = node_of t.
Proof. intros [_ _ _ _ ->]%transition_to_ok. destruct t. by case_decide. Qed.

Lemma apply_op_node op t t' : edits_deps op = false -> apply_op op t = Ok t' -> node_of t' = node_of t.
Proof.
  intros Hop Ho. destruct op; cbn [apply_op edits_deps] in *; try discriminate Hop;
    try (apply result_bind_ok in Ho as (t1 & [-> Hp]%guard_field_ok & Ho));
    try (injection Ho as <-); try solve [by destruct t]; try solve [apply with_case_node].
  - unfold stamp_created_at. destruct t as [? ? ? ? ? ? ? ? ? ? ? ? ? ? ? ? ? [] ? ?]; done.
  - unfold edit in Ho. destruct (negb _); [done|]. destruct (blank _); [done|]. injection Ho as <-. by destruct t.
  - unfold clarify in Ho. destruct (negb _); [done|]. destruct (blank _); [done|]. injection Ho as <-. by destruct t.
  - unfold claim in Ho. destruct (t_claimed_by t); [done|].
    apply result_bind_ok in Ho as (t1 & Ht1%transition_node & [= <-]). rewrite <- Ht1. by destruct t1.
  - by eapply transition_node.
  - unfold release_claim in Ho. case_decide; [done|]. case_decide; [done|]. injection Ho as <-. by destruct t.
  - unfold reclaim_misfiled in Ho. case_decide; [done|]. destruct (misfiled t); injection Ho as <-; by destruct t.
  - unfold take_over in Ho. case_decide; [done|]. case_decide; [done|]. injection Ho as <-. by destruct t.
  - unfold ensure_test_cases_from_acceptance. destruct (cases_in_sync _ _); [done|by destruct t].
  - unfold set_test_case_repro. destruct (blank _); [done|apply with_case_node].
Qed.

(** A mutator of the aggregate, its error ignored. *)
Lemma safe_try_op op : edits_deps op = false -> safe_change (try_op op).
Proof.
  intros Hop t. unfold try_op. destruct (apply_op op t) as [t'|e] eqn:E; [|done].
  split; [by eapply apply_op_node|intros H; by eapply wf_apply_op].
Qed.

(** ** Writes to a list of ids *)

(** [for id in ids { if let Some(t) = tickets.iter_mut().find(..) { f(t) } }] *)
Definition for_ids (f : Ticket -> Ticket) (ids : list TicketId) (ts : list Ticket) : list Ticket :=
  fold_left (fun ts id => update_first (is_ticket id) f ts) ids ts.

Lemma board_for_ids f ids ts : safe_change f -> board_ok ts -> board_ok (for_ids f ids ts).
Proof. intros Hf. unfold for_ids. apply fold_left_invariant. intros l id. by apply board_update. Qed.

(** With distinct ids on both sides, every named ticket is changed once. *)
Lemma for_ids_change f ids : forall ts,
  (forall t, t_id (f t) = t_id t) -> NoDup (t_id <$> ts) -> NoDup ids -> for_ids f ids ts = change_all f ids ts.
Proof.
  induction ids as [|id ids IH]; intros ts Hf Hts Hids; [symmetry; apply change_all_nil|].
  apply NoDup_cons in Hids as [Hid Hids]. unfold for_ids. cbn [fold_left]. fold (for_ids f ids).
  assert (Hone : update_first (is_ticket id) f ts = change_all f [id] ts).
  { destruct (find_ticket id ts) as [t|] eqn:E; [by rewrite (update_first_const _ _ _ _ E); apply (update_first_change f id t)|].
    rewrite update_first_none by done. unfold change_all. symmetry. etrans; [|apply list_fmap_id].
    apply list_fmap_ext. intros i u Hu. cbn. rewrite decide_False; [done|]. rewrite list_elem_of_singleton.
    intros Hui. apply find_ticket_none in E. apply E. rewrite <- Hui.
    by apply list_elem_of_fmap_2, (list_elem_of_lookup_2 _ i). }
  rewrite Hone. change (for_ids f ids (change_all f [id] ts) = change_all f (id :: ids) ts).
  rewrite IH by (done || by rewrite change_all_ids). by apply change_all_cons.
Qed.

(** A sweep over the tickets a test picks. *)
Lemma for_ids_filter f (p : Ticket -> bool) ts :
  (forall t, t_id (f t) = t_id t) -> NoDup (t_id <$> ts) ->
  for_ids f (t_id <$> List.filter p ts) ts = (fun t => if p t then f t else t) <$> ts.
Proof.
  intros Hf Hts. rewrite for_ids_change by (done || by apply filter_keys_NoDup). unfold change_all.
  apply list_fmap_ext. intros i t Ht. apply list_elem_of_lookup_2 in Ht.
  destruct (decide (t_id t ∈ _)) as [Hin|Hin].
  - apply list_elem_of_fmap in Hin as (u & Hid & [Hu Hp]%elem_of_filter_bool).
    rewrite (keyed_inj t_id ts t u) by done. by rewrite Hp.
  - destruct (p t) eqn:E; [|done]. exfalso. apply Hin, list_elem_of_fmap_2, elem_of_filter_bool. done.
Qed.

(** ** Appending to the board of a state *)

Definition add_tickets (cs : list Ticket) (st : ProjectState) : ProjectState := st <| tickets ::= fun ts => ts ++ cs |>.

Lemma tickets_ext (f g : list Ticket -> list Ticket) (st : ProjectState) :
  f (tickets st) = g (tickets st) -> st <| tickets ::= f |> = st <| tickets ::= g |>.
Proof. intros H. unfold apply_update, set_tickets. cbv beta iota. by rewrite H. Qed.

Lemma tickets_set (f : list Ticket -> list Ticket) (st : ProjectState) : tickets (st <| tickets ::= f |>) = f (tickets st).
Proof. done. Qed.

Lemma add_tickets_app cs cs' st : add_tickets cs' (add_tickets cs st) = add_tickets (cs ++ cs') st.
Proof.
  unfold add_tickets. change (st <| tickets ::= (fun ts => ts ++ cs) |> <| tickets ::= (fun ts => ts ++ cs') |>)
    with (st <| tickets ::= (fun ts => (ts ++ cs) ++ cs') |>). apply tickets_ext. by rewrite app_assoc.
Qed.
