(* ===== verification/AddTicket.v ===== *)
(** * Filing a ticket

    [use_cases/add_ticket.rs]: the one creation path, from the input of a person
    or an agent to the state with the ticket in it. [mint_id] is shared with the
    split of an oversize ticket. [now] is [now_rfc3339()]. *)
From S2P Require Import Prelude RustStr Kinds TestCase Ticket Lifecycle State DepGraph StateOps Goals Ports Titles Board.

Record AddTicketInput := mkAddTicketInput {
  in_ticket_type : TicketType;
  in_title : string;
  in_description : string;
  in_priority : Priority;
  in_complexity : Complexity;
  in_has_ui : bool;
  in_acceptance_criteria : list string;
  in_goal : option GoalId;
  in_service_tag : option string;
}.

Inductive AppError :=
| AppDomain (e : DomainError)
| AppPort (e : PortError).

Definition DUPLICATE_REFUSED : string := "duplicate ticket refused".

(** ** Ids *)

Definition type_code (k : TicketType) : string := match k with Feature => "F" | Bug => "B" | Chore => "C" end.

Definition id_prefix (k : TicketType) (alias : string) : string :=
  if bool_decide (alias = "") then type_code k else alias +:+ "-" +:+ type_code k.

(** The numbers in use under a prefix. *)
Definition used_numbers (prefix : string) (ts : list Ticket) : list N :=
  omap (fun t => strip_prefix prefix (t_id t) ≫= parse_u64) ts.

(** [.max().unwrap_or(0) + 1], which wraps in a release build. *)
Definition next_number (ns : list N) : N := u64_wrap (foldr N.max 0%N ns + 1).

Definition mint_id (k : TicketType) (st : ProjectState) : result DomainError TicketId :=
  let prefix := id_prefix k (alias st) in
  TicketId_new (prefix +:+ pad_dec 3 (next_number (used_numbers prefix (tickets st)))).

(** ** [AddTicketUseCase::execute] on the loaded state *)

Definition map_err {E F A} (f : E -> F) (m : result E A) : result F A :=
  match m with Ok a => Ok a | Err e => Err (f e) end.

Definition is_active (t : Ticket) : bool :=
  negb (one_of (t_status t) [Done; Documented; Rejected; Verified]).
Definition active_titles (st : ProjectState) : list string := t_title <$> List.filter is_active (tickets st).
Definition rejected_titles (st : ProjectState) : list string :=
  t_title <$> List.filter (fun t => bool_decide (t_status t = Rejected)) (tickets st).

Definition duplicate_gate (title : string) (st : ProjectState) : result AppError unit :=
  if duplicates_existing title (active_titles st)
  then Err (AppPort (Backend (DUPLICATE_REFUSED +:+ ": " +:+ dquote +:+ title +:+ dquote +:+ " matches an open ticket (same theme already tracked)")))
  else if duplicates_existing title (rejected_titles st)
  then Err (AppPort (Backend (DUPLICATE_REFUSED +:+ ": " +:+ dquote +:+ title +:+ dquote +:+
              " matches a REJECTED ticket — a human already said no to this theme; do not refile it")))
  else Ok tt.

Definition goal_gate (goal : option GoalId) (st : ProjectState) : result AppError unit :=
  match goal with
  | None => Ok tt
  | Some gid =>
      match List.find (is_goal gid) (goals st) with
      | None => Err (AppPort (Backend ("ticket refused: declared goal " +:+ gid +:+
                               " is not one of this project's stated goals")))
      | Some g =>
          if goal_is_active g then Ok tt
          else Err (AppPort (Backend ("ticket refused: goal " +:+ gid +:+ " (" +:+ g_title g +:+
                               ") is retired — its gate is closed to new work")))
      end
  end.

(** The ticket the input describes. *)
Definition build_ticket (now : string) (input : AddTicketInput) (id : TicketId) : result DomainError Ticket :=
  let? t := Ticket_new id (in_ticket_type input) (in_title input) (in_description input) (in_priority input)
              (in_complexity input) (in_has_ui input) in
  let t := set_acceptance_criteria (in_acceptance_criteria input) (stamp_created_at now t) in
  let? t := match in_goal input with Some gid => set_goal_id System gid t | None => Ok t end in
  match in_service_tag input with Some tag => set_service_tag System tag t | None => Ok t end.

Definition add_ticket (now : string) (input : AddTicketInput) (st : ProjectState)
    : result AppError (ProjectState * TicketId) :=
  let? _ := duplicate_gate (in_title input) st in
  let? _ := goal_gate (in_goal input) st in
  let? id := map_err AppDomain (mint_id (in_ticket_type input) st) in
  let? t := map_err AppDomain (build_ticket now input id) in
  let st := st <| tickets ::= (fun ts => ts ++ [t]) |> in
  match validate (tickets st) with
  | Err e => Err (AppPort (Corrupt (validate_text e)))
  | Ok _ => Ok (st, id)
  end.

(** ** Lemmas *)

Lemma max_ge ns n : n ∈ ns -> (n <= foldr N.max 0%N ns)%N.
Proof. induction ns as [|m ns IH]; cbn; [by intros ?%elem_of_nil|]. intros [->|H%IH]%elem_of_cons; lia. Qed.

Lemma max_in ns : foldr N.max 0%N ns = 0%N \/ foldr N.max 0%N ns ∈ ns.
Proof.
  induction ns as [|m ns IH]; cbn; [by left|]. right. destruct (N.max_spec m (foldr N.max 0%N ns)) as [[Hlt ->]|[? ->]]; [|left].
  destruct IH as [E|?]; [lia|by right].
Qed.

Lemma parse_u64_le s n : parse_u64 s = Some n -> (n <= u64_max)%N.
Proof.
  unfold parse_u64, parse_uint. set (d := match s with String "+" r => r | _ => s end).
  destruct (_ || _); [done|]. destruct (N.leb_spec (undec d) u64_max); [by intros [= <-]|done].
Qed.

Lemma elem_of_used prefix ts n :
  n ∈ used_numbers prefix ts <-> exists t r, t ∈ ts /\ t_id t = prefix +:+ r /\ parse_u64 r = Some n.
Proof.
  unfold used_numbers. rewrite list_elem_of_omap. split.
  - intros (t & Ht & H). destruct (strip_prefix prefix (t_id t)) as [r|] eqn:E; [|done].
    apply strip_prefix_spec in E. by exists t, r.
  - intros (t & r & Ht & E & Hp). exists t. split; [done|]. apply strip_prefix_spec in E. by rewrite E.
Qed.

Lemma mint_id_text k st :
  mint_id k st = Ok (id_prefix k (alias st) +:+ pad_dec 3 (next_number (used_numbers (id_prefix k (alias st)) (tickets st)))).
Proof.
  unfold mint_id, TicketId_new. set (n := next_number _).
  assert (Hd : exists s a, pad_dec 3 n = s +:+ String a "" /\ plain a = true).
  { destruct (pad_dec_first 3 n) as (b & r & E & _). pose proof (all_digits_pad_dec 3 n) as Hall.
    apply all_bytes_Forall in Hall. destruct (exists_last (l := bytes (pad_dec 3 n))) as (l & a & Hl); [by rewrite E|].
    exists (String.string_of_list_ascii l), a. split.
    - rewrite <- (String.string_of_list_ascii_of_string (pad_dec 3 n)). fold (bytes (pad_dec 3 n)). rewrite Hl.
      clear. induction l as [|c l IH]; [done|].
      change (String c (String.string_of_list_ascii (l ++ [a])) = String c (String.string_of_list_ascii l +:+ String a "")).
      by rewrite IH.
    - rewrite Hl in Hall. apply Forall_app in Hall as [_ [Ha _]%Forall_cons]. revert Ha. clear.
      destruct a as [[] [] [] [] [] [] [] []]; done. }
  destruct Hd as (s & a & -> & Ha). rewrite <- app_assoc_str, blank_last by done. done.
Qed.

(** A minted id is new, unless the largest number under its prefix is the last
    one of sixty-four bits. *)
Lemma mint_id_fresh k st id :
  mint_id k st = Ok id -> u64_max ∉ used_numbers (id_prefix k (alias st)) (tickets st) ->
  id ∉ (t_id <$> tickets st).
Proof.
  rewrite mint_id_text. intros [= <-] Hmax (t & Et & Ht)%list_elem_of_fmap.
  set (ns := used_numbers (id_prefix k (alias st)) (tickets st)) in *.
  assert (Hle : (foldr N.max 0 ns < u64_max)%N).
  { destruct (max_in ns) as [->|Hin]; [done|]. apply elem_of_used in Hin as Hp.
    destruct Hp as (_ & r & _ & _ & Hp%parse_u64_le). destruct (decide (foldr N.max 0%N ns = u64_max)); [congruence|lia]. }
  assert (Hn : next_number ns = (foldr N.max 0 ns + 1)%N).
  { unfold next_number, u64_wrap, u64_max in *. apply N.mod_small. lia. }
  assert (Hin : next_number ns ∈ ns).
  { apply elem_of_used. exists t, (pad_dec 3 (next_number ns)). split_and!; [done..|].
    apply parse_pad_dec. lia. }
  apply max_ge in Hin. lia.
Qed.

(** The ticket built from an input with a title: every field. *)
Record built (now : string) (input : AddTicketInput) (id : TicketId) (t : Ticket) : Prop := {
  built_id : t_id t = id;
  built_kind : t_kind t = in_ticket_type input;
  built_title : t_title t = in_title input;
  built_description : t_description t = in_description input;
  built_priority : t_priority t = in_priority input;
  built_complexity : t_complexity t = in_complexity input;
  built_has_ui : t_has_ui t = in_has_ui input;
  built_criteria : t_acceptance_criteria t =
    take 5 (List.filter (fun c => negb (bool_decide (c = ""))) (trim <$> in_acceptance_criteria input));
  built_status : t_status t = initial_status (in_ticket_type input);
  built_deps : t_depends_on t = [];
  built_goal : t_goal_id t = in_goal input;
  built_tag : t_service_tag t = in_service_tag input ≫= (fun tag => opt_nonempty (trim tag));
  built_stamp : t_created_at t = Some now;
  built_empty : t_design t = mkDesign None None /\ t_parent_id t = None /\ t_test_cases t = [] /\
    t_claimed_by t = None /\ t_claimed_at t = None /\ t_assignee t = None /\ t_wip_checkpoints t = [];
  built_wf : ticket_wf t;
}.

Lemma build_ticket_ok now input id :
  blank (in_title input) = false -> exists t, build_ticket now input id = Ok t /\ built now input id t.
Proof.
  intros Hb. unfold build_ticket.
  destruct (Ticket_new id (in_ticket_type input) (in_title input) (in_description input) (in_priority input)
              (in_complexity input) (in_has_ui input)) as [t0|e] eqn:E0; [|unfold Ticket_new in E0; by rewrite Hb in E0].
  pose proof (wf_new _ _ _ _ _ _ _ _ E0) as Hw0. unfold Ticket_new in E0. rewrite Hb in E0.
  assert (Hw1 : ticket_wf (set_acceptance_criteria (in_acceptance_criteria input) (stamp_created_at now t0))).
  { eapply (wf_apply_op (OpSetCriteria _)); [|done]. by eapply (wf_apply_op (OpStampCreated _)). }
  cbn [result_bind].
  assert (Hgoal : forall t g, ticket_wf t -> set_goal_id System g t = Ok (t <| t_goal_id := Some g |>) /\
                    ticket_wf (t <| t_goal_id := Some g |>)).
  { intros t g Ht. assert (set_goal_id System g t = Ok (t <| t_goal_id := Some g |>)) as Hs by done.
    split; [done|]. by eapply (wf_apply_op (OpSetGoal System g)). }
  assert (Htag : forall t s, ticket_wf t -> set_service_tag System s t = Ok (t <| t_service_tag := opt_nonempty (trim s) |>) /\
                    ticket_wf (t <| t_service_tag := opt_nonempty (trim s) |>)).
  { intros t s Ht. assert (set_service_tag System s t = Ok (t <| t_service_tag := opt_nonempty (trim s) |>)) as Hs by done.
    split; [done|]. by eapply (wf_apply_op (OpSetServiceTag System s)). }
  set (t1 := set_acceptance_criteria _ _) in *.
  assert (Hw2 : ticket_wf (match in_goal input with Some g => t1 <| t_goal_id := Some g |> | None => t1 end)).
  { destruct (in_goal input); [by apply Hgoal|done]. }
  exists (match in_service_tag input with
     | Some s => match in_goal input with Some g => t1 <| t_goal_id := Some g |> | None => t1 end
                   <| t_service_tag := opt_nonempty (trim s) |>
     | None => match in_goal input with Some g => t1 <| t_goal_id := Some g |> | None => t1 end end).
  split.
  - destruct (in_goal input) as [g|]; cbn [result_bind].
    + rewrite (proj1 (Hgoal t1 g Hw1)). cbn [result_bind]. by destruct (in_service_tag input).
    + by destruct (in_service_tag input).
  - injection E0 as <-.
    destruct (in_goal input) eqn:Eg, (in_service_tag input) eqn:Es; constructor; rewrite ?Eg, ?Es; try done;
      by apply Htag.
Qed.

(** The goal an input declares is one of the project's and still open. *)
Definition goal_open (goal : option GoalId) (st : ProjectState) : Prop :=
  from_option (fun gid => exists g, List.find (is_goal gid) (goals st) = Some g /\ g_status g = GActive) True goal.

Lemma goal_gate_ok goal st :
  match goal_gate goal st with
  | Ok _ => goal_open goal st
  | Err (AppPort (Backend _)) => ~ goal_open goal st
  | Err _ => False
  end.
Proof.
  unfold goal_gate, goal_open. destruct goal as [gid|]; cbn; [|done].
  destruct (List.find (is_goal gid) (goals st)) as [g|]; [|by intros (? & [=] & _)].
  unfold goal_is_active. case_bool_decide as Hg; [by exists g|]. by intros (? & [= ->] & ?).
Qed.

Lemma duplicate_gate_ok title st :
  match duplicate_gate title st with
  | Ok _ => duplicates_existing title (active_titles st) = false /\ duplicates_existing title (rejected_titles st) = false
  | Err (AppPort (Backend _)) =>
      duplicates_existing title (active_titles st) = true \/ duplicates_existing title (rejected_titles st) = true
  | Err _ => False
  end.
Proof. unfold duplicate_gate. destruct (duplicates_existing _ _), (duplicates_existing title (rejected_titles st)); auto. Qed.

(** ** Properties *)

(** C18: Filing a ticket on a sound board adds exactly that ticket, or says why
    not. When it succeeds, one ticket is appended and nothing else changes. Every
    field of the ticket is the input's or fresh: type, title, description,
    priority, complexity and has_ui as given; the first five of the trimmed
    non-empty acceptance criteria; the goal as given and the trimmed service tag;
    the creation stamp now; the first status of its type; and no design, parent,
    dependency, test case, claim, assignee or checkpoint. Its id was not in use,
    its goal (if any) is an open goal of the project, its title duplicates no active
    and no rejected one, and the board is sound again. A refusal is a backend error
    for a duplicate or a goal that is unknown or retired; the only other error is
    the corrupt-state one, and only when the numbers under the id prefix are used
    up. No domain error ever gets out. *)
Theorem add_ticket_exact now input st :
  board_ok (tickets st) ->
  match add_ticket now input st with
  | Ok (st', id) =>
      exists t, st' = st <| tickets ::= (fun ts => ts ++ [t]) |> /\ built now input id t /\
        id ∉ (t_id <$> tickets st) /\ board_ok (tickets st') /\ goal_open (in_goal input) st /\
        duplicates_existing (in_title input) (active_titles st) = false /\
        duplicates_existing (in_title input) (rejected_titles st) = false
  | Err (AppPort (Backend _)) =>
      duplicates_existing (in_title input) (active_titles st) = true \/
      duplicates_existing (in_title input) (rejected_titles st) = true \/ ~ goal_open (in_goal input) st
  | Err (AppPort (Corrupt _)) =>
      u64_max ∈ used_numbers (id_prefix (in_ticket_type input) (alias st)) (tickets st)
  | Err _ => False
  end.
Proof.
  intros Hb. unfold add_ticket. pose proof (duplicate_gate_ok (in_title input) st) as Hdup.
  destruct (duplicate_gate (in_title input) st) as [[]|[|[]]]; cbn [result_bind]; try tauto.
  pose proof (goal_gate_ok (in_goal input) st) as Hgoal.
  destruct (goal_gate (in_goal input) st) as [[]|[|[]]]; cbn [result_bind]; try tauto.
  destruct (mint_id (in_ticket_type input) st) as [id|e] eqn:Eid; [|by rewrite mint_id_text in Eid].
  cbn [map_err result_bind].
  assert (Htitle : blank (in_title input) = false).
  { apply words_nonblank. destruct Hdup as [Hdup _]. unfold duplicates_existing in Hdup.
    case_bool_decide as Hn; [done|]. by rewrite <- normalize_title_nil. }
  destruct (build_ticket_ok now input id Htitle) as (t & -> & Ht). cbn [map_err result_bind].
  change (tickets (st <| tickets ::= ?f |>)) with (f (tickets st)). cbv beta.
  assert (Hnew : id ∉ (t_id <$> tickets st) -> board_ok (tickets st ++ [t])).
  { intros Hid. apply board_snoc; [done|apply Ht|by rewrite (built_id _ _ _ _ Ht)|].
    rewrite (built_deps _ _ _ _ Ht). by intros d ?%elem_of_nil. }
  destruct (validate (tickets st ++ [t])) as [[]|e] eqn:Ev.
  - exists t. split_and!; try done; try tauto.
    + apply validate_ok, board_graph_ids in Ev. rewrite <- (built_id _ _ _ _ Ht). exact Ev.
    + apply Hnew. apply validate_ok, board_graph_ids in Ev. by rewrite <- (built_id _ _ _ _ Ht).
  - destruct (decide (u64_max ∈ used_numbers (id_prefix (in_ticket_type input) (alias st)) (tickets st))) as [|Hmax]; [done|].
    exfalso. pose proof (board_validates _ (Hnew (mint_id_fresh _ _ _ Eid Hmax))). congruence.
Qed.

Definition sample_state : ProjectState :=
  ProjectState_default <| alias := "CXA" |> <| goals := [mkGoal "G001" "Faster merges" GActive] |>.
Definition sample_input : AddTicketInput :=
  mkAddTicketInput Feature "Merge queue" "Order the merges." High CSmall false [" one "; ""] (Some "G001") (Some " infra ").

Lemma add_ticket_exact_witness :
  exists st t, add_ticket "now" sample_input sample_state = Ok (st, "CXA-F001") /\
    tickets st = [t] /\ built "now" sample_input "CXA-F001" t /\ board_ok (tickets st).
Proof.
  assert (Hb : board_ok (tickets sample_state)).
  { split; [by apply validate_ok; vm_compute|apply Forall_nil_2]. }
  pose proof (add_ticket_exact "now" sample_input sample_state Hb) as H.
  destruct (add_ticket "now" sample_input sample_state) as [[st id]|e] eqn:E; [|by vm_compute in E].
  assert (id = "CXA-F001") as ->.
  { apply (f_equal (fun r => match r with Ok (_, i) => i | Err _ => "" end)) in E. by vm_compute in E. }
  destruct H as (t & -> & Ht & _ & Hok & _). exists (sample_state <| tickets ::= (fun ts => ts ++ [t]) |>), t.
  split_and!; done.
Defined.
