(* ===== verification/Claims.v ===== *)
(** * The human claim lifecycle: takeover and handback

    [use_cases/claims.rs]: a person takes a ticket from the loop or gives it back.
    [stamp] is [now_rfc3339()] and [new_id] [mint_id()] of the run. *)
From S2P Require Import Prelude RustStr Kinds TestCase Ticket Lifecycle State DepGraph StateOps Ports Integrity Store.

(** ** Error texts ([error.rs], [Debug] of the value objects) *)

Definition ticket_type_debug (t : TicketType) : string :=
  match t with Feature => "Feature" | Bug => "Bug" | Chore => "Chore" end.

Definition status_debug (s : Status) : string :=
  match s with
  | Pending => "Pending" | Ready => "Ready" | InProgress => "InProgress" | Done => "Done"
  | Documented => "Documented" | Rejected => "Rejected" | OnHold => "OnHold"
  | Open => "Open" | Fixed => "Fixed" | Verified => "Verified"
  end.

Definition role_debug (r : Role) : string :=
  match r with
  | Ba => "Ba" | Po => "Po" | Sm => "Sm" | Sa => "Sa" | Pd => "Pd" | DevBug => "DevBug"
  | DevFeature => "DevFeature" | Test => "Test" | Docs => "Docs" | User => "User" | System => "System"
  end.

Definition domain_error_text (e : DomainError) : string :=
  match e with
  | Empty field => "empty " +:+ field +:+ ": must not be blank"
  | InvalidTransition ty from to =>
      "invalid transition for " +:+ ticket_type_debug ty +:+ ": " +:+ status_debug from +:+ " -> " +:+ status_debug to
  | FieldNotPermitted role field =>
      "role " +:+ role_debug role +:+ " is not allowed to change field `" +:+ field +:+ "`"
  | TransitionNotPermitted role from to =>
      "role " +:+ role_debug role +:+ " is not allowed to perform transition " +:+
      status_debug from +:+ " -> " +:+ status_debug to
  | NotReady missing => "ticket not ready: missing " +:+ missing
  | CoverageIncomplete uncovered first =>
      "cannot verify: " +:+ dec_nat uncovered +:+
      " acceptance criterion(s) not demonstrated by a passing test (first: `" +:+ first +:+ "`)"
  | InvalidVersion raw => "invalid version string `" +:+ raw +:+ "`"
  | AlreadyClaimed by_ => "ticket already claimed by `" +:+ by_ +:+ "`"
  end.

(** [format!("{status:?}").to_lowercase()] *)
Definition status_lower (s : Status) : string := str_map ascii_lower (status_debug s).

(** ** Authority *)

(** [worker.split('@').next()] *)
Definition claim_account (worker : string) : string := split_first "@" worker.

Definition may_touch_claim (can_manage : bool) (caller : string) (holder : option string) : bool :=
  match holder with
  | None => can_manage
  | Some held => can_manage || bool_decide (claim_account held = caller)
  end.

Inductive ClaimError :=
| CNotFound
| CNotPermitted
| CConflict (why : string)
| CStore (e : PortError).

Record TakeoverOutcome := mkTakeover {
  tk_previous_holder : option string;
  tk_claimed_by : string;
  tk_claimed_at : string;
  tk_ticket : Ticket;
}.

(** [runner_busy]: a runner at work on the ticket blocks a takeover. *)
Definition runner_busy (holder active_runner : option string) : option string :=
  held ← holder; runner ← active_runner;
  if bool_decide (runner = held)
  then Some ("runner " +:+ held +:+ " is actively working this ticket — pause it first") else None.

Definition claimable (t : Ticket) : bool :=
  match t_kind t with
  | Bug => bool_decide (t_status t = Open)
  | Feature | Chore => bool_decide (t_status t = Ready)
  end.

Section Decisions.
Context (stamp new_id : string).

(** The activity entry and the comment both decisions leave. *)
Definition record_decision (caller action body id : string) (st : ProjectState) : ProjectState :=
  post_comment new_id stamp "USER" body (Some id) (log_activity stamp caller action (Some id) st).

Definition takeover_in_state (id worker now : string) (can_manage : bool) (caller : string)
    (active_runner : option string) (st : ProjectState)
    : ProjectState * result ClaimError TakeoverOutcome :=
  match ticket id st with
  | None => (st, Err CNotFound)
  | Some view =>
      let holder := t_claimed_by view in
      if negb (may_touch_claim can_manage caller holder) then (st, Err CNotPermitted)
      else match runner_busy holder active_runner with
      | Some why => (st, Err (CConflict why))
      | None =>
          let swapped :=
            match holder with
            | Some _ =>
                match take_over System worker now view with
                | Err e => Err (CConflict (domain_error_text e))
                | Ok (t, previous) =>
                    let from := match previous with Some h => " (was " +:+ h +:+ ")" | None => "" end in
                    Ok (t, previous, "🧑‍💻 " +:+ id +:+ " taken over by @" +:+ caller +:+ from)
                end
            | None =>
                if negb (claimable view)
                then Err (CConflict (id +:+ " is " +:+ status_lower (t_status view) +:+
                       " — only a Ready feature/chore or an Open bug can be taken over"))
                else match claim System worker now view with
                | Err e => Err (CConflict (domain_error_text e))
                | Ok t => Ok (t, None, "🧑‍💻 " +:+ id +:+ " taken over by @" +:+ caller)
                end
            end in
          match swapped with
          | Err e => (st, Err e)
          | Ok (t, previous, comment) =>
              (record_decision caller "took over the ticket" comment id (set_ticket id (fun _ => t) st),
               Ok (mkTakeover previous worker now t))
          end
      end
  end.

(** Returns the status the ticket lands in. *)
Definition handback_in_state (id note branch_ref : string) (can_manage : bool) (caller : string)
    (active_runner : option string) (st : ProjectState) : ProjectState * result ClaimError Status :=
  match ticket id st with
  | None => (st, Err CNotFound)
  | Some view =>
      let holder := t_claimed_by view in
      if negb (may_touch_claim can_manage caller holder) then (st, Err CNotPermitted)
      else match runner_busy holder active_runner with
      | Some why => (st, Err (CConflict why))
      | None =>
          if negb (bool_decide (t_status view = InProgress))
          then (st, Err (CConflict (id +:+ " is " +:+ status_lower (t_status view) +:+
                  " — nothing in progress to hand back")))
          else
            let to := match t_kind view with Bug => Fixed | Feature | Chore => Done end in
            match transition_to System to view with
            | Err e => (st, Err (CConflict (domain_error_text e)))
            | Ok t =>
                let body := "↩️ handed back to the loop: " +:+ note +:+
                  (if decide (branch_ref = "") then "" else String "010" ("branch/commit: " +:+ branch_ref)) in
                (record_decision caller "handed back to the loop" body id (set_ticket id (fun _ => t) st), Ok to)
            end
      end
  end.

(** [takeover_claim] and [handback] run the decision under [mutate_state]; its own
    refusals do not abort the mutation. *)
Definition takeover_claim (id worker now : string) (can_manage : bool) (caller : string)
    (active_runner : option string) : Job :=
  JMutate (fun st => Ok (takeover_in_state id worker now can_manage caller active_runner st).1).

Definition handback (id note branch_ref : string) (can_manage : bool) (caller : string)
    (active_runner : option string) : Job :=
  JMutate (fun st => Ok (handback_in_state id note branch_ref can_manage caller active_runner st).1).
End Decisions.

(** ** Lemmas *)

(** The ticket a worker holds after a takeover. *)
Definition held (worker now : string) (t : Ticket) : Ticket := stamp_claim worker now (set_status InProgress t).

Lemma claim_held w n t t' : claim System w n t = Ok t' -> t_claimed_by t = None /\ t' = held w n t.
Proof.
  unfold claim. destruct (t_claimed_by t) eqn:E; [done|].
  intros (t1 & H & [= <-])%result_bind_ok. apply transition_to_ok in H as [_ _ _ _ ->]. done.
Qed.

Lemma take_over_held w n t t' prev :
  take_over System w n t = Ok (t', prev) ->
  t_status t = InProgress /\ prev = t_claimed_by t /\ t' = held w n t.
Proof.
  unfold take_over. rewrite decide_False by (intros Hn; by apply Hn). case_decide as Hs; [done|]. intros [= <- <-]. split_and!; try done.
  unfold held, set_status. destruct t; cbn in *. by subst.
Qed.

Lemma claim_System_ok w n t : t_claimed_by t = None -> claimable t = true -> claim System w n t = Ok (held w n t).
Proof.
  intros Hc Hs. unfold claim. rewrite Hc. unfold claimable in Hs.
  assert (transition_to System InProgress t = Ok (set_status InProgress t)) as ->; [|done].
  apply transition_to_ok. constructor; try done; by destruct (t_kind t); apply bool_decide_eq_true in Hs as ->.
Qed.

(** What a takeover requires of the ticket and of who asks. *)
Record may_take (can_manage : bool) (caller : string) (active_runner : option string) (t : Ticket) : Prop := {
  mt_permitted : may_touch_claim can_manage caller (t_claimed_by t) = true;
  mt_idle : forall h, t_claimed_by t = Some h -> active_runner <> Some h;
  mt_status : match t_claimed_by t with Some _ => t_status t = InProgress | None => claimable t = true end;
}.

Lemma runner_busy_none h r : runner_busy h r = None <-> forall w, h = Some w -> r <> Some w.
Proof.
  unfold runner_busy. destruct h as [w|], r as [w'|]; cbn; try naive_solver.
  case_bool_decide; naive_solver.
Qed.

(** a takeover is authorised, exclusive and all or nothing. It succeeds exactly when the ticket exists, the caller manages the project or owns the claim, the holder's own runner is not at work on it, and the ticket is in progress under a claim or unclaimed and claimable; then that ticket is in progress under the new worker and time, the displaced holder is reported and no other ticket changes. A refusal changes nothing. *)
Theorem takeover_exact stamp new_id id worker now can_manage caller runner (st : ProjectState) :
  let '(st', r) := takeover_in_state stamp new_id id worker now can_manage caller runner st in
  match r with
  | Err e => st' = st /\ (forall t, ticket id st = Some t -> ~ may_take can_manage caller runner t) /\
             (ticket id st = None <-> e = CNotFound)
  | Ok o => exists t, ticket id st = Some t /\ may_take can_manage caller runner t /\
      o = mkTakeover (t_claimed_by t) worker now (held worker now t) /\
      ticket id st' = Some (held worker now t) /\
      forall other, other <> id -> ticket other st' = ticket other st
  end.
Proof.
  unfold takeover_in_state. destruct (ticket id st) as [t|] eqn:Et; [|by split_and!].
  assert (Hid : t_id t = id) by by apply find_ticket_id in Et as [].
  destruct (may_touch_claim can_manage caller (t_claimed_by t)) eqn:Em; cbn [negb].
  2: { split_and!; [done| |done]. intros ? [= <-] []. congruence. }
  destruct (runner_busy (t_claimed_by t) runner) as [wy|] eqn:Eb.
  { split_and!; [done| |done]. intros ? [= <-] []. apply runner_busy_none in mt_idle0. congruence. }
  rewrite runner_busy_none in Eb.
  assert (Hgo : forall prev comment,
    match t_claimed_by t with Some _ => t_status t = InProgress | None => claimable t = true end ->
    prev = t_claimed_by t ->
    exists t0, Some t = Some t0 /\ may_take can_manage caller runner t0 /\
      mkTakeover prev worker now (held worker now t) = mkTakeover (t_claimed_by t0) worker now (held worker now t0) /\
      ticket id (record_decision stamp new_id caller "took over the ticket" comment id
        (set_ticket id (fun _ => held worker now t) st)) = Some (held worker now t0) /\
      forall other, other <> id -> ticket other (record_decision stamp new_id caller "took over the ticket" comment id
        (set_ticket id (fun _ => held worker now t) st)) = ticket other st).
  { intros prev comment Hs ->. exists t. split_and!; try done.
    - exact (ticket_set id t (held worker now t) st Et Hid).
    - intros other. exact (ticket_set_other id other (held worker now t) st Hid). }
  destruct (t_claimed_by t) as [h|] eqn:Eh.
  - destruct (take_over System worker now t) as [[t' prev]|e] eqn:E.
    + apply take_over_held in E as (Hs & -> & ->). rewrite Eh in *. by apply Hgo.
    + split_and!; [done| |done]. intros ? [= <-] [_ _ Hs]. rewrite Eh in Hs.
      unfold take_over in E. rewrite decide_False in E by (intros Hn; by apply Hn).
      by rewrite decide_False in E by (intros Hn; by apply Hn).
  - destruct (claimable t) eqn:Ec; cbn [negb].
    + rewrite (claim_System_ok worker now t Eh Ec). by apply Hgo.
    + split_and!; [done| |done]. intros ? [= <-] [_ _ Hs]. rewrite Eh in Hs. congruence.
Qed.

(** The status finished work goes to. *)
Definition handed_back (t : Ticket) : Status := match t_kind t with Bug => Fixed | Feature | Chore => Done end.

Lemma handback_held worker now t :
  transition_to System (handed_back t) (held worker now t) = Ok (clear_claim (set_status (handed_back t) (held worker now t))).
Proof.
  apply transition_to_ok. destruct t as [i [] ? ? ? ? ? ? ? ? ? ? ? ? ? ? ? ? ? ?]; by constructor.
Qed.

(** what a person takes they can give back. After a successful takeover, a handback by a manager or by the account that took the ticket, while the new holder runs no agent on it, always succeeds: a bug lands in Fixed and other work in Done, unclaimed, and every other ticket is as it was before the takeover. *)
Theorem takeover_then_handback stamp new_id id worker now can_manage caller runner st st' o
    stamp2 new_id2 note branch_ref can_manage2 caller2 runner2 :
  takeover_in_state stamp new_id id worker now can_manage caller runner st = (st', Ok o) ->
  may_touch_claim can_manage2 caller2 (Some worker) = true -> runner2 <> Some worker ->
  let '(st'', r) := handback_in_state stamp2 new_id2 id note branch_ref can_manage2 caller2 runner2 st' in
  r = Ok (handed_back (tk_ticket o)) /\
  (exists t, ticket id st'' = Some t /\ t_status t = handed_back (tk_ticket o) /\ t_claimed_by t = None) /\
  forall other, other <> id -> ticket other st'' = ticket other st.
Proof.
  intros Htake Hmay Hrun.
  pose proof (takeover_exact stamp new_id id worker now can_manage caller runner st) as Hspec.
  rewrite Htake in Hspec. destruct Hspec as (t & Et & _ & -> & Et' & Hother). cbn [tk_ticket].
  assert (Hid : t_id t = id) by by apply find_ticket_id in Et as [].
  unfold handback_in_state. rewrite Et'. change (t_claimed_by (held worker now t)) with (Some worker).
  rewrite Hmay. cbn [negb].
  assert (runner_busy (Some worker) runner2 = None) as ->.
  { apply runner_busy_none. intros w [= <-]. done. }
  change (t_status (held worker now t)) with InProgress. cbn [negb bool_decide].
  rewrite (bool_decide_true (InProgress = InProgress)) by done. cbn [negb].
  change (match t_kind (held worker now t) with Bug => Fixed | _ => Done end) with (handed_back t).
  rewrite handback_held. set (t2 := clear_claim _). split_and!; [done| |].
  - exists t2. split_and!; try done. exact (ticket_set id (held worker now t) t2 st' Et' Hid).
  - intros other Hne. etransitivity; [exact (ticket_set_other id other t2 st' Hid Hne)|by apply Hother].
Qed.

Lemma takeover_then_handback_witness :
  t_status <$> ticket "F1" (handback_in_state "s" "c2" "F1" "done by hand" "" false "ann" None
    (takeover_in_state "s" "c1" "F1" "ann@mac" "t" true "boss" None one_ready).1).1 = Some Done.
Proof.
  destruct (takeover_in_state "s" "c1" "F1" "ann@mac" "t" true "boss" None one_ready) as [st' [o|e]] eqn:E;
    [|vm_compute in E; discriminate].
  pose proof (takeover_then_handback "s" "c1" "F1" "ann@mac" "t" true "boss" None one_ready st' o
    "s" "c2" "done by hand" "" false "ann" None E eq_refl ltac:(discriminate)) as H.
  assert (handed_back (tk_ticket o) = Done) as Hd.
  { vm_compute in E. injection E as <- <-. reflexivity. }
  cbn [fst]. destruct (handback_in_state "s" "c2" "F1" "done by hand" "" false "ann" None st') as [st'' r].
  destruct H as (_ & (t & Ht & Hs & _) & _). cbn [fst]. rewrite Ht. cbn. rewrite Hs, Hd. reflexivity.
Defined.
