(* ===== verification/Channels.v ===== *)
(** * Chat channels: who may see and who may let in

    The channel operations of [state/mod.rs] and the permission predicates of
    [state/chat.rs]. [now] is [now_rfc3339()]. *)
From S2P Require Import Prelude RustStr Kinds TestCase Ticket State StateOps.

Definition AGENTS_CHANNEL : string := "agents".

(** ** Predicates ([impl Channel]) *)

Definition is_general (c : Channel) : bool := bool_decide (cn_id c = GENERAL_CHANNEL).

Definition is_open_channel (c : Channel) : bool :=
  bool_decide (cn_id c = GENERAL_CHANNEL) || bool_decide (cn_id c = AGENTS_CHANNEL).

Definition can_view (user : string) (c : Channel) : bool :=
  is_open_channel c || bool_decide (cn_owner c = user) || one_of user (cn_members c).

Definition can_invite (user : string) (c : Channel) : bool :=
  if is_open_channel c then true
  else if bool_decide (cn_owner c = user) || one_of user (cn_inviters c) then true
  else cn_open_invite c && one_of user (cn_members c).

Definition can_kick (user : string) (c : Channel) : bool :=
  negb (is_open_channel c) && (bool_decide (cn_owner c = user) || one_of user (cn_inviters c)).

Definition can_change_privacy (c : Channel) : bool := negb (bool_decide (cn_id c = GENERAL_CHANNEL)).

(** ** Lookup *)

Definition system_channel (id : string) : Channel := mkChannel id id "" [] [] "" "general" "" "" "" false.
Definition general_channel_record : Channel := system_channel GENERAL_CHANNEL.
Definition agents_channel_record : Channel := system_channel AGENTS_CHANNEL.

Definition is_channel (id : string) (c : Channel) : bool := bool_decide (cn_id c = id).

Definition channel (id : string) (st : ProjectState) : option Channel :=
  if decide (id = GENERAL_CHANNEL) then Some general_channel_record
  else if decide (id = AGENTS_CHANNEL) then Some agents_channel_record
  else List.find (is_channel id) (channels st).

Definition channels_for (user : string) (st : ProjectState) : list Channel :=
  [general_channel_record; agents_channel_record] ++ List.filter (can_view user) (channels st).

(** ** [slugify] *)

(** [c.is_ascii_alphanumeric()] of a character. *)
Definition char_alnum (c : string) : bool :=
  match c with String a EmptyString => is_ascii_alnum a | _ => false end.

Fixpoint slug_loop (cs : list string) (out : string) (prev_dash : bool) : string :=
  match cs with
  | [] => out
  | c :: cs' =>
      if char_alnum c then slug_loop cs' (out +:+ str_map ascii_lower c) false
      else if negb prev_dash && negb (bool_decide (out = "")) then slug_loop cs' (out +:+ "-") true
      else slug_loop cs' out prev_dash
  end.

(** The [while out.ends_with('-')] loop. *)
Fixpoint drop_dashes (s : string) : string :=
  match s with
  | EmptyString => ""
  | String a s' =>
      let r := drop_dashes s' in
      if bool_decide (r = "") && Ascii.eqb a "-" then "" else String a r
  end.

Definition slugify (name : string) : string := drop_dashes (slug_loop (chars (trim name)) "" false).

(** ** Operations: the state and the answer *)

Definition valid_kind (kind : string) : bool := one_of kind ["private"; "public"].

Definition create_channel_with_kind (now name owner kind : string) (st : ProjectState)
    : ProjectState * result string Channel :=
  let id := slugify name in
  if bool_decide (id = "") then (st, Err "channel name must contain letters or numbers")
  else if bool_decide (id = GENERAL_CHANNEL) || existsb (is_channel id) (channels st)
  then (st, Err ("channel #" +:+ id +:+ " already exists"))
  else if negb (valid_kind kind) then (st, Err "kind must be 'private' or 'public'")
  else
    let ch := mkChannel id (trim name) owner [owner] [] now kind "" "" "" false in
    (st <| channels ::= fun l => l ++ [ch] |>, Ok ch).

Definition create_channel (now name owner : string) (st : ProjectState) : ProjectState * result string Channel :=
  create_channel_with_kind now name owner "private" st.

Definition add_member (user : string) (members : list string) : list string :=
  if one_of user members then members else members ++ [user].

(** A write through [channels.iter_mut().find(id)]. *)
Definition set_channel (id : string) (f : Channel -> Channel) (st : ProjectState) : ProjectState :=
  st <| channels ::= update_first (is_channel id) f |>.

Definition create_sub_channel (now parent_id name owner kind : string) (st : ProjectState)
    : ProjectState * result string Channel :=
  match List.find (is_channel parent_id) (channels st) with
  | None => (st, Err ("no channel " +:+ parent_id))
  | Some parent =>
      if negb (can_view owner parent) then (st, Err "you are not in that channel")
      else match create_channel_with_kind now name owner kind st with
      | (st, Err e) => (st, Err e)
      | (st, Ok ch) =>
          let f c := c <| cn_parent := parent_id |>
                       <| cn_members ::= fun ms => fold_left (fun ms m => add_member m ms) (cn_members parent) ms |> in
          match List.find (is_channel (cn_id ch)) (channels st) with
          | None => (st, Err "channel vanished")
          | Some created => (set_channel (cn_id ch) f st, Ok (f created))
          end
      end
  end.

Definition update_channel_settings (id : string) (kind : option string) (open_invite : option bool)
    (topic : option string) (st : ProjectState) : ProjectState * result string Channel :=
  match List.find (is_channel id) (channels st) with
  | None => (st, Err ("no channel " +:+ id))
  | Some ch =>
      let set_rest c :=
        let c := match open_invite with Some o => c <| cn_open_invite := o |> | None => c end in
        match topic with Some t => c <| cn_topic := take_chars 200 (trim t) |> | None => c end in
      let apply f := (set_channel id f st, Ok (f ch)) in
      match kind with
      | None => apply set_rest
      | Some k =>
          if negb (can_change_privacy ch) then (st, Err "#general cannot be made private")
          else if negb (valid_kind k) then (st, Err ("unknown channel kind " +:+ k))
          else apply (fun c => set_rest (c <| cn_kind := k |>))
      end
  end.

Definition without (user : string) (l : list string) : list string :=
  List.filter (fun m => negb (bool_decide (m = user))) l.

Definition remove_channel_member (id user : string) (st : ProjectState) : ProjectState * result string Channel :=
  match List.find (is_channel id) (channels st) with
  | None => (st, Err ("no channel " +:+ id))
  | Some ch =>
      if decide (cn_owner ch = user) then (st, Err "the owner cannot be removed from their own channel")
      else
        let f c := c <| cn_members ::= without user |> <| cn_inviters ::= without user |> in
        (set_channel id f st, Ok (f ch))
  end.

Definition invite_to_channel (id actor invitee : string) (st : ProjectState) : ProjectState * result string unit :=
  match List.find (is_channel id) (channels st) with
  | None => (st, Err "channel not found")
  | Some ch =>
      if negb (can_invite actor ch) then (st, Err "you don't have permission to invite to this channel")
      else
        let invitee := trim invitee in
        if bool_decide (invitee = "") then (st, Err "no user to invite")
        else if negb (bool_decide (cn_owner ch = invitee)) && negb (one_of invitee (cn_members ch))
        then (set_channel id (fun c => c <| cn_members ::= fun ms => ms ++ [invitee] |>) st, Ok tt)
        else (st, Ok tt)
  end.

Definition delegate_invite (id actor grantee : string) (st : ProjectState) : ProjectState * result string unit :=
  match List.find (is_channel id) (channels st) with
  | None => (st, Err "channel not found")
  | Some ch =>
      if decide (cn_owner ch <> actor) then (st, Err "only the channel owner can delegate invite permission")
      else
        let grantee := trim grantee in
        if bool_decide (grantee = "") then (st, Err "no user to delegate to")
        else (set_channel id (fun c => c <| cn_members ::= add_member grantee |>
                                         <| cn_inviters ::= add_member grantee |>) st, Ok tt)
  end.

(** ** The operations as one machine *)

Inductive ChannelOp :=
| OCreate (now name owner kind : string)
| OCreateSub (now parent_id name owner kind : string)
| OSettings (id : string) (kind : option string) (open_invite : option bool) (topic : option string)
| ORemove (id user : string)
| OInvite (id actor invitee : string)
| ODelegate (id actor grantee : string).

Definition channel_op (op : ChannelOp) (st : ProjectState) : ProjectState :=
  match op with
  | OCreate now name owner kind => (create_channel_with_kind now name owner kind st).1
  | OCreateSub now p name owner kind => (create_sub_channel now p name owner kind st).1
  | OSettings id k o t => (update_channel_settings id k o t st).1
  | ORemove id user => (remove_channel_member id user st).1
  | OInvite id actor invitee => (invite_to_channel id actor invitee st).1
  | ODelegate id actor grantee => (delegate_invite id actor grantee st).1
  end.

Definition run_channels (ops : list ChannelOp) (st : ProjectState) : ProjectState :=
  fold_left (fun st op => channel_op op st) ops st.

Record channel_ok (c : Channel) : Prop := {
  co_id : cn_id c <> "" /\ cn_id c <> GENERAL_CHANNEL;
  co_owner : cn_owner c ∈ cn_members c;
  co_members : NoDup (cn_members c);
  co_inviters : NoDup (cn_inviters c) /\ forall u, u ∈ cn_inviters c -> u ∈ cn_members c;
  co_kind : valid_kind (cn_kind c) = true;
}.

Definition channels_wf (st : ProjectState) : Prop :=
  NoDup (cn_id <$> channels st) /\ Forall channel_ok (channels st).

(** ** Lemmas *)

Lemma elem_of_add_member u v l : v ∈ add_member u l <-> v ∈ l \/ v = u.
Proof.
  unfold add_member, one_of. case_bool_decide as H; [naive_solver|].
  by rewrite elem_of_app, list_elem_of_singleton.
Qed.

Lemma NoDup_add_member u l : NoDup l -> NoDup (add_member u l).
Proof.
  intros H. unfold add_member, one_of. case_bool_decide as Hu; [done|]. apply NoDup_app.
  split_and!; [done| |apply NoDup_singleton]. by intros v Hv ->%list_elem_of_singleton.
Qed.

Lemma add_members_spec more l :
  let l' := fold_left (fun ms m => add_member m ms) more l in
  (NoDup l -> NoDup l') /\ forall u, u ∈ l' <-> u ∈ l \/ u ∈ more.
Proof.
  revert l. induction more as [|m more IH]; intros l; cbn.
  - split; [done|]. intros u. set_solver.
  - destruct (IH (add_member m l)) as [H1 H2]. split; [intros H; by apply H1, NoDup_add_member|].
    intros u. rewrite H2, elem_of_add_member, elem_of_cons. naive_solver.
Qed.

Lemma elem_of_without u v l : v ∈ without u l <-> v ∈ l /\ v <> u.
Proof.
  unfold without. rewrite elem_of_filter_bool, negb_true_iff, bool_decide_eq_false. done.
Qed.

Lemma NoDup_without u l : NoDup l -> NoDup (without u l).
Proof. intros H. eapply sublist_NoDup; [exact H|apply filter_bool_sublist]. Qed.

Lemma is_channel_true id c : is_channel id c = true <-> cn_id c = id.
Proof. unfold is_channel. by rewrite bool_decide_eq_true. Qed.

(** A write to the channel found keeps the list well formed as soon as it keeps
    that channel well formed. *)
Lemma set_channel_wf id f ch st :
  List.find (is_channel id) (channels st) = Some ch ->
  (forall c, cn_id (f c) = cn_id c) -> (channel_ok ch -> channel_ok (f ch)) ->
  channels_wf st -> channels_wf (set_channel id f st).
Proof.
  intros Hfind Hid Hok [Hn Hall]. unfold channels_wf, set_channel.
  change (channels (st <| channels ::= ?g |>)) with (g (channels st)). split.
  - by rewrite map_update_first.
  - destruct (update_first_found _ f _ _ Hfind) as (l1 & l2 & E1 & ->).
    rewrite E1 in Hall. rewrite Forall_app, Forall_cons in *. naive_solver.
Qed.

(** What a successful creation appends. *)
Lemma create_cases now name owner kind st :
  (exists e, create_channel_with_kind now name owner kind st = (st, Err e)) \/
  exists ch, channel_ok ch /\ cn_id ch ∉ (cn_id <$> channels st) /\ cn_inviters ch = [] /\
    create_channel_with_kind now name owner kind st = (st <| channels ::= fun l => l ++ [ch] |>, Ok ch).
Proof.
  unfold create_channel_with_kind. case_bool_decide as Hid; [eauto|].
  case_bool_decide as Hg; cbn [orb]; [eauto|].
  destruct (existsb _ _) eqn:Ex; [eauto|]. destruct (valid_kind kind) eqn:Hk; cbn [negb]; [|eauto].
  right. eexists. split_and!; [| | |done]; [| |done].
  - split; cbn; [done|by left|apply NoDup_singleton|split; [constructor|set_solver]|done].
  - cbn. intros (c & E & Hc)%list_elem_of_fmap. apply not_true_iff_false in Ex. apply Ex, existsb_exists.
    exists c. by rewrite is_channel_true, <- list_elem_of_In.
Qed.

Lemma append_channel_wf ch st :
  channel_ok ch -> cn_id ch ∉ (cn_id <$> channels st) -> channels_wf st ->
  channels_wf (st <| channels ::= fun l => l ++ [ch] |>).
Proof.
  intros Hok Hni [Hn Hall]. unfold channels_wf. change (channels (st <| channels ::= ?g |>)) with (g (channels st)).
  split.
  - rewrite fmap_app. apply NoDup_app. split_and!; [done| |apply NoDup_singleton].
    by intros x Hx ->%list_elem_of_singleton.
  - apply Forall_app. split; [done|]. by apply Forall_singleton.
Qed.

Lemma inherit_ok parent_id more c :
  channel_ok c ->
  channel_ok (c <| cn_parent := parent_id |>
                <| cn_members ::= fun ms => fold_left (fun ms m => add_member m ms) more ms |>).
Proof.
  intros [Hid Hown Hm [Hi1 Hi2] Hk]. destruct (add_members_spec more (cn_members c)) as [H1 H2].
  split; try done.
  - apply H2. by left.
  - by apply H1.
  - split; [done|]. intros u Hu. apply H2. left. by apply Hi2.
Qed.

Lemma remove_ok user c :
  cn_owner c <> user -> channel_ok c ->
  channel_ok (c <| cn_members ::= without user |> <| cn_inviters ::= without user |>).
Proof.
  intros Hne [Hid Hown Hm [Hi1 Hi2] Hk]. split; try done.
  - by apply elem_of_without.
  - by apply NoDup_without.
  - split; [by apply NoDup_without|]. intros u [Hu Hne']%elem_of_without.
    apply elem_of_without. split; [by apply Hi2|done].
Qed.

Lemma delegate_ok grantee c :
  channel_ok c ->
  channel_ok (c <| cn_members ::= add_member grantee |> <| cn_inviters ::= add_member grantee |>).
Proof.
  intros [Hid Hown Hm [Hi1 Hi2] Hk]. split; try done.
  - apply elem_of_add_member. by left.
  - by apply NoDup_add_member.
  - split; [by apply NoDup_add_member|]. intros u [Hu| ->]%elem_of_add_member;
      apply elem_of_add_member; [left; by apply Hi2|by right].
Qed.

Lemma invite_ok user c :
  one_of user (cn_members c) = false -> channel_ok c ->
  channel_ok (c <| cn_members ::= fun ms => ms ++ [user] |>).
Proof.
  intros Hn%bool_decide_eq_false [Hid Hown Hm [Hi1 Hi2] Hk]. split; try done.
  - apply elem_of_app. by left.
  - apply NoDup_app. split_and!; [done| |apply NoDup_singleton]. by intros x Hx ->%list_elem_of_singleton.
  - split; [done|]. intros u Hu. apply elem_of_app. left. by apply Hi2.
Qed.

Lemma update_settings_ok kind o t c :
  (forall k, kind = Some k -> valid_kind k = true) -> channel_ok c ->
  let c := match kind with Some k => c <| cn_kind := k |> | None => c end in
  let c := match o with Some o => c <| cn_open_invite := o |> | None => c end in
  channel_ok (match t with Some t => c <| cn_topic := take_chars 200 (trim t) |> | None => c end).
Proof.
  intros Hk [Hid Hown Hm Hi Hk']. cbv zeta.
  destruct kind as [k|], o, t; split; try done; exact (Hk k eq_refl).
Qed.

Lemma channel_op_wf op st : channels_wf st -> channels_wf (channel_op op st).
Proof.
  intros Hwf. destruct op; cbn [channel_op].
  - destruct (create_cases now name owner kind st) as [[e ->]|(ch & Hok & Hni & _ & ->)]; [done|].
    by apply append_channel_wf.
  - unfold create_sub_channel. destruct (List.find _ _) as [parent|]; [|done].
    destruct (can_view owner parent); [|done]. cbn [negb].
    destruct (create_cases now name owner kind st) as [[e ->]|(ch & Hok & Hni & _ & ->)]; [done|].
    destruct (List.find _ _) as [created|] eqn:Ec; [|by apply append_channel_wf].
    apply (set_channel_wf _ _ created); [done|done|apply inherit_ok|by apply append_channel_wf].
  - unfold update_channel_settings. destruct (List.find _ _) as [ch|] eqn:Ec; [|done].
    destruct kind as [k|].
    + destruct (can_change_privacy ch), (valid_kind k) eqn:Hk; try done. cbn [negb fst].
      apply (set_channel_wf _ _ ch); [done|by intros c; destruct open_invite, topic| |done].
      intros Hok. apply (update_settings_ok (Some k)); [|done]. by intros ? [= <-].
    + apply (set_channel_wf _ _ ch); [done|by intros c; destruct open_invite, topic| |done].
      intros Hok. by apply (update_settings_ok None).
  - unfold remove_channel_member. destruct (List.find _ _) as [ch|] eqn:Ec; [|done].
    case_decide as Ho; [done|]. apply (set_channel_wf _ _ ch); [done|done|by apply remove_ok|done].
  - unfold invite_to_channel. destruct (List.find _ _) as [ch|] eqn:Ec; [|done].
    destruct (can_invite actor ch); [|done]. cbn [negb]. case_bool_decide; [done|].
    case_bool_decide; [done|]. destruct (one_of _ _) eqn:E1; [done|]. cbn [negb andb fst].
    apply (set_channel_wf _ _ ch); [done|done|by apply invite_ok|done].
  - unfold delegate_invite. destruct (List.find _ _) as [ch|] eqn:Ec; [|done].
    case_decide as Ho; [done|]. case_bool_decide; [done|]. cbn [fst].
    apply (set_channel_wf _ _ ch); [done|done|apply delegate_ok|done].
Qed.

(** ** Who is let in, and by whom *)

(** The operation lets [user] into the channel [c] as it stands: an invitation
    by somebody who may invite, or a delegation by the owner. *)
Definition lets_in (op : ChannelOp) (c : Channel) (user : string) : bool :=
  match op with
  | OInvite id actor invitee =>
      bool_decide (id = cn_id c) && can_invite actor c && bool_decide (trim invitee = user)
  | ODelegate id actor grantee =>
      bool_decide (id = cn_id c) && bool_decide (actor = cn_owner c) && bool_decide (trim grantee = user)
  | _ => false
  end.

(** The channel [id] of the state, as [channels.iter().find] reads it. *)
Definition find_channel (id : string) (st : ProjectState) : option Channel :=
  List.find (is_channel id) (channels st).

Lemma find_set_channel id id' f st :
  (forall c, cn_id (f c) = cn_id c) ->
  find_channel id (set_channel id' f st) =
  if decide (id = id') then f <$> find_channel id st else find_channel id st.
Proof.
  intros Hf. unfold find_channel, set_channel.
  change (channels (st <| channels ::= ?g |>)) with (g (channels st)).
  induction (channels st) as [|c l IH]; cbn; [by case_decide|].
  destruct (is_channel id' c) eqn:E'; cbn.
  - apply is_channel_true in E'. unfold is_channel at 1. rewrite Hf. fold (is_channel id c).
    destruct (is_channel id c) eqn:E.
    + apply is_channel_true in E. by rewrite decide_True by congruence.
    + rewrite decide_False; [done|]. intros ->. apply not_true_iff_false in E. by apply E, is_channel_true.
  - destruct (is_channel id c) eqn:E; [|exact IH]. apply is_channel_true in E.
    rewrite decide_False; [done|]. intros ->. apply not_true_iff_false in E'. by apply E', is_channel_true.
Qed.

Lemma find_append id ch st :
  is_Some (find_channel id st) ->
  find_channel id (st <| channels ::= fun l => l ++ [ch] |>) = find_channel id st.
Proof.
  unfold find_channel. change (channels (st <| channels ::= ?g |>)) with (g (channels st)).
  intros [c Hc]. revert Hc. induction (channels st) as [|d l IH]; cbn; [done|]. by destruct (is_channel id d).
Qed.

Lemma can_view_eq u c :
  can_view u c = true <-> is_open_channel c = true \/ cn_owner c = u \/ u ∈ cn_members c.
Proof. unfold can_view, one_of. rewrite !orb_true_iff, !bool_decide_eq_true. tauto. Qed.

(** Only new members are new viewers. *)
Lemma can_view_gain u c c' :
  cn_id c' = cn_id c -> cn_owner c' = cn_owner c -> can_view u c' = true ->
  can_view u c = true \/ (u ∈ cn_members c' /\ u ∉ cn_members c).
Proof.
  intros Hid Ho. rewrite !can_view_eq. unfold is_open_channel. rewrite Hid, Ho.
  destruct (decide (u ∈ cn_members c)); tauto.
Qed.

Lemma find_channel_id id st c : find_channel id st = Some c -> cn_id c = id.
Proof. intros [_ H%is_channel_true]%find_elem. done. Qed.

(** After the operation [op] the channel [id] is still there, and a user who now
    sees it saw the channel [c] it was, or was let in. *)
Definition access_kept (op : ChannelOp) (id : string) (c : Channel) (st : ProjectState) : Prop :=
  exists c', find_channel id st = Some c' /\
    forall u, can_view u c' = true -> can_view u c = true \/ lets_in op c u = true.

Lemma access_kept_same op id c st : find_channel id st = Some c -> access_kept op id c st.
Proof. intros H. exists c. by split; [|left]. Qed.

(** A write that lets in only the users [op] names. *)
Lemma access_kept_write op id id' f c st :
  find_channel id st = Some c ->
  (forall d, cn_id (f d) = cn_id d /\ cn_owner (f d) = cn_owner d) ->
  (id = id' -> forall u, u ∈ cn_members (f c) -> u ∉ cn_members c -> lets_in op c u = true) ->
  access_kept op id c (set_channel id' f st).
Proof.
  intros Hc Hf Hm. unfold access_kept. rewrite find_set_channel by (intros d; apply Hf). rewrite Hc.
  case_decide as E; eexists; (split; [done|]); [|by left]. intros u Hv.
  destruct (can_view_gain u c (f c)) as [?|[Hu Hn]]; [apply Hf|apply Hf|done|by left|].
  right. by apply (Hm E).
Qed.

Lemma access_kept_append op id c ch st :
  find_channel id st = Some c -> access_kept op id c (st <| channels ::= fun l => l ++ [ch] |>).
Proof. intros H. apply access_kept_same. by rewrite find_append by (rewrite H; eauto). Qed.

Lemma create_sub_access now p name owner kind id c st :
  find_channel id st = Some c ->
  access_kept (OCreateSub now p name owner kind) id c (create_sub_channel now p name owner kind st).1.
Proof.
  intros Hc. unfold create_sub_channel. destruct (List.find _ _) as [parent|]; [|by apply access_kept_same].
  destruct (can_view owner parent); [|by apply access_kept_same]. cbn [negb].
  destruct (create_cases now name owner kind st) as [[e ->]|(ch & _ & Hni & _ & ->)];
    [by apply access_kept_same|].
  destruct (List.find _ _) as [created|]; [|by apply access_kept_append].
  apply access_kept_write; [by rewrite find_append by (rewrite Hc; eauto)|done|].
  intros ->. exfalso. apply Hni. rewrite <- (find_channel_id _ _ _ Hc). apply list_elem_of_fmap_2.
  by apply find_elem in Hc as [? _].
Qed.

Lemma invite_access id' actor invitee id c st :
  find_channel id st = Some c ->
  access_kept (OInvite id' actor invitee) id c (invite_to_channel id' actor invitee st).1.
Proof.
  intros Hc. unfold invite_to_channel. destruct (List.find _ _) as [ch|] eqn:Ec; [|by apply access_kept_same].
  destruct (can_invite actor ch) eqn:Ei; [|by apply access_kept_same]. cbn [negb].
  case_bool_decide; [by apply access_kept_same|]. destruct (_ && _); [|by apply access_kept_same].
  apply access_kept_write; [done|done|]. cbn. intros -> u Hu Hn.
  assert (ch = c) as -> by (unfold find_channel in Hc; congruence).
  pose proof (find_channel_id _ _ _ Hc) as Hid.
  apply elem_of_app in Hu as [?| ->%list_elem_of_singleton]; [done|].
  by rewrite Ei, !bool_decide_true by done.
Qed.

Lemma delegate_access id' actor grantee id c st :
  find_channel id st = Some c ->
  access_kept (ODelegate id' actor grantee) id c (delegate_invite id' actor grantee st).1.
Proof.
  intros Hc. unfold delegate_invite. destruct (List.find _ _) as [ch|] eqn:Ec; [|by apply access_kept_same].
  case_decide as Ho; [by apply access_kept_same|].
  case_bool_decide; [by apply access_kept_same|].
  apply access_kept_write; [done|done|]. cbn. intros -> u Hu Hn.
  assert (ch = c) as -> by (unfold find_channel in Hc; congruence).
  pose proof (find_channel_id _ _ _ Hc) as Hid.
  apply elem_of_add_member in Hu as [?| ->]; [done|]. by rewrite !bool_decide_true by done.
Qed.

(** One operation, on one channel that was there before it. *)
Lemma channel_op_access op st id c : find_channel id st = Some c -> access_kept op id c (channel_op op st).
Proof.
  intros Hc. destruct op; cbn [channel_op]; [|by apply create_sub_access|..].
  - destruct (create_cases now name owner kind st) as [[e ->]|(ch & _ & _ & _ & ->)];
      [by apply access_kept_same|by apply access_kept_append].
  - unfold update_channel_settings. destruct (List.find _ _) as [ch|]; [|by apply access_kept_same].
    destruct kind as [k|];
      [destruct (can_change_privacy ch), (valid_kind k); try by apply access_kept_same|];
      (apply access_kept_write; [done|intros d|intros _ u]; by destruct open_invite, topic).
  - unfold remove_channel_member. destruct (List.find _ _) as [ch|]; [|by apply access_kept_same].
    case_decide; [by apply access_kept_same|]. apply access_kept_write; [done|done|]. cbn.
    by intros _ u [? _]%elem_of_without ?.
  - by apply invite_access.
  - by apply delegate_access.
Qed.

(** ** Properties *)

(** C39: The channel list stays well formed under every operation, whatever its
    arguments: ids are distinct, never empty and never the system channel
    "general"; the owner is a member and is never removed; members and
    inviters are lists without repetition and every inviter is a member; the
    kind is "private" or "public". Every sequence of operations keeps a well
    formed state so, and a fresh project state starts well formed. *)
Theorem channels_invariant ops st : channels_wf st -> channels_wf (run_channels ops st).
Proof. apply fold_left_invariant. intros st' op. apply channel_op_wf. Qed.

(** C38: Nobody enters an existing channel uninvited. Over any sequence of
    operations, a channel that exists stays (by its id), and a user who could
    not see it before and can see it after was let in by one operation of the
    sequence: an invitation by somebody who, at that moment, had the right to
    invite to this channel, or a delegation by its owner. Changing the kind or
    the topic, creating sub-channels and removing members let nobody in. *)
Theorem access_needs_invite ops st id c :
  find_channel id st = Some c ->
  exists c', find_channel id (run_channels ops st) = Some c' /\
    forall u, can_view u c = false -> can_view u c' = true ->
    exists before op after cm,
      ops = before ++ op :: after /\ find_channel id (run_channels before st) = Some cm /\
      lets_in op cm u = true.
Proof.
  revert st c. induction ops as [|op ops IH]; intros st c Hc.
  - exists c. split; [done|]. congruence.
  - destruct (channel_op_access op st id c Hc) as (c1 & Hc1 & H1).
    destruct (IH (channel_op op st) c1 Hc1) as (c' & Hc' & H'). exists c'. split; [done|]. intros u Hn Hv.
    destruct (can_view u c1) eqn:E1.
    + destruct (H1 u E1) as [?|Hl]; [congruence|]. by exists [], op, ops, c.
    + destruct (H' u E1 Hv) as (before & op' & after & cm & -> & Hcm & Hl).
      by exists (op :: before), op', after, cm.
Qed.

(** A channel whose name slugs to "agents" is accepted, and is then open: the
    creation only refuses "general", while [is_open] and [can_invite] treat
    the id "agents" as the system channel. Its owner's private channel is
    readable by everyone, and [channel] never returns it. *)
Lemma agents_channel_is_open :
  let '(st, r) := create_channel_with_kind "t" "Agents" "ann" "private" ProjectState_default in
  is_ok r = true /\ existsb (can_view "eve") (channels st) = true /\
  existsb (can_invite "eve") (channels st) = true /\ cn_owner <$> channel "agents" st = Some "".
Proof. by vm_compute. Qed.

Definition design_ops : list ChannelOp :=
  [OCreate "t" "Design" "ann" "private"; OSettings "design" (Some "public") None (Some "pixels");
   OInvite "design" "eve" "eve"; ODelegate "design" "ann" "bob"; OInvite "design" "bob" " cal ";
   OCreateSub "t" "design" "Icons" "cal" "private"; ORemove "design" "bob"].

Lemma channels_invariant_witness :
  channels_wf (run_channels design_ops ProjectState_default) /\
  (cn_id <$> channels (run_channels design_ops ProjectState_default)) = ["design"; "icons"].
Proof. split; [by apply channels_invariant; split; constructor|by vm_compute]. Defined.

Lemma access_needs_invite_witness :
  let st := run_channels (take 1 design_ops) ProjectState_default in
  exists c, find_channel "design" st = Some c /\ can_view "cal" c = false /\
    exists c', find_channel "design" (run_channels (drop 1 design_ops) st) = Some c' /\
      can_view "cal" c' = true /\ can_view "eve" c' = false /\
      (can_view "cal" c = false -> can_view "cal" c' = true ->
       exists before op after cm, drop 1 design_ops = before ++ op :: after /\
         find_channel "design" (run_channels before st) = Some cm /\ lets_in op cm "cal" = true).
Proof.
  cbv zeta. eexists. split; [vm_compute; reflexivity|]. split; [vm_compute; reflexivity|].
  destruct (access_needs_invite (drop 1 design_ops) (run_channels (take 1 design_ops) ProjectState_default)
    "design" (mkChannel "design" "Design" "ann" ["ann"] [] "t" "private" "" "" "" false) eq_refl) as (c' & H & Hu).
  exists c'. split; [exact H|]. vm_compute in H. injection H as <-.
  split; [vm_compute; reflexivity|]. split; [vm_compute; reflexivity|]. exact (Hu "cal").
Defined.
