(* ===== verification/Approval.v ===== *)
(** * Adaptive approval: risk, memory, policy and the pass

    [approval_risk.rs], [approval_memory.rs] and [approval_policy.rs] of the
    use cases, [AdaptiveConfig] of [config.rs], and [adaptive_approval_pass] of
    [cycle/audits.rs] as a function on the state. Unicode case folding
    ([to_lowercase]), [char::is_alphanumeric] and the RFC 3339 parser
    ([parse_nanos], nanoseconds since the epoch) are parameters; [now] is
    [now_rfc3339()] and [mint n] the id of the [n]-th post. *)
From S2P Require Import Prelude RustStr Kinds TestCase Ticket State StateOps Integrity Backlog.

(** ** Risk *)

Definition SENSITIVE : list string :=
  [".github/workflows"; "Dockerfile"; "docker-compose"; "scripts/"; "Cargo.toml"; "coxagent.json"; "deploy/"].

Inductive Lane := Auto | Ask.

Record RiskVerdict := mkRiskVerdict { rv_lane : Lane; rv_score : Z; rv_why : string }.

Definition is_sensitive (f : string) : bool := existsb (fun s => contains s f) SENSITIVE.

(** The files of the technical design, [unwrap_or_default]. *)
Definition design_files (t : Ticket) : list string := default [] (td_files <$> d_technical (t_design t)).

Definition complexity_debug (c : Complexity) : string :=
  match c with CSmall => "Small" | CMedium => "Medium" | CLarge => "Large" end.

Definition SHAPE_KINDS : list string := ["test"; "docs"; "bug"; "chore"; "feature"].
Definition SHAPE_COMPLEXITIES : list string := ["small"; "medium"; "large"].

Definition is_valid_shape (shape : string) : bool :=
  match split_once "/" shape with
  | None => false
  | Some (kind, complexity) =>
      one_of kind SHAPE_KINDS && one_of (str_map ascii_lower complexity) SHAPE_COMPLEXITIES
  end.

(** One signal: the score moves by [delta] and the note is kept. *)
Definition signal (applies : bool) (delta : Z) (note : string) (acc : Z * list string) : Z * list string :=
  if applies then (acc.1 + delta, acc.2 ++ [note])%Z else acc.

Section Risk.
Context (to_lowercase : string -> string) (is_alphanumeric : string -> bool).

Definition title_is_testish (title : string) : bool :=
  existsb (fun w => one_of w ["test"; "tests"; "testing"])
    (words_of is_alphanumeric (chars (to_lowercase title)) "").

Definition title_is_docish (title : string) : bool :=
  let t := to_lowercase title in
  contains "document" t || contains "docs" t || contains "readme" t.

Definition is_test_file (f : string) : bool :=
  let f := to_lowercase f in
  contains "/tests/" f || starts_with "tests/" f || ends_with "_test.rs" f || ends_with "_tests.rs" f
  || contains ".test." f || contains "/e2e/" f.

Definition files_are_all_tests (files : list string) : bool :=
  negb (bool_decide (files = [])) && forallb is_test_file files.

Definition routine_type (t : Ticket) : bool :=
  bool_decide (t_kind t = Chore) || title_is_testish (t_title t) || title_is_docish (t_title t).

(** The sum of the signals and the notes that explain it. *)
Definition signals (t : Ticket) (shipped_similar : nat) (previously_parked : bool) : Z * list string :=
  let files := design_files t in
  let acc := match t_complexity t with
             | CLarge => (80%Z, ["large"])
             | CMedium => (35%Z, [])
             | CSmall => (15%Z, [])
             end in
  let acc := signal (existsb is_sensitive files) 60 "touches build/deploy config" acc in
  let acc := signal (8 <? length files) 20 (dec_nat (length files) +:+ " files") acc in
  let acc := signal (bool_decide (t_acceptance_criteria t = [])) 25 "no acceptance criteria" acc in
  let acc := signal (routine_type t) (-25) "test/docs/chore" acc in
  let acc := signal (files_are_all_tests files) (-20) "test files only" acc in
  let acc := signal previously_parked 30 "previously parked" acc in
  let acc := (acc.1 - Z.of_nat (Nat.min shipped_similar 6) * 5, acc.2)%Z in
  signal (2 <=? shipped_similar) 0 (dec_nat shipped_similar +:+ " similar shipped") acc.

(** No amount of history makes these routine. *)
Definition hard_ask (t : Ticket) : bool :=
  bool_decide (t_complexity t = CLarge) || existsb is_sensitive (design_files t).

Definition assess (t : Ticket) (shipped_similar : nat) (previously_parked : bool) : RiskVerdict :=
  let '(score, notes) := signals t shipped_similar previously_parked in
  let score := (0 `max` (score `min` 100))%Z in
  mkRiskVerdict (if negb (hard_ask t) && (score <=? 35)%Z then Auto else Ask) score
    (if bool_decide (notes = []) then "ordinary change" else join ", " notes).

Definition shape_kind (t : Ticket) : string :=
  if title_is_testish (t_title t) then "test"
  else if title_is_docish (t_title t) then "docs"
  else match t_kind t with Bug => "bug" | Chore => "chore" | Feature => "feature" end.

Definition shape_key (t : Ticket) : string :=
  to_lowercase (shape_kind t +:+ "/" +:+ complexity_debug (t_complexity t)).
End Risk.

(** ** Memory *)

Inductive Rule :=
| AutoApprove (by_ : string) (samples : nat)
| PreflightFix (reason : string) (samples : nat)
| KeepAsking.

Definition of_shape (shape : string) (samples : list ApprovalSample) : list ApprovalSample :=
  List.filter (fun s => bool_decide (as_shape s = shape)) samples.

Definition decided (decision : string) (samples : list ApprovalSample) : list ApprovalSample :=
  List.filter (fun s => bool_decide (as_decision s = decision)) samples.

Definition rule_for (shape : string) (samples : list ApprovalSample) (learn_after : nat) : Rule :=
  let mine := of_shape shape samples in
  if negb (bool_decide (decided "undo" mine = [])) then KeepAsking
  else
    let approvals := decided "approve" mine in
    let rejects := decided "reject" mine in
    if 2 <=? length rejects then
      let reason := default "" (as_reason <$> List.find (fun s => negb (blank (as_reason s))) (reverse rejects)) in
      if negb (bool_decide (reason = "")) then PreflightFix reason (length rejects) else KeepAsking
    else if bool_decide (rejects = []) && (Nat.max learn_after 1 <=? length approvals)
    then AutoApprove (default "the team" (as_by <$> last approvals)) (length approvals)
    else KeepAsking.

Definition quote : string := String "034" "".

Definition announce (shape : string) (rule : Rule) : option string :=
  match rule with
  | AutoApprove by_ samples =>
      Some ("🤖 Learned: @" +:+ by_ +:+ " approved " +:+ dec_nat samples +:+ "/" +:+ dec_nat samples +:+ " `"
            +:+ shape +:+ "` tickets — I will auto-approve that shape from now on and post a notice "
            +:+ "instead of asking. Reply `ask again: " +:+ shape +:+ "` to reverse.")
  | PreflightFix reason samples =>
      Some ("🤖 Learned: `" +:+ shape +:+ "` tickets were rejected " +:+ dec_nat samples
            +:+ "× for the same reason (" +:+ quote +:+ reason +:+ quote
            +:+ ") — the BA will fix that BEFORE the ticket reaches anyone's inbox.")
  | KeepAsking => None
  end.

(** ** Policy *)

Definition gate_allows (lane : Lane) (learned : Rule) (has_acceptance_criteria : bool) : bool :=
  match lane, learned with
  | Auto, (KeepAsking | AutoApprove _ _) | Ask, AutoApprove _ _ => true
  | Auto, PreflightFix _ _ => has_acceptance_criteria
  | _, _ => false
  end.

Record ShapeSamples := mkShapeSamples { sm_approve : nat; sm_reject : nat; sm_undo : nat }.

Record ShapePolicy := mkShapePolicy {
  sy_shape : string;
  sy_learned : Rule;
  sy_overridden : bool;
  sy_effective : string;
  sy_samples : ShapeSamples;
  sy_deciders : list string;
  sy_last_decision_at : option string;
  sy_last_reason : option string;
}.

Record GateDecision := mkGateDecision {
  gd_ticket : TicketId;
  gd_title : string;
  gd_shape : string;
  gd_will_auto : bool;
  gd_driver : string;
  gd_risk_score : Z;
  gd_risk_why : string;
  gd_blocked_by_override : bool;
}.

Record UndoableApproval := mkUndoableApproval {
  un_ticket : TicketId;
  un_title : string;
  un_shape : string;
  un_minutes_left : N;
}.

Record ExpiredApproval := mkExpiredApproval {
  ex_ticket : TicketId;
  ex_title : string;
  ex_shape : string;
  ex_approved_at : string;
  ex_minutes_ago : option N;
}.

Record PolicyOverview := mkPolicyOverview {
  ov_enabled : bool;
  ov_gate_ready : bool;
  ov_undo_window_minutes : N;
  ov_learn_after_samples : nat;
  ov_max_auto_per_cycle : nat;
  ov_gate_off : bool;
  ov_shapes : list ShapePolicy;
  ov_deciding : list GateDecision;
  ov_undoable : list UndoableApproval;
  ov_expired : list ExpiredApproval;
}.

(** [config.rs] *)
Record AdaptiveConfig := mkAdaptiveConfig {
  ac_enabled : bool;
  ac_undo_window_minutes : N;
  ac_learn_after_samples : nat;
  ac_max_auto_per_cycle : nat;
}.

Definition undo_window_minutes (c : AdaptiveConfig) : N :=
  if (ac_undo_window_minutes c =? 0)%N then 30%N else ac_undo_window_minutes c.
Definition learn_after_samples (c : AdaptiveConfig) : nat :=
  if ac_learn_after_samples c =? 0 then 8 else ac_learn_after_samples c.
Definition max_auto_per_cycle (c : AdaptiveConfig) : nat :=
  if ac_max_auto_per_cycle c =? 0 then 3 else ac_max_auto_per_cycle c.

Definition is_auto_approve (r : Rule) : bool := match r with AutoApprove _ _ => true | _ => false end.
Definition is_preflight_fix (r : Rule) : bool := match r with PreflightFix _ _ => true | _ => false end.

Definition effective_rule (overridden : bool) (learned : Rule) : string :=
  if overridden || negb (is_auto_approve learned) then "ask" else "auto".

(** Prior art: what reached a good terminal status. *)
Definition has_shipped (t : Ticket) : bool := one_of (t_status t) [Done; Documented; Verified].

(** Designed, waiting behind the ready gate. *)
Definition is_candidate (t : Ticket) : bool :=
  bool_decide (t_status t = Pending) && bool_decide (is_Some (d_technical (t_design t))).

Section Policy.
Context (to_lowercase : string -> string) (is_alphanumeric : string -> bool).
Context (parse_nanos : string -> option Z).

#[local] Abbreviation shape_key := (shape_key to_lowercase is_alphanumeric).
#[local] Abbreviation assess := (assess to_lowercase is_alphanumeric).

(** [minutes_between]; [whole_seconds] truncates toward zero. *)
Definition minutes_between (from now : string) : option N :=
  now ← parse_nanos now;
  from ← parse_nanos from;
  let secs := Z.quot (now - from) 1000000000 in
  if (0 <=? secs)%Z then Some (Z.to_N secs / 60)%N else None.

(** [shipped.get(&shape).copied().unwrap_or(0)] of the counting loop. *)
Definition shipped_count (st : ProjectState) (shape : string) : nat :=
  length (List.filter (fun t => has_shipped t && bool_decide (shape_key t = shape)) (tickets st)).

Definition was_parked (st : ProjectState) (id : TicketId) : bool :=
  bool_decide (is_Some (ticket_fail_attempts st !! id)).

Definition overridden_le (a b : ShapePolicy) : bool :=
  if Bool.eqb (sy_overridden a) (sy_overridden b) then str_le (sy_shape a) (sy_shape b) else sy_overridden a.

Definition shape_row (st : ProjectState) (overrides : list string) (learn_after : nat) (shape : string)
    : ShapePolicy :=
  let mine := of_shape shape (approval_samples st) in
  let learned := rule_for shape (approval_samples st) learn_after in
  let overridden := one_of shape overrides in
  {| sy_shape := shape; sy_learned := learned; sy_overridden := overridden;
     sy_effective := effective_rule overridden learned;
     sy_samples := mkShapeSamples (length (decided "approve" mine)) (length (decided "reject" mine))
                     (length (decided "undo" mine));
     sy_deciders := List.filter (fun d => negb (blank d)) (btree_set (as_by <$> mine));
     sy_last_decision_at := as_at <$> last mine;
     sy_last_reason := r ← as_reason <$> last mine; if blank r then None else Some r |}.

Definition shape_rows (st : ProjectState) (overrides : list string) (learn_after : nat) : list ShapePolicy :=
  let known := btree_set ((as_shape <$> approval_samples st) ++ ask_again_shapes st ++
                          (shape_key <$> tickets st)) in
  sort_by overridden_le (shape_row st overrides learn_after <$> known).

Definition deciding_row (st : ProjectState) (overrides : list string) (learn_after : nat) (t : Ticket)
    : GateDecision :=
  let shape := shape_key t in
  let verdict := assess t (shipped_count st shape) (was_parked st (t_id t)) in
  let learned := rule_for shape (approval_samples st) learn_after in
  let overridden := one_of shape overrides in
  let has_criteria := negb (bool_decide (t_acceptance_criteria t = [])) in
  let will_auto := negb overridden && gate_allows (rv_lane verdict) learned has_criteria in
  {| gd_ticket := t_id t; gd_title := t_title t; gd_shape := shape; gd_will_auto := will_auto;
     gd_driver := if overridden then "override"
                  else if is_auto_approve learned then "learned"
                  else if is_preflight_fix learned && will_auto then "preflight" else "risk";
     gd_risk_score := rv_score verdict; gd_risk_why := rv_why verdict;
     gd_blocked_by_override := overridden |}.

Definition deciding_rows (st : ProjectState) (overrides : list string) (learn_after : nat)
    : list GateDecision :=
  deciding_row st overrides learn_after <$> List.filter is_candidate (tickets st).

(** The loop of [undo_lists] over the entries of [auto_approved_at]. *)
Fixpoint undo_loop (st : ProjectState) (undo_window : N) (now : string) (ids : list string)
    : list UndoableApproval * list ExpiredApproval :=
  match ids with
  | [] => ([], [])
  | id :: ids =>
      let '(undoable, expired) := undo_loop st undo_window now ids in
      match auto_approved_at st !! id, ticket id st with
      | Some at_, Some t =>
          match minutes_between at_ now with
          | Some age =>
              if (age <=? undo_window)%N
              then (mkUndoableApproval id (t_title t) (shape_key t) (undo_window - age) :: undoable, expired)
              else (undoable, mkExpiredApproval id (t_title t) (shape_key t) at_ (Some age) :: expired)
          | None => (undoable, mkExpiredApproval id (t_title t) (shape_key t) at_ None :: expired)
          end
      | _, _ => (undoable, expired)
      end
  end.

Definition undo_lists (st : ProjectState) (undo_window : N) (now : string)
    : list UndoableApproval * list ExpiredApproval :=
  undo_loop st undo_window now (btree_keys (auto_approved_at st)).

Definition policy_overview (st : ProjectState) (adaptive : AdaptiveConfig) (gate_ready : bool) (now : string)
    : PolicyOverview :=
  let gate_off := negb (ac_enabled adaptive) || negb gate_ready in
  let lists := undo_lists st (undo_window_minutes adaptive) now in
  let learn_after := learn_after_samples adaptive in
  let overrides := btree_set (ask_again_shapes st) in
  {| ov_enabled := ac_enabled adaptive; ov_gate_ready := gate_ready;
     ov_undo_window_minutes := undo_window_minutes adaptive;
     ov_learn_after_samples := learn_after; ov_max_auto_per_cycle := max_auto_per_cycle adaptive;
     ov_gate_off := gate_off;
     ov_shapes := if gate_off then [] else shape_rows st overrides learn_after;
     ov_deciding := if gate_off then [] else deciding_rows st overrides learn_after;
     ov_undoable := if gate_off then [] else lists.1;
     ov_expired := if gate_off then [] else lists.2 |}.

(** ** The pass *)

(** [cfg_undo_minutes] *)
Definition cfg_undo_minutes : N := 30.

Definition APPROVALS_CHANNEL : string := "approvals".

Definition promotion_notice (id : TicketId) (verdict : RiskVerdict) (title : string) : string :=
  "🤖 " +:+ id +:+ " auto-approved — " +:+ rv_why verdict +:+ " (risk " +:+ pretty (rv_score verdict) +:+ "). "
  +:+ title +:+ ". Undo within " +:+ dec cfg_undo_minutes +:+ " minutes if this needed a person.".

(** The candidate loop: the state, the announcements and the count so far.
    [st0] is the state the pass read its prior art, samples and overrides from. *)
Fixpoint pass_loop (st0 : ProjectState) (now : string) (cap learn_after : nat) (candidates : list TicketId)
    (st : ProjectState) (announced : list string) (promoted : nat) : ProjectState * list string :=
  match candidates with
  | [] => (st, announced)
  | id :: candidates =>
      if cap <=? promoted then (st, announced)
      else
        let continue := pass_loop st0 now cap learn_after candidates in
        match ticket id st with
        | None => continue st announced promoted
        | Some t =>
            let shape := shape_key t in
            if one_of shape (ask_again_shapes st0) then continue st announced promoted
            else
              let verdict := assess t (shipped_count st0 shape) (was_parked st0 id) in
              let learned := rule_for shape (approval_samples st0) learn_after in
              if negb (gate_allows (rv_lane verdict) learned (negb (bool_decide (t_acceptance_criteria t = []))))
              then continue st announced promoted
              else match transition_to System Ready t with
              | Err _ => continue st announced promoted
              | Ok t' =>
                  let st := set_ticket id (fun _ => t') st <| auto_approved_at ::= <[id := now]> |> in
                  let announced := announced ++ [promotion_notice id verdict (t_title t)] in
                  match announce shape learned with
                  | Some msg =>
                      if one_of msg (decisions st) then continue st announced (S promoted)
                      else continue (st <| decisions ::= fun ds => ds ++ [msg] |>) (announced ++ [msg]) (S promoted)
                  | None => continue st announced (S promoted)
                  end
              end
        end
  end.

Definition post_all (mint : nat -> string) (now : string) (announced : list string) (st : ProjectState)
    : ProjectState :=
  foldl (fun st '(n, msg) => post_chat_in (mint n) now "SYSTEM" msg APPROVALS_CHANNEL [] st) st
    (imap (fun n msg => (n, msg)) announced).

(** The mutator of [adaptive_approval_pass]. *)
Definition run_pass (mint : nat -> string) (now : string) (cap learn_after : nat) (st : ProjectState)
    : ProjectState :=
  let candidates := t_id <$> List.filter is_candidate (tickets st) in
  let '(st', announced) := pass_loop st now cap learn_after candidates st [] 0 in
  post_all mint now announced st'.

Definition adaptive_approval_pass (mint : nat -> string) (now : string) (gate_ready : bool)
    (adaptive : AdaptiveConfig) (st : ProjectState) : ProjectState :=
  if negb gate_ready || negb (ac_enabled adaptive) then st
  else run_pass mint now (max_auto_per_cycle adaptive) (learn_after_samples adaptive) st.
End Policy.

(** ** Lemmas *)

Lemma transition_to_keeps_id actor to t t' : transition_to actor to t = Ok t' -> t_id t' = t_id t.
Proof.
  unfold transition_to. destruct (negb _); [done|]. destruct (negb _); [done|].
  intros (u & _ & (v & _ & [= <-])%result_bind_ok)%result_bind_ok. by case_decide; destruct t.
Qed.

(** A ticket let into Ready by the pass; unchanged when the gate refuses it. *)
Definition promote (t : Ticket) : Ticket := default t (result_ok (transition_to System Ready t)).

Lemma promote_id t : t_id (promote t) = t_id t.
Proof.
  unfold promote. destruct (transition_to System Ready t) eqn:E; [|done]. by eapply transition_to_keeps_id.
Qed.

Definition mark_approved (now : string) (ids : list TicketId) (m : gmap string string) : gmap string string :=
  foldl (fun m id => <[id := now]> m) m ids.

Lemma lookup_mark_approved now ids m id :
  mark_approved now ids m !! id = if decide (id ∈ ids) then Some now else m !! id.
Proof.
  unfold mark_approved. revert m. induction ids as [|x ids IH]; intros m; cbn.
  - rewrite decide_False; [done|]. by intros ?%elem_of_nil.
  - rewrite IH. destruct (decide (id ∈ ids)) as [Hi|Hi].
    + rewrite decide_True; [done|by right].
    + destruct (decide (id = x)) as [->|Hne].
      * rewrite lookup_insert_eq, decide_True; [done|left].
      * rewrite lookup_insert_ne, decide_False; [done| |done]. by intros [?|?]%elem_of_cons.
Qed.

(** The state once [ids] are let through and [ds] announced. *)
Definition promoted_state (now : string) (ids : list TicketId) (ds : list string) (st : ProjectState) : ProjectState :=
  st <| tickets := change_all promote ids (tickets st) |>
     <| auto_approved_at := mark_approved now ids (auto_approved_at st) |>
     <| decisions := decisions st ++ ds |>.

Lemma tickets_promoted now ids ds st : tickets (promoted_state now ids ds st) = change_all promote ids (tickets st).
Proof. done. Qed.

Lemma decisions_promoted now ids ds st : decisions (promoted_state now ids ds st) = decisions st ++ ds.
Proof. done. Qed.

Lemma promoted_state_nil now st : promoted_state now [] [] st = st.
Proof. unfold promoted_state. by rewrite change_all_nil, app_nil_r. Qed.

Lemma promoted_state_cons now id ids ds ds' st :
  id ∉ ids ->
  promoted_state now ids ds (promoted_state now [id] ds' st) = promoted_state now (id :: ids) (ds' ++ ds) st.
Proof.
  intros Hid. unfold promoted_state at 1 3. rewrite <- change_all_cons by (done || apply promote_id).
  by rewrite app_assoc.
Qed.

Section PassFacts.
Context (to_lowercase : string -> string) (is_alphanumeric : string -> bool).
Context (st0 : ProjectState) (now : string) (cap learn_after : nat).

#[local] Abbreviation loop := (pass_loop to_lowercase is_alphanumeric st0 now cap learn_after).

(** The gate's verdict on a ticket, and whether its transition is legal. *)
Definition wins (t : Ticket) : bool :=
  gd_will_auto (deciding_row to_lowercase is_alphanumeric st0 (ask_again_shapes st0) learn_after t)
  && is_ok (transition_to System Ready t).

Definition wins_id (id : TicketId) : bool :=
  match ticket id st0 with Some t => wins t | None => false end.

(** One candidate below the cap: it is let through with at most one new
    decision, or passed over. *)
Lemma pass_loop_cons id cs st announced n :
  NoDup (t_id <$> tickets st) -> ticket id st = ticket id st0 -> n < cap ->
  if wins_id id
  then exists ds announced', loop (id :: cs) st announced n
         = loop cs (promoted_state now [id] ds st) announced' (S n) /\
         NoDup ds /\ forall d, d ∈ ds -> d ∉ decisions st
  else loop (id :: cs) st announced n = loop cs st announced n.
Proof.
  intros Hnd Hsame Hn. cbn [pass_loop]. rewrite (proj2 (Nat.leb_gt cap n)) by done.
  unfold wins_id. rewrite <- Hsame. destruct (ticket id st) as [t|] eqn:Ht; [|done].
  unfold wins. cbn [gd_will_auto deciding_row]. destruct (one_of _ _); cbn [negb andb]; [done|].
  rewrite (proj1 (find_ticket_id _ _ _ Ht)). destruct (gate_allows _ _ _); cbn [negb andb]; [|done].
  destruct (transition_to System Ready t) as [t'|] eqn:Et; cbn [is_ok]; [|done].
  assert (Hst : set_ticket id (fun _ => t') st <| auto_approved_at ::= <[id := now]> |> = promoted_state now [id] [] st).
  { unfold promoted_state, set_ticket. rewrite app_nil_r, <- (update_first_change promote id t) by done.
    unfold promote. by rewrite Et. }
  destruct (announce _ _) as [msg|].
  - rewrite Hst. destruct (one_of msg _) eqn:Em.
    + exists []. eexists. split; [done|]. split; [apply NoDup_nil_2|by intros d ?%elem_of_nil].
    + exists [msg]. eexists. split; [f_equal; unfold promoted_state; by rewrite app_nil_r|].
      split; [apply NoDup_singleton|]. intros d ->%list_elem_of_singleton.
      apply bool_decide_eq_false in Em. by rewrite decisions_promoted, app_nil_r in Em.
  - exists []. eexists. rewrite Hst. split; [done|]. split; [apply NoDup_nil_2|by intros d ?%elem_of_nil].
Qed.

Lemma pass_loop_full id cs st announced n : cap <= n -> loop (id :: cs) st announced n = (st, announced).
Proof. intros Hn. cbn [pass_loop]. by rewrite (proj2 (Nat.leb_le cap n)). Qed.

(** The loop lets the first winners through, as many as the cap leaves room for. *)
Lemma pass_loop_spec cs : forall st announced n,
  NoDup (t_id <$> tickets st) -> NoDup cs -> (forall id, id ∈ cs -> ticket id st = ticket id st0) ->
  exists ds announced',
    loop cs st announced n = (promoted_state now (take (cap - n) (List.filter wins_id cs)) ds st, announced') /\
    NoDup ds /\ forall d, d ∈ ds -> d ∉ decisions st.
Proof.
  induction cs as [|id cs IH]; intros st announced n Hnd Hcs Hsame.
  { exists [], announced. cbn [List.filter]. rewrite firstn_nil, promoted_state_nil.
    split; [done|]. split; [apply NoDup_nil_2|by intros d ?%elem_of_nil]. }
  destruct (Nat.le_gt_cases cap n) as [Hn|Hn].
  { exists [], announced. rewrite pass_loop_full by done. replace (cap - n) with 0 by lia.
    rewrite take_0, promoted_state_nil. split; [done|]. split; [apply NoDup_nil_2|by intros d ?%elem_of_nil]. }
  pose proof (pass_loop_cons id cs st announced n Hnd (Hsame id ltac:(left)) Hn) as Hstep.
  apply NoDup_cons in Hcs as [Hid Hcs]. cbn [List.filter]. destruct (wins_id id).
  - destruct Hstep as (ds1 & ann1 & -> & Hds1 & Hnew1).
    assert (Hni : forall k, id ∉ take k (List.filter wins_id cs)).
    { by intros k [? _]%elem_of_take_sub%elem_of_filter_bool. }
    destruct (IH (promoted_state now [id] ds1 st) ann1 (S n)) as (ds2 & ann2 & -> & Hds2 & Hnew2); [|done| |].
    { by rewrite tickets_promoted, change_all_ids by apply promote_id. }
    { intros x Hx. rewrite <- Hsame by by right. apply find_change_other; [apply promote_id|].
      rewrite list_elem_of_singleton. by intros ->. }
    exists (ds1 ++ ds2), ann2. rewrite promoted_state_cons by done.
    replace (cap - n) with (S (cap - S n)) by lia. split; [done|].
    rewrite decisions_promoted in Hnew2. split.
    + apply NoDup_app. split_and!; [done| |done]. intros d Hd Hd2. apply (Hnew2 d Hd2), elem_of_app. by right.
    + intros d [Hd|Hd]%elem_of_app Hin; [by eapply Hnew1|]. apply (Hnew2 d Hd), elem_of_app. by left.
  - rewrite Hstep. apply IH; [done..|]. intros x Hx. apply Hsame. by right.
Qed.
End PassFacts.

Lemma post_all_frame mint now announced st :
  exists ms, post_all mint now announced st = st <| chat := ms |>.
Proof.
  unfold post_all. generalize (imap (fun n msg => (n, msg)) announced). intros l. revert st.
  induction l as [|[n msg] l IH]; intros st; cbn [foldl]; [by exists (chat st)|].
  destruct (IH (post_chat_in (mint n) now "SYSTEM" msg APPROVALS_CHANNEL [] st)) as [ms ->]. by exists ms.
Qed.

(** ** Properties *)

(** The tickets the pass could legally move. *)
Definition can_promote (st : ProjectState) (id : TicketId) : bool :=
  match ticket id st with Some t => is_ok (transition_to System Ready t) | None => false end.

Lemma deciding_row_overrides to_lowercase is_alphanumeric st ov ov' learn t :
  (forall s, s ∈ ov <-> s ∈ ov') ->
  deciding_row to_lowercase is_alphanumeric st ov learn t = deciding_row to_lowercase is_alphanumeric st ov' learn t.
Proof.
  intros Hov. assert (Ho : forall s, one_of s ov = one_of s ov') by (intros s; by apply bool_decide_ext).
  unfold deciding_row. by rewrite Ho.
Qed.

(** The winners of the loop, read off the panel's rows. *)
Lemma winners_are_rows to_lowercase is_alphanumeric st learn :
  NoDup (t_id <$> tickets st) ->
  List.filter (wins_id to_lowercase is_alphanumeric st learn) (t_id <$> List.filter is_candidate (tickets st))
  = gd_ticket <$> List.filter (fun r => gd_will_auto r && can_promote st (gd_ticket r))
      (deciding_rows to_lowercase is_alphanumeric st (btree_set (ask_again_shapes st)) learn).
Proof.
  intros Hnd. unfold deciding_rows. rewrite !filter_map_key, <- list_fmap_compose. f_equal.
  apply List.filter_ext_in. intros t Ht.
  apply list_elem_of_In, elem_of_filter_bool in Ht as [Ht _].
  rewrite (deciding_row_overrides _ _ _ (btree_set _) (ask_again_shapes st)) by (intros s; apply elem_of_btree_set).
  unfold wins_id, wins, can_promote. cbn [gd_ticket deciding_row].
  unfold ticket. by rewrite (find_ticket_unique _ _ Hnd Ht).
Qed.

(** The panel tells what the loop does. On tickets with distinct ids, the
    adaptive pass lets through exactly the first [max_auto_per_cycle] rows of
    the policy panel that say "will auto" and whose ticket the Ready gate of
    the aggregate accepts: those tickets, and no others, become Ready and
    unclaimed, and exactly those get an undo entry stamped now. Apart from
    that, the pass only appends announcements to the chat and rules announced
    for the first time, once each, to the decisions. With the gate or the
    setting off it changes nothing. *)
Theorem pass_is_the_panel to_lowercase is_alphanumeric parse_nanos mint now gate_ready adaptive st :
  NoDup (t_id <$> tickets st) ->
  let panel := policy_overview to_lowercase is_alphanumeric parse_nanos st adaptive gate_ready now in
  let promoted := take (max_auto_per_cycle adaptive)
    (gd_ticket <$> List.filter (fun r => gd_will_auto r && can_promote st (gd_ticket r)) (ov_deciding panel)) in
  exists ds ms,
    adaptive_approval_pass to_lowercase is_alphanumeric mint now gate_ready adaptive st
    = (promoted_state now promoted ds st) <| chat := ms |> /\
    NoDup ds /\ (forall d, d ∈ ds -> d ∉ decisions st) /\
    (ov_gate_off panel = true -> promoted = [] /\ ds = [] /\ ms = chat st).
Proof.
  intros Hnd. cbv zeta. unfold adaptive_approval_pass, policy_overview. cbn [ov_deciding ov_gate_off].
  destruct gate_ready, (ac_enabled adaptive); cbn [negb orb];
    try (exists [], (chat st); rewrite firstn_nil, promoted_state_nil; split_and!;
         [done|apply NoDup_nil_2|by intros d ?%elem_of_nil|done]).
  unfold run_pass. set (learn := learn_after_samples adaptive). set (cap := max_auto_per_cycle adaptive).
  destruct (pass_loop_spec to_lowercase is_alphanumeric st now cap learn
    (t_id <$> List.filter is_candidate (tickets st)) st [] 0) as (ds & ann & -> & Hds & Hnew);
    [done|by apply filter_keys_NoDup|done|].
  destruct (post_all_frame mint now ann
    (promoted_state now (take (cap - 0) (List.filter (wins_id to_lowercase is_alphanumeric st learn)
       (t_id <$> List.filter is_candidate (tickets st)))) ds st)) as [ms ->].
  exists ds, ms. split_and!; [|done..].
  by rewrite Nat.sub_0_r, (winners_are_rows to_lowercase is_alphanumeric st learn Hnd).
Qed.

Lemma signals_credit to_lowercase is_alphanumeric t shipped parked :
  (signals to_lowercase is_alphanumeric t shipped parked).1
  = ((signals to_lowercase is_alphanumeric t 0 parked).1 - Z.of_nat (Nat.min shipped 6) * 5)%Z.
Proof.
  unfold signals. set (acc := signal parked _ _ _). clearbody acc.
  unfold signal. destruct (2 <=? shipped), (2 <=? 0); cbn [fst snd]; lia.
Qed.

(** The hard floor and the cap on prior art. The score is always between 0
    and 100; a large ticket, or one whose design touches a sensitive path, is
    never put in the Auto lane, whatever its other signals and however many
    similar tickets shipped; more prior art never takes a ticket out of the
    Auto lane; and it is worth 30 points at most, so a ticket whose other
    signals put it above 65 is asked about forever. *)
Theorem assess_floor to_lowercase is_alphanumeric t shipped parked :
  let verdict n := assess to_lowercase is_alphanumeric t n parked in
  (0 <= rv_score (verdict shipped) <= 100)%Z /\
  (hard_ask t = true -> rv_lane (verdict shipped) = Ask) /\
  (rv_lane (verdict shipped) = Auto -> forall more, shipped <= more -> rv_lane (verdict more) = Auto) /\
  ((65 < rv_score (verdict 0%nat))%Z -> rv_lane (verdict shipped) = Ask).
Proof.
  cbv zeta. unfold assess. pose proof (signals_credit to_lowercase is_alphanumeric t) as Hc.
  pose proof (Hc shipped parked) as H1.
  destruct (signals _ _ _ shipped _) as [s1 n1], (signals _ _ _ 0 _) as [s0 n0] eqn:E0.
  cbn [fst rv_lane rv_score] in *. split_and!.
  - apply Z.le_max_l.
  - apply Z.max_lub; [done|apply Z.le_min_r].
  - intros ->. done.
  - intros Ha more Hm. specialize (Hc more parked). rewrite E0 in Hc.
    destruct (signals _ _ _ more _) as [s2 n2]. cbn [fst] in *.
    destruct (hard_ask t); cbn [negb andb] in *; [done|].
    destruct (Z.leb_spec (0 `max` (s1 `min` 100)) 35); [|done].
    destruct (Z.leb_spec (0 `max` (s2 `min` 100)) 35); [done|]. lia.
  - intros Hs. destruct (Z.leb_spec (0 `max` (s1 `min` 100)) 35); [lia|]. by rewrite andb_false_r.
Qed.

(** The latest entry that satisfies [p]. *)
Lemma find_last_given {A} (p : A -> bool) l x :
  List.find p (reverse l) = Some x ->
  exists earlier later, l = earlier ++ x :: later /\ p x = true /\ Forall (fun y => p y = false) later.
Proof.
  induction l as [|y l IH] using rev_ind; [done|]. rewrite reverse_snoc. cbn. destruct (p y) eqn:E.
  - intros [= ->]. by exists l, [].
  - intros (earlier & later & -> & Hx & Hl)%IH. exists earlier, (later ++ [y]).
    rewrite <- app_assoc. split_and!; [done..|]. apply Forall_app. split; [done|by constructor].
Qed.

(** What the gate learns. A shape is learned as auto-approve exactly when
    nobody ever rejected a ticket of it or undid one, and it was approved at
    least [learn_after] times (at least once), the rule being attributed to the
    last approver; it becomes a preflight fix exactly when it was rejected at
    least twice, never undone and some rejection gave a reason, the reason
    being the most recent one given; in every other case the gate keeps
    asking. In particular one undo outweighs any number of approvals before or
    after it. *)
Theorem rule_for_exact shape samples learn_after :
  let by_decision d := decided d (of_shape shape samples) in
  match rule_for shape samples learn_after with
  | AutoApprove by_ n =>
      by_decision "undo" = [] /\ by_decision "reject" = [] /\ n = length (by_decision "approve") /\
      Nat.max learn_after 1 <= n /\ exists s, last (by_decision "approve") = Some s /\ as_by s = by_
  | PreflightFix reason n =>
      by_decision "undo" = [] /\ n = length (by_decision "reject") /\ 2 <= n /\ reason <> "" /\
      exists earlier s later, by_decision "reject" = earlier ++ s :: later /\ as_reason s = reason /\
        blank reason = false /\ Forall (fun r => blank (as_reason r) = true) later
  | KeepAsking =>
      by_decision "undo" <> [] \/
      (by_decision "reject" <> [] /\ Forall (fun r => blank (as_reason r) = true) (by_decision "reject")) \/
      length (by_decision "reject") = 1 \/
      (by_decision "reject" = [] /\ length (by_decision "approve") < Nat.max learn_after 1)
  end.
Proof.
  cbv zeta. unfold rule_for. set (mine := of_shape shape samples).
  destruct (bool_decide_reflect (decided "undo" mine = [])) as [Hu|Hu]; cbn [negb]; [|by left].
  destruct (Nat.leb_spec 2 (length (decided "reject" mine))) as [Hr|Hr].
  - destruct (List.find _ _) as [s|] eqn:Ef; cbn [default from_option fmap option_fmap option_map].
    + destruct (find_last_given _ _ _ Ef) as (earlier & later & E & Hs & Hl).
      apply negb_true_iff in Hs. assert (as_reason s <> "") by by intros E0; rewrite E0 in Hs.
      rewrite bool_decide_false by done. cbn [negb]. split_and!; [done..|].
      exists earlier, s, later. split_and!; [done..|]. eapply Forall_impl; [exact Hl|].
      intros r Hb. by apply negb_false_iff in Hb.
    + rewrite bool_decide_true by done. cbn [negb]. right. left. split.
      { intros E0. rewrite E0 in Hr. cbn in Hr. lia. }
      apply Forall_forall. intros r Hin. pose proof (find_is_none _ _ Ef r) as Hb.
      rewrite elem_of_reverse in Hb. specialize (Hb Hin). by apply negb_false_iff in Hb.
  - destruct (bool_decide_reflect (decided "reject" mine = [])) as [Hn|Hn]; cbn [andb].
    + destruct (Nat.leb_spec (Nat.max learn_after 1) (length (decided "approve" mine))) as [Ha|Ha].
      * split_and!; [done..|]. destruct (last (decided "approve" mine)) as [s|] eqn:El; [by exists s|].
        apply last_None in El. rewrite El in Ha. cbn in Ha. lia.
      * right. right. right. split; [done|lia].
    + right. right. left. destruct (decided "reject" mine) as [|? [|? ?]]; cbn in *; [done|done|lia].
Qed.

(** ** Samples *)

Definition word_char (c : string) : bool :=
  match c with String a EmptyString => is_ascii_alnum a | _ => false end.

(** A designed ticket waiting behind the ready gate. *)
Definition designed (id title : string) (kind : TicketType) (complexity : Complexity) (files : list string)
    (has_ui : bool) : Ticket :=
  mkTicket id kind title "" Medium complexity Pending has_ui
    (mkDesign (Some (mkTechnicalDesign "plan" files "" "" "" "")) None) None [] ["works"] []
    None None None None None [] None.

Definition approved (by_ shape : string) : ApprovalSample := mkApprovalSample shape "approve" by_ "" "t".

(** Four routine test tickets, a large one on the release workflow and a UI
    ticket without a UX design; a history of approved large features. *)
Definition waiting : ProjectState :=
  ProjectState_default
  <| tickets := [designed "T1" "Add parser tests" Chore CSmall ["tests/parser.rs"] false;
                 designed "F2" "New release flow" Feature CLarge [".github/workflows/ship.yml"] false;
                 designed "T3" "Test the exporter" Chore CSmall ["tests/exporter.rs"] true;
                 designed "T4" "Test the importer" Chore CSmall ["tests/importer.rs"] false;
                 designed "T5" "Test the mailer" Chore CSmall ["tests/mailer.rs"] false] |>
  <| approval_samples := repeat (approved "ann" "feature/large") 4 ++ repeat (approved "bob" "feature/large") 4 |>.

Definition adaptive_on : AdaptiveConfig := mkAdaptiveConfig true 0 0 0.

Definition sample_pass : ProjectState :=
  adaptive_approval_pass (str_map ascii_lower) word_char (fun n => dec_nat n) "t1" true adaptive_on waiting.

Lemma waiting_ids : NoDup (t_id <$> tickets waiting).
Proof. apply (bool_decide_eq_true (NoDup _)). vm_compute. reflexivity. Defined.

Lemma pass_is_the_panel_witness :
  exists ds ms, sample_pass = (promoted_state "t1" ["T1"; "F2"; "T4"] ds waiting) <| chat := ms |> /\
    (t_status <$> tickets sample_pass) = [Ready; Ready; Pending; Ready; Pending] /\ length ms = 4.
Proof.
  destruct (pass_is_the_panel (str_map ascii_lower) word_char (fun _ => None) (fun n => dec_nat n) "t1" true
    adaptive_on waiting waiting_ids) as (ds & ms & H & _).
  exists ds, ms. split; [exact H|]. split; [vm_compute; reflexivity|].
  apply (f_equal (fun s => length (chat s))) in H. etrans; [symmetry; exact H|]. vm_compute. reflexivity.
Defined.

(** "F2" is large and rewrites the release workflow, which "never auto-approve
    regardless of history": the risk lane asks, and the learned rule, formed
    from two people's approvals, overrides it. *)
Theorem learned_rule_beats_floor :
  hard_ask (designed "F2" "New release flow" Feature CLarge [".github/workflows/ship.yml"] false) = true /\
  rule_for "feature/large" (approval_samples waiting) 8 = AutoApprove "bob" 8 /\
  (t_status <$> ticket "F2" sample_pass) = Some Ready.
Proof. split_and!; vm_compute; reflexivity. Qed.

(** "T3" is shown as "will auto" and is never let through: the panel does not
    ask the aggregate's Ready gate, which wants a UX design. *)
Theorem panel_promises_blocked_ticket :
  let panel := policy_overview (str_map ascii_lower) word_char (fun _ => None) waiting adaptive_on true "t1" in
  (gd_will_auto <$> List.find (fun r => bool_decide (gd_ticket r = "T3")) (ov_deciding panel)) = Some true /\
  can_promote waiting "T3" = false.
Proof. split; vm_compute; reflexivity. Qed.

(** An operator's override may be accepted and never match: validation folds
    the case of the complexity and the stored shape keeps it, while every shape
    key is lower case. *)
Theorem valid_override_never_matches t :
  is_valid_shape "test/Small" = true /\ shape_key (str_map ascii_lower) word_char t <> "test/Small".
Proof.
  split; [done|]. unfold shape_key, shape_kind. destruct (title_is_testish _ _ _); [|destruct (title_is_docish _ _)];
    destruct (t_kind t), (t_complexity t); by vm_compute.
Qed.

(** A zero window is documented as switching the lane off; it means 30 minutes. *)
Theorem zero_window_still_approves :
  ac_undo_window_minutes adaptive_on = 0%N /\ undo_window_minutes adaptive_on = 30%N /\
  (t_status <$> ticket "T1" sample_pass) = Some Ready.
Proof. split_and!; vm_compute; reflexivity. Qed.
