(* ===== verification/ApprovalDesk.v ===== *)
(** * The people at the approval gate

    The decision endpoints of [server/inbox.rs], [server/work.rs] and
    [server/approval_policy.rs] as functions on the loaded state: what they
    refuse, what they change before the save. [me] is what [gate_principal]
    answers (nobody when the role may not decide), [now] is [now_rfc3339()] and
    [new_id] [mint_id()]. *)
From S2P Require Import Prelude RustStr Kinds TestCase Ticket State StateOps Integrity Goals Backlog Claims Approval.

(** The refusals: status code and body. *)
Inductive DeskError :=
| DeskForbidden
| DeskNotFound
| DeskConflict (why : string)
| DeskBadRequest (why : string).

Section Desk.
Context (to_lowercase : string -> string) (is_alphanumeric : string -> bool).
(** The [{:?}] rendering of a string. *)
Context (debug_str : string -> string).

#[local] Abbreviation shape_key := (shape_key to_lowercase is_alphanumeric).

(** [gate_principal] *)
Definition qualified (me : option string) : result DeskError string :=
  match me with Some me => Ok me | None => Err DeskForbidden end.

(** [iter_mut().find(id)] and [transition_to] as User. *)
Definition move_ticket (id : string) (to : Status) (st : ProjectState) : result DeskError ProjectState :=
  match ticket id st with
  | None => Err DeskNotFound
  | Some t =>
      match transition_to User to t with
      | Err e => Err (DeskConflict (domain_error_text e))
      | Ok t' => Ok (set_ticket id (fun _ => t') st)
      end
  end.

(** A sample of the decision on the shape the ticket has now. *)
Definition teach (id decision by_ reason now : string) (st : ProjectState) : ProjectState :=
  match ticket id st with
  | None => st
  | Some t =>
      st <| approval_samples ::= fun l => l ++ [mkApprovalSample (shape_key t) decision by_ reason now] |>
  end.

(** [record_human_verify_evidence] of [run_test.rs] *)
Definition record_human_verify_evidence (now tk actor : string) (st : ProjectState) : ProjectState :=
  add_evidence_for now tk "test" "REGRESSION TEST"
    ("PASS on current master, verdict rendered by human QA; regression test " +:+
     "fails on pre-fix code and reproduces cleanly; root cause fixed at source.") ["verify"] actor st.

Definition verdict_kind (to : Status) : option InterventionKind :=
  match to with Verified => Some VerifyPass | Ready => Some ReadyApprove | _ => None end.

Definition human_transition (new_id now : string) (me : option string) (id : string) (to : Status)
    (st : ProjectState) : result DeskError ProjectState :=
  let? me := qualified me in
  let? st := move_ticket id to st in
  let st := if decide (to = Verified)
            then (record_verified_outcome now id (record_human_verify_evidence now id me st)).1 else st in
  let st := match verdict_kind to with
            | Some kind => record_intervention now kind id me st
            | None => st
            end in
  let label := status_lower to in
  let st := teach id "approve" me "" now st in
  let st := st <| auto_approved_at ::= delete id |> in
  let st := log_activity now "USER" (me +:+ " moved ticket to " +:+ label) (Some id) st in
  Ok (post_comment new_id now "USER" ("🧑‍⚖️ @" +:+ me +:+ " approved " +:+ id +:+ " → " +:+ label +:+ ".")
        (Some id) st).

Definition human_ready_ep (new_id now : string) (me : option string) (id : string) :=
  human_transition new_id now me id Ready.
Definition human_verify_ep (new_id now : string) (me : option string) (id : string) :=
  human_transition new_id now me id Verified.

Definition send_back_ep (new_id now : string) (me : option string) (id reason : string) (st : ProjectState)
    : result DeskError ProjectState :=
  let? me := qualified me in
  let? st := move_ticket id Open st in
  let note := if blank reason
              then "↩️ " +:+ id +:+ " sent back by @" +:+ me +:+ ": the fix is not demonstrated."
              else "↩️ " +:+ id +:+ " sent back by @" +:+ me +:+ ": " +:+ trim reason in
  let st := log_activity now "USER" "verification refused" (Some id) st in
  let st := post_comment new_id now me note (Some id) st in
  Ok (record_intervention now VerifySendBack id me st).

Definition reject_ticket (new_id now : string) (me : option string) (id reason : string) (st : ProjectState)
    : result DeskError ProjectState :=
  match TicketId_new id with
  | Err _ => Err (DeskBadRequest "bad id")
  | Ok tid =>
      let? me := qualified me in
      let st := teach tid "reject" me (trim reason) now st in
      let st := if blank reason then st
                else post_comment new_id now "USER" ("🚫 Rejected: " +:+ trim reason) (Some id) st in
      let? st := move_ticket tid Rejected st in
      let st := st <| cost_holds ::= delete id |> <| cost_approved ::= fun s => s ∖ {[id]} |> in
      Ok (log_activity now "USER" "rejected ticket" (Some id) st)
  end.

Definition undo_approval_ep (new_id now : string) (me : option string) (id : string) (st : ProjectState)
    : result DeskError ProjectState :=
  let? me := qualified me in
  if bool_decide (auto_approved_at st !! id = None)
  then Err (DeskConflict "not an auto-approved ticket (or the undo window has closed)")
  else match ticket id st with
  | None => Err DeskNotFound
  | Some t =>
      let shape := shape_key t in
      let? st := move_ticket id Pending st in
      let st := st <| approval_samples ::= fun l =>
                        l ++ [mkApprovalSample shape "undo" me "human pulled back an auto-approval" now] |> in
      let st := if one_of shape (ask_again_shapes st) then st
                else st <| ask_again_shapes ::= fun l => l ++ [shape] |> in
      let st := st <| auto_approved_at ::= delete id |> in
      let st := record_intervention now UndoAutoApprove id me st in
      let note := "↩️ @" +:+ me +:+ " undid the auto-approval of " +:+ id +:+ " — `" +:+ shape
                  +:+ "` goes back to asking a person." in
      let st := log_activity now "USER" "undid an auto-approval" (Some id) st in
      Ok (post_chat_in new_id now "SYSTEM" note APPROVALS_CHANNEL [] st)
  end.

(** [assign_ticket_ep], past the service scope. *)
Definition assign_ticket_ep (new_id now id username : string) (st : ProjectState)
    : result DeskError ProjectState :=
  match ticket id st with
  | None => Err DeskNotFound
  | Some t =>
      let st := set_ticket id (assign_to_human username) st in
      let note := if blank username then "↩️ " +:+ id +:+ " returned to the agent pool."
                  else "🧑‍💻 " +:+ id +:+ " assigned to @" +:+ trim username +:+ "." in
      let st := log_activity now "USER" "assignment changed" (Some id) st in
      Ok (post_comment new_id now "USER" note (Some id) st)
  end.

(** [hold_ticket_ep]: parking a ticket and taking it up again. [reason] is
    the body's, when there is one. *)
Definition hold_ticket_ep (now : string) (me : option string) (id action : string) (reason : option string)
    (st : ProjectState) : result DeskError ProjectState :=
  match TicketId_new id with
  | Err _ => Err (DeskBadRequest "bad id")
  | Ok tid =>
      let? holding := if bool_decide (action = "hold") then Ok true
                      else if bool_decide (action = "resume") then Ok false
                      else Err (DeskBadRequest "action must be hold or resume") in
      let? me := qualified me in
      match ticket tid st with
      | None => Err (DeskBadRequest "no such ticket")
      | Some t =>
          let to := if holding then OnHold else match t_kind t with Bug => Open | _ => Pending end in
          match transition_to User to t with
          | Err e => Err (DeskBadRequest (domain_error_text e))
          | Ok t' =>
              let st := set_ticket tid (fun _ => t') st in
              let st := if holding
                        then st <| hold_reasons ::=
                               insert tid (default "held by a person" (reason ≫= fun r => opt_nonempty (trim r))) |>
                        else clear_fail_attempts tid st in
              Ok (log_activity now me (if holding then "put on hold" else "resumed from hold") (Some tid) st)
          end
      end
  end.

(** ** Overrides ([approval_policy.rs]) *)

Definition validated_shape (shape : string) : result DeskError string :=
  let shape' := trim shape in
  if is_valid_shape shape' then Ok shape'
  else Err (DeskBadRequest ("unknown ticket shape " +:+ debug_str shape
         +:+ " — use <kind>/<complexity> with kind one of " +:+ join ", " SHAPE_KINDS
         +:+ " and complexity one of " +:+ join ", " SHAPE_COMPLEXITIES
         +:+ " (e.g. " +:+ quote +:+ "test/small" +:+ quote +:+ ")")).

Inductive Flip := Force | Release.

(** The mutator of [flip_override] on its first run: the state and [changed]. *)
Definition flip_shape (new_id now me shape : string) (action : Flip) (st : ProjectState)
    : ProjectState * bool :=
  let known := one_of shape (ask_again_shapes st) in
  let '(st, changed, verb, note) :=
    match action with
    | Force =>
        (if known then st else st <| ask_again_shapes ::= fun l => l ++ [shape] |>, negb known, "forced",
         "🔇 @" +:+ me +:+ " forced `" +:+ shape
         +:+ "` tickets back to always-ask — the gate stops auto-approving that shape from the next pass.")
    | Release =>
        (st <| ask_again_shapes ::= List.filter (fun x => negb (bool_decide (x = shape))) |>, known, "released",
         "🔓 @" +:+ me +:+ " released the always-ask override on `" +:+ shape
         +:+ "` — the gate re-learns from the recorded decisions.")
    end in
  if changed
  then (post_chat_in new_id now "SYSTEM" note APPROVALS_CHANNEL []
          (log_activity now "USER" (verb +:+ " the always-ask override on " +:+ shape) None st), true)
  else (st, false).

Definition flip_override (new_id now : string) (me : option string) (shape : string) (action : Flip)
    (st : ProjectState) : result DeskError (ProjectState * bool) :=
  let? me := qualified me in
  let? shape := validated_shape shape in
  Ok (flip_shape new_id now me shape action st).

(** ** The gate as a machine *)

Inductive DeskOp :=
| DPass (mint : nat -> string) (now : string) (gate_ready : bool) (adaptive : AdaptiveConfig)
| DReady (new_id now : string) (me : option string) (id : string)
| DVerify (new_id now : string) (me : option string) (id : string)
| DSendBack (new_id now : string) (me : option string) (id reason : string)
| DReject (new_id now : string) (me : option string) (id reason : string)
| DUndo (new_id now : string) (me : option string) (id : string)
| DAssign (new_id now id username : string)
| DFlip (new_id now : string) (me : option string) (shape : string) (action : Flip).

(** A refused operation saves nothing. *)
Definition desk_op (op : DeskOp) (st : ProjectState) : ProjectState :=
  let keep r := default st (result_ok r) in
  match op with
  | DPass mint now gate_ready adaptive =>
      adaptive_approval_pass to_lowercase is_alphanumeric mint now gate_ready adaptive st
  | DReady new_id now me id => keep (human_ready_ep new_id now me id st)
  | DVerify new_id now me id => keep (human_verify_ep new_id now me id st)
  | DSendBack new_id now me id reason => keep (send_back_ep new_id now me id reason st)
  | DReject new_id now me id reason => keep (reject_ticket new_id now me id reason st)
  | DUndo new_id now me id => keep (undo_approval_ep new_id now me id st)
  | DAssign new_id now id username => keep (assign_ticket_ep new_id now id username st)
  | DFlip new_id now me shape action =>
      default st (fst <$> result_ok (flip_override new_id now me shape action st))
  end.

Definition run_desk (ops : list DeskOp) (st : ProjectState) : ProjectState :=
  fold_left (fun st op => desk_op op st) ops st.
End Desk.

(** ** Lemmas *)

Section DeskFacts.
Context (to_lowercase : string -> string) (is_alphanumeric : string -> bool) (debug_str : string -> string).

(** A shape a person pulled back: its tickets are asked about whatever is
    recorded later. *)
Record retired (shape : string) (st : ProjectState) : Prop := {
  rt_ids : NoDup (t_id <$> tickets st);
  rt_override : shape ∈ ask_again_shapes st;
  rt_undone : decided "undo" (of_shape shape (approval_samples st)) <> [];
}.

(** What an operation does to the fields that matter here. *)
Record keeps (shape : string) (st st' : ProjectState) : Prop := {
  kp_ids : t_id <$> tickets st' = t_id <$> tickets st;
  kp_override : shape ∈ ask_again_shapes st -> shape ∈ ask_again_shapes st';
  kp_samples : approval_samples st `prefix_of` approval_samples st';
}.

#[local] Instance keeps_preorder shape : PreOrder (keeps shape).
Proof.
  split; [by intros st; split|]. intros st1 st2 st3 [H1 H2 H3] [H4 H5 H6].
  split; [congruence|auto|by etrans].
Qed.

(** Everything but the tickets, the overrides and the samples may change. *)
Lemma keeps_frame shape st st' :
  tickets st' = tickets st -> ask_again_shapes st' = ask_again_shapes st ->
  approval_samples st' = approval_samples st -> keeps shape st st'.
Proof. intros E1 E2 E3. split; [by rewrite E1|by rewrite E2|by rewrite E3]. Qed.

Lemma retired_keeps shape st st' : keeps shape st st' -> retired shape st -> retired shape st'.
Proof.
  intros [Hi Ho [l Hl]] [H1 H2 H3]. split; [by rewrite Hi|auto|].
  rewrite Hl. unfold of_shape, decided. rewrite !List.filter_app. intros [H _]%app_nil_iff. by apply H3.
Qed.

Lemma set_ticket_ids id t t' st :
  ticket id st = Some t -> t_id t' = t_id t ->
  t_id <$> tickets (set_ticket id (fun _ => t') st) = t_id <$> tickets st.
Proof.
  intros Ht Hid. change (tickets (set_ticket id ?f st)) with (update_first (is_ticket id) f (tickets st)).
  apply map_update_first. intros x Hx%is_ticket_true. apply find_ticket_id in Ht as [Ht _]. congruence.
Qed.

Lemma move_ticket_ok id to st st' :
  move_ticket id to st = Ok st' ->
  exists t t', ticket id st = Some t /\ transition_to User to t = Ok t' /\ st' = set_ticket id (fun _ => t') st /\
    t_id <$> tickets st' = t_id <$> tickets st.
Proof.
  unfold move_ticket. destruct (ticket id st) as [t|] eqn:Ht; [|done].
  destruct (transition_to User to t) as [t'|] eqn:E; [|done]. intros [= <-]. exists t, t'.
  split_and!; [done..|]. eapply set_ticket_ids; [done|]. by eapply transition_to_keeps_id.
Qed.

Lemma move_ticket_keeps shape id to st st' : move_ticket id to st = Ok st' -> keeps shape st st'.
Proof. intros (t & t' & _ & _ & -> & Hi)%move_ticket_ok. by split. Qed.

Lemma teach_keeps shape id decision by_ reason now st :
  keeps shape st (teach to_lowercase is_alphanumeric id decision by_ reason now st).
Proof. unfold teach. destruct (ticket id st); [|done]. split; [done..|]. by eexists. Qed.

Lemma human_transition_keeps shape new_id now me id to st st' :
  human_transition to_lowercase is_alphanumeric new_id now me id to st = Ok st' -> keeps shape st st'.
Proof.
  unfold human_transition. intros (who & _ & (st1 & H1 & [= <-])%result_bind_ok)%result_bind_ok.
  etrans; [by eapply move_ticket_keeps|].
  set (st2 := if decide (to = Verified) then _ else _). set (st3 := match verdict_kind to with Some _ => _ | None => _ end).
  transitivity st2.
  { subst st2. case_decide; [|done]. unfold record_verified_outcome. destruct (ticket _ _); by apply keeps_frame. }
  transitivity st3; [subst st3; destruct (verdict_kind to); [by apply keeps_frame|done]|].
  etrans; [apply teach_keeps|]. by apply keeps_frame.
Qed.

Lemma undo_approval_keeps shape new_id now me id st st' :
  undo_approval_ep to_lowercase is_alphanumeric new_id now me id st = Ok st' -> keeps shape st st'.
Proof.
  unfold undo_approval_ep. intros (who & _ & H)%result_bind_ok. destruct (bool_decide _); [done|].
  destruct (ticket id st) as [t|]; [|done]. apply result_bind_ok in H as (st1 & H1 & [= <-]).
  etrans; [by eapply move_ticket_keeps|].
  transitivity (st1 <| approval_samples ::= fun l => l ++ [mkApprovalSample
    (shape_key to_lowercase is_alphanumeric t) "undo" who "human pulled back an auto-approval" now] |>).
  { split; [done..|by eexists]. }
  destruct (one_of _ _).
  - by apply keeps_frame.
  - split; [done| |done]. intros H. apply elem_of_app. by left.
Qed.

Definition releases (shape : string) (op : DeskOp) : bool :=
  match op with DFlip _ _ _ s Release => bool_decide (trim s = shape) | _ => false end.

Lemma flip_keeps shape new_id now me s action st st' changed :
  releases shape (DFlip new_id now me s action) = false ->
  flip_override debug_str new_id now me s action st = Ok (st', changed) -> keeps shape st st'.
Proof.
  intros Hr (who & _ & (s' & Hs & [= Hf])%result_bind_ok)%result_bind_ok.
  unfold validated_shape in Hs. destruct (is_valid_shape _); [|done]. injection Hs as <-.
  unfold flip_shape in Hf. destruct action; cbn in Hf.
  - destruct (one_of _ _); cbn in Hf; injection Hf as <- <-; [done|].
    split; [done| |done]. intros H. apply elem_of_app. by left.
  - cbn in Hr. apply bool_decide_eq_false in Hr.
    assert (Hk : forall l : list string, shape ∈ l -> shape ∈ List.filter (fun x => negb (bool_decide (x = trim s))) l).
    { intros l Hl. apply elem_of_filter_bool. split; [done|]. by rewrite bool_decide_false by congruence. }
    destruct (one_of _ _); cbn in Hf; injection Hf as <- <-; (split; [done|apply Hk|done]).
Qed.

Lemma desk_op_keeps shape op st :
  releases shape op = false ->
  NoDup (t_id <$> tickets st) ->
  keeps shape st (desk_op to_lowercase is_alphanumeric debug_str op st).
Proof.
  intros Hr Hnd. destruct op; cbn [desk_op];
    try (match goal with |- keeps _ _ (default _ (result_ok ?r)) => destruct r as [st'|] eqn:E end; [|done]);
    cbn [result_ok default from_option].
  - destruct (pass_is_the_panel to_lowercase is_alphanumeric (fun _ => None) mint now gate_ready adaptive st Hnd)
      as (ds & ms & -> & _). split; [|done..].
    change (tickets (?s <| chat := ?m |>)) with (tickets s). rewrite tickets_promoted.
    apply change_all_ids, promote_id.
  - by eapply human_transition_keeps.
  - by eapply human_transition_keeps.
  - apply result_bind_ok in E as (who & _ & (st1 & H1 & [= <-])%result_bind_ok).
    etrans; [by eapply move_ticket_keeps|]. by apply keeps_frame.
  - unfold reject_ticket in E. destruct (TicketId_new id) as [tid|]; [|done].
    apply result_bind_ok in E as (who & _ & (st1 & H1 & [= <-])%result_bind_ok).
    transitivity st1; [|by apply keeps_frame]. etrans; [|by eapply move_ticket_keeps].
    etrans; [apply (teach_keeps shape tid "reject" who (trim reason) now)|].
    destruct (blank reason); by apply keeps_frame.
  - by eapply undo_approval_keeps.
  - unfold assign_ticket_ep in E. destruct (ticket id st) as [t|] eqn:Ht; [|done]. injection E as <-.
    split; [|done..]. change (t_id <$> update_first (is_ticket id) (assign_to_human username) (tickets st)
      = t_id <$> tickets st). by apply map_update_first.
  - destruct (flip_override _ _ _ _ _ _ _) as [[st' changed]|] eqn:E; cbn; [|done]. by eapply flip_keeps.
Qed.
End DeskFacts.

Section Properties.
Context (to_lowercase : string -> string) (is_alphanumeric : string -> bool) (debug_str : string -> string).

#[local] Abbreviation shape_key := (shape_key to_lowercase is_alphanumeric).
#[local] Abbreviation pass := (adaptive_approval_pass to_lowercase is_alphanumeric).

(** The pass leaves the tickets of an overridden shape alone. *)
Lemma pass_skips_override shape mint now gate_ready adaptive st t :
  NoDup (t_id <$> tickets st) -> shape ∈ ask_again_shapes st -> t ∈ tickets st -> shape_key t = shape ->
  t ∈ tickets (pass mint now gate_ready adaptive st) /\
  auto_approved_at (pass mint now gate_ready adaptive st) !! t_id t = auto_approved_at st !! t_id t.
Proof.
  intros Hnd Ho Ht Hs.
  destruct (pass_is_the_panel to_lowercase is_alphanumeric (fun _ => None) mint now gate_ready adaptive st Hnd)
    as (ds & ms & -> & _). set (promoted := take _ _).
  assert (Hn : t_id t ∉ promoted).
  { intros (r & Hid & [Hr [Hw _]%andb_prop]%elem_of_filter_bool)%elem_of_take_sub%list_elem_of_fmap.
    cbn [ov_deciding policy_overview] in Hr. destruct (negb _ || negb _); [by apply elem_of_nil in Hr|].
    apply list_elem_of_fmap in Hr as (u & -> & [Hu _]%elem_of_filter_bool). cbn [gd_ticket deciding_row] in Hid.
    assert (u = t) as -> by by eapply (keyed_inj t_id).
    cbn [gd_will_auto deciding_row] in Hw. rewrite Hs in Hw.
    rewrite (proj2 (one_of_true _ _)) in Hw; [done|by apply elem_of_btree_set]. }
  split.
  - change (t ∈ change_all promote promoted (tickets st)). apply list_elem_of_fmap. exists t. split; [|done].
    by rewrite decide_False.
  - change (mark_approved now promoted (auto_approved_at st) !! t_id t = auto_approved_at st !! t_id t).
    by rewrite lookup_mark_approved, decide_False.
Qed.

(** What an accepted undo leaves behind. *)
Lemma undo_retires new_id now me id st st' t :
  NoDup (t_id <$> tickets st) -> ticket id st = Some t ->
  undo_approval_ep to_lowercase is_alphanumeric new_id now me id st = Ok st' -> retired (shape_key t) st'.
Proof.
  intros Hnd Ht Hu. pose proof (undo_approval_keeps _ _ (shape_key t) _ _ _ _ _ _ Hu) as [Hi _ _].
  unfold undo_approval_ep in Hu. apply result_bind_ok in Hu as (who & _ & H).
  destruct (bool_decide _); [done|]. rewrite Ht in H. apply result_bind_ok in H as (st1 & _ & [= <-]).
  split; [by rewrite Hi| |].
  - destruct (one_of _ _) eqn:Eo; [by apply one_of_true in Eo|].
    change (shape_key t ∈ ask_again_shapes st1 ++ [shape_key t]). apply elem_of_app. right. left.
  - match goal with |- decided _ (of_shape _ (approval_samples ?s)) <> _ =>
      assert (approval_samples s = approval_samples st1 ++ [mkApprovalSample (shape_key t) "undo" who
        "human pulled back an auto-approval" now]) as -> by by destruct (one_of _ _) end.
    unfold decided, of_shape. rewrite !List.filter_app. intros [_ H]%app_nil_iff. cbn in H.
    by rewrite bool_decide_true in H.
Qed.

(** C36: An undo sticks. Once a qualified person has pulled an auto-approved
    ticket back, then after any sequence of passes, approvals, verdicts,
    send-backs, rejections, further undos, assignments and override flips that
    does not release the override of that ticket's shape, no pass lets any
    ticket of the shape through: each such ticket stays exactly as it is and
    gets no new undo entry, and whatever was approved meanwhile the rule learned
    for the shape is still to keep asking. What happens once the override is
    released is not claimed. *)
Theorem undo_sticks new_id now me id st st1 t ops :
  NoDup (t_id <$> tickets st) -> ticket id st = Some t ->
  undo_approval_ep to_lowercase is_alphanumeric new_id now me id st = Ok st1 ->
  Forall (fun op => releases (shape_key t) op = false) ops ->
  let st2 := run_desk to_lowercase is_alphanumeric debug_str ops st1 in
  (forall learn_after, rule_for (shape_key t) (approval_samples st2) learn_after = KeepAsking) /\
  forall mint now' gate_ready adaptive u, u ∈ tickets st2 -> shape_key u = shape_key t ->
    let st3 := pass mint now' gate_ready adaptive st2 in
    u ∈ tickets st3 /\ auto_approved_at st3 !! t_id u = auto_approved_at st2 !! t_id u.
Proof.
  intros Hnd Ht Hu Hops. cbv zeta.
  assert (Hr : retired (shape_key t) (run_desk to_lowercase is_alphanumeric debug_str ops st1)).
  { pose proof (undo_retires _ _ _ _ _ _ _ Hnd Ht Hu) as Hr. clear Hu. revert st1 Hr.
    induction Hops as [|op ops Hop _ IH]; intros st1 Hr; [done|]. apply IH.
    eapply retired_keeps; [|done]. by apply desk_op_keeps, Hr. }
  destruct Hr as [Hi Ho Hs]. split.
  - intros learn. unfold rule_for. by rewrite bool_decide_false by done.
  - intros mint now' gate_ready adaptive u Hin Hk. by eapply pass_skips_override.
Qed.
End Properties.

(** ** Samples *)

#[local] Abbreviation undo := (undo_approval_ep (str_map ascii_lower) word_char).
#[local] Abbreviation sample_desk := (run_desk (str_map ascii_lower) word_char (fun s => s)).

(** "T1" is pulled back; three people then approve every other test ticket. *)
Definition pulled_back : ProjectState := default sample_pass (result_ok (undo "n" "t2" (Some "cal") "T1" sample_pass)).

Definition first_ticket : Ticket :=
  (designed "T1" "Add parser tests" Chore CSmall ["tests/parser.rs"] false) <| t_status := Ready |>.

Definition later_ops : list DeskOp :=
  [DReady "a" "t3" (Some "ann") "T5"; DFlip "b" "t4" (Some "ann") "docs/small" Release;
   DPass (fun n => dec_nat n) "t5" true adaptive_on; DReject "c" "t6" None "T1" "no"].

Lemma undo_sticks_witness :
  ask_again_shapes pulled_back = ["test/small"] /\
  let st2 := sample_desk later_ops pulled_back in
  (t_status <$> ticket "T1" st2) = Some Pending /\ (t_status <$> ticket "T5" st2) = Some Ready /\
  rule_for "test/small" (approval_samples st2) 1 = KeepAsking.
Proof.
  split; [vm_compute; reflexivity|]. cbv zeta. split; [vm_compute; reflexivity|]. split; [vm_compute; reflexivity|].
  assert (Hk : shape_key (str_map ascii_lower) word_char first_ticket = "test/small") by (vm_compute; reflexivity).
  rewrite <- Hk.
  refine (proj1 (undo_sticks (str_map ascii_lower) word_char (fun s => s) "n" "t2" (Some "cal") "T1" sample_pass
    pulled_back first_ticket later_ops _ _ _ _) 1).
  - apply (bool_decide_eq_true (NoDup _)). vm_compute. reflexivity.
  - vm_compute. reflexivity.
  - vm_compute. reflexivity.
  - repeat constructor.
Defined.

(** The refusal says the window may have closed; the window is never looked at.
    The entry of "T1" is from 10:00 and expired on the panel at 12:00, and the
    undo of 12:00 is accepted. *)
Definition clock (s : string) : option Z :=
  if String.eqb s "10:00" then Some 0%Z else if String.eqb s "12:00" then Some 7200000000000%Z else None.

Theorem undo_ignores_window :
  let st := adaptive_approval_pass (str_map ascii_lower) word_char (fun n => dec_nat n) "10:00" true adaptive_on waiting in
  let panel := policy_overview (str_map ascii_lower) word_char clock st adaptive_on true "12:00" in
  ov_undo_window_minutes panel = 30%N /\ ov_undoable panel = [] /\
  "T1" ∈ (ex_ticket <$> ov_expired panel) /\ is_ok (undo "n" "12:00" (Some "cal") "T1" st) = true.
Proof.
  cbv zeta. split; [vm_compute; reflexivity|]. split; [vm_compute; reflexivity|].
  split; [apply (bool_decide_eq_true (_ ∈ _))|]; vm_compute; reflexivity.
Qed.
