(* ===== verification/MergePolicy.v ===== *)
(** * Merge policy: racing pull requests, holds that expire, the sweep

    [use_cases/merge_policy.rs] and [merge_sweep.rs], and the hold bookkeeping
    of [cycle/forge_review.rs]. The forge is a parameter: the diff of a pull
    request and the error of merging it. [to_lowercase] is Unicode case folding. *)
From stdpp Require Import sorting.
From S2P Require Import Prelude RustStr Kinds TestCase Ticket State StateOps Channels.

(** ** Pull requests that name a ticket *)

Definition is_upper (a : ascii) : bool :=
  let n := nat_of_ascii a in (65 <=? n) && (n <=? 90).
Fixpoint any_byte (p : ascii -> bool) (s : string) : bool :=
  match s with EmptyString => false | String a s' => p a || any_byte p s' end.

(** The id that starts right here, if one does. *)
Definition id_at (rest : string) : option string :=
  let letters := take_bytes is_upper rest in
  if String.length letters <? 2 then None
  else
    tail ← strip_prefix (letters +:+ "-") rest;
    let digits := take_bytes is_ascii_alnum tail in
    if any_byte is_digit digits then Some (letters +:+ "-" +:+ digits) else None.

(** The loop over the positions from the first upper-case letter on. *)
Fixpoint scan_ids (s : string) : option string :=
  match s with
  | EmptyString => None
  | String a s' =>
      match (if is_upper a then id_at s else None) with
      | Some id => Some id
      | None => scan_ids s'
      end
  end.

Fixpoint from_first_upper (s : string) : option string :=
  match s with
  | EmptyString => None
  | String a s' => if is_upper a then Some s else from_first_upper s'
  end.

Definition ticket_id_in (title : string) : option string :=
  rest ← from_first_upper title; scan_ids rest.

Definition competing_pr (number : N) (title : string) (open : list (N * string)) : option N :=
  ticket ← ticket_id_in title;
  fst <$> List.find (fun '(n, t) => negb (bool_decide (n = number)) && bool_decide (ticket_id_in t = Some ticket)) open.

(** ** Reading a diff *)

Definition SENSITIVE : list string :=
  [".github/workflows"; "Dockerfile"; "docker-compose"; "scripts/"; "Cargo.toml"; "coxagent.json";
   "CLAUDE.md"; "AGENTS.md"; ".claude/"].

(** A header line of a diff. *)
Definition is_header (l : string) : bool := starts_with "+++" l || starts_with "---" l || starts_with "diff " l.

Definition is_changed (l : string) : bool :=
  (starts_with "+" l || starts_with "-" l) && negb (starts_with "+++" l) && negb (starts_with "---" l).

Definition needs_human_eyes (diff : string) (max_changed_lines : nat) : option string :=
  let changed := length (List.filter is_changed (lines diff)) in
  if (0 <? max_changed_lines) && (max_changed_lines <? changed)
  then Some (dec_nat changed +:+ " changed lines is past what lands unreviewed")
  else
    (fun hit => "it changes " +:+ hit +:+ ", which decides how everything else ships") <$>
      List.find (fun p => existsb (fun l => contains p l && is_header l) (lines diff)) SENSITIVE.

(** The new path a [diff --git] header names. *)
Definition new_path (rest : string) : option string := name ← last (split_whitespace rest); strip_prefix "b/" name.

(** Distinctive enough to be evidence. *)
Definition is_evidence (t : string) : bool :=
  (12 <=? String.length t) && negb (starts_with "//" t) && negb (starts_with "*" t).

Definition add_line (acc : list (string * list string) * option nat) (line : string)
    : list (string * list string) * option nat :=
  let '(out, current) := acc in
  match strip_prefix "diff --git " line with
  | Some rest => (out ++ [(default "" (new_path rest), [])], Some (length out))
  | None =>
      match current, strip_prefix "+" line with
      | Some i, Some added =>
          if starts_with "+++" line then acc
          else
            let t := trim added in
            if is_evidence t then (alter (fun '(f, ls) => (f, ls ++ [t])) i out, current) else acc
      | _, _ => acc
      end
  end.

Definition added_lines_by_file (diff : string) : list (string * list string) :=
  List.filter (fun '(f, ls) => negb (bool_decide (f = "")) && negb (bool_decide (ls = [])))
    (fold_left add_line (lines diff) ([], None)).1.

(** The counting loops: evidence looked at, evidence found. *)
Definition count_found (read : string -> option string) (counts : nat * nat) (entry : string * list string)
    : nat * nat :=
  let '(file, ls) := entry in
  let content := default "" (read file) in
  fold_left (fun '(total, found) l => (S total, if contains l content then S found else found)) (take 20 ls) counts.

Definition diff_landed_on_main (diff : string) (read : string -> option string) : bool :=
  let files := added_lines_by_file diff in
  if bool_decide (files = []) then false
  else
    let '(total, found) := fold_left (count_found read) files (0, 0) in
    (0 <? total) && (total * 8 <=? found * 10).

Definition changed_files (diff : string) : list string :=
  omap (fun l => strip_prefix "diff --git " l ≫= new_path) (lines diff).

Definition SCRATCH : list string :=
  [".claude/worktrees/"; ".claude/settings.local.json"; ".gitnexus/"; "backups/"; "target/"; "node_modules/";
   "cox-opencode.json"; "cox-config.json"].

Definition commits_scratch (diff : string) : option string :=
  head (omap (fun l => List.find (fun p => contains p l) SCRATCH) (List.filter is_header (lines diff))).

(** [cycle/mod.rs] *)
Definition diff_has_conflict_markers (diff : string) : bool :=
  existsb (fun l => starts_with "+<<<<<<< " l || starts_with " <<<<<<< " l ||
                    starts_with "+>>>>>>> " l || starts_with " >>>>>>> " l) (lines diff).

(** ** Two pull requests for one ticket *)

Record CompeteCandidate := mkCompeteCandidate {
  cc_number : N;
  cc_files : option (list string);
  cc_unsafe_change : bool;
}.

Inductive CompeteOutcome :=
| MergeClose (winner loser : N)
| Proceed (winner unsafe_other : N)
| Hold (why : string).

Definition covers (files others : list string) : bool := forallb (fun f => one_of f files) others.

Definition resolve_competing (a b : CompeteCandidate) : CompeteOutcome :=
  match cc_files a, cc_files b with
  | Some a_files, Some b_files =>
      if bool_decide (a_files = []) || bool_decide (b_files = [])
      then Hold "diff has no parseable file headers — keeping both"
      else
        let a_covers_b := covers a_files b_files in
        let b_covers_a := covers b_files a_files in
        if cc_unsafe_change a
        then Hold "touches a load-bearing or oversized change — a human should rule on it"
        else if cc_unsafe_change b
        then
          if b_covers_a && negb a_covers_b then Proceed (cc_number a) (cc_number b)
          else Hold "the competing change is load-bearing or oversized — a human should rule on it"
        else match a_covers_b, b_covers_a with
        | true, _ => MergeClose (cc_number a) (cc_number b)
        | false, true => MergeClose (cc_number b) (cc_number a)
        | false, false => Hold "each PR touches files the other does not — closing either would drop work"
        end
  | _, _ => Hold "could not read a competing diff — keeping both"
  end.

(** ** Holds that expire *)

Inductive HoldExpiry := Keep (rounds : N) | Land (rounds : N) | Close (rounds : N).

Definition open_hold_expiry (prior : option PrOpenHold) (reason head_sha : string) (landable : bool)
    (max_rounds : N) : HoldExpiry :=
  if (max_rounds =? 0)%N then Keep (from_option ph_rounds 1%N prior)
  else match prior with
  | None => Keep 1
  | Some prior =>
      if negb (bool_decide (ph_reason prior = reason)) then Keep 1
      else if bool_decide (head_sha = "") then Keep (N.max (ph_rounds prior) 1)
      else if negb (bool_decide (ph_head_sha prior = head_sha)) then Keep 1
      else
        let rounds := u32_sat_add (ph_rounds prior) 1 in
        if (rounds <? max_rounds)%N then Keep rounds
        else if landable then Land rounds else Close rounds
  end.

(** [open_hold_round]: the decision and its effect on the state. *)
Definition open_hold_round (now : string) (max_rounds : N) (number : N) (reason head_sha : string)
    (landable : bool) (st : ProjectState) : ProjectState * HoldExpiry :=
  let prior := if (max_rounds =? 0)%N then None else pr_open_holds st !! number in
  let decision := open_hold_expiry prior reason head_sha landable max_rounds in
  if (max_rounds =? 0)%N then (st, decision)
  else match decision with
  | Keep rounds =>
      let '(first_at, prev_sha) :=
        match prior with
        | Some p =>
            if bool_decide (ph_reason p = reason) &&
               (bool_decide (head_sha = "") || bool_decide (ph_head_sha p = head_sha))
            then (ph_first_at p, ph_head_sha p) else (now, "")
        | None => (now, "")
        end in
      (st <| pr_open_holds ::= <[number := mkPrOpenHold reason rounds
               (if bool_decide (head_sha = "") then prev_sha else head_sha) first_at now]> |>, decision)
  | Land _ | Close _ => (st <| pr_open_holds ::= delete number |>, decision)
  end.

(** ** Who is called in *)

Definition MAX_TICKET_RESCUES : N := 2.

Inductive EscalationRoute := RSpec | RMechanical | RDesign | ROversize.
#[export] Instance EscalationRoute_eq_dec : EqDecision EscalationRoute.
Proof. solve_decision. Defined.

Definition is_cap_death (f : AttemptFailure) : bool := contains "iteration/token cap" (af_detail f).

Definition route_from_failures (failures : list AttemptFailure) (spec_gap : bool) : EscalationRoute :=
  let real := List.filter (fun f => negb (bool_decide (af_layer f = LInfra))) failures in
  if bool_decide (real = []) then RDesign
  else if 2 <=? length (List.filter is_cap_death real) then ROversize
  else if existsb (fun f => bool_decide (af_layer f = LSpec)) real || spec_gap then RSpec
  else if forallb (fun f => bool_decide (af_layer f = LGate)) real then RMechanical
  else RDesign.

Definition UNCLEAR : list string :=
  ["unclear"; "ambiguous"; "no acceptance"; "missing acceptance"; "cannot reproduce"; "could not reproduce";
   "no repro"; "not enough context"].
Definition GATES : list string :=
  ["clippy"; "regression test"; "suite is red"; "left tests red"; "rustfmt"; "cargo fmt"; "lint"].

Definition escalation_route (to_lowercase : string -> string) (history : string) (spec_gap : bool) : EscalationRoute :=
  let low := to_lowercase history in
  if 2 <=? count_matches "iteration/token cap" 0 low then ROversize
  else
    let unclear := existsb (fun k => contains k low) UNCLEAR in
    if unclear || (spec_gap && negb (bool_decide (low = ""))) then RSpec
    else
      let ls := List.filter (fun l => negb (blank l)) (lines low) in
      if negb (bool_decide (ls = [])) && forallb (fun l => existsb (fun g => contains g l) GATES) ls
      then RMechanical else RDesign.

(** ** The sweep *)

Record PullRequest := mkPullRequest {
  pr_number : N;
  pr_title : string;
  pr_head : string;
  pr_base : string;
  pr_url : string;
  pr_author : string;
  pr_ci : string;
  pr_mergeable : bool;
  pr_created : string;
}.

Record SweepOutcome := mkSweepOutcome { sw_merged : list N; sw_skipped : list (N * string) }.

Section Sweep.
(** [pr_diff] when it can be read, and the error text of [merge_pr]. *)
Context (pr_diff : N -> option string) (merge_pr : N -> option string).

(** Why the sweep passes a pull request over before it asks the forge. *)
Definition skip_reason (holds : gmap N string) (require_ci : bool) (pr : PullRequest) : option string :=
  match holds !! pr_number pr with
  | Some reason => Some ("human hold: " +:+ reason)
  | None =>
      if negb (pr_mergeable pr) then Some "merge conflict"
      else if require_ci && bool_decide (pr_ci pr = "failing") then Some "CI failing"
      else if require_ci && bool_decide (pr_ci pr = "pending") then Some "CI pending"
      else if from_option diff_has_conflict_markers false (pr_diff (pr_number pr))
      then Some "committed conflict markers in diff" else None
  end.

Definition sweep_one (holds : gmap N string) (require_ci : bool) (out : SweepOutcome) (pr : PullRequest)
    : SweepOutcome :=
  let n := pr_number pr in
  match skip_reason holds require_ci pr with
  | Some reason => mkSweepOutcome (sw_merged out) (sw_skipped out ++ [(n, reason)])
  | None =>
      match merge_pr n with
      | None => mkSweepOutcome (sw_merged out ++ [n]) (sw_skipped out)
      | Some e => mkSweepOutcome (sw_merged out) (sw_skipped out ++ [(n, "merge refused: " +:+ e)])
      end
  end.

(** Oldest first. *)
Definition created_le (a b : PullRequest) : bool := str_le (pr_created a) (pr_created b).

Definition sweep_queue (target : string) (prs : list PullRequest) : list PullRequest :=
  take 12 (sort_by created_le (List.filter (fun p => bool_decide (pr_base p = target)) prs)).

Definition sweep (holds : gmap N string) (target : string) (require_ci : bool) (prs : list PullRequest)
    : SweepOutcome :=
  fold_left (sweep_one holds require_ci) (sweep_queue target prs) (mkSweepOutcome [] []).

Definition list_prs (ns : list N) : string := join " " ((fun n => "#" +:+ dec n) <$> ns).

Definition sweep_message (vi : bool) (out : SweepOutcome) : string :=
  (if vi
   then if bool_decide (sw_merged out = [])
        then "🔀 SA merge sweep: không có PR nào đủ điều kiện merge ngay."
        else "🔀 SA merge sweep: đã merge " +:+ list_prs (sw_merged out) +:+ "."
   else if bool_decide (sw_merged out = [])
        then "🔀 SA merge sweep: nothing was green enough to merge right now."
        else "🔀 SA merge sweep: merged " +:+ list_prs (sw_merged out) +:+ ".") +:+
  (if bool_decide (sw_skipped out = []) then ""
   else (if vi then " Còn lại: " else " Remaining: ") +:+
        join ", " ((fun '(n, r) => "#" +:+ dec n +:+ " (" +:+ r +:+ ")") <$> sw_skipped out) +:+
        (if vi then " — conflict sẽ được DEV gỡ ở cycle tới."
         else " — conflicts get fixed by DEV next cycle.")).

(** [merge_sweep]: [prs] is [None] when the forge cannot list them, [holds] the
    state's [human_holds], empty when the load fails. *)
Definition merge_sweep (new_id now target : string) (vi require_ci : bool) (holds : gmap N string)
    (prs : option (list PullRequest)) (st : ProjectState) : ProjectState * SweepOutcome :=
  match prs with
  | None => (st, mkSweepOutcome [] [])
  | Some prs =>
      let out := sweep holds target require_ci prs in
      (post_chat_in new_id now "SM" (sweep_message vi out) AGENTS_CHANNEL [] st, out)
  end.
End Sweep.

(** ** Lemmas: ids in titles *)

#[local] Arguments String.append !_ _ / : simpl nomatch.

(** A text that does not go on with a byte of the class. *)
Definition stops (p : ascii -> bool) (s : string) : bool :=
  match s with EmptyString => true | String a _ => negb (p a) end.

Lemma take_bytes_app p s rest : all_bytes p s = true -> stops p rest = true -> take_bytes p (s +:+ rest) = s.
Proof.
  intros Hs Hr. induction s as [|a s IH]; cbn in *.
  - destruct rest as [|b rest]; [done|]. cbn in *. by apply negb_true_iff in Hr as ->.
  - apply andb_prop in Hs as [-> Hs]. by rewrite IH.
Qed.

Lemma strip_prefix_app p s : strip_prefix p (p +:+ s) = Some s.
Proof. by apply strip_prefix_spec. Qed.

Lemma any_byte_app p s t : any_byte p (s +:+ t) = any_byte p s || any_byte p t.
Proof. induction s as [|a s IH]; cbn; [done|]. by rewrite IH, orb_assoc. Qed.

Lemma first_upper_app pre a s :
  any_byte is_upper pre = false -> is_upper a = true -> from_first_upper (pre +:+ String a s) = Some (String a s).
Proof.
  intros Hp Ha. induction pre as [|b pre IH]; cbn in *; [by rewrite Ha|].
  apply orb_false_iff in Hp as [-> Hp]. by apply IH.
Qed.

(** ** Lemmas: evidence *)

(** The evidence looked at: up to twenty lines of each file. *)
Definition evidence (diff : string) : list (string * string) :=
  concat ((fun '(f, ls) => pair f <$> take 20 ls) <$> added_lines_by_file diff).

Definition on_main (read : string -> option string) (e : string * string) : bool :=
  contains e.2 (default "" (read e.1)).

Lemma count_found_spec read counts f ls :
  count_found read counts (f, ls)
  = (counts.1 + length (take 20 ls),
     counts.2 + length (List.filter (on_main read) (pair f <$> take 20 ls))).
Proof.
  unfold count_found. generalize (take 20 ls). intros l. revert counts.
  induction l as [|x l IH]; intros [total found]; cbn [fold_left length fmap list_fmap List.filter fst snd].
  - by rewrite !Nat.add_0_r.
  - rewrite IH. cbn [fst snd]. unfold on_main at 2. cbn [fst snd].
    destruct (contains x _); cbn [length]; f_equal; lia.
Qed.

Lemma count_all_spec read files : forall counts,
  fold_left (count_found read) files counts
  = (counts.1 + length (concat ((fun '(f, ls) => pair f <$> take 20 ls) <$> files)),
     counts.2 + length (List.filter (on_main read) (concat ((fun '(f, ls) => pair f <$> take 20 ls) <$> files)))).
Proof.
  induction files as [|[f ls] files IH]; intros counts.
  - cbn. rewrite !Nat.add_0_r. by destruct counts.
  - cbn [fold_left]. rewrite IH, count_found_spec. cbn [fst snd fmap list_fmap concat].
    rewrite List.filter_app, !length_app, length_fmap. f_equal; lia.
Qed.

Lemma evidence_nil diff : evidence diff = [] <-> added_lines_by_file diff = [].
Proof.
  unfold evidence. split; [|by intros ->].
  assert (Hne : Forall (fun '(_, ls) => ls <> []) (added_lines_by_file diff)).
  { apply Forall_forall. intros [f ls] [_ [_ H]%andb_prop]%elem_of_filter_bool.
    by apply negb_true_iff, bool_decide_eq_false in H. }
  destruct Hne as [|[f ls] files Hls _]; [done|]. cbn. by destruct ls.
Qed.

(** ** Lemmas: holds *)

Section Holds.
Context (max_rounds number : N) (reason sha : string).
Context (Hmax : (0 < max_rounds <= u32_max)%N) (Hsha : sha <> "").

(** One round: its time, whether the head could be read, whether the pull
    request could land. *)
Definition round : Type := string * bool * bool.

Fixpoint run_holds (rounds : list round) (st : ProjectState) : ProjectState * list HoldExpiry :=
  match rounds with
  | [] => (st, [])
  | (now, readable, landable) :: rounds =>
      let '(st, d) := open_hold_round now max_rounds number reason (if readable then sha else "") landable st in
      let '(st, ds) := run_holds rounds st in
      (st, d :: ds)
  end.

Definition readable_rounds (rounds : list round) : nat := length (List.filter (fun r => r.1.2) rounds).

(** How many readable rounds a hold lasts. *)
Definition lifetime : nat := N.to_nat (N.max 2 max_rounds).

Definition is_keep (d : HoldExpiry) : Prop := match d with Keep _ => True | _ => False end.

(** The record after [k] readable rounds without a terminal. *)
Definition held_for (k : nat) (st : ProjectState) : Prop :=
  match pr_open_holds st !! number with
  | None => k = 0
  | Some p => ph_reason p = reason /\ (if decide (k = 0) then ph_head_sha p = "" /\ ph_rounds p = 1%N
                                       else ph_head_sha p = sha /\ ph_rounds p = N.of_nat k)
  end.

Lemma hold_unreadable now landable k st :
  held_for k st -> k < lifetime ->
  let '(st', d) := open_hold_round now max_rounds number reason "" landable st in is_keep d /\ held_for k st'.
Proof.
  intros Hk Hl. unfold open_hold_round, open_hold_expiry.
  rewrite (proj2 (N.eqb_neq max_rounds 0)) by lia. unfold held_for in Hk.
  destruct (pr_open_holds st !! number) as [p|] eqn:Ep; cbn [bool_decide andb orb negb].
  - destruct Hk as [Hr Hk]. rewrite !(bool_decide_true (ph_reason p = reason)) by done. cbn [negb andb].
    rewrite !(bool_decide_true ("" = "")) by done. cbn [orb]. split; [done|].
    unfold held_for. change (pr_open_holds (st <| pr_open_holds ::= ?f |>)) with (f (pr_open_holds st)).
    rewrite lookup_insert_eq. cbn. split; [done|]. destruct (decide (k = 0)); destruct Hk as [H1 H2].
    + by rewrite H1, H2.
    + rewrite H1, H2. split; [done|lia].
  - subst k. split; [done|]. unfold held_for.
    change (pr_open_holds (st <| pr_open_holds ::= ?f |>)) with (f (pr_open_holds st)).
    by rewrite lookup_insert_eq.
Qed.

Lemma hold_readable now landable k st :
  held_for k st -> k < lifetime ->
  let '(st', d) := open_hold_round now max_rounds number reason sha landable st in
  if decide (S k = lifetime)
  then d = (if landable then Land (N.of_nat lifetime) else Close (N.of_nat lifetime)) /\
       pr_open_holds st' = delete number (pr_open_holds st)
  else is_keep d /\ held_for (S k) st'.
Proof.
  intros Hk Hl. unfold lifetime in *. unfold open_hold_round, open_hold_expiry.
  rewrite (proj2 (N.eqb_neq max_rounds 0)) by lia. unfold held_for in Hk.
  assert (Hfresh : forall first_at, held_for 1
    (st <| pr_open_holds ::= <[number := mkPrOpenHold reason 1 sha first_at now]> |>)).
  { intros first_at. unfold held_for. change (pr_open_holds (st <| pr_open_holds ::= ?f |>)) with (f (pr_open_holds st)).
    by rewrite lookup_insert_eq. }
  destruct (pr_open_holds st !! number) as [p|] eqn:Ep.
  - destruct Hk as [Hr Hk]. rewrite !(bool_decide_true (ph_reason p = reason)) by done.
    rewrite !(bool_decide_false (sha = "")) by done. cbn [negb andb orb].
    destruct (decide (k = 0)) as [->|Hk0]; destruct Hk as [H1 H2]; rewrite H1.
    + rewrite (bool_decide_false ("" = sha)) by congruence. cbn [negb].
      rewrite decide_False by lia. by split.
    + rewrite !(bool_decide_true (sha = sha)) by done. cbn [negb]. rewrite H2.
      assert (Hadd : u32_sat_add (N.of_nat k) 1 = N.of_nat (S k)).
      { unfold u32_sat_add, u32_max in *. lia. }
      rewrite Hadd. destruct (N.ltb_spec (N.of_nat (S k)) max_rounds) as [Hlt|Hge].
      * cbv beta iota zeta. rewrite decide_False by lia. split; [done|]. unfold held_for.
        change (pr_open_holds (st <| pr_open_holds ::= ?f |>)) with (f (pr_open_holds st)).
        by rewrite lookup_insert_eq.
      * replace (N.to_nat (N.max 2 max_rounds)) with (S k) by lia.
        destruct landable; cbv beta iota zeta; by rewrite decide_True by done.
  - subst k. rewrite decide_False by lia. rewrite !(bool_decide_false (sha = "")) by done. by split.
Qed.

Lemma run_holds_keep rounds : forall k st,
  held_for k st -> k + readable_rounds rounds < lifetime ->
  let '(st', ds) := run_holds rounds st in Forall is_keep ds /\ held_for (k + readable_rounds rounds) st'.
Proof.
  unfold readable_rounds. induction rounds as [|[[now readable] landable] rounds IH]; intros k st Hk Hl.
  - cbn. rewrite Nat.add_0_r. by split.
  - cbn [run_holds List.filter fst snd] in *. destruct readable; cbn [length] in Hl.
    + pose proof (hold_readable now landable k st Hk ltac:(lia)) as Hstep.
      destruct (open_hold_round _ _ _ _ _ _ _) as [st1 d]. rewrite decide_False in Hstep by lia.
      destruct Hstep as [Hd Hk1]. specialize (IH (S k) st1 Hk1 ltac:(lia)).
      destruct (run_holds rounds st1) as [st2 ds]. destruct IH as [Hds Hk2]. split; [by constructor|].
      cbn [length]. by rewrite Nat.add_succ_r.
    + pose proof (hold_unreadable now landable k st Hk ltac:(lia)) as Hstep.
      destruct (open_hold_round _ _ _ _ _ _ _) as [st1 d]. destruct Hstep as [Hd Hk1].
      specialize (IH k st1 Hk1 ltac:(lia)). destruct (run_holds rounds st1) as [st2 ds].
      destruct IH as [Hds Hk2]. by split; [constructor|].
Qed.
End Holds.

(** ** Lemmas: two pull requests *)

Lemma covers_true fs gs : covers fs gs = true <-> (forall f, f ∈ gs -> f ∈ fs).
Proof.
  unfold covers. rewrite forallb_forall. split.
  - intros H f Hf. apply one_of_true, H. by apply list_elem_of_In.
  - intros H f Hf. apply one_of_true, H. by apply list_elem_of_In.
Qed.

Lemma covers_false fs gs : covers fs gs = false -> exists f, f ∈ gs /\ f ∉ fs.
Proof.
  unfold covers. induction gs as [|g gs IH]; cbn; [done|].
  destruct (one_of g fs) eqn:E; cbn.
  - intros (f & Hf & Hn)%IH. exists f. split; [by right|done].
  - intros _. exists g. split; [by left|]. intros Hin. apply one_of_true in Hin. congruence.
Qed.

(** ** Properties *)

(** An id in a title is read back. Whatever stands before it without an
    upper-case letter and after it without a letter or digit, an id of two or
    more capitals, a dash and letters and digits with at least one digit is
    exactly what [ticket_id_in] returns: the round trip of the team's way of
    labelling its pull requests. *)
Theorem ticket_id_roundtrip pre letters digits post :
  any_byte is_upper pre = false ->
  all_bytes is_upper letters = true -> 2 <= String.length letters ->
  all_bytes is_ascii_alnum digits = true -> any_byte is_digit digits = true ->
  stops is_ascii_alnum post = true ->
  ticket_id_in (pre +:+ letters +:+ "-" +:+ digits +:+ post) = Some (letters +:+ "-" +:+ digits).
Proof.
  intros Hpre Hup Hlen Hal Hd Hpost. unfold ticket_id_in.
  destruct letters as [|a letters]; [cbn in Hlen; lia|].
  pose proof Hup as Hup'. cbn [all_bytes] in Hup'. apply andb_prop in Hup' as [Ha _].
  change (String a letters +:+ "-" +:+ digits +:+ post)
    with (String a (letters +:+ "-" +:+ digits +:+ post)).
  rewrite first_upper_app by done. cbn [mbind option_bind scan_ids]. rewrite Ha.
  assert (Hid : id_at (String a (letters +:+ "-" +:+ digits +:+ post)) = Some (String a letters +:+ "-" +:+ digits)).
  { unfold id_at. change (String a (letters +:+ "-" +:+ digits +:+ post))
      with (String a letters +:+ ("-" +:+ digits +:+ post)).
    rewrite (take_bytes_app is_upper) by done. rewrite (proj2 (Nat.ltb_ge _ _)) by done.
    rewrite <- app_assoc_str, strip_prefix_app. cbn [mbind option_bind].
    rewrite (take_bytes_app is_ascii_alnum) by done. by rewrite Hd. }
  by rewrite Hid.
Qed.

Lemma ticket_id_roundtrip_witness :
  ticket_id_in "fix(COX-B015): stop the race" = Some "COX-B015" /\
  competing_pr 7 "fix(COX-B015): stop the race" [(7%N, "fix(COX-B015)"); (9%N, "retry COX-B015")] = Some 9%N.
Proof.
  split; [|by vm_compute].
  by apply (ticket_id_roundtrip "fix(" "COX" "B015" "): stop the race"); try done; cbn; lia.
Defined.

(** Any capitals with a dash and a digit look like an id: two unrelated pull
    requests about UTF-8 race each other, and one may be closed for it. *)
Theorem utf8_titles_compete :
  competing_pr 1 "UTF-8 names in the export" [(1%N, "UTF-8 names in the export"); (2%N, "Reject invalid UTF-8")]
  = Some 2%N.
Proof. by vm_compute. Qed.

(** Closing a twin costs no file. Between two pull requests for one
    ticket, one is only ever closed in favour of the other when both diffs were
    read and name files, neither is unsafe, and every file of the closed one is
    a file of the winner. A safe one is let past an unsafe twin only when its
    files are some, not all, of the twin's, and then neither is closed. In
    every other case both are kept for a person. Which of the two is asked
    about first only matters between diffs over the same files. *)
Theorem resolve_lossless a b :
  match resolve_competing a b with
  | MergeClose w l =>
      exists winner loser fw fl,
        ((winner, loser) = (a, b) \/ (winner, loser) = (b, a)) /\
        cc_number winner = w /\ cc_number loser = l /\
        cc_files winner = Some fw /\ cc_files loser = Some fl /\ fl <> [] /\ (forall f, f ∈ fl -> f ∈ fw) /\
        cc_unsafe_change winner = false /\ cc_unsafe_change loser = false /\
        (resolve_competing b a = MergeClose w l \/
         resolve_competing b a = MergeClose l w /\ forall f, f ∈ fw -> f ∈ fl)
  | Proceed w o =>
      cc_number a = w /\ cc_number b = o /\ cc_unsafe_change a = false /\ cc_unsafe_change b = true /\
      exists fa fb, cc_files a = Some fa /\ cc_files b = Some fb /\ fa <> [] /\
        (forall f, f ∈ fa -> f ∈ fb) /\ exists f, f ∈ fb /\ f ∉ fa
  | Hold _ =>
      cc_files a = None \/ cc_files b = None \/ cc_files a = Some [] \/ cc_files b = Some [] \/
      cc_unsafe_change a = true \/ cc_unsafe_change b = true \/
      exists fa fb f g, cc_files a = Some fa /\ cc_files b = Some fb /\ f ∈ fa /\ f ∉ fb /\ g ∈ fb /\ g ∉ fa
  end.
Proof.
  destruct a as [na [fa|] ua]; destruct b as [nb [fb|] ub]; unfold resolve_competing; cbn -[covers]; try tauto.
  destruct (bool_decide_reflect (fa = [])) as [->|Ha]; cbn [orb]; [tauto|].
  destruct (bool_decide_reflect (fb = [])) as [->|Hb]; cbn [orb]; [tauto|].
  destruct ua; [tauto|]. destruct (covers fa fb) eqn:Eab, (covers fb fa) eqn:Eba, ub; cbn [andb negb]; try tauto.
  all: rewrite ?covers_true in *.
  - exists (mkCompeteCandidate na (Some fa) false), (mkCompeteCandidate nb (Some fb) false), fa, fb.
    cbn. auto 12.
  - exists (mkCompeteCandidate na (Some fa) false), (mkCompeteCandidate nb (Some fb) false), fa, fb.
    cbn. auto 12.
  - split_and!; [done..|]. exists fa, fb. split_and!; try done. by apply covers_false.
  - exists (mkCompeteCandidate nb (Some fb) false), (mkCompeteCandidate na (Some fa) false), fb, fa.
    cbn. auto 12.
  - do 6 right. apply covers_false in Eab as (g & Hg & Hg'), Eba as (f & Hf & Hf').
    by exists fa, fb, f, g.
Qed.

(** No hold outlives its rounds. A pull request held open for the same
    reason on the same head is kept for exactly [max 2 max_rounds] - 1 rounds
    in which its head could be read and gets its terminal, landing when it can
    land and closing when it cannot, in the next one, with the record of the
    hold cleared. Rounds in which the head could not be read neither count nor
    start over, however many there are and wherever they fall. *)
Theorem hold_expires max_rounds number reason sha rounds now landable (st : ProjectState) :
  (0 < max_rounds <= u32_max)%N -> sha <> "" -> pr_open_holds st !! number = None ->
  S (readable_rounds rounds) = lifetime max_rounds ->
  let '(st1, ds) := run_holds max_rounds number reason sha rounds st in
  let '(st2, d) := open_hold_round now max_rounds number reason sha landable st1 in
  Forall is_keep ds /\
  d = (if landable then Land (N.of_nat (lifetime max_rounds)) else Close (N.of_nat (lifetime max_rounds))) /\
  pr_open_holds st2 !! number = None.
Proof.
  intros Hmax Hsha Hnone Hlast.
  assert (H0 : held_for number reason sha 0 st) by by unfold held_for; rewrite Hnone.
  pose proof (run_holds_keep max_rounds number reason sha Hmax Hsha rounds 0 st H0 ltac:(lia)) as Hrun.
  destruct (run_holds _ _ _ _ _ _) as [st1 ds]. destruct Hrun as [Hds Hk]. rewrite Nat.add_0_l in Hk.
  pose proof (hold_readable max_rounds number reason sha Hmax Hsha now landable _ st1 Hk ltac:(lia)) as Hstep.
  destruct (open_hold_round _ _ _ _ _ _ _) as [st2 d]. rewrite decide_True in Hstep by done.
  destruct Hstep as [Hd Hdel]. split_and!; [done..|]. rewrite Hdel. apply lookup_delete_eq.
Qed.

Lemma hold_expires_witness :
  let '(st, ds) := run_holds 3 5 "settled" "abc" [("t1", false, true); ("t2", true, true); ("t3", false, true); ("t4", true, true)]
                     ProjectState_default in
  let '(st', d) := open_hold_round "t5" 3 5 "settled" "abc" false st in
  Forall is_keep ds /\ d = Close 3 /\ pr_open_holds st' !! 5%N = None.
Proof. by apply (hold_expires 3 5 "settled" "abc" _ "t5" false ProjectState_default). Defined.

(** Work counts as landed on exactly the evidence rule. A diff is taken to
    be on the main branch already if and only if it adds at least one telling
    line (twelve bytes or more, not a comment, within the first twenty of its
    file) and at least four fifths of these lines occur in the file of the same
    name there; a file that cannot be read counts against it. *)
Theorem landed_exact diff read :
  diff_landed_on_main diff read = true <->
  evidence diff <> [] /\
  8 * length (evidence diff) <= 10 * length (List.filter (on_main read) (evidence diff)).
Proof.
  unfold diff_landed_on_main. rewrite evidence_nil. case_bool_decide as Hnil; [by split; [|intros [??]]|].
  rewrite count_all_spec. cbn [fst snd]. fold (evidence diff). rewrite !Nat.add_0_l, andb_true_iff,
    Nat.ltb_lt, Nat.leb_le. rewrite <- evidence_nil in Hnil.
  assert (0 < length (evidence diff)) by (destruct (evidence diff); [done|cbn; lia]).
  rewrite <- evidence_nil. split; intros [_ ?]; (split; [done|lia]).
Qed.

(** ** Lemmas: the sweep *)

Section SweepFacts.
Context (pr_diff : N -> option string) (merge_pr : N -> option string).
Context (holds : gmap N string) (require_ci : bool).

Definition passes (pr : PullRequest) : bool :=
  match skip_reason pr_diff holds require_ci pr, merge_pr (pr_number pr) with None, None => true | _, _ => false end.

(** Every guard of the sweep holds of the pull request, and the forge took it. *)
Definition lands (pr : PullRequest) : Prop :=
  holds !! pr_number pr = None /\ pr_mergeable pr = true /\
  (require_ci = true -> pr_ci pr <> "failing" /\ pr_ci pr <> "pending") /\
  (forall diff, pr_diff (pr_number pr) = Some diff -> diff_has_conflict_markers diff = false) /\
  merge_pr (pr_number pr) = None.

Lemma passes_lands pr : passes pr = true <-> lands pr.
Proof.
  unfold passes, skip_reason, lands.
  destruct (holds !! pr_number pr); [by split; [|intros [? _]]|].
  destruct (pr_mergeable pr); cbn [negb]; [|by split; [|intros (_ & ? & _)]].
  destruct (require_ci && bool_decide (pr_ci pr = "failing")) eqn:E1.
  { apply andb_prop in E1 as [E1 Eci%bool_decide_eq_true]. split; [done|]. intros (_ & _ & H & _). by destruct (H E1). }
  destruct (require_ci && bool_decide (pr_ci pr = "pending")) eqn:E2.
  { apply andb_prop in E2 as [E2 Eci%bool_decide_eq_true]. split; [done|]. intros (_ & _ & H & _). by destruct (H E2). }
  destruct (from_option diff_has_conflict_markers false (pr_diff (pr_number pr))) eqn:E3.
  { split; [done|]. intros (_ & _ & _ & H & _). destruct (pr_diff (pr_number pr)) as [d|]; [|done].
    cbn in E3. by rewrite (H d) in E3. }
  destruct (merge_pr (pr_number pr)); [by split; [|intros (_ & _ & _ & _ & ?)]|].
  split; [|done]. intros _. split_and!; try done.
  - intros Hci. rewrite Hci in E1, E2. by apply bool_decide_eq_false in E1, E2.
  - intros d Hd. by rewrite Hd in E3.
Qed.

Lemma sweep_from queue : forall out,
  let out' := fold_left (sweep_one pr_diff merge_pr holds require_ci) queue out in
  sw_merged out' = sw_merged out ++ (pr_number <$> List.filter passes queue) /\
  (fst <$> sw_skipped out') = (fst <$> sw_skipped out) ++ (pr_number <$> List.filter (fun pr => negb (passes pr)) queue).
Proof.
  induction queue as [|pr queue IH]; intros out; cbn [fold_left List.filter].
  { by rewrite !app_nil_r. }
  destruct (IH (sweep_one pr_diff merge_pr holds require_ci out pr)) as [-> ->].
  assert (Hp : passes pr = match skip_reason pr_diff holds require_ci pr, merge_pr (pr_number pr) with
                           | None, None => true | _, _ => false end) by done.
  unfold sweep_one. rewrite Hp. destruct (skip_reason _ _ _ pr); [|destruct (merge_pr _)];
    cbn [negb sw_merged sw_skipped fmap list_fmap]; by rewrite ?fmap_app, <- ?app_assoc.
Qed.

(** A sweep merges what it may, in order, and accounts for the rest. It
    looks at the twelve oldest open pull requests into the target branch; the
    merged ones are, oldest first, exactly those of them that no person holds,
    that can merge, whose checks neither fail nor run when checks are required,
    whose diff shows no conflict markers, and that the forge then took. Every
    other one is listed as skipped, in the same order, and nothing else is. *)
Theorem sweep_exact target prs :
  let queue := sweep_queue target prs in
  let out := sweep pr_diff merge_pr holds target require_ci prs in
  (exists rest, queue ++ rest ≡ₚ List.filter (fun p => bool_decide (pr_base p = target)) prs /\
     (12 <= length queue \/ rest = []) /\ length queue <= 12 /\
     forall p q, p ∈ queue -> q ∈ rest -> created_le p q = true) /\
  Sorted.StronglySorted (fun p q => created_le p q = true) queue /\
  sw_merged out = pr_number <$> List.filter passes queue /\
  (fst <$> sw_skipped out) = pr_number <$> List.filter (fun pr => negb (passes pr)) queue /\
  (forall p, passes p = true <-> lands p).
Proof.
  cbv zeta. unfold sweep. destruct (sweep_from (sweep_queue target prs) (mkSweepOutcome [] [])) as [-> ->].
  assert (Htrans : forall x y z, created_le x y = true -> created_le y z = true -> created_le x z = true).
  { intros x y z. apply str_le_trans. }
  assert (Htotal : forall x y, created_le x y = true \/ created_le y x = true).
  { intros x y. apply str_le_total. }
  unfold sweep_queue. set (all := List.filter _ prs).
  pose proof (sort_by_sorted created_le Htotal Htrans all) as Hs.
  pose proof (take_drop 12 (sort_by created_le all)) as Htd. rewrite <- Htd in Hs.
  apply StronglySorted_app in Hs as (Hcross & Hs & _).
  split_and!; [|done..|apply passes_lands].
  exists (drop 12 (sort_by created_le all)). split_and!.
  - by rewrite Htd, sort_by_perm.
  - destruct (decide (12 <= length (sort_by created_le all))).
    + left. rewrite length_take. lia.
    + right. apply drop_ge. lia.
  - rewrite length_take. lia.
  - exact Hcross.
Qed.
End SweepFacts.
