(* ===== verification/Split.v ===== *)
(** * Splitting an oversize ticket

    [split_oversize_ticket] and [parse_subtasks] of [cycle/escalation.rs]: the
    claim on the rescue budget, the refund when the engine gave no answer, and
    the chain of child tickets an answer is turned into. The engine's reply and
    [serde_json] are parameters; the steps run on one state, as when no other
    writer comes between them. *)
From S2P Require Import Prelude RustStr Kinds TestCase Ticket Lifecycle State DepGraph StateOps Ports MergePolicy Titles Board AddTicket.

Record ProposedSubtask := mkProposedSubtask {
  ps_title : string;
  ps_description : string;
  ps_acceptance_criteria : list string;
  ps_complexity : string;
  ps_service_tag : string;
}.

(** ** The rescue budget *)

Definition redesigns (id : TicketId) (st : ProjectState) : N := default 0%N (ticket_redesigns st !! id).

(** The claim both rescues start with. *)
Definition claim_rescue (budget : N) (id : TicketId) (st : ProjectState) : result PortError ProjectState :=
  if (budget <=? redesigns id st)%N then Err (Conflict "rescues exhausted")
  else Ok (st <| ticket_redesigns ::= insert id (redesigns id st + 1)%N |>).

(** [if let Some(n) = get_mut(id) { *n = n.saturating_sub(1) }] *)
Definition refund_rescue (id : TicketId) (st : ProjectState) : ProjectState :=
  st <| ticket_redesigns ::= fun m => match m !! id with Some n => <[id := (n - 1)%N]> m | None => m end |>.

Definition SPLIT_BUDGET : N := MAX_TICKET_RESCUES + 5.

(** ** The reply *)

Section Split.
Context (from_json : string -> option (list ProposedSubtask)).

(** From the first opening to the last closing bracket. *)
Definition json_span (text : string) : option string := from_byte "[" text ≫= upto_last "]".

Definition usable_subtask (s : ProposedSubtask) : bool := negb (blank (ps_title s)) && negb (blank (ps_description s)).

Definition parse_subtasks (raw : string) : option (list ProposedSubtask) :=
  span ← json_span (trim raw);
  subs ← from_json span;
  let subs := take 3 (List.filter usable_subtask subs) in
  if length subs <? 2 then None else Some subs.

(** ** The children *)

(** One turn of the loop: the state, the previous child, the children so far.
    [id], [title] are the ticket being split, [total] the number of subtasks. *)
Definition split_step (now id title : string) (parent : Ticket) (total : nat)
    (acc : ProjectState * option TicketId * list TicketId) (sub : ProposedSubtask)
    : ProjectState * option TicketId * list TicketId :=
  let '(st, prev, child_ids) := acc in
  match mint_id (t_kind parent) st with
  | Err _ => acc
  | Ok cid =>
      let complexity := if bool_decide (str_map ascii_lower (ps_complexity sub) = "small") then CSmall else CMedium in
      match Ticket_new cid (t_kind parent)
              (ps_title sub +:+ " [" +:+ dec_nat (S (length child_ids)) +:+ "/" +:+ dec_nat total +:+ "]")
              ("Subtask of " +:+ id +:+ " (" +:+ dquote +:+ title +:+ dquote +:+ "). " +:+ ps_description sub)
              (t_priority parent) complexity false with
      | Err _ => acc
      | Ok child =>
          let child := set_acceptance_criteria (ps_acceptance_criteria sub) (stamp_created_at now child) in
          let tag := if blank (ps_service_tag sub) then t_service_tag parent else Some (trim (ps_service_tag sub)) in
          let child := match tag with Some tag => try_op (OpSetServiceTag Sa tag) child | None => child end in
          let child := try_op (OpSetParent Sa (t_id parent)) child in
          let child := match prev with Some p => try_op (OpAddDep Sa p) child | None => child end in
          (add_tickets [child] st, Some cid, child_ids ++ [cid])
      end
  end.

Definition split_message (vi : bool) (id : TicketId) (child_ids : list TicketId) : string :=
  if vi then "🪓 SM→SA: " +:+ id +:+ " chết 2 lần ở trần vòng lặp — đã CHẺ thành " +:+ join ", " child_ids +:+
             ": một chuỗi subtask nhỏ, cha tạm giữ tới khi con xong."
  else "🪓 SM→SA: " +:+ id +:+ " died twice at the loop cap — SPLIT into " +:+ join ", " child_ids +:+
       ": a chain of small subtasks; the parent holds until they land.".

(** Filing the children and parking the parent. *)
Definition apply_split (new_id now : string) (vi : bool) (id title : string) (subs : list ProposedSubtask)
    (st : ProjectState) : ProjectState :=
  match ticket id st with
  | None => st
  | Some parent =>
      let '(st, _, child_ids) := fold_left (split_step now id title parent (length subs)) subs (st, None, []) in
      if bool_decide (child_ids = []) then st
      else
        let st := set_ticket id (try_op (OpTransition System OnHold)) st in
        let st := st <| ticket_fail_attempts ::= delete id |> in
        let st := journal_note id ("split into subtasks: " +:+ join ", " child_ids) st in
        post_chat new_id now "SM" (split_message vi id child_ids) st
  end.

(** No text at all, or the engine's placeholder for none. *)
Definition no_reply (out : string) : bool :=
  blank out || starts_with "(the model finished without a text reply" (trim_start out).

(** [reply] is the output of an engine run that succeeded. *)
Definition split_oversize_ticket (new_id now : string) (vi : bool) (reply : option string) (id title : string)
    (st : ProjectState) : ProjectState :=
  match claim_rescue SPLIT_BUDGET id st with
  | Err _ => st
  | Ok st =>
      let out := default "" reply in
      if no_reply out
      then journal_note id "oversize split brief got no engine output — rescue refunded" (refund_rescue id st)
      else match parse_subtasks out with
      | None =>
          journal_note id ("SA split attempt produced no parseable subtasks; reply head: " +:+ take_chars 300 out) st
      | Some subs => apply_split new_id now vi id title subs st
      end
  end.
End Split.

(** ** Lemmas *)

Section SplitFacts.
Context (now id title : string) (parent : Ticket) (total : nat).
Implicit Types (st : ProjectState) (prev : option TicketId).

Record child_of (c : Ticket) : Prop := {
  child_kind : t_kind c = t_kind parent;
  child_parent : t_parent_id c = Some (t_id parent);
  child_status : t_status c = initial_status (t_kind parent);
  child_priority : t_priority c = t_priority parent;
  child_wf : ticket_wf c;
}.

(** Children in order, each depending on the one before. *)
Fixpoint chain prev (cs : list Ticket) : Prop :=
  match cs with
  | [] => True
  | c :: cs => child_of c /\ t_depends_on c = option_list prev /\ chain (Some (t_id c)) cs
  end.

Definition prefix_of st : string := id_prefix (t_kind parent) (alias st).
Definition max_used st : N := foldr N.max 0%N (used_numbers (prefix_of st) (tickets st)).

Lemma try_guarded_wf op t : ticket_wf t -> ticket_wf (try_op op t).
Proof. intros H. unfold try_op. destruct (apply_op op t) eqn:E; [by eapply wf_apply_op|done]. Qed.

Lemma max_app ns ms : foldr N.max 0%N (ns ++ ms) = N.max (foldr N.max 0%N ns) (foldr N.max 0%N ms).
Proof. induction ns as [|n ns IH]; cbn [foldr app]; [by rewrite N.max_0_l|]. rewrite IH. lia. Qed.

Lemma mint_next k st : (foldr N.max 0%N (used_numbers (id_prefix k (alias st)) (tickets st)) < u64_max)%N ->
  mint_id k st = Ok (id_prefix k (alias st) +:+
    pad_dec 3 (foldr N.max 0%N (used_numbers (id_prefix k (alias st)) (tickets st)) + 1)%N).
Proof.
  intros H. rewrite mint_id_text. unfold next_number, u64_wrap. rewrite N.mod_small; [done|].
  unfold u64_max in H. lia.
Qed.

(** What the setters of the loop do to a new child. *)
Definition dress (sub : ProposedSubtask) prev (c : Ticket) : Ticket :=
  let c := set_acceptance_criteria (ps_acceptance_criteria sub) (stamp_created_at now c) in
  let tag := if blank (ps_service_tag sub) then t_service_tag parent else Some (trim (ps_service_tag sub)) in
  let c := match tag with Some tag => try_op (OpSetServiceTag Sa tag) c | None => c end in
  let c := try_op (OpSetParent Sa (t_id parent)) c in
  match prev with Some p => try_op (OpAddDep Sa p) c | None => c end.

Lemma dress_ok sub prev cid ty d co c :
  Ticket_new cid (t_kind parent) ty d (t_priority parent) co false = Ok c ->
  t_id (dress sub prev c) = cid /\ child_of (dress sub prev c) /\
  t_depends_on (dress sub prev c) = option_list prev.
Proof.
  intros Hnew. pose proof (wf_new _ _ _ _ _ _ _ _ Hnew) as Hwf.
  assert (Hd : ticket_wf (dress sub prev c)).
  { unfold dress. set (c1 := set_acceptance_criteria _ _).
    assert (H1 : ticket_wf c1).
    { eapply (wf_apply_op (OpSetCriteria _)); [|done]. by eapply (wf_apply_op (OpStampCreated _)). }
    clearbody c1. destruct prev; repeat apply try_guarded_wf; destruct (if blank _ then _ else _);
      try apply try_guarded_wf; exact H1. }
  unfold Ticket_new in Hnew. destruct (blank ty); [done|]. injection Hnew as <-.
  unfold dress in *. destruct (if blank (ps_service_tag sub) then _ else _), prev;
    (split_and!; [done|constructor; [done..|exact Hd]|done]).
Qed.

(** One subtask files one child at the end of the board. *)
Lemma split_step_child st prev ids sub :
  (max_used st < u64_max)%N ->
  exists c, split_step now id title parent total (st, prev, ids) sub
              = (add_tickets [c] st, Some (t_id c), ids ++ [t_id c]) /\
    child_of c /\ t_depends_on c = option_list prev /\
    (t_id c ∉ (t_id <$> tickets st)) /\
    max_used (add_tickets [c] st) = (max_used st + 1)%N.
Proof.
  intros Hmax. pose proof (mint_next (t_kind parent) st Hmax) as Hmint. fold (prefix_of st) (max_used st) in Hmint.
  set (cid := prefix_of st +:+ pad_dec 3 (max_used st + 1)) in *.
  set (ty := ps_title sub +:+ " [" +:+ dec_nat (S (length ids)) +:+ "/" +:+ dec_nat total +:+ "]").
  assert (Hty : blank ty = false).
  { unfold ty. rewrite <- !app_assoc_str. by apply blank_last. }
  set (d := "Subtask of " +:+ id +:+ " (" +:+ dquote +:+ title +:+ dquote +:+ "). " +:+ ps_description sub).
  set (co := if bool_decide (str_map ascii_lower (ps_complexity sub) = "small") then CSmall else CMedium).
  destruct (Ticket_new cid (t_kind parent) ty d (t_priority parent) co false) as [c|e] eqn:Ec.
  2: { unfold Ticket_new in Ec. by rewrite Hty in Ec. }
  destruct (dress_ok sub prev _ _ _ _ _ Ec) as (Hid & Hc & Hdeps). exists (dress sub prev c).
  split_and!; [|done|done| |].
  - unfold split_step. rewrite Hmint. fold ty d co. rewrite Ec, Hid. done.
  - rewrite Hid. eapply mint_id_fresh; [exact Hmint|]. intros Hin%max_ge. change (u64_max <= max_used st)%N in Hin. lia.
  - assert (Hle : (max_used st + 1 <= u64_max)%N) by lia.
    assert (Hused : used_numbers (prefix_of st) (tickets st ++ [dress sub prev c])
                    = used_numbers (prefix_of st) (tickets st) ++ [(max_used st + 1)%N]).
    { unfold used_numbers. rewrite omap_app. f_equal. cbn [omap list_omap]. rewrite Hid. unfold cid.
      rewrite strip_prefix_app. cbn [mbind option_bind]. unfold parse_u64. by rewrite parse_pad_dec. }
    unfold max_used at 1. change (prefix_of (add_tickets ?cs st)) with (prefix_of st).
    change (tickets (add_tickets ?cs st)) with (tickets st ++ cs). rewrite Hused, max_app. fold (max_used st). cbn [foldr]. lia.
Qed.

Lemma split_loop subs : forall st prev ids,
  board_ok (tickets st) -> (forall p, prev = Some p -> p ∈ (t_id <$> tickets st)) ->
  (max_used st + N.of_nat (length subs) <= u64_max)%N ->
  exists cs prev', fold_left (split_step now id title parent total) subs (st, prev, ids)
      = (add_tickets cs st, prev', ids ++ (t_id <$> cs)) /\
    length cs = length subs /\ chain prev cs /\ board_ok (tickets st ++ cs).
Proof.
  induction subs as [|sub subs IH]; intros st prev ids Hb Hprev Hmax.
  - exists [], prev. rewrite !app_nil_r. split_and!; try done. cbn [fold_left]. f_equal. f_equal.
    etrans; [|apply (tickets_ext (fun ts => ts) (fun ts => ts ++ []))]; [done|by rewrite app_nil_r].
  - cbn [fold_left length] in *. destruct (split_step_child st prev ids sub ltac:(lia)) as (c & -> & Hc & Hdeps & Hid & Hgrow).
    assert (Hb' : board_ok (tickets st ++ [c])).
    { apply board_snoc; [done|apply Hc|done|]. rewrite Hdeps. intros d.
      destruct prev as [p|]; cbn; [|by intros ?%elem_of_nil]. intros ->%list_elem_of_singleton. by apply Hprev. }
    destruct (IH (add_tickets [c] st) (Some (t_id c)) (ids ++ [t_id c]) Hb') as (cs & prev' & Hfold & Hlen & Hchain & Hok).
    { intros p [= <-]. change (tickets (add_tickets ?cs st)) with (tickets st ++ cs). rewrite fmap_app.
      apply elem_of_app. right. left. }
    { rewrite Hgrow. lia. }
    exists (c :: cs), prev'. rewrite Hfold, add_tickets_app. cbn [app fmap list_fmap length chain].
    rewrite <- app_assoc. split_and!; try done; [by rewrite Hlen|].
    change (tickets (add_tickets ?cs st)) with (tickets st ++ cs) in Hok. by rewrite <- app_assoc in Hok.
Qed.
End SplitFacts.

(** What a note or a message leaves alone. *)
Definition core (st : ProjectState) : list Ticket * gmap string N * gmap string N :=
  (tickets st, ticket_redesigns st, ticket_fail_attempts st).

Lemma journal_note_core tk note st : core (journal_note tk note st) = core st.
Proof. unfold journal_note. by case_bool_decide. Qed.

Lemma post_chat_in_core new_id now user body channel atts st : core (post_chat_in new_id now user body channel atts st) = core st.
Proof. done. Qed.

Lemma post_comment_core new_id now author body tk st : core (post_comment new_id now author body tk st) = core st.
Proof. done. Qed.

Lemma post_chat_core new_id now user body st : core (post_chat new_id now user body st) = core st.
Proof. done. Qed.

Lemma parse_subtasks_length from_json raw subs : parse_subtasks from_json raw = Some subs -> 2 <= length subs <= 3.
Proof.
  unfold parse_subtasks. destruct (json_span (trim raw)) as [span|]; [cbn [mbind option_bind]|done].
  destruct (from_json span) as [l|]; [cbn [mbind option_bind]|done].
  destruct (Nat.ltb_spec (length (take 3 (List.filter usable_subtask l))) 2); [done|]. intros [= <-].
  rewrite length_take in *. lia.
Qed.

(** The board after a split: the ticket parked where its lifecycle lets it, the
    children after all others. *)
Definition parked (id : TicketId) (ts : list Ticket) : list Ticket :=
  update_first (is_ticket id) (try_op (OpTransition System OnHold)) ts.

Lemma apply_split_spec new_id now vi id title subs st parent :
  board_ok (tickets st) -> ticket id st = Some parent -> subs <> [] ->
  (max_used parent st + N.of_nat (length subs) <= u64_max)%N ->
  exists cs, core (apply_split new_id now vi id title subs st)
      = (parked id (tickets st) ++ cs, ticket_redesigns st, delete id (ticket_fail_attempts st)) /\
    length cs = length subs /\ chain parent None cs /\ board_ok (parked id (tickets st) ++ cs).
Proof.
  intros Hb Hp Hsubs Hmax. unfold apply_split. rewrite Hp.
  destruct (split_loop now id title parent (length subs) subs st None [] Hb ltac:(done) Hmax)
    as (cs & prev' & -> & Hlen & Hchain & Hok).
  exists cs. assert (Hcs : [] ++ (t_id <$> cs) <> []).
  { intros H%fmap_nil_iff. subst cs. by destruct subs. }
  rewrite bool_decide_false by done. clear Hcs. rewrite post_chat_core, journal_note_core.
  assert (Happ : parked id (tickets st ++ cs) = parked id (tickets st) ++ cs) by (by eapply update_first_app).
  split_and!; try done.
  - unfold core. change (tickets (_ <| ticket_fail_attempts ::= _ |>)) with (parked id (tickets st ++ cs)).
    by rewrite Happ.
  - rewrite <- Happ. apply board_update; [by apply safe_try_op|done].
Qed.

(** The four ways a split can go. *)
Definition split_outcome (from_json : string -> option (list ProposedSubtask)) (id : TicketId) (out : string)
    (parent : Ticket) (st st' : ProjectState) : Prop :=
  let r := redesigns id st in
  ((SPLIT_BUDGET <= r)%N /\ st' = st) \/
  ((r < SPLIT_BUDGET)%N /\
   ((no_reply out = true /\ core st' = (tickets st, <[id := r]> (ticket_redesigns st), ticket_fail_attempts st)) \/
    (no_reply out = false /\ parse_subtasks from_json out = None /\
     core st' = (tickets st, <[id := (r + 1)%N]> (ticket_redesigns st), ticket_fail_attempts st)) \/
    exists subs cs, no_reply out = false /\ parse_subtasks from_json out = Some subs /\
      core st' = (parked id (tickets st) ++ cs, <[id := (r + 1)%N]> (ticket_redesigns st), delete id (ticket_fail_attempts st)) /\
      length cs = length subs /\ 2 <= length cs <= 3 /\ chain parent None cs /\
      board_ok (parked id (tickets st) ++ cs))).

Lemma split_cases from_json new_id now vi reply id title st parent :
  board_ok (tickets st) -> ticket id st = Some parent -> (max_used parent st + 3 <= u64_max)%N ->
  split_outcome from_json id (default "" reply) parent st (split_oversize_ticket from_json new_id now vi reply id title st).
Proof.
  intros Hb Hp Hmax. unfold split_outcome, split_oversize_ticket, claim_rescue. set (out := default "" reply).
  destruct (N.leb_spec SPLIT_BUDGET (redesigns id st)) as [Hle|Hlt]; [by left|]. right. split; [done|].
  set (st1 := st <| ticket_redesigns ::= insert id (redesigns id st + 1)%N |>).
  destruct (no_reply out).
  - left. split; [done|]. rewrite journal_note_core. unfold core, refund_rescue.
    change (ticket_redesigns (st1 <| ticket_redesigns ::= ?f |>)) with (f (ticket_redesigns st1)). cbv beta.
    change (ticket_redesigns st1) with (<[id := (redesigns id st + 1)%N]> (ticket_redesigns st)).
    rewrite lookup_insert_eq, insert_insert_eq. by replace (redesigns id st + 1 - 1)%N with (redesigns id st) by lia.
  - right. destruct (parse_subtasks from_json out) as [subs|] eqn:Es; [right|by left; rewrite journal_note_core].
    apply parse_subtasks_length in Es as Hlen.
    destruct (apply_split_spec new_id now vi id title subs st1 parent) as (cs & Hcore & Hcs & Hchain & Hok);
      [exact Hb|exact Hp|intros ->; cbn in Hlen; lia|change (max_used parent st1) with (max_used parent st); lia|].
    exists subs, cs. split_and!; [done..|exact Hcore|done|lia|lia|done|exact Hok].
Qed.

(** ** Properties *)

(** A split keeps the board sound and pays for itself. On a sound board, a
    split with the budget used up changes nothing. Otherwise: without an answer
    from the engine the claim is refunded and no ticket moves; an answer without
    two usable subtasks costs the claim and moves no ticket; any other answer
    files two or three children, new at the end of the board, of the parent's
    type and priority, in the first status of their type, each depending on the
    one before it, parks the parent where its lifecycle allows it, forgets its
    failures, and leaves every other ticket and every dependency check as it
    was. *)
Theorem split_exact from_json new_id now vi reply id title st parent :
  board_ok (tickets st) -> ticket id st = Some parent -> (max_used parent st + 3 <= u64_max)%N ->
  let out := default "" reply in
  let st' := split_oversize_ticket from_json new_id now vi reply id title st in
  board_ok (tickets st') /\
  if (SPLIT_BUDGET <=? redesigns id st)%N then st' = st
  else match (if no_reply out then None else parse_subtasks from_json out) with
  | None =>
      tickets st' = tickets st /\ ticket_fail_attempts st' = ticket_fail_attempts st /\
      redesigns id st' = (if no_reply out then redesigns id st else redesigns id st + 1)%N
  | Some subs =>
      redesigns id st' = (redesigns id st + 1)%N /\
      ticket_fail_attempts st' = delete id (ticket_fail_attempts st) /\
      exists cs, tickets st' = parked id (tickets st) ++ cs /\ length cs = length subs /\ 2 <= length cs <= 3 /\
        chain parent None cs
  end.
Proof.
  intros Hb Hp Hmax out st'.
  pose proof (split_cases from_json new_id now vi reply id title st parent Hb Hp Hmax) as H. fold out st' in H.
  assert (Hred : forall n, ticket_redesigns st' = <[id := n]> (ticket_redesigns st) -> redesigns id st' = n).
  { intros n E. unfold redesigns. by rewrite E, lookup_insert_eq. }
  destruct H as [[Hle ->]|[Hlt H]]; [split; [done|]; by rewrite (proj2 (N.leb_le _ _))|].
  rewrite (proj2 (N.leb_gt _ _)) by done.
  destruct H as [[-> [= -> Hr ->]]|[(-> & -> & [= -> Hr ->])|(subs & cs & -> & -> & [= -> Hr ->] & Hlen & Hn & Hchain & Hok)]];
    apply Hred in Hr; split; try done. split; [done|]. split; [done|]. by exists cs.
Qed.

Definition big_ticket : Ticket :=
  mkTicket "CXA-F007" Feature "Rewrite the parser" "All of it." High CLarge Pending false (mkDesign None None) None [] [] []
    None None None None None [] None.
Definition big_state : ProjectState := ProjectState_default <| alias := "CXA" |> <| tickets := [big_ticket] |>.
Definition two_subtasks : string -> option (list ProposedSubtask) := fun _ =>
  Some [mkProposedSubtask "Port" "Move the types." ["trait exists"] "Small" ""; mkProposedSubtask " " "No title" [] "" "";
        mkProposedSubtask "Adapter" "Move the rest." [] "medium" "infra"].

Lemma big_board : board_ok (tickets big_state).
Proof.
  assert (Hw : exists t, Ticket_new "CXA-F007" Feature "Rewrite the parser" "All of it." High CLarge false = Ok t /\ t = big_ticket)
    by (eexists; split; vm_compute; reflexivity).
  destruct Hw as (t & Ht%wf_new & ->). split; [by apply validate_ok; vm_compute|by apply Forall_singleton].
Qed.

Lemma split_exact_witness :
  exists cs, tickets (split_oversize_ticket two_subtasks "m1" "now" false (Some "Sure: [..]") "CXA-F007" "Rewrite the parser" big_state)
               = parked "CXA-F007" (tickets big_state) ++ cs /\
    length cs = 2 /\ 2 <= length cs <= 3 /\ chain big_ticket None cs.
Proof.
  destruct (split_exact two_subtasks "m1" "now" false (Some "Sure: [..]") "CXA-F007" "Rewrite the parser" big_state big_ticket
              big_board ltac:(by vm_compute) ltac:(by vm_compute)) as [_ H].
  cbv zeta in H. change (default "" (Some "Sure: [..]")) with "Sure: [..]" in H.
  assert (Es : parse_subtasks two_subtasks "Sure: [..]" = Some
     [mkProposedSubtask "Port" "Move the types." ["trait exists"] "Small" "";
      mkProposedSubtask "Adapter" "Move the rest." [] "medium" "infra"]) by by vm_compute.
  assert (Hn : no_reply "Sure: [..]" = false) by by vm_compute.
  assert (Hr : (SPLIT_BUDGET <=? redesigns "CXA-F007" big_state)%N = false) by by vm_compute.
  rewrite Hr in H. cbv beta iota in H. rewrite Hn, Es in H. destruct H as (_ & _ & cs & H1 & H2 & H3 & H4).
  exists cs. split; [exact H1|]. split; [exact H2|]. split; [exact H3|exact H4].
Defined.
