(* ===== verification/Escalation.v ===== *)
(** * The Scrum Master: unsticking stuck work

    [cycle/escalation.rs]: what every cycle does to the tickets nobody moves. The
    drive through the running sprint, the repair of misfiled bugs, and the rescue
    ladder for tickets that keep failing. [now] is [now_rfc3339()], [new_id] and
    [new_id'] are minted message ids, [reply] is the output of an engine run that
    succeeded, [to_lowercase] is Unicode case folding. *)
From S2P Require Import Prelude RustStr Kinds TestCase Ticket Lifecycle State DepGraph StateOps Ports Channels Backlog ApprovalDesk MergePolicy Board Split.

Definition CHURN_ARREST : N := 6.

(** ** [reclaim_misfiled_bugs] *)

Definition reclaim_misfiled_bugs (st : ProjectState) : ProjectState :=
  st <| tickets ::= fmap (try_op (OpReclaim System)) |>.

(** ** [sm_drive_sprint_flow] *)

Definition is_live (t : Ticket) : bool := negb (one_of (t_status t) [Documented; Verified; Rejected]).
Definition parents_where (p : Ticket -> bool) (ts : list Ticket) : list TicketId := omap t_parent_id (List.filter p ts).
Definition live_parents : list Ticket -> list TicketId := parents_where is_live.
Definition rejected_ids (ts : list Ticket) : list TicketId :=
  t_id <$> List.filter (fun t => bool_decide (t_status t = Rejected)) ts.

(** A live child of a rejected parent. *)
Definition is_dead_child (rejected : list TicketId) (t : Ticket) : bool :=
  is_live t && from_option (fun p => one_of p rejected) false (t_parent_id t).

Definition fails (id : TicketId) (st : ProjectState) : N := default 0%N (ticket_fail_attempts st !! id).

Definition is_held_bug (t : Ticket) : bool := bool_decide (t_kind t = Bug) && bool_decide (t_status t = OnHold).

(** A held bug the drive takes up again. *)
Definition resumable (parents : list TicketId) (st : ProjectState) (t : Ticket) : bool :=
  is_held_bug t && negb (one_of (t_id t) parents) && (fails (t_id t) st <? CHURN_ARREST)%N &&
  (redesigns (t_id t) st <? MAX_TICKET_RESCUES + 5)%N.

Definition arrested (st : ProjectState) (t : Ticket) : bool :=
  is_held_bug t && (CHURN_ARREST <=? fails (t_id t) st)%N.

Definition day_of (now : string) : string := String.substring 0 10 now.

(** Once a day, the bugs that are no longer resumed. *)
Definition announce_arrests (new_id now : string) (st : ProjectState) : ProjectState :=
  let stuck := List.filter (arrested st) (tickets st) in
  if bool_decide (stuck = []) || bool_decide (daily_jobs st !! "churn_arrest" = Some (day_of now)) then st
  else
    post_chat_in new_id now "SM"
      ("⛔ Churn arrest: " +:+ dec_nat (length stuck) +:+ " bug(s) stuck past " +:+ dec CHURN_ARREST +:+
       " attempts, no longer auto-resumed — SA please split or escalate: " +:+
       join ", " ((fun t => t_id t +:+ " (" +:+ dec (fails (t_id t) st) +:+ "x)") <$> stuck))
      AGENTS_CHANNEL [] (st <| daily_jobs ::= insert "churn_arrest" (day_of now) |>).

(** What the drive does to one committed ticket. *)
Definition push_committed (parents : list TicketId) (t : Ticket) : Ticket :=
  match t_status t with
  | OnHold => if one_of (t_id t) parents then t else try_op (OpTransition Sm Pending) t
  | Open | Pending | Ready =>
      if bool_decide (t_priority t = High) then t else try_op (OpSetPriority Po High) t
  | _ => t
  end.

Definition sm_drive_sprint_flow (new_id now : string) (st : ProjectState) : ProjectState :=
  let committed := from_option sp_committed [] (sprint st) in
  if bool_decide (committed = []) then st
  else
    let parents := live_parents (tickets st) in
    let dead := t_id <$> List.filter (is_dead_child (rejected_ids (tickets st))) (tickets st) in
    let st := st <| tickets ::= for_ids (try_op (OpTransition System Rejected)) dead |> in
    let held := t_id <$> List.filter (resumable parents st) (tickets st) in
    let st := announce_arrests new_id now st in
    let st := st <| tickets ::= for_ids (try_op (OpTransition Sm Open)) held |> in
    st <| tickets ::= for_ids (push_committed parents) committed |>.

(** ** The rescue ladder *)

Definition cap_deaths (id : TicketId) (st : ProjectState) : nat :=
  length (List.filter is_cap_death (attempt_failures id st)).

(** Three failures, and some budget left. *)
Definition may_rescue (st : ProjectState) (id : TicketId) : bool :=
  (3 <=? fails id st)%N &&
  ((redesigns id st <? MAX_TICKET_RESCUES)%N ||
   ((2 <=? cap_deaths id st) && (redesigns id st <? MAX_TICKET_RESCUES + 5)%N)).

(** One rescue per cycle: the first in id order that still names a ticket. *)
Definition unpark_candidates (st : ProjectState) : list (TicketId * string) :=
  take 1 (omap (fun id => (fun t => (id, t_title t)) <$> ticket id st)
            (List.filter (may_rescue st) (btree_keys (ticket_fail_attempts st)))).

(** [{:?}] of a layer. *)
Definition layer_debug (l : FailureLayer) : string :=
  match l with LSpec => "Spec" | LGate => "Gate" | LDesign => "Design" | LInfra => "Infra" end.

Definition failure_line (f : AttemptFailure) : string :=
  "attempt " +:+ dec (af_attempt f) +:+ " — rejected by " +:+ af_gate f +:+ " (" +:+ layer_debug (af_layer f) +:+
  "): " +:+ af_detail f.

Definition rescue_history (id : TicketId) (st : ProjectState) : string :=
  match attempt_failures id st with
  | [] => join newline (default [] (ticket_journal st !! id))
  | fs => join newline (failure_line <$> fs)
  end.

(** The ticket never carried a usable requirement. *)
Definition spec_is_thin (id : TicketId) (st : ProjectState) : bool :=
  match ticket id st with
  | Some t => bool_decide (t_acceptance_criteria t = []) || (String.length (trim (t_description t)) <? 80)
  | None => false
  end.

Section Ladder.
Context (to_lowercase : string -> string) (from_json : string -> option (list ProposedSubtask)).

Definition rescue_route (id : TicketId) (st : ProjectState) : EscalationRoute :=
  match attempt_failures id st with
  | [] => escalation_route to_lowercase (rescue_history id st) (spec_is_thin id st)
  | fs => route_from_failures fs (spec_is_thin id st)
  end.

Definition rescuer (route : EscalationRoute) : string := match route with RSpec => "BA" | _ => "SA" end.

Definition rescue_message (route : EscalationRoute) (vi : bool) (attempt : N) (id : TicketId) : string :=
  match route, vi with
  | RSpec, true => "🧯 SM→BA (rescues " +:+ dec attempt +:+ "): " +:+ id +:+ " bị 3 lần đỏ vì spec chưa rõ — BA đã " +:+
                   "viết lại yêu cầu, DEV làm lại. Đỏ tiếp là chuyển người quyết."
  | RSpec, false => "🧯 SM→BA (rescue " +:+ dec attempt +:+ "): " +:+ id +:+ " went red 3 times because the spec was " +:+
                    "unclear — BA rewrote the requirements, DEV retries. Red again and it escalates to a person."
  | RMechanical, true => "🧯 SM→SA (rescues " +:+ dec attempt +:+ "): " +:+ id +:+ " bị 3 lần đỏ ở cổng chất lượng (lint/test) " +:+
                         "chứ không phải thiết kế — SA đưa cách gỡ đúng chỗ đó. Đỏ tiếp là chuyển người quyết."
  | RMechanical, false => "🧯 SM→SA (rescue " +:+ dec attempt +:+ "): " +:+ id +:+ " went red 3 times at the quality gate " +:+
                          "(lint/test), not on design — SA supplied a targeted unblock. Red again and it escalates to a person."
  | _, true => "🧯 SM→SA (rescues " +:+ dec attempt +:+ "): " +:+ id +:+ " được RE-DESIGN sau 3 build đỏ — DEV thử " +:+
               "lại với hướng mới. Đỏ tiếp là chuyển người quyết."
  | _, false => "🧯 SM→SA (rescue " +:+ dec attempt +:+ "): " +:+ id +:+ " was RE-DESIGNED after 3 red builds — " +:+
                "DEV retries with the new approach. Red again and it escalates to a person."
  end.

(** The senior's text lands where the developer reads it. *)
Definition rescue_ticket (route : EscalationRoute) (out : string) : Ticket -> Ticket :=
  match route with
  | RSpec => try_op (OpClarify Ba out)
  | _ => try_op (OpSetTechnical Sa (mkTechnicalDesign out [] "" "" "" ""))
  end.

Definition apply_rescue (new_id new_id' now : string) (vi : bool) (route : EscalationRoute) (out : string)
    (id : TicketId) (st : ProjectState) : ProjectState :=
  let st := set_ticket id (rescue_ticket route out) st in
  let st := st <| ticket_fail_attempts ::= delete id |> in
  let st := journal_note id (rescuer route +:+ " rescue: " +:+ out) st in
  let attempt := default 1%N (ticket_redesigns st !! id) in
  let msg := rescue_message route vi attempt id in
  post_chat_in new_id' now "SM" msg AGENTS_CHANNEL [] (post_comment new_id now "SM" msg (Some id) st).

(** What an engine run is worth: its trimmed output, at most 1,200 characters. *)
Definition usable_reply (reply : option string) : string :=
  from_option (fun out => take_chars 1200 (trim out)) "" reply.

Definition escalate_parked_ticket (new_id new_id' now : string) (vi : bool) (reply : EscalationRoute -> option string)
    (id title : string) (st : ProjectState) : ProjectState :=
  let route := rescue_route id st in
  if bool_decide (route = ROversize)
  then split_oversize_ticket from_json new_id now vi (reply route) id title st
  else match claim_rescue MAX_TICKET_RESCUES id st with
  | Err _ => st
  | Ok st =>
      let out := usable_reply (reply route) in
      if String.length out <? 40 then st else apply_rescue new_id new_id' now vi route out id st
  end.

Definition sm_unpark_tickets (new_id new_id' now : string) (vi : bool) (reply : EscalationRoute -> option string)
    (st : ProjectState) : ProjectState :=
  match unpark_candidates st with
  | (id, title) :: _ => escalate_parked_ticket new_id new_id' now vi reply id title st
  | [] => st
  end.
End Ladder.

(** ** Lemmas: the drive *)

Lemma safe_push parents : safe_change (push_committed parents).
Proof.
  assert (H1 := safe_try_op (OpTransition Sm Pending) eq_refl).
  assert (H2 := safe_try_op (OpSetPriority Po High) eq_refl).
  intros t. unfold push_committed. destruct (t_status t); try (split; [done|tauto]); try case_bool_decide;
    try (split; [done|tauto]); auto. destruct (one_of _ _); [by split|apply H1].
Qed.

Lemma try_transition r to t :
  to <> Ready -> to <> Verified -> to <> InProgress ->
  try_op (OpTransition r to) t
  = if transition_allowed (t_kind t) (t_status t) to && can_transition r (t_status t) to
    then clear_claim (set_status to t) else t.
Proof.
  intros H1 H2 H3. unfold try_op. cbn [apply_op]. unfold transition_to.
  destruct (transition_allowed _ _ _); cbn [negb andb]; [|done].
  destruct (can_transition _ _ _); cbn [negb]; [|done]. by rewrite !decide_False by done.
Qed.

(** The board as one pass over the tickets sees it. *)
Record drive_view := {
  v_rejected : list TicketId;
  v_parents : list TicketId;
  v_committed : list TicketId;
  v_state : ProjectState;
}.

Definition view_of (st : ProjectState) : drive_view := {|
  v_rejected := rejected_ids (tickets st); v_parents := live_parents (tickets st);
  v_committed := from_option sp_committed [] (sprint st); v_state := st |}.

Definition raise_if (b : bool) (t : Ticket) : Ticket := if b then t <| t_priority := High |> else t.

(** What the drive promises of one ticket. *)
Definition driven (v : drive_view) (t : Ticket) : Ticket :=
  let committed := one_of (t_id t) (v_committed v) in
  let childless := negb (one_of (t_id t) (v_parents v)) in
  if is_dead_child (v_rejected v) t && transition_allowed (t_kind t) (t_status t) Rejected
  then clear_claim (set_status Rejected t)
  else if is_held_bug t && childless && (fails (t_id t) (v_state v) <? 6)%N && (redesigns (t_id t) (v_state v) <? 7)%N
  then raise_if committed (clear_claim (set_status Open t))
  else if committed && bool_decide (t_status t = OnHold) && childless && negb (bool_decide (t_kind t = Bug))
  then clear_claim (set_status Pending t)
  else raise_if (committed && one_of (t_status t) [Open; Pending; Ready]) t.

(** The three sweeps on one ticket. *)
Definition swept (v : drive_view) (t : Ticket) : Ticket :=
  let t1 := if is_dead_child (v_rejected v) t then try_op (OpTransition System Rejected) t else t in
  let t2 := if resumable (v_parents v) (v_state v) t1 then try_op (OpTransition Sm Open) t1 else t1 in
  if one_of (t_id t) (v_committed v) then push_committed (v_parents v) t2 else t2.

Lemma announce_tickets new_id now st : tickets (announce_arrests new_id now st) = tickets st.
Proof. unfold announce_arrests. by destruct (_ || _). Qed.

Lemma sm_drive_board new_id now st : board_ok (tickets st) -> board_ok (tickets (sm_drive_sprint_flow new_id now st)).
Proof.
  intros Hb. unfold sm_drive_sprint_flow. destruct (bool_decide _); [done|]. cbv zeta.
  rewrite !tickets_set, announce_tickets, tickets_set.
  repeat apply board_for_ids; try exact Hb; try by apply safe_try_op. apply safe_push.
Qed.

Lemma sm_drive_swept new_id now st :
  board_ok (tickets st) -> NoDup (v_committed (view_of st)) -> v_committed (view_of st) <> [] ->
  tickets (sm_drive_sprint_flow new_id now st) = swept (view_of st) <$> tickets st.
Proof.
  intros Hb Hnd Hne. unfold sm_drive_sprint_flow. change (from_option sp_committed [] (sprint st)) with (v_committed (view_of st)).
  rewrite bool_decide_false by done. cbv zeta.
  set (dead := t_id <$> List.filter (is_dead_child (rejected_ids (tickets st))) (tickets st)).
  set (st1 := st <| tickets ::= for_ids (try_op (OpTransition System Rejected)) dead |>).
  rewrite !tickets_set, announce_tickets.
  assert (Hr := safe_try_op (OpTransition System Rejected) eq_refl).
  assert (Ho := safe_try_op (OpTransition Sm Open) eq_refl).
  assert (Hb1 : board_ok (tickets st1)) by by apply board_for_ids.
  rewrite (for_ids_filter _ _ (tickets st1)) by (by apply board_ids || (intros t; by apply safe_change_id)).
  assert (Hts1 : tickets st1 = (fun t => if is_dead_child (rejected_ids (tickets st)) t then try_op (OpTransition System Rejected) t else t) <$> tickets st).
  { change (tickets st1) with (for_ids (try_op (OpTransition System Rejected)) dead (tickets st)). unfold dead.
    apply for_ids_filter; [intros t; by apply safe_change_id|by apply board_ids]. }
  rewrite for_ids_change.
  - unfold change_all. rewrite Hts1, <- !list_fmap_compose. apply list_fmap_ext. intros i t _. cbn [compose].
    unfold swept. cbn [v_rejected v_parents v_committed v_state view_of].
    set (t1 := if is_dead_child _ t then _ else t).
    assert (Hid1 : t_id t1 = t_id t) by (unfold t1; destruct (is_dead_child _ t); [by apply safe_change_id|done]).
    change (resumable (live_parents (tickets st)) st1 t1) with (resumable (live_parents (tickets st)) st t1).
    assert (Hid2 : t_id (if resumable (live_parents (tickets st)) st t1 then try_op (OpTransition Sm Open) t1 else t1) = t_id t).
    { destruct (resumable _ _ t1); [by rewrite safe_change_id|done]. }
    rewrite Hid2. unfold one_of. case_decide; [by rewrite bool_decide_true|by rewrite bool_decide_false].
  - intros t. apply safe_change_id, safe_push.
  - rewrite Hts1, <- !list_fmap_compose. erewrite list_fmap_ext; [by apply board_ids, Hb|]. intros i t _. cbn [compose].
    destruct (is_dead_child _ t); cbn; destruct (resumable _ _ _); by rewrite ?(safe_change_id _ _ Ho), ?(safe_change_id _ _ Hr).
  - done.
Qed.

(** ** Lemmas: the ladder *)

Lemma safe_rescue route out : safe_change (rescue_ticket route out).
Proof. unfold rescue_ticket. destruct route; by apply safe_try_op. Qed.

Lemma unpark_candidate st id title rest : unpark_candidates st = (id, title) :: rest ->
  may_rescue st id = true /\ is_Some (ticket id st).
Proof.
  unfold unpark_candidates. intros H. assert (Hin : (id, title) ∈ take 1 (omap (fun id => (fun t => (id, t_title t)) <$> ticket id st)
            (List.filter (may_rescue st) (btree_keys (ticket_fail_attempts st))))) by (rewrite H; left).
  apply elem_of_take_sub, list_elem_of_omap in Hin as (id' & [_ Hm]%elem_of_filter_bool & Ht).
  destruct (ticket id' st) as [t|] eqn:E; [|done]. injection Ht as -> _. split; [done|]. by exists t.
Qed.

(** One rescue, as far as the board and the counters go: a new budget entry, the
    failures kept or forgotten, the board kept, changed at the rescued ticket, or
    changed there and extended. *)
Record rescue_effect (id : TicketId) (st st' : ProjectState) : Prop := {
  re_board : board_ok (tickets st');
  re_budget : exists n, ticket_redesigns st' = <[id := n]> (ticket_redesigns st) /\
                (redesigns id st <= n <= N.min (redesigns id st + 1) SPLIT_BUDGET)%N /\
                (ticket_fail_attempts st' = ticket_fail_attempts st \/
                 ticket_fail_attempts st' = delete id (ticket_fail_attempts st) /\ n = (redesigns id st + 1)%N);
  re_others : forall other t, other <> id -> ticket other st = Some t -> ticket other st' = Some t;
}.

Lemma find_update_other f id other ts : (forall t, t_id (f t) = t_id t) -> other <> id ->
  find_ticket other (update_first (is_ticket id) f ts) = find_ticket other ts.
Proof.
  intros Hf Hne. unfold find_ticket. induction ts as [|u ts IH]; [done|]. cbn [update_first List.find].
  destruct (is_ticket id u) eqn:E; cbn [List.find]; [|by rewrite IH].
  apply is_ticket_true in E. unfold is_ticket. by rewrite !bool_decide_false by (rewrite ?Hf; congruence).
Qed.

Lemma find_ticket_app id ts cs t : find_ticket id ts = Some t -> find_ticket id (ts ++ cs) = Some t.
Proof. unfold find_ticket. induction ts as [|u ts IH]; [done|]. cbn. by destruct (is_ticket id u). Qed.

Section LadderFacts.
Context (to_lowercase : string -> string) (from_json : string -> option (list ProposedSubtask)).

(** A state that differs in the budget of one ticket only. *)
Lemma rescue_none id st st' n :
  board_ok (tickets st) -> core st' = (tickets st, <[id := n]> (ticket_redesigns st), ticket_fail_attempts st) ->
  (redesigns id st <= n <= N.min (redesigns id st + 1) SPLIT_BUDGET)%N -> rescue_effect id st st'.
Proof.
  intros Hb [= Ht Hr Hf] Hn. split; [by rewrite Ht|exists n; auto|]. intros other t _. unfold ticket. by rewrite Ht.
Qed.

Lemma apply_rescue_core new_id new_id' now vi route out id st :
  core (apply_rescue new_id new_id' now vi route out id st)
  = (update_first (is_ticket id) (rescue_ticket route out) (tickets st), ticket_redesigns st,
     delete id (ticket_fail_attempts st)).
Proof.
  unfold apply_rescue. cbv zeta. by rewrite post_chat_in_core, post_comment_core, journal_note_core.
Qed.

Lemma escalate_effect new_id new_id' now vi reply id title st :
  board_ok (tickets st) -> (forall t, t ∈ tickets st -> max_used t st + 3 <= u64_max)%N -> may_rescue st id = true ->
  is_Some (ticket id st) ->
  let st' := escalate_parked_ticket to_lowercase from_json new_id new_id' now vi reply id title st in
  st' = st \/ rescue_effect id st st'.
Proof.
  intros Hb Hroom Hmay [t Ht] st'. unfold st', escalate_parked_ticket.
  assert (Hin : t ∈ tickets st) by by apply find_ticket_id in Ht as [_ ?].
  set (route := rescue_route to_lowercase id st). case_bool_decide as Hover.
  - pose proof (split_cases from_json new_id now vi (reply route) id title st t Hb Ht (Hroom t Hin)) as H.
    destruct H as [[_ H]|[Hlt [[_ Hcore]|[(_ & _ & Hcore)|(subs & cs & _ & _ & Hcore & _ & _ & _ & Hok)]]]];
      [by left|right..].
    + eapply rescue_none; [done|exact Hcore|unfold SPLIT_BUDGET in *; lia].
    + eapply rescue_none; [done|exact Hcore|unfold SPLIT_BUDGET in *; lia].
    + injection Hcore as E1 E2 E3. split; [by rewrite E1| |].
      * exists (redesigns id st + 1)%N. split_and!; [done|lia|unfold SPLIT_BUDGET in *; lia|by right].
      * intros other u Hne Hu. unfold ticket in *. rewrite E1. apply find_ticket_app. unfold parked.
        rewrite find_update_other; [done| |done]. intros v. by apply safe_change_id, safe_try_op.
  - unfold claim_rescue. destruct (N.leb_spec MAX_TICKET_RESCUES (redesigns id st)) as [Hle|Hlt]; [by left|right].
    set (st1 := st <| ticket_redesigns ::= insert id (redesigns id st + 1)%N |>).
    assert (Hn : (redesigns id st <= redesigns id st + 1 <= N.min (redesigns id st + 1) SPLIT_BUDGET)%N)
      by (unfold SPLIT_BUDGET, MAX_TICKET_RESCUES in *; lia).
    destruct (String.length _ <? 40); [by eapply rescue_none|].
    pose proof (apply_rescue_core new_id new_id' now vi route (usable_reply (reply route)) id st1) as Hcore.
    set (st2 := apply_rescue _ _ _ _ _ _ _ st1) in *. clearbody st2. unfold core in Hcore.
    assert (E1 := f_equal (fun p => p.1.1) Hcore). assert (E2 := f_equal (fun p => p.1.2) Hcore).
    assert (E3 := f_equal snd Hcore). cbn [fst snd] in E1, E2, E3.
    split.
    + rewrite E1. apply board_update; [apply safe_rescue|done].
    + exists (redesigns id st + 1)%N. split_and!; [done|lia|lia|by right].
    + intros other u Hne Hu. unfold ticket in *. rewrite E1.
      rewrite find_update_other; [done| |done]. intros v. by apply safe_change_id, safe_rescue.
Qed.
End LadderFacts.

(** ** Properties *)

Lemma swept_driven v t : swept v t = driven v t.
Proof.
  unfold swept, driven, resumable.
  change (CHURN_ARREST) with 6%N. change (MAX_TICKET_RESCUES + 5)%N with 7%N.
  assert (Hrej : try_op (OpTransition System Rejected) t
                 = if transition_allowed (t_kind t) (t_status t) Rejected then clear_claim (set_status Rejected t) else t).
  { rewrite try_transition by done. by destruct (t_kind t), (t_status t). }
  rewrite Hrej. generalize (is_dead_child (v_rejected v) t). intros d.
  assert (Hpush : forall u, push_committed (v_parents v) u =
    match t_status u with
    | OnHold => if one_of (t_id u) (v_parents v) then u
                else if bool_decide (t_kind u = Bug) then u else clear_claim (set_status Pending u)
    | Open | Pending | Ready => u <| t_priority := High |>
    | _ => u
    end).
  { intros u. unfold push_committed. destruct u as [? k ? ? p ? s]. cbn. destruct s; try done;
      try (case_bool_decide as E; [by rewrite E|done]).
    destruct (one_of _ _); [done|]. rewrite try_transition by done. by destruct k. }
  assert (Hopen : forall u, is_held_bug u = true -> try_op (OpTransition Sm Open) u = clear_claim (set_status Open u)).
  { intros u [Hk%bool_decide_eq_true Hs%bool_decide_eq_true]%andb_prop. rewrite try_transition by done. by rewrite Hk, Hs. }
  assert (Ht1 : (if d then if transition_allowed (t_kind t) (t_status t) Rejected then clear_claim (set_status Rejected t)
                 else t else t)
                = if d && transition_allowed (t_kind t) (t_status t) Rejected then clear_claim (set_status Rejected t) else t)
    by (by destruct d).
  rewrite Ht1. clear Ht1 Hrej. cbv zeta. destruct (d && _).
  - assert (Hheld : is_held_bug (clear_claim (set_status Rejected t)) = false).
    { unfold is_held_bug. destruct t as [? [] ? ? ? ? ?]; done. }
    rewrite Hheld. cbn [andb]. rewrite Hpush. by destruct (one_of _ _).
  - destruct (is_held_bug t) eqn:Eh; cbn [andb].
    + pose proof Eh as [Hk%bool_decide_eq_true Hs%bool_decide_eq_true]%andb_prop.
      destruct (negb (one_of (t_id t) (v_parents v)) && _ && _) eqn:Er.
      * rewrite Hopen, Hpush by done. unfold raise_if. destruct (one_of (t_id t) (v_committed v)); [|done].
        by destruct t.
      * rewrite Hpush, Hs, Hk. cbn. rewrite (bool_decide_true (OnHold = OnHold)) by done. cbn.
        rewrite andb_false_r. unfold raise_if. destruct (one_of (t_id t) (v_committed v)); cbn; [|done].
        by destruct (one_of (t_id t) (v_parents v)).
    + rewrite Hpush. unfold raise_if. destruct (one_of (t_id t) (v_committed v)); cbn [andb]; [|done].
      revert Eh. unfold is_held_bug. destruct (t_status t), (t_kind t); cbn; try done;
        intros _; by destruct (one_of (t_id t) (v_parents v)).
Qed.

Lemma drive_all new_id now st :
  board_ok (tickets st) -> NoDup (v_committed (view_of st)) ->
  tickets (sm_drive_sprint_flow new_id now st)
  = if bool_decide (v_committed (view_of st) = []) then tickets st else driven (view_of st) <$> tickets st.
Proof.
  intros Hb Hnd. case_bool_decide as Hc.
  - unfold sm_drive_sprint_flow. change (from_option sp_committed [] (sprint st)) with (v_committed (view_of st)).
    by rewrite bool_decide_true.
  - rewrite sm_drive_swept by done. apply list_fmap_ext. intros i t _. apply swept_driven.
Qed.


(** C35: A ticket comes back from being parked only at the price of a rescue. One
    cycle of the ladder on a sound board, whatever the engine answers, touches at
    most one ticket: the first in id order with three failures or more and
    budget left. The board stays sound; no other ticket, budget or failure count
    changes; the budget of that ticket never falls, grows by at most one and
    never past seven; and its failures are either kept or forgotten together
    with one unit of budget. So no ticket returns to the flow this way more than
    seven times, and each cycle that changes nothing but a refund leaves it where
    it was. *)
Theorem rescue_ladder to_lowercase from_json new_id new_id' now vi reply st :
  board_ok (tickets st) -> (forall t, t ∈ tickets st -> max_used t st + 3 <= u64_max)%N ->
  let st' := sm_unpark_tickets to_lowercase from_json new_id new_id' now vi reply st in
  board_ok (tickets st') /\
  match unpark_candidates st with
  | [] => st' = st
  | (id, _) :: _ =>
      (3 <= fails id st)%N /\
      (redesigns id st <= redesigns id st' <= redesigns id st + 1)%N /\ (redesigns id st' <= SPLIT_BUDGET)%N /\
      (fails id st' = fails id st \/ fails id st' = 0%N /\ redesigns id st' = (redesigns id st + 1)%N) /\
      forall other, other <> id ->
        redesigns other st' = redesigns other st /\ fails other st' = fails other st /\
        forall t, ticket other st = Some t -> ticket other st' = Some t
  end.
Proof.
  intros Hb Hroom. unfold sm_unpark_tickets.
  destruct (unpark_candidates st) as [|[id title] rest] eqn:E; [done|].
  destruct (unpark_candidate _ _ _ _ E) as [Hmay Ht]. cbv zeta.
  destruct (escalate_effect to_lowercase from_json new_id new_id' now vi reply id title st Hb Hroom Hmay Ht) as [->|[Hb' (n & Hr & Hn & Hf) Ho]].
  - apply andb_prop in Hmay as [H3%N.leb_le Hbud]. split; [done|]. split_and!; [done|lia|lia| |by left|done].
    unfold SPLIT_BUDGET, MAX_TICKET_RESCUES in *. apply orb_prop in Hbud as [H%N.ltb_lt|[_ H%N.ltb_lt]%andb_prop]; lia.
  - set (st' := escalate_parked_ticket _ _ _ _ _ _ _ _ _ _) in *. apply andb_prop in Hmay as [H3%N.leb_le _].
    assert (Hrid : redesigns id st' = n) by (unfold redesigns; by rewrite Hr, lookup_insert_eq).
    split; [done|]. rewrite Hrid. split_and!; [done|lia|lia|lia| |].
    + destruct Hf as [Hf|[Hf ->]]; [left; unfold fails; by rewrite Hf|right]. split; [|done].
      unfold fails. by rewrite Hf, lookup_delete_eq.
    + intros other Hne. split_and!; [unfold redesigns; by rewrite Hr, lookup_insert_ne| |intros t; by apply Ho].
      unfold fails. destruct Hf as [Hf|[Hf _]]; rewrite Hf; [done|by rewrite lookup_delete_ne].
Qed.

(** ** Witnesses *)

Definition mk_board_ticket (id : string) (kind : TicketType) (status : Status) (prio : Priority) (parent : option string) : Ticket :=
  mkTicket id kind "t" "" prio CSmall status false (mkDesign None None) parent [] [] [] None None None None None [] None.

(** A rejected epic with a child, a held bug, a committed chore on hold. *)
Definition stuck_state : ProjectState :=
  ProjectState_default
  <| tickets := [mk_board_ticket "F1" Feature Rejected Low None; mk_board_ticket "F2" Feature Pending Low (Some "F1");
                 mk_board_ticket "B1" Bug OnHold Low None; mk_board_ticket "B2" Bug OnHold Low None;
                 mk_board_ticket "C1" Chore OnHold Low None] |>
  <| sprint := Some (mkSprint 1 "g" 0 1 ["C1"; "B1"] "t0" None) |>
  <| ticket_fail_attempts := {["B1" := 4%N; "B2" := 6%N]} |>.

Lemma wf_board_ticket id kind status prio parent :
  status_legal kind status = true -> past_ready status = false -> ticket_wf (mk_board_ticket id kind status prio parent).
Proof.
  intros Hs Hp. constructor; cbn; try done; try (by intros []); try (by split; intros []).
  - lia.
  - apply NoDup_nil_2.
  - unfold MAX_WIP_CHECKPOINTS. lia.
  - by rewrite Hp.
Qed.

Lemma stuck_board : board_ok (tickets stuck_state).
Proof.
  split; [by apply validate_ok; vm_compute|]. repeat constructor; by apply wf_board_ticket.
Qed.


Definition rescue_text : EscalationRoute -> option string :=
  fun _ => Some "  Reproduce on master, then fix the off-by-one in the pager.  ".

Lemma rescue_ladder_witness :
  let st' := sm_unpark_tickets (fun s => s) (fun _ => None) "c1" "m1" "now" false rescue_text stuck_state in
  board_ok (tickets st') /\ (redesigns "B1" stuck_state <= redesigns "B1" st')%N /\
  redesigns "B1" st' = 1%N /\ fails "B1" stuck_state = 4%N /\ fails "B1" st' = 0%N /\ fails "B2" st' = 6%N.
Proof.
  assert (Hroom : (forall t, t ∈ tickets stuck_state -> max_used t stuck_state + 3 <= u64_max)%N).
  { intros t Ht. repeat (apply elem_of_cons in Ht as [->|Ht]; [by vm_compute|]). by apply elem_of_nil in Ht. }
  destruct (rescue_ladder (fun s => s) (fun _ => None) "c1" "m1" "now" false rescue_text stuck_state stuck_board Hroom)
    as [Hb H].
  assert (E : unpark_candidates stuck_state = [("B1", "t")]) by (vm_compute; reflexivity).
  rewrite E in H. destruct H as (_ & [Hr _] & _). split; [exact Hb|]. split; [exact Hr|].
  split; [vm_compute; reflexivity|]. split; [vm_compute; reflexivity|]. split; vm_compute; reflexivity.
Defined.

(** A person's hold does not hold: a bug parked by someone who may decide is
    reopened by the next drive, its hold reason still on record, as soon as any
    sprint is running. *)
Theorem human_hold_undone :
  let st := ProjectState_default <| tickets := [mk_board_ticket "B1" Bug Open Low None; mk_board_ticket "C1" Chore Pending Low None] |>
              <| sprint := Some (mkSprint 1 "g" 0 1 ["C1"] "t0" None) |> in
  match hold_ticket_ep "2026-10-27T08:00:00Z" (Some "steve") "B1" "hold" (Some "billing account") st with
  | Ok held =>
      t_status <$> ticket "B1" held = Some OnHold /\
      let driven := sm_drive_sprint_flow "m1" "2026-10-27T08:01:00Z" held in
      t_status <$> ticket "B1" driven = Some Open /\ hold_reasons driven !! "B1" = Some "billing account"
  | Err _ => False
  end.
Proof. vm_compute. auto. Qed.
