(* ===== verification/Effects.v ===== *)
(** * Programs over outbound ports

    A use case of the application crate is a program that calls ports: the store,
    the engine, git, the deploy adapter. Here such a program is the finite tree of
    the calls it makes, each with the reply it waits for. A specification of a
    program watches its calls with a monitor: [every] says that along every path,
    whatever the ports reply, each call is made in a monitor state that permits it
    and the result is related to the state the monitor ends in. [run] is the same
    tree over a concrete world, and [every_run] carries a specification to it. *)
From S2P Require Import Prelude.

Section Effects.
Context {Call : Type} {reply : Call -> Type}.

Inductive Prog (A : Type) : Type :=
| Ret (a : A)
| Do (c : Call) (k : reply c -> Prog A).
Arguments Ret {A} _.
Arguments Do {A} _ _.

Fixpoint pbind {A B} (p : Prog A) (k : A -> Prog B) : Prog B :=
  match p with
  | Ret a => k a
  | Do c q => Do c (fun r => pbind (q r) k)
  end.

Definition call (c : Call) : Prog (reply c) := Do c Ret.

(** ** Monitors *)

Section Monitor.
(** What the ports may reply, what the program may call, and what the monitor
    remembers of a call and its reply. *)
Context {M : Type} (may : M -> forall c, reply c -> Prop) (permit : M -> Call -> Prop)
  (watch : forall c, reply c -> M -> M).

Fixpoint every {A} (p : Prog A) (m : M) (Q : A -> M -> Prop) : Prop :=
  match p with
  | Ret a => Q a m
  | Do c k => permit m c /\ forall r, may m c r -> every (k r) (watch c r m) Q
  end.

Lemma every_mono {A} (p : Prog A) m (P Q : A -> M -> Prop) :
  (forall a m', P a m' -> Q a m') -> every p m P -> every p m Q.
Proof. intros H. revert m. induction p as [a|c k IH]; cbn; [auto|]. intros m [Hc Hk]. split; [done|]. eauto. Qed.

Lemma every_bind {A B} (p : Prog A) (k : A -> Prog B) m Q :
  every (pbind p k) m Q <-> every p m (fun a m' => every (k a) m' Q).
Proof.
  revert m. induction p as [a|c q IH]; cbn; [done|]. intros m. split; intros [Hc Hk]; (split; [done|]); intros r Hr; by apply IH, Hk.
Qed.

(** The rule of sequencing with a stated middle. *)
Lemma every_seq {A B} (p : Prog A) (k : A -> Prog B) m (P : A -> M -> Prop) Q :
  every p m P -> (forall a m', P a m' -> every (k a) m' Q) -> every (pbind p k) m Q.
Proof. intros Hp Hk. apply every_bind. by apply (every_mono _ _ P). Qed.

Lemma every_and {A} (p : Prog A) m (P Q : A -> M -> Prop) :
  every p m P -> every p m Q -> every p m (fun a m' => P a m' /\ Q a m').
Proof. revert m. induction p as [a|c k IH]; cbn; [auto|]. intros m [Hc Hk] [_ Hk']. split; [done|]. auto. Qed.

(** What the permitted calls keep holds at the end. *)
Lemma every_keeps {A} (I : M -> Prop) (p : Prog A) m Q :
  (forall c r m, permit m c -> I m -> I (watch c r m)) -> I m -> every p m Q -> every p m (fun a m' => Q a m' /\ I m').
Proof. intros HI. revert m. induction p as [a|c k IH]; cbn; [auto|]. intros m Hm [Hc Hk]. split; [done|]. intros r Hr. apply IH; auto. Qed.

(** A program that makes calls of one kind only: when the monitor permits them and
    ignores them, the program does not move it. *)
Section Kind.
Context (kind : Call -> bool).

Fixpoint only {A} (p : Prog A) : Prop :=
  match p with
  | Ret _ => True
  | Do c k => kind c = true /\ forall r, only (k r)
  end.

Lemma only_bind {A B} (p : Prog A) (k : A -> Prog B) : only p -> (forall a, only (k a)) -> only (pbind p k).
Proof. intros Hp Hk. induction p as [a|c q IH]; cbn; [apply Hk|]. destruct Hp as [Hc Hq]. split; [done|]. auto. Qed.

Lemma only_call c : kind c = true -> only (call c).
Proof. by split. Qed.

(** At one state of the monitor. *)
Lemma every_only_at {A} (p : Prog A) m :
  (forall c, kind c = true -> permit m c /\ forall r, watch c r m = m) -> only p -> every p m (fun _ m' => m' = m).
Proof.
  intros ignored. induction p as [a|c k IH]; cbn; [done|]. intros [Hc Hk]. destruct (ignored c Hc) as [Hp Hw].
  split; [done|]. intros r _. rewrite Hw. by apply IH.
Qed.

(** Calls of one kind that keep an invariant of the monitor. *)
Lemma every_only_keeps {A} (I : M -> Prop) (p : Prog A) m :
  (forall c m, kind c = true -> I m -> permit m c /\ forall r, I (watch c r m)) ->
  only p -> I m -> every p m (fun _ m' => I m').
Proof.
  intros Hkeeps. revert m. induction p as [a|c k IH]; cbn; [done|]. intros m [Hc Hk] Hm.
  destruct (Hkeeps c m Hc Hm) as [Hp Hw]. split; [done|]. intros r _. by apply IH.
Qed.

Context (ignored : forall c m, kind c = true -> permit m c /\ forall r, watch c r m = m).

Lemma every_only {A} (p : Prog A) m : only p -> every p m (fun _ m' => m' = m).
Proof using ignored. apply every_only_at. auto. Qed.

Lemma every_only_bind {A B} (p : Prog A) (k : A -> Prog B) m Q :
  only p -> (forall a, every (k a) m Q) -> every (pbind p k) m Q.
Proof using ignored. intros Hp Hk. eapply every_seq; [by apply every_only|]. intros a m' ->. apply Hk. Qed.
End Kind.

Lemma only_mono {A} (kind kind' : Call -> bool) (p : Prog A) :
  (forall c, kind c = true -> kind' c = true) -> only kind p -> only kind' p.
Proof. intros H. induction p as [a|c k IH]; cbn; [done|]. intros [Hc Hk]. split; auto. Qed.

(** ** Worlds *)

Section World.
Context {W : Type} (handle : forall c, W -> W * reply c).

Fixpoint run {A} (p : Prog A) (w : W) : W * A :=
  match p with
  | Ret a => (w, a)
  | Do c k => let '(w, r) := handle c w in run (k r) w
  end.

Lemma run_pbind {A B} (p : Prog A) (k : A -> Prog B) w :
  run (pbind p k) w = (let '(w, a) := run p w in run (k a) w).
Proof. revert w. induction p as [a|c q IH]; intros w; cbn; [done|]. destruct (handle c w). apply IH. Qed.

(** A world that answers the calls the monitor permits within what it expects, and
    stays related to the monitor, satisfies what every path satisfies. *)
Lemma every_run {A} (R : W -> M -> Prop) (p : Prog A) w m Q :
  (forall c w m, R w m -> permit m c ->
     may m c (handle c w).2 /\ R (handle c w).1 (watch c (handle c w).2 m)) ->
  R w m -> every p m Q -> exists m', R (run p w).1 m' /\ Q (run p w).2 m'.
Proof.
  intros HR. revert w m. induction p as [a|c k IH]; intros w m Hw; cbn; [by exists m|].
  intros [Hc Hk]. destruct (HR _ _ _ Hw Hc) as [Hm Hw']. destruct (handle c w) as [w' r]. by apply (IH _ _ _ Hw'), Hk.
Qed.
End World.
End Monitor.

Lemma every_permits {M A} may (permit permit' : M -> Call -> Prop) watch (p : Prog A) m (P Q : A -> M -> Prop) :
  (forall m c, permit m c -> permit' m c) -> (forall a m, P a m -> Q a m) ->
  every may permit watch p m P -> every may permit' watch p m Q.
Proof. intros Hc HQ. revert m. induction p as [a|c k IH]; cbn; [auto|]. intros m [Hp Hk]. split; auto. Qed.
End Effects.
Arguments Prog {Call} reply A.
Arguments Ret {Call reply A} _.
Arguments Do {Call reply A} _ _.
