(* ===== verification/Engine.v ===== *)
(** * Agent engines: requests, outcomes, faults, failover

    The port the agents run through ([ports/outbound/engine.rs]), the predicates
    that tell an outage from a failed task ([faults.rs]) and the decorator that
    falls over to the next engine ([infrastructure/src/engine/failover.rs]). An
    engine is its identifier and what a run does to the world [W] it acts on.
    [to_lowercase] is Unicode case folding. *)
From S2P Require Import Prelude RustStr Kinds TestCase Ticket State Ports.

Record AgentRequest := mkAgentRequest {
  rq_role : Role;
  rq_system_prompt : string;
  rq_task_prompt : string;
  rq_work_dir : string;
  rq_timeout : N;
  rq_escalation_level : N;
  rq_label : option string;
}.

Record Usage := mkUsage { us_input_tokens : N; us_output_tokens : N; us_cost_usd : f64 }.

Inductive SandboxStatus :=
| NotRequested
| Confined (mechanism : string)
| Unavailable (reason : string)
| Denied (mechanism : string).

Record AgentOutcome := mkAgentOutcome {
  ao_stdout : string;
  ao_stderr : string;
  ao_exit_code : option Z;
  ao_usage : option Usage;
  ao_trace : string;
  ao_session_id : option string;
  ao_sandbox : SandboxStatus;
  ao_engine : string;
  ao_model : string;
  ao_attempts : list EngineAttempt;
}.

Definition succeeded (o : AgentOutcome) : bool := bool_decide (ao_exit_code o = Some 0%Z).

(** [lines().rev().take(6)], back in order. *)
Definition last_lines (n : nat) (s : string) : list string := reverse (take n (reverse (lines s))).

Definition failure_detail (o : AgentOutcome) : string :=
  let err := trim (ao_stderr o) in
  if decide (err <> "") then err
  else
    let out := trim (ao_stdout o) in
    if decide (out = "") then "" else trim (take_chars 400 (join " | " (last_lines 6 out))).

(** [engine_provenance::model_id] *)
Definition model_id (raw : string) : option string := opt_nonempty (trim raw).

(** [MODEL_UNKNOWN] *)
Definition MODEL_UNKNOWN : string := "model unknown".

Definition attempt_label (a : EngineAttempt) : string :=
  match ea_model a ≫= fun m => opt_nonempty (trim m) with
  | Some m => ea_engine a +:+ " · " +:+ m
  | None => ea_engine a +:+ " · " +:+ MODEL_UNKNOWN
  end.

(** ** Faults *)

Definition contains_any (keys : list string) (m : string) : bool := existsb (fun k => contains k m) keys.

Definition auth_death_markers : list string :=
  ["oauth"; "authenticate"; "401"; "unauthorized"; "revoked"; "invalid api key"; "api key not"].

Definition infra_markers : list string :=
  ["401"; "authenticate"; "revoked"; "unauthorized"; "quota"; "spend limit"; "usage limit"; "spending cap";
   "rate limit"; "overloaded"; "529"; "connection refused"; "connection reset"; "connection closed";
   "econnrefused"; "econnreset"; "etimedout"; "enotfound"; "dns"; "network is unreachable"; "network error";
   "fetch failed"; "socket hang up"; "no route to host"; "temporary failure in name resolution";
   "sandbox_apply"; "timed out"; "unknownerror"; "unavailable"].

Definition quota_markers : list string :=
  ["quota"; "rate limit"; "rate-limit"; "429"; "usage limit"; "usage-limit"; "overloaded"; "insufficient";
   "out of tokens"; "credit"; "billing"; "too many requests"; "resource_exhausted"; "401"; "403"; "unauthorized";
   "authentication"; "authenticate"; "revoked"; "oauth"; "session expired"; "token expired"; "expired token";
   "api key"].

Definition transient_markers : list string :=
  ["timed out"; "timeout"; "deadline"; "connection"; "stream closed"; "broken pipe"; "reset by peer";
   "temporarily"; "try again"].

(** [failover::ALL_EXHAUSTED] *)
Definition ALL_EXHAUSTED : string := "ALL_ENGINES_QUOTA_EXHAUSTED".

(** The note a fallback engine finds at the end of its task. *)
Definition continuation_note : string :=
  newline +:+ newline +:+ "## Continuation after engine failover" +:+ newline +:+
  "A previous engine started this exact task and died mid-run (quota/outage). Its partial work may be in the working tree as uncommitted changes, and a handoff note may exist under `.coxagent/briefs/`. FIRST inspect `git status`/`git diff` (and the brief if present), then CONTINUE from that state — keep what is correct, finish what is missing. Do not start over or revert work you did not write.".

Section Faults.
Context (to_lowercase : string -> string).

Definition is_auth_death (why : string) : bool := contains_any auth_death_markers (to_lowercase why).

Definition is_infra_fault (why : string) : bool :=
  blank why || contains_any infra_markers (to_lowercase why).

Definition is_quota_wall (msg : string) : bool := contains_any quota_markers (to_lowercase msg).

Definition is_transient (msg : string) : bool := contains_any transient_markers (to_lowercase msg).

(** ** [FailoverEngine] *)

Definition Reply : Type := result PortError AgentOutcome.

Section Failover.
Context {W : Type}.

(** [AgentEnginePort] *)
Record Engine := mkEngine {
  en_id : string;
  en_sandbox : SandboxStatus;
  en_run : AgentRequest -> W -> W * Reply;
  en_resume : Role -> string -> string -> string -> N -> W -> W * Reply;
}.

Definition failover_id (engines : list Engine) : string := from_option en_id "failover" (head engines).

Definition failover_sandbox_status (engines : list Engine) : SandboxStatus :=
  from_option en_sandbox NotRequested (head engines).

Definition attempt_of (e : Engine) (r : Reply) : EngineAttempt :=
  match r with
  | Ok o => mkEngineAttempt (if decide (ao_engine o = "") then en_id e else ao_engine o) (model_id (ao_model o))
  | Err _ => mkEngineAttempt (en_id e) None
  end.

Definition stamp_trail (o : AgentOutcome) (attempts : list EngineAttempt) : AgentOutcome :=
  o <| ao_attempts := attempts |>.

(** A quota wall or a stall: another engine may do better. *)
Definition is_unavailable (msg : string) : bool := is_quota_wall msg || is_transient msg.

(** The request as engine number [i] of the chain gets it. *)
Definition request_for (i : nat) (request : AgentRequest) : AgentRequest :=
  if decide (0 < i) then request <| rq_task_prompt ::= fun p => p +:+ continuation_note |> else request.

(** The loop of [run] over the engines from number [i] on. *)
Fixpoint run_from (last_idx i : nat) (engines : list Engine) (request : AgentRequest) (last_err : string)
    (attempts : list EngineAttempt) (w : W) : W * Reply :=
  match engines with
  | [] => (w, Err (Backend (ALL_EXHAUSTED +:+ ": " +:+ last_err)))
  | engine :: rest =>
      let is_last := bool_decide (i = last_idx) in
      let '(w, r) := en_run engine (request_for i request) w in
      let attempts := attempts ++ [attempt_of engine r] in
      match r with
      | Ok o =>
          if succeeded o then (w, Ok (stamp_trail o attempts))
          else if negb is_last && is_unavailable (ao_stderr o)
          then run_from last_idx (S i) rest request (ao_stderr o) attempts w
          else (w, Ok (stamp_trail o attempts))
      | Err e =>
          let msg := port_error_text e in
          if negb is_last && is_unavailable msg then run_from last_idx (S i) rest request msg attempts w
          else if is_quota_wall msg then (w, Err (Backend (ALL_EXHAUSTED +:+ ": " +:+ msg)))
          else (w, Err e)
      end
  end.

Definition failover_run (engines : list Engine) (request : AgentRequest) (w : W) : W * Reply :=
  run_from (length engines - 1) 0 engines request "" [] w.

Definition failover_resume (engines : list Engine) (role : Role) (session follow_up work_dir : string) (timeout : N)
    (w : W) : W * Reply :=
  match head engines with
  | Some e => en_resume e role session follow_up work_dir timeout w
  | None => (w, Err (Backend "failover: no engines"))
  end.

(** ** What the chain promises *)

(** The reply that sends the chain to the next engine. *)
Definition gives_way (r : Reply) : bool :=
  match r with
  | Ok o => negb (succeeded o) && is_unavailable (ao_stderr o)
  | Err e => is_unavailable (port_error_text e)
  end.

(** The reply the chain returns for the last engine it tried. *)
Definition conclude (trail : list EngineAttempt) (r : Reply) : Reply :=
  match r with
  | Ok o => Ok (stamp_trail o trail)
  | Err e =>
      let msg := port_error_text e in
      if is_quota_wall msg then Err (Backend (ALL_EXHAUSTED +:+ ": " +:+ msg)) else Err e
  end.

(** The engines of the list ran one after the other, numbered from [i], and each
    gave way. *)
Inductive all_gave_way (request : AgentRequest) : nat -> list Engine -> W -> list EngineAttempt -> W -> Prop :=
| gave_none i w : all_gave_way request i [] w [] w
| gave_way i e es w w1 r trail w2 :
    en_run e (request_for i request) w = (w1, r) -> gives_way r = true ->
    all_gave_way request (S i) es w1 trail w2 ->
    all_gave_way request i (e :: es) w (attempt_of e r :: trail) w2.

Lemma run_from_spec last_idx request engines i last_err attempts w w' out :
  engines <> [] -> last_idx = i + (length engines - 1) ->
  run_from last_idx i engines request last_err attempts w = (w', out) ->
  exists pre e post w1 trail r,
    engines = pre ++ e :: post /\ all_gave_way request i pre w trail w1 /\
    en_run e (request_for (i + length pre) request) w1 = (w', r) /\
    (post = [] \/ gives_way r = false) /\ out = conclude (attempts ++ trail ++ [attempt_of e r]) r.
Proof.
  revert i last_err attempts w. induction engines as [|e es IH]; intros i last_err attempts w Hne Hlast; [done|].
  cbn [run_from]. destruct (en_run e (request_for i request) w) as [w1 r] eqn:Er.
  assert (Hstop : (es = [] \/ gives_way r = false) -> (w', out) = (w1, conclude (attempts ++ [attempt_of e r]) r) ->
    exists pre e0 post w2 trail r0, e :: es = pre ++ e0 :: post /\ all_gave_way request i pre w trail w2 /\
      en_run e0 (request_for (i + length pre) request) w2 = (w', r0) /\ (post = [] \/ gives_way r0 = false) /\
      out = conclude (attempts ++ trail ++ [attempt_of e0 r0]) r0).
  { intros Hs [= -> ->]. exists [], e, es, w, [], r. cbn [length app]. rewrite Nat.add_0_r. split_and!; [done|constructor|done|done|done]. }
  assert (Hgo : forall msg, es <> [] -> gives_way r = true ->
    run_from last_idx (S i) es request msg (attempts ++ [attempt_of e r]) w1 = (w', out) ->
    exists pre e0 post w2 trail r0, e :: es = pre ++ e0 :: post /\ all_gave_way request i pre w trail w2 /\
      en_run e0 (request_for (i + length pre) request) w2 = (w', r0) /\ (post = [] \/ gives_way r0 = false) /\
      out = conclude (attempts ++ trail ++ [attempt_of e0 r0]) r0).
  { intros msg Hes Hg Hrun. eapply IH in Hrun as (pre & e0 & post & w2 & trail & r0 & -> & Hall & Hr0 & Hpost & ->);
      [|done|destruct es; [done|cbn in *; lia]].
    exists (e :: pre), e0, post, w2, (attempt_of e r :: trail), r0. split_and!; [done|by econstructor| |done|].
    - cbn [length]. by rewrite <- plus_n_Sm.
    - by rewrite <- (assoc_L app). }
  assert (Hl : bool_decide (i = last_idx) = bool_decide (es = [])).
  { apply bool_decide_ext. destruct es; cbn in Hlast; split; intros; [done|lia|lia|done]. }
  rewrite Hl. clear Hl. destruct r as [o|err]; cbn [gives_way conclude] in Hstop, Hgo.
  - destruct (succeeded o) eqn:Es; cbn [negb andb] in Hstop, Hgo; [intros H; apply Hstop; [by right|done]|]. case_bool_decide as Hes; cbn [negb andb].
    + intros H. apply Hstop; [by left|done].
    + destruct (is_unavailable _) eqn:Eu; [by apply Hgo|]. intros H. apply Hstop; [by right|done].
  - case_bool_decide as Hes; cbn [negb andb].
    + intros H. apply Hstop; [by left|]. by destruct (is_quota_wall _).
    + destruct (is_unavailable _) eqn:Eu; [by apply Hgo|]. intros H. apply Hstop; [by right|]. by destruct (is_quota_wall _).
Qed.

(** The trail has one entry per engine tried, and none is blank. *)
Lemma all_gave_way_trail request i es w trail w' :
  all_gave_way request i es w trail w' -> length trail = length es.
Proof. induction 1; cbn; auto. Qed.
End Failover.
End Faults.

(** ** The chain *)

(** A reply of an engine that is out of quota. *)
Definition quota_blocked (lower : string -> string) (r : Reply) : bool :=
  match r with
  | Ok o => negb (succeeded o) && is_quota_wall lower (ao_stderr o)
  | Err e => is_quota_wall lower (port_error_text e)
  end.

(** C31: a failover run over a chain of at least one engine tries the engines in
    order, the first on the request as given and each later one on the request with
    the continuation note, and goes to the next one exactly when there is one and
    the reply is a quota wall or a stall. It stops at an engine of the chain, and a
    reply that is not a quota wall comes back as it is: an error unchanged, an
    outcome with one attempt per engine tried, in order, and nothing else changed.
    A quota wall is the last word only of the last engine; then an error comes back
    as an error and an outcome as an outcome with that trail and its exit code (the
    marking of an exhausted chain is not part of this claim). *)
Theorem failover_exact {W} (lower : string -> string) (engines : list (@Engine W)) request w w' out :
  engines <> [] -> failover_run lower engines request w = (w', out) ->
  exists pre e post w1 trail r,
    engines = pre ++ e :: post /\
    all_gave_way lower request 0 pre w trail w1 /\ length trail = length pre /\
    en_run e (request_for (length pre) request) w1 = (w', r) /\
    (post = [] \/ gives_way lower r = false) /\
    let tried := trail ++ [attempt_of e r] in
    if quota_blocked lower r
    then post = [] /\
      match r, out with
      | Ok o, Ok o' => ao_attempts o' = tried /\ ao_exit_code o' = ao_exit_code o
      | Err _, Err _ => True
      | _, _ => False
      end
    else out = match r with Ok o => Ok (o <| ao_attempts := tried |>) | Err e => Err e end.
Proof.
  intros Hne H. apply run_from_spec in H as (pre & e & post & w1 & trail & r & He & Hall & Hr & Hp & Ho); [|done|lia].
  exists pre, e, post, w1, trail, r. split_and!; try done; [by eapply all_gave_way_trail|]. cbv zeta.
  assert (quota_blocked lower r = true -> post = []) as Hlast.
  { intros Hq. destruct Hp as [->|Hp]; [done|]. unfold gives_way, is_unavailable in Hp. unfold quota_blocked in Hq.
    destruct r as [o|err]; [apply andb_prop in Hq as [Hs Hq]; by rewrite Hs, Hq in Hp|by rewrite Hq in Hp]. }
  subst out. destruct (quota_blocked lower r) eqn:Hq.
  - split; [by apply Hlast|]. destruct r as [o|err]; cbn [conclude]; [done|]. by destruct (is_quota_wall _ _).
  - destruct r as [o|err]; cbn [conclude]; [done|]. cbv zeta.
    change (is_quota_wall lower (port_error_text err) = false) in Hq. by rewrite Hq.
Qed.

(** ** A chain of two engines *)

Definition sample_outcome (code : Z) (stderr engine model : string) : AgentOutcome :=
  mkAgentOutcome "" stderr (Some code) None "" None NotRequested engine model [].

(** Counts its runs and replies always the same. *)
Definition fixed_engine (id : string) (r : Reply) : @Engine nat :=
  mkEngine id NotRequested (fun _ w => (S w, r)) (fun _ _ _ _ _ w => (S w, r)).

Definition sample_request : AgentRequest := mkAgentRequest DevBug "" "fix it" "." 60 0 None.
Definition walled : @Engine nat := fixed_engine "claude" (Ok (sample_outcome 1 "API error 429: quota" "" "")).
Definition healthy : @Engine nat := fixed_engine "opencode" (Ok (sample_outcome 0 "" "opencode" " glm ")).
Definition slow : @Engine nat := fixed_engine "copilot" (Err (Backend "copilot timed out")).
Definition denied : @Engine nat := fixed_engine "codex" (Err (Backend "429 Too Many Requests")).

Lemma failover_exact_witness :
  [walled; healthy] <> [] /\
  exists pre e post w1 trail r,
    [walled; healthy] = pre ++ e :: post /\
    all_gave_way ascii_lowercase sample_request 0 pre 0 trail w1 /\ length trail = length pre /\
    en_run e (request_for (length pre) sample_request) w1 = (2, r) /\
    (post = [] \/ gives_way ascii_lowercase r = false).
Proof.
  split; [done|].
  destruct (failover_exact ascii_lowercase [walled; healthy] sample_request 0 2
    (Ok ((sample_outcome 0 "" "opencode" " glm ") <| ao_attempts :=
          [mkEngineAttempt "claude" None; mkEngineAttempt "opencode" (Some "glm")] |>)))
    as (pre & e & post & w1 & trail & r & H1 & H2 & H3 & H4 & H5 & _); [done|vm_compute; reflexivity|].
  exists pre, e, post, w1, trail, r. split_and!; assumption.
Defined.

(** When every engine is behind a quota wall and the last one says so in an outcome
    rather than an error, nothing in the result carries the exhaustion tag. *)
Theorem exhausted_outcome_untagged :
  failover_run ascii_lowercase [walled; walled] sample_request 0 =
  (2, Ok ((sample_outcome 1 "API error 429: quota" "" "") <| ao_attempts :=
            [mkEngineAttempt "claude" None; mkEngineAttempt "claude" None] |>)).
Proof. vm_compute. reflexivity. Qed.

(** One engine merely slow and the last behind a wall is reported as all exhausted. *)
Theorem one_wall_tags_all :
  failover_run ascii_lowercase [slow; denied] sample_request 0 =
  (2, Err (Backend "ALL_ENGINES_QUOTA_EXHAUSTED: backend failure: 429 Too Many Requests")).
Proof. vm_compute. reflexivity. Qed.

(** A rejected API key and an expired session are auth deaths and reasons to fail
    over, and not infrastructure faults: they are charged to the ticket. *)
Theorem dead_credentials_are_no_fault :
  Forall (fun why => is_auth_death ascii_lowercase why = true /\ is_quota_wall ascii_lowercase why = true /\
                     is_infra_fault ascii_lowercase why = false)
    ["Invalid API key"; "OAuth session expired and could not be refreshed"].
Proof. repeat constructor. Qed.
