(* ===== verification/Gates.v ===== *)
(** * The definition-of-done gates and the green cache

    [use_cases/run_dev/gates.rs]: the mechanical gates a developer run must pass,
    functions of one snapshot of the working tree. [verify_cache.rs]: the
    process-wide maps that say which tree state was last green and which one is
    being verified. [to_lowercase] is Unicode case folding, [digest] the standard
    library's default hasher over what it is fed. *)
From S2P Require Import Prelude RustStr.

(** [WorkingTreeDiff] *)
Record WorkingTreeDiff := mkWorkingTreeDiff {
  changed_paths : list string;
  full_diff : string;
  unified0_diff : string;
  cfg_test_line : gmap string N;
}.

Definition WorkingTreeDiff_default : WorkingTreeDiff := mkWorkingTreeDiff [] "" "" ∅.

Definition lints_touch_changed_files (tree : WorkingTreeDiff) (lint_files : list string) : bool :=
  match changed_paths tree with
  | [] => false
  | paths =>
      existsb (fun lint =>
        let lint := trim lint in
        negb (bool_decide (lint = "")) && existsb (fun c => ends_with c lint || ends_with lint c) paths) lint_files
  end.

Definition doc_extensions : list string :=
  [".md"; ".txt"; ".adoc"; ".rst"; ".png"; ".jpg"; ".jpeg"; ".svg"; ".gif"].

Section Gates.
Context (to_lowercase : string -> string).

Definition is_doc (f : string) : bool :=
  let lower := to_lowercase f in
  existsb (fun e => ends_with e lower) doc_extensions ||
  (ends_with "license" lower || ends_with ".gitignore" lower) ||
  (starts_with "docs/" lower || contains "/docs/" lower).

(** The loop: false at the first path that is no document, else whether there was
    a path. *)
Definition diff_is_docs_only (tree : WorkingTreeDiff) : bool :=
  forallb is_doc (changed_paths tree) && negb (bool_decide (changed_paths tree = [])).

Definition is_test_path (f : string) : bool :=
  let f := to_lowercase f in
  contains "/tests/" f || starts_with "tests/" f ||
  existsb (fun e => ends_with e f) [".spec.ts"; ".spec.js"; "_test.rs"; "_test.go"; ".test.ts"; ".test.js"] ||
  contains "test_" f.

Definition is_test_line (l : string) : bool :=
  starts_with "+" l &&
  existsb (fun m => contains m l) ["#[test]"; "#[tokio::test]"; "def test_"; "it("; "func Test"].

(** The first number after the plus sign of a hunk header. *)
Definition hunk_start (hunk : string) : option N :=
  new_side ← split_byte "+" hunk !! 1;
  parse_u64 (take_bytes (fun a => negb (Ascii.eqb a "," || Ascii.eqb a " ")) new_side).

(** The scan of [diff_touches_inline_test_module] from a line on, [file] the file
    it is in. *)
Fixpoint scan_hunks (marks : gmap string N) (file : option string) (ls : list string) : bool :=
  match ls with
  | [] => false
  | line :: ls =>
      match strip_prefix "+++ b/" line with
      | Some rest => scan_hunks marks (Some (trim rest)) ls
      | None =>
          match strip_prefix "@@ " line, file with
          | Some hunk, Some f =>
              match hunk_start hunk, marks !! f with
              | Some start, Some mark => (mark <? start)%N || scan_hunks marks file ls
              | _, _ => scan_hunks marks file ls
              end
          | _, _ => scan_hunks marks file ls
          end
      end
  end.

Definition diff_touches_inline_test_module (tree : WorkingTreeDiff) : bool :=
  scan_hunks (cfg_test_line tree) None (lines (unified0_diff tree)).

Definition diff_touches_tests (tree : WorkingTreeDiff) : bool :=
  existsb is_test_path (changed_paths tree) || existsb is_test_line (lines (full_diff tree)) ||
  diff_touches_inline_test_module tree.
End Gates.

Definition BUILD_IRRELEVANT : list string :=
  [".claude/"; ".gitnexus/"; "backups/"; "node_modules/"; "target/"; "cox-opencode.json"; "cox-config.json"; ".DS_Store"].

(** [p.trim_start_matches(pat)] for a nonempty [pat]; each turn takes a byte. *)
Fixpoint trim_start_matches (fuel : nat) (pat s : string) : string :=
  match fuel with
  | O => s
  | S fuel => match strip_prefix pat s with Some r => trim_start_matches fuel pat r | None => s end
  end.

Definition is_irrelevant (p : string) : bool :=
  let p := trim_start_matches (String.length p) "./" p in
  existsb (fun skip => starts_with skip p || contains ("/" +:+ skip) p || bool_decide (p = skip)) BUILD_IRRELEVANT.

Definition build_relevant (changed : list string) : list string :=
  List.filter (fun p => negb (is_irrelevant p)) changed.

(** ** [verify_cache.rs] *)

(** A dirty path of [git status --porcelain] with its size and time of change. *)
Definition DirtyEntry : Type := string * option (N * N).

(** What the hasher is fed. *)
Inductive HashPiece := HStr (s : string) | HU64 (n : N).

Definition entry_pieces (e : DirtyEntry) : list HashPiece :=
  HStr e.1 :: match e.2 with Some (size, mtime) => [HU64 size; HU64 mtime] | None => [HStr "absent"] end.

Definition fingerprint (digest : list HashPiece -> string) (head : string) (dirty : list DirtyEntry) : string :=
  digest (HStr (trim head) :: concat (entry_pieces <$> dirty)).

(** The two process-wide maps, by working directory. *)
Record VerifyCache := mkVerifyCache { vc_green : gmap string string; vc_in_flight : gmap string string }.

Definition VerifyCache_new : VerifyCache := mkVerifyCache ∅ ∅.

Definition is_green (dir : string) (fp : option string) (c : VerifyCache) : bool :=
  match fp with None => false | Some f => bool_decide (vc_green c !! dir = Some f) end.

Definition mark_green (dir : string) (fp : option string) (c : VerifyCache) : VerifyCache :=
  match fp with None => c | Some f => c <| vc_green ::= insert dir f |> end.

Definition UNKNOWN : string := String "000" "unknown".

Definition claim_verify (dir : string) (fp : option string) (c : VerifyCache) : VerifyCache * bool :=
  match vc_in_flight c !! dir with
  | Some _ => (c, false)
  | None => (c <| vc_in_flight ::= insert dir (default UNKNOWN fp) |>, true)
  end.

Definition release_verify (dir : string) (fp : option string) (c : VerifyCache) : VerifyCache :=
  if decide (vc_in_flight c !! dir = Some (default UNKNOWN fp)) then c <| vc_in_flight ::= delete dir |> else c.

(** ** Reading a diff *)

(** A hunk of a zero-context diff: [@@ -a,b +start<tail>], then the changed lines. *)
Record Hunk := mkHunk { hk_old : string; hk_start : N; hk_tail : string; hk_body : list string }.

(** A changed file: the lines before its new name, the name, the hunks. *)
Record FileDiff := mkFileDiff { fd_head : list string; fd_path : string; fd_hunks : list Hunk }.

Definition hunk_header (h : Hunk) : string := "@@ " +:+ hk_old h +:+ "+" +:+ dec (hk_start h) +:+ hk_tail h.

Definition hunk_lines (h : Hunk) : list string := hunk_header h :: hk_body h.

Definition file_lines (f : FileDiff) : list string :=
  fd_head f ++ ("+++ b/" +:+ fd_path f) :: concat (hunk_lines <$> fd_hunks f).

(** A line that opens neither a file nor a hunk. *)
Definition is_content_line (l : string) : Prop :=
  is_line l = true /\ strip_prefix "+++ b/" l = None /\ strip_prefix "@@ " l = None.

Record hunk_wf (h : Hunk) : Prop := {
  hw_header : is_line (hunk_header h) = true;
  hw_old : byte_free "+" (hk_old h) = true;
  hw_start : (hk_start h <= u64_max)%N;
  hw_tail : exists c s, hk_tail h = String c s /\ (c = ","%char \/ c = " "%char);
  hw_body : Forall is_content_line (hk_body h);
}.

Record file_wf (f : FileDiff) : Prop := {
  fw_head : Forall is_content_line (fd_head f);
  fw_path : trim (fd_path f) = fd_path f;
  fw_line : is_line (fd_path f) = true;
  fw_hunks : Forall hunk_wf (fd_hunks f);
}.

(** The hunk starts below the file's test marker, whose line counts from zero. *)
Definition in_test_module (marks : gmap string N) (path : string) (h : Hunk) : bool :=
  match marks !! path with Some mark => (mark <? hk_start h)%N | None => false end.

Lemma split_byte_head sep s : split_byte sep s !! 0 = Some (split_first sep s).
Proof.
  induction s as [|a s IH]; [done|]. cbn [split_byte split_first]. case_bool_decide; [done|].
  destruct (split_byte sep s); [done|]. cbn in *. by simplify_eq.
Qed.

Lemma split_first_app sep a s : byte_free sep a = true -> split_first sep (a +:+ s) = a +:+ split_first sep s.
Proof.
  induction a as [|x a IH]; [done|]. cbn [byte_free all_bytes]. intros [Hx Ha]%andb_true_iff.
  change (String x a +:+ s) with (String x (a +:+ s)). cbn [split_first]. rewrite bool_decide_false, IH; [done|done|].
  intros ->. by rewrite Ascii.eqb_refl in Hx.
Qed.

Lemma take_bytes_all p w c s :
  all_bytes p w = true -> p c = false -> take_bytes p (w +:+ String c s) = w.
Proof.
  intros Hw Hc. induction w as [|a w IH]; [change (take_bytes p (String c s) = ""); cbn [take_bytes]; by rewrite Hc|].
  change (String a w +:+ String c s) with (String a (w +:+ String c s)). cbn [take_bytes].
  cbn in Hw. apply andb_true_iff in Hw as [-> Hw]. by rewrite IH.
Qed.

Lemma digit_ne a c : is_digit a = true -> is_digit c = false -> negb (Ascii.eqb a c) = true.
Proof. intros Ha Hc. apply negb_true_iff, Ascii.eqb_neq. intros ->. congruence. Qed.

(** The scan reads the start line back from a hunk's header. *)
Lemma hunk_start_header h :
  hunk_wf h -> hunk_start (hk_old h +:+ "+" +:+ dec (hk_start h) +:+ hk_tail h) = Some (hk_start h).
Proof.
  intros [_ Hold Hs (c & s & -> & Hc) _]. unfold hunk_start.
  change ("+" +:+ dec (hk_start h) +:+ String c s) with (String "+" (dec (hk_start h) +:+ String c s)).
  rewrite split_byte_free by done. cbn [lookup list_lookup]. rewrite split_byte_head. cbn [mbind option_bind].
  assert (Hd : forall x, is_digit x = false -> byte_free x (dec (hk_start h)) = true).
  { intros x Hx. apply (all_bytes_impl is_digit); [|apply all_digits_dec]. intros a Ha. by apply digit_ne. }
  rewrite split_first_app by by apply Hd.
  assert (Hf : split_first "+" (String c s) = String c (split_first "+" s)) by by destruct Hc as [-> | ->].
  rewrite Hf, take_bytes_all.
  - apply (parse_pad_dec u64_max 0), Hs.
  - apply (all_bytes_impl is_digit); [|apply all_digits_dec]. intros a Ha. rewrite negb_orb. by rewrite !digit_ne.
  - by destruct Hc as [-> | ->].
Qed.

Lemma scan_content marks file ls rest :
  Forall is_content_line ls -> scan_hunks marks file (ls ++ rest) = scan_hunks marks file rest.
Proof. induction 1 as [|l ls (_ & Hf & Hh) _ IH]; [done|]. cbn [app scan_hunks]. by rewrite Hf, Hh. Qed.

Lemma scan_hunk_lines marks path hs rest :
  Forall hunk_wf hs ->
  scan_hunks marks (Some path) (concat (hunk_lines <$> hs) ++ rest) =
  existsb (in_test_module marks path) hs || scan_hunks marks (Some path) rest.
Proof.
  induction 1 as [|h hs Hh _ IH]; [done|]. cbn [fmap list_fmap concat].
  change (hunk_lines h) with (hunk_header h :: hk_body h). rewrite <- app_assoc. cbn [app scan_hunks].
  assert (Hn : strip_prefix "+++ b/" (hunk_header h) = None) by done.
  assert (Hs : strip_prefix "@@ " (hunk_header h) = Some (hk_old h +:+ "+" +:+ dec (hk_start h) +:+ hk_tail h))
    by by apply strip_prefix_spec.
  rewrite Hn, Hs, hunk_start_header by done.
  rewrite scan_content by apply Hh. rewrite IH. cbn [existsb].
  change (in_test_module marks path h) with (match marks !! path with Some mark => (mark <? hk_start h)%N | None => false end).
  destruct (marks !! path); [by rewrite orb_assoc|done].
Qed.

Lemma scan_files marks fs file :
  Forall file_wf fs ->
  scan_hunks marks file (concat (file_lines <$> fs)) =
  existsb (fun f => existsb (in_test_module marks (fd_path f)) (fd_hunks f)) fs.
Proof.
  intros Hfs. revert file. induction Hfs as [|f fs Hf _ IH]; intros file; [done|].
  cbn [fmap list_fmap concat existsb].
  change (file_lines f) with (fd_head f ++ ("+++ b/" +:+ fd_path f) :: concat (hunk_lines <$> fd_hunks f)).
  rewrite <- app_assoc, scan_content by apply Hf.
  cbn [app scan_hunks].
  assert (Hs : strip_prefix "+++ b/" ("+++ b/" +:+ fd_path f) = Some (fd_path f)) by by apply strip_prefix_spec.
  rewrite Hs, (fw_path _ Hf).
  rewrite scan_hunk_lines by apply Hf. f_equal. apply IH.
Qed.

Lemma content_is_line ls : Forall is_content_line ls -> Forall (fun l => is_line l = true) ls.
Proof. intros H. eapply Forall_impl; [exact H|]. by intros l [? _]. Qed.

Lemma file_lines_lines fs : Forall file_wf fs -> Forall (fun l => is_line l = true) (concat (file_lines <$> fs)).
Proof.
  induction 1 as [|f fs Hf _ IH]; [by constructor|]. cbn [fmap list_fmap concat]. apply Forall_app. split; [|done].
  apply Forall_app. split; [apply content_is_line, Hf|]. constructor.
  - pose proof (fw_line _ Hf) as Hl. revert Hl. unfold is_line, byte_free. by rewrite !all_bytes_app.
  - pose proof (fw_hunks _ Hf) as Hh. induction Hh as [|h hs Hh _ IHh]; [by constructor|].
    cbn [fmap list_fmap concat]. change (hunk_lines h) with (hunk_header h :: hk_body h). constructor; [apply Hh|]. apply Forall_app. split; [apply content_is_line, Hh|done].
Qed.

(** on the text of a zero-context diff, the inline-test gate says yes exactly when some hunk of some file starts below that file's first [#[cfg(test)]] line: the scan recovers every file name and every start line the diff prints, whatever else the changed lines contain. *)
Theorem inline_gate_exact changed full marks fs :
  Forall file_wf fs ->
  diff_touches_inline_test_module
    (mkWorkingTreeDiff changed full (unlines (concat (file_lines <$> fs))) marks) = true <->
  exists f h mark, f ∈ fs /\ h ∈ fd_hunks f /\ marks !! fd_path f = Some mark /\ (mark < hk_start h)%N.
Proof.
  intros Hfs. unfold diff_touches_inline_test_module. cbn [unified0_diff cfg_test_line].
  rewrite lines_unlines by by apply file_lines_lines. rewrite scan_files, existsb_exists by done. split.
  - intros (f & Hf & (h & Hh & Hm)%existsb_exists). unfold in_test_module in Hm.
    destruct (marks !! fd_path f) as [mark|] eqn:E; [|done]. exists f, h, mark.
    rewrite !list_elem_of_In. split_and!; [done..|]. by apply N.ltb_lt.
  - intros (f & h & mark & Hf & Hh & Hm & Hlt). exists f. split; [by apply list_elem_of_In|].
    apply existsb_exists. exists h. split; [by apply list_elem_of_In|]. unfold in_test_module. rewrite Hm. by apply N.ltb_lt.
Qed.

Definition sample_diff : list FileDiff :=
  [mkFileDiff ["diff --git a/src/lib.rs b/src/lib.rs"; "--- a/src/lib.rs"] "src/lib.rs"
     [mkHunk "-3,0 " 4 ",2 @@ fn plus + one" ["+    let a = 1;"; "+    a"]; mkHunk "-120 " 121 " @@" ["-old"; "+new"]]].

Lemma sample_diff_wf : Forall file_wf sample_diff.
Proof.
  repeat constructor; try reflexivity; try done.
  - exists ","%char, "2 @@ fn plus + one". by split; [|left].
  - exists " "%char, "@@". by split; [|right].
Qed.

Lemma inline_gate_exact_witness :
  Forall file_wf sample_diff /\
  exists f h mark, f ∈ sample_diff /\ h ∈ fd_hunks f /\
    ({[ "src/lib.rs" := 100%N ]} : gmap string N) !! fd_path f = Some mark /\ (mark < hk_start h)%N.
Proof. split; [apply sample_diff_wf|]. apply (inline_gate_exact ["src/lib.rs"] "" _ sample_diff sample_diff_wf). vm_compute. reflexivity. Defined.

(** The regression-test gate takes any added line with [it(] in it for a test, and
    any path with [test_] in it: a call of [split], a file named after the latest
    release. *)
Theorem regression_gate_fooled :
  diff_touches_tests ascii_lowercase
    (mkWorkingTreeDiff ["src/parse.rs"] (unlines ["@@ -1 +1 @@"; "+    let parts = line.split(',');"]) "" ∅) = true /\
  diff_touches_tests ascii_lowercase (mkWorkingTreeDiff ["src/latest_release.rs"] "" "" ∅) = true.
Proof. vm_compute. done. Qed.

(** ** The cache *)

Lemma claim_verify_free dir fp c :
  vc_in_flight c !! dir = None ->
  claim_verify dir fp c = (mkVerifyCache (vc_green c) (<[dir := default UNKNOWN fp]> (vc_in_flight c)), true).
Proof. intros H. unfold claim_verify. rewrite H. by destruct c. Qed.

Lemma release_verify_held dir fp c :
  vc_in_flight c !! dir = Some (default UNKNOWN fp) ->
  release_verify dir fp c = mkVerifyCache (vc_green c) (delete dir (vc_in_flight c)).
Proof. intros H. unfold release_verify. rewrite decide_True by done. by destruct c. Qed.

(** While a boot check of a directory is running no other starts, and the check that
    holds the directory is the one that gives it back. *)
Lemma verify_claim_exclusive dir fp fp' c :
  let c' := (claim_verify dir fp c).1 in
  (claim_verify dir fp' c').2 = false /\
  ((claim_verify dir fp c).2 = true -> (claim_verify dir fp' (release_verify dir fp c')).2 = true).
Proof.
  cbn zeta. destruct (vc_in_flight c !! dir) eqn:E.
  - unfold claim_verify. rewrite E. cbn [fst snd]. rewrite E. by split.
  - rewrite (claim_verify_free _ fp _ E). cbn [fst snd].
    rewrite (release_verify_held dir fp) by (cbn; by rewrite lookup_insert_eq).
    unfold claim_verify. cbn [vc_in_flight]. rewrite lookup_insert_eq, lookup_delete_eq. by split.
Qed.

(** Only the tree state marked last is green. *)
Lemma mark_green_exact dir fp c dir' fp' :
  is_green dir' (Some fp') (mark_green dir (Some fp) c) =
  if decide (dir = dir') then bool_decide (fp = fp') else is_green dir' (Some fp') c.
Proof.
  destruct c as [g m].
  change (bool_decide (<[dir := fp]> g !! dir' = Some fp') =
          if decide (dir = dir') then bool_decide (fp = fp') else bool_decide (g !! dir' = Some fp')).
  case_decide as H.
  - subst. rewrite lookup_insert_eq. apply bool_decide_ext. split; congruence.
  - by rewrite lookup_insert_ne.
Qed.
