(* ===== verification/Failures.v ===== *)
(** * A failed developer attempt

    [run_dev/failures.rs] and the guarded transition of [run_dev/mod.rs]: how one
    failed attempt is counted, journaled and, at the third, parked or closed; an
    infrastructure fault is raised and not counted. [now] is [now_rfc3339()], [ids]
    the minted message ids in order, [to_lowercase] Unicode case folding. *)
From S2P Require Import Prelude RustStr Kinds TestCase Ticket Lifecycle State StateOps Ports Channels Claims AddTicket Board Selection Engine.

Definition MAX_ROUTED : nat := 5.

Definition routed_open_count (owner : option string) (st : ProjectState) : nat :=
  length (List.filter (fun t => bool_decide (owner = t_assignee t) &&
            negb (one_of (t_status t) [Done; Verified; Documented; Rejected])) (tickets st)).

Definition unresolvable_markers : list string :=
  ["does not exist"; "doesn't exist"; "cannot satisfy"; "can't satisfy"; "impossible"; "no data"; "nowhere";
   "no per-ticket"; "design gap"; "not in the codebase"; "fabricate"; "fabricated"; "no such field";
   "no such state"; "word salad"; "unresolvable"].

Definition is_unresolvable_failure (why full_why : string) : bool :=
  contains_any unresolvable_markers (str_map ascii_lower (why +:+ " " +:+ full_why)).

(** [run_dev::transition] *)
Definition transition (id : TicketId) (actor : Role) (to : Status) (st : ProjectState) : result AppError ProjectState :=
  match ticket id st with
  | None => Err (AppPort (Corrupt ("ticket " +:+ id +:+ " vanished mid-cycle")))
  | Some t =>
      match transition_to actor to t with
      | Err e => Err (AppDomain e)
      | Ok t' => Ok (set_ticket id (fun _ => t') st)
      end
  end.

(** The message that opens an incident. *)
Definition outage_message (engine detail : string) : string :=
  "🔌 " +:+ engine +:+ " is failing for every agent: " +:+ detail +:+
  ". Work is paused on this engine until it answers again — fix the credentials or the model, and this clears itself.".

(** The write of an infrastructure fault. *)
Definition raise_outage (now : string) (ids : nat -> string) (engine role detail key : string) (st : ProjectState)
    : ProjectState :=
  let st := log_activity now "SYSTEM" "engine infrastructure fault — attempt not counted" (Some key) st in
  let first := negb (existsb (is_incident engine) (engine_incidents st)) in
  let st := open_engine_incident now engine role detail st in
  if first then post_chat_in (ids 0) now "SYSTEM" (outage_message engine detail) AGENTS_CHANNEL [] st else st.

Definition closed_message (id short : string) : string :=
  "🚫 " +:+ id +:+ " CLOSED as unresolvable after 3 failed attempts: this ticket cannot be built honestly against the current codebase (fabricated data / missing state / incoherent design). Last failure: " +:+
  short +:+ " — the owning role should re-specify or split it.".

Definition parked_message (id short : string) : string :=
  "⛔ " +:+ id +:+ " PARKED after 3 failed attempts (last: " +:+ short +:+ ") — needs a human decision; agents will skip it.".

Definition routed_message (id owner : string) : string :=
  "🧑‍💻 " +:+ id +:+ " routed to @" +:+ owner +:+ " (workflow.human.route_exceptions_to).".

Definition not_routed_message (id owner : string) (already : nat) : string :=
  "⛔ " +:+ id +:+ " parked (NOT routed — @" +:+ owner +:+ " already has " +:+ dec_nat already +:+
  " routed tickets; likely a systemic failure, fix the cause and the parked set clears together).".

(** The counter of the ticket, one higher. *)
Definition bump (id : TicketId) (st : ProjectState) : ProjectState :=
  st <| ticket_fail_attempts ::= insert id (u32_wrap (default 0%N (ticket_fail_attempts st !! id) + 1)) |>.

(** The note and the record every counted failure leaves. *)
Definition note_failure (id short : string) (f : AttemptFailure) (st : ProjectState) : ProjectState :=
  record_attempt_failure id f
    (journal_note id ("attempt " +:+ dec (af_attempt f) +:+ " failed: " +:+ short) st).

(** Parking at the third failure: the notice, and the routing to a person. *)
Definition park (now : string) (ids : nat -> string) (route_to : option string) (id short : string) (st : ProjectState)
    : ProjectState :=
  let st := post_comment (ids 1) now "DEV-BUG" (parked_message id short) (Some id) st in
  let already := routed_open_count route_to st in
  match route_to with
  | None => st
  | Some owner =>
      if already <? MAX_ROUTED
      then post_comment (ids 2) now "SYSTEM" (routed_message id owner) (Some id) (set_ticket id (assign_to_human owner) st)
      else post_comment (ids 2) now "SYSTEM" (not_routed_message id owner already) (Some id) st
  end.

(** The write of a counted failure. *)
Definition count_failure (now : string) (ids : nat -> string) (route_to : option string) (id why : string)
    (layer : FailureLayer) (gate : string) (files : list string) (st : ProjectState) : ProjectState :=
  let short := take_chars 300 why in
  let n := u32_wrap (default 0%N (ticket_fail_attempts st !! id) + 1) in
  let st := note_failure id short (mkAttemptFailure n layer gate short files) (bump id st) in
  if decide (n = 3%N) then
    if is_unresolvable_failure short why then
      let st := post_comment (ids 0) now "SYSTEM" (closed_message id short) (Some id) st in
      match transition id System Rejected st with
      | Ok st =>
          (journal_note id "closed unresolvable after 3 failed attempts (design gap)" st)
            <| ticket_fail_attempts ::= delete id |>
      | Err _ => park now ids route_to id short st
      end
    else park now ids route_to id short st
  else st.

Section Ladder.
Context (to_lowercase : string -> string).

(** [record_failure_at]: the write it makes, by an engine and a role. *)
Definition record_failure_at (now : string) (ids : nat -> string) (engine role : string) (route_to : option string)
    (id why : string) (layer : FailureLayer) (gate : string) (files : list string) (st : ProjectState) : ProjectState :=
  if is_infra_fault to_lowercase why
  then raise_outage now ids engine role (take_chars 300 why) id st
  else count_failure now ids route_to id why layer gate files st.

(** [record_failure] *)
Definition record_failure (now : string) (ids : nat -> string) (engine role : string) (route_to : option string)
    (id why : string) (st : ProjectState) : ProjectState :=
  record_failure_at now ids engine role route_to id why LDesign "engine" [] st.

(** ** What the ladder does to the ticket *)

Definition attempts (id : TicketId) (st : ProjectState) : N := default 0%N (ticket_fail_attempts st !! id).

(** The ticket can be closed by the system from where it is. *)
Definition closable (id : TicketId) (st : ProjectState) : option Ticket :=
  t ← ticket id st; result_ok (transition_to System Rejected t).

(** The owner a parked ticket goes to: the configured person, below the cap. *)
Definition route_of (route_to : option string) (st : ProjectState) : option string :=
  owner ← route_to; if routed_open_count (Some owner) st <? MAX_ROUTED then Some owner else None.

Inductive Rung :=
| RCounted
| RClosed (t : Ticket)
| RParked (owner : option string).

Definition rung (route_to : option string) (id why : string) (st : ProjectState) : Rung :=
  if decide (u32_wrap (attempts id st + 1) = 3%N) then
    match (if is_unresolvable_failure (take_chars 300 why) why then closable id st else None) with
    | Some t => RClosed t
    | None => RParked (route_of route_to st)
    end
  else RCounted.

(** The fields the rest of the team reads the outcome from. *)
Definition scored (st : ProjectState) : list Ticket * gmap string N * gmap string (list AttemptFailure) :=
  (tickets st, ticket_fail_attempts st, ticket_failures st).

Definition scored_after (id : TicketId) (f : AttemptFailure) (r : Rung) (st : ProjectState) :=
  (match r with
   | RClosed t => tickets (set_ticket id (fun _ => t) st)
   | RParked (Some owner) => tickets (set_ticket id (assign_to_human owner) st)
   | _ => tickets st
   end,
   match r with
   | RClosed _ => delete id (ticket_fail_attempts st)
   | _ => <[id := af_attempt f]> (ticket_fail_attempts st)
   end,
   push_entry 6 id f (ticket_failures st)).

Lemma journal_note_scored id note st : scored (journal_note id note st) = scored st.
Proof. unfold journal_note. by case_bool_decide. Qed.

Lemma journal_note_tickets id note st : tickets (journal_note id note st) = tickets st.
Proof. pose proof (journal_note_scored id note st) as H. by injection H. Qed.

Lemma park_scored now ids route_to id short st :
  scored (park now ids route_to id short st) =
  (match route_of route_to st with
   | Some owner => tickets (set_ticket id (assign_to_human owner) st)
   | None => tickets st
   end, ticket_fail_attempts st, ticket_failures st).
Proof.
  unfold park, route_of. destruct route_to as [owner|]; [|done]. cbn [mbind option_bind].
  change (routed_open_count (Some owner) (post_comment ?i ?n ?a ?b ?t st)) with (routed_open_count (Some owner) st).
  by destruct (_ <? _).
Qed.

Lemma note_failure_scored id short f st :
  scored (note_failure id short f (bump id st)) =
  (tickets st, <[id := u32_wrap (attempts id st + 1)]> (ticket_fail_attempts st), push_entry 6 id f (ticket_failures st)).
Proof.
  unfold note_failure.
  assert (Hr : forall s, scored (record_attempt_failure id f s) =
                         (tickets s, ticket_fail_attempts s, push_entry 6 id f (ticket_failures s))) by done.
  rewrite Hr. pose proof (journal_note_scored id ("attempt " +:+ dec (af_attempt f) +:+ " failed: " +:+ short) (bump id st)) as H.
  injection H as -> -> ->. done.
Qed.
End Ladder.

(** What a write that leaves the board alone cannot change. *)
Lemma ticket_of_tickets st st' id : tickets st' = tickets st -> ticket id st' = ticket id st.
Proof. unfold ticket. by intros ->. Qed.

Lemma routed_of_tickets st st' owner : tickets st' = tickets st -> routed_open_count owner st' = routed_open_count owner st.
Proof. unfold routed_open_count. by intros ->. Qed.

Lemma route_of_tickets st st' r : tickets st' = tickets st -> route_of r st' = route_of r st.
Proof. intros H. unfold route_of. destruct r as [o|]; [|done]. cbn [mbind option_bind]. by rewrite (routed_of_tickets st). Qed.

Lemma transition_result id to st :
  result_ok (transition id System to st) =
  t ← ticket id st; t' ← result_ok (transition_to System to t); Some (set_ticket id (fun _ => t') st).
Proof.
  unfold transition. destruct (ticket id st) as [t|]; [|done]. cbn [mbind option_bind].
  by destruct (transition_to System to t).
Qed.

Lemma scored_inv st ts fa tf : scored st = (ts, fa, tf) -> tickets st = ts /\ ticket_fail_attempts st = fa /\ ticket_failures st = tf.
Proof. unfold scored. intros H. by inversion H. Qed.

Lemma set_ticket_tickets id g st st' : tickets st' = tickets st -> tickets (set_ticket id g st') = tickets (set_ticket id g st).
Proof.
  intros H. change (tickets (set_ticket id g ?s)) with (update_first (is_ticket id) g (tickets s)). by rewrite H.
Qed.

Lemma post_comment_scored new_id now author body tk st : scored (post_comment new_id now author body tk st) = scored st.
Proof. done. Qed.

Lemma count_failure_scored now ids route_to id why layer gate files st :
  scored (count_failure now ids route_to id why layer gate files st) =
  scored_after id (mkAttemptFailure (u32_wrap (attempts id st + 1)) layer gate (take_chars 300 why) files)
    (rung route_to id why st) st.
Proof.
  unfold count_failure, rung. fold (attempts id st). set (f := mkAttemptFailure _ layer gate _ files).
  pose proof (note_failure_scored id (take_chars 300 why) f st) as H1.
  generalize dependent (note_failure id (take_chars 300 why) f (bump id st)). intros st1 H1.
  pose proof (scored_inv _ _ _ _ H1) as (Ht1 & Ha1 & Hf1).
  assert (Hpark : forall s, scored s = scored st1 ->
    scored (park now ids route_to id (take_chars 300 why) s) = scored_after id f (RParked (route_of route_to st)) st).
  { intros s Hs. rewrite H1 in Hs. apply scored_inv in Hs as (Hts & Has & Hfs).
    rewrite park_scored, (route_of_tickets st s), Hts, Has, Hfs by done. unfold scored_after.
    destruct (route_of route_to st); [|done]. by rewrite (set_ticket_tickets _ _ _ _ Hts). }
  case_decide as Hn; [|by rewrite H1]. destruct (is_unresolvable_failure _ _); [|by apply Hpark].
  pose proof (post_comment_scored (ids 0) now "SYSTEM" (closed_message id (take_chars 300 why)) (Some id) st1) as H2.
  generalize dependent (post_comment (ids 0) now "SYSTEM" (closed_message id (take_chars 300 why)) (Some id) st1).
  intros st2 H2. rewrite H1 in H2. pose proof (scored_inv _ _ _ _ H2) as (Ht2 & Ha2 & Hf2).
  pose proof (transition_result id Rejected st2) as Htr. rewrite (ticket_of_tickets st st2) in Htr by done.
  rewrite <- H1 in H2. unfold closable. destruct (ticket id st) as [t|]; cbn [mbind option_bind] in *.
  - destruct (transition_to System Rejected t) as [t'|e]; cbn [result_ok mbind option_bind] in *.
    + destruct (transition id System Rejected st2) as [st3|]; [|done]. injection Htr as ->.
      pose proof (journal_note_scored id "closed unresolvable after 3 failed attempts (design gap)" (set_ticket id (fun _ => t') st2)) as H4.
      generalize dependent (journal_note id "closed unresolvable after 3 failed attempts (design gap)" (set_ticket id (fun _ => t') st2)).
      intros st4 H4. apply scored_inv in H4 as (Ht4 & Ha4 & Hf4). unfold scored_after.
      change (scored (st4 <| ticket_fail_attempts ::= delete id |>)) with (tickets st4, delete id (ticket_fail_attempts st4), ticket_failures st4).
      change (ticket_fail_attempts (set_ticket id (fun _ => t') st2)) with (ticket_fail_attempts st2) in Ha4.
      change (ticket_failures (set_ticket id (fun _ => t') st2)) with (ticket_failures st2) in Hf4.
      rewrite Ht4, Ha4, Hf4, (set_ticket_tickets _ _ _ _ Ht2), Ha2, Hf2. by rewrite delete_insert_eq.
    + destruct (transition id System Rejected st2) as [st3|]; [done|]. by apply Hpark.
  - destruct (transition id System Rejected st2) as [st3|]; [done|]. by apply Hpark.
Qed.

(** C32: a failed attempt moves the ticket exactly one rung. An infrastructure fault touches no ticket, counter or failure log; any other failure raises the ticket's counter by one and logs the gate that rejected it, and the third one closes the ticket as rejected and clears the counter when the failure reads as unresolvable and the ticket may be closed from where it stands, and otherwise parks it, assigned to the configured person while that person has fewer than five open tickets. No other ticket changes. *)
Theorem failure_ladder_exact lower now ids engine role route_to id why layer gate files st :
  scored (record_failure_at lower now ids engine role route_to id why layer gate files st) =
  if is_infra_fault lower why then scored st
  else scored_after id (mkAttemptFailure (u32_wrap (attempts id st + 1)) layer gate (take_chars 300 why) files)
         (rung route_to id why st) st.
Proof.
  unfold record_failure_at. destruct (is_infra_fault lower why); [|apply count_failure_scored].
  unfold raise_outage. set (b := negb _). unfold open_engine_incident. by destruct (List.find _ _), b.
Qed.

(** ** A feature is never closed *)

Definition stuck_feature : Ticket := set_status InProgress (ready_ticket "F1" High []).
Definition stuck_bug : Ticket := bug_ticket "B1" High InProgress.

Definition twice_failed : ProjectState :=
  ProjectState_default <| tickets := [stuck_feature; stuck_bug] |>
    <| ticket_fail_attempts := {["F1" := 2%N; "B1" := 2%N]} |>.

Definition third_failure (id : string) : ProjectState :=
  record_failure ascii_lowercase "t" dec_nat "claude" "DevFeature" None id "the table does not exist" twice_failed.

(** The third unresolvable failure closes a bug. On a feature in progress the move to
    rejected is not in the transition table: the notice that says CLOSED is posted,
    and the ticket is parked. *)
Theorem feature_close_announced_only :
  (t_status <$> ticket "B1" (third_failure "B1")) = Some Rejected /\
  (t_status <$> ticket "F1" (third_failure "F1")) = Some InProgress /\
  attempts "F1" (third_failure "F1") = 3%N /\
  (cm_body <$> comments (third_failure "F1")) =
    [closed_message "F1" "the table does not exist"; parked_message "F1" "the table does not exist"].
Proof. vm_compute. done. Qed.
