(* ===== verification/Focus.v ===== *)
(** * Focus windows: holding questions for a person

    [config::in_quiet_window], [use_cases/question_batching.rs] and the two passes
    of [cycle/escalation.rs] over the questions put to people: a question to a
    person in a focus window is held, flushed as one digest when the window is
    over, and released at once when it passes its deadline. [now_minutes] counts
    from midnight UTC, [since] is [seconds_since], [ids] are minted message ids. *)
From Stdlib Require Import Sorted.
From stdpp Require Import sorting.
From S2P Require Import Prelude RustStr Kinds TestCase Ticket State StateOps Questions Channels Engine.

(** ** [in_quiet_window] *)

Definition parse_hm (s : string) : option N :=
  '(h, m) ← split_once ":" (trim s);
  h ← parse_uint u32_max h;
  m ← parse_uint u32_max m;
  if ((h <? 24) && (m <? 60))%N then Some (h * 60 + m)%N else None.

(** A cyclic interval of minutes, end excluded; empty when both ends agree. *)
Definition in_window (start stop now : N) : bool :=
  if (start =? stop)%N then false
  else if (start <? stop)%N then (start <=? now)%N && (now <? stop)%N
  else (start <=? now)%N || (now <? stop)%N.

Definition in_quiet_window (window : string) (now_minutes : N) : bool :=
  match split_once "-" (trim window) with
  | None => false
  | Some (a, b) =>
      match parse_hm a, parse_hm b with
      | Some start, Some stop => in_window start stop now_minutes
      | _, _ => false
      end
  end.

(** ** [question_batching.rs] *)

Record FocusWindow := mkFocusWindow { fw_window_utc : string; fw_defer_to_digest : bool }.

(** The part of [HumanConfig] these passes read. *)
Record HumanConfig := mkHumanConfig {
  hc_route_exceptions_to : option string;
  hc_question_sla_minutes : N;
  hc_focus_windows : gmap string FocusWindow;
}.

Definition eq_ignore_ascii_case (a b : string) : bool := bool_decide (ascii_lowercase a = ascii_lowercase b).

Definition owner_of (to : string) : string :=
  ascii_lowercase (default (trim to) (strip_prefix "@" (trim to))).

Definition focus_of (human : HumanConfig) (to : string) : option FocusWindow :=
  let owner := owner_of to in
  if decide (owner = "") then None
  else name ← List.find (fun name => eq_ignore_ascii_case name owner) (btree_keys (hc_focus_windows human));
       hc_focus_windows human !! name.

Definition batching_on (human : HumanConfig) (to : string) : option FocusWindow :=
  fw ← focus_of human to;
  if fw_defer_to_digest fw && negb (blank (fw_window_utc fw)) then Some fw else None.

Definition should_defer (human : HumanConfig) (to : string) (now_minutes age_minutes sla_minutes : N) : bool :=
  if negb (starts_with "@" (trim to)) then false
  else match batching_on human to with
  | None => false
  | Some fw =>
      if ((0 <? sla_minutes) && (sla_minutes <=? age_minutes))%N then false
      else in_quiet_window (fw_window_utc fw) now_minutes
  end.

(** A question the queue of some owner holds. *)
Definition is_held (q : AgentQuestion) : bool :=
  is_open q && q_deferred q && starts_with "@" (q_to q) && negb (bool_decide (owner_of (q_to q) = "")).

(** The owners in the order their first question was asked, each with their
    questions in order. *)
Definition select_deferred (st : ProjectState) : list (string * list AgentQuestion) :=
  let held := List.filter is_held (questions st) in
  let order := fold_left (fun seen q => if one_of (owner_of (q_to q)) seen then seen else seen ++ [owner_of (q_to q)])
                 held [] in
  (fun owner => (owner, List.filter (fun q => bool_decide (owner_of (q_to q) = owner)) held)) <$> order.

Definition still_relevant (st : ProjectState) (q : AgentQuestion) : bool :=
  if negb (is_open q) then false
  else if bool_decide (q_ticket q = "") then true
  else match ticket (q_ticket q) st with
  | None => false
  | Some t => negb (one_of (t_status t) [Done; Documented; Rejected; Verified])
  end.

Definition in_focus (human : HumanConfig) (now_minutes : N) (q : AgentQuestion) : bool :=
  match batching_on human (q_to q) with
  | Some fw => in_quiet_window (fw_window_utc fw) now_minutes
  | None => false
  end.

Definition flush_batches (st : ProjectState) (human : HumanConfig) (now_minutes : N) : list (string * list AgentQuestion) :=
  List.filter (fun '(_, live) => negb (bool_decide (live = [])))
    ((fun '(owner, batch) =>
        (owner, List.filter (still_relevant st) (List.filter (fun q => negb (in_focus human now_minutes q)) batch)))
     <$> select_deferred st).

Definition digest_line (q : AgentQuestion) : string :=
  newline +:+ "• " +:+ q_from q +:+
  (if bool_decide (q_ticket q = "") then "" else " (" +:+ q_ticket q +:+ ")") +:+
  ": " +:+ take_chars 160 (q_body q) +:+ " — reply in your inbox".

Definition digest_message (owner : string) (batch : list AgentQuestion) : string :=
  let n := length batch in
  "📬 @" +:+ owner +:+ " — your focus window ended: " +:+ dec_nat n +:+ " question" +:+
  (if n =? 1 then "" else "s") +:+ " waited while you were heads-down:" +:+
  foldr String.append "" (digest_line <$> batch).

(** ** The passes of the cycle *)

Definition release (q : AgentQuestion) : AgentQuestion := q <| q_deferred := false |>.

(** One batch of [flush_focus_digests]. *)
Definition flush_batch (now new_id owner : string) (batch : list AgentQuestion) (st : ProjectState) : ProjectState :=
  let qs := fold_left (fun qs q => update_first (is_question (q_id q)) release qs) batch (questions st) in
  let qs := (fun q => if q_deferred q && eq_ignore_ascii_case (q_to q) ("@" +:+ owner) then release q else q) <$> qs in
  let st := post_chat_in new_id now "SM" (digest_message owner batch) AGENTS_CHANNEL [] (st <| questions := qs |>) in
  log_activity now "SM" ("flushed " +:+ dec_nat (length batch) +:+ " queued question(s) to @" +:+ owner) None st.

Fixpoint flush_all (now : string) (ids : nat -> string) (i : nat) (batches : list (string * list AgentQuestion))
    (st : ProjectState) : ProjectState :=
  match batches with
  | [] => st
  | (owner, batch) :: rest => flush_all now ids (S i) rest (flush_batch now (ids i) owner batch st)
  end.

Definition flush_focus_digests (human : HumanConfig) (now : string) (ids : nat -> string) (now_minutes : N)
    (st : ProjectState) : ProjectState :=
  flush_all now ids 0 (flush_batches st human now_minutes) st.

Section Deadline.
Context (since : string -> option N).

Definition age_minutes (q : AgentQuestion) : N := match since (q_asked_at q) with Some secs => secs / 60 | None => 0 end.

Definition is_overdue (sla : N) (q : AgentQuestion) : bool :=
  is_open q && starts_with "@" (q_to q) && negb (q_escalated q) && (sla <=? age_minutes q)%N.

Definition overdue_message (sla : N) (q : AgentQuestion) : string :=
  "⏰ " +:+ q_id q +:+ " has waited " +:+ dec (age_minutes q) +:+ "m for " +:+ q_to q +:+ " (SLA " +:+ dec sla +:+
  "m) — ticket " +:+ (if bool_decide (q_ticket q = "") then "-" else q_ticket q) +:+ " is blocked on it: " +:+
  dquote +:+ take_chars 160 (q_body q) +:+ dquote.

Fixpoint post_overdue (now : string) (ids : nat -> string) (i : nat) (msgs : list string) (st : ProjectState) : ProjectState :=
  match msgs with
  | [] => st
  | msg :: rest =>
      post_overdue now ids (S i) rest
        (log_activity now "SM" "escalated an overdue human question" None
           (post_chat_in (ids i) now "SM" msg AGENTS_CHANNEL [] st))
  end.

Definition escalate_stale_human_questions (human : HumanConfig) (now : string) (ids : nat -> string) (st : ProjectState)
    : ProjectState :=
  let sla := hc_question_sla_minutes human in
  if decide (sla = 0%N) then st
  else
    let msgs := overdue_message sla <$> List.filter (is_overdue sla) (questions st) in
    post_overdue now ids 0 msgs
      (st <| questions ::= fmap (fun q => if is_overdue sla q then q <| q_escalated := true |> <| q_deferred := false |> else q) |>).
End Deadline.

(** ** Windows as text *)

(** A time of day as the settings write it. *)
Definition hm_text (t : N) : string := pad_dec 2 (t / 60) +:+ ":" +:+ pad_dec 2 (t mod 60).

Lemma digits_no_space c : is_digit c = true -> is_whitespace (String c "") = false.
Proof. intros H. destruct (is_whitespace (String c "")) eqn:E; [|done]. exfalso. by destruct c as [[] [] [] [] [] [] [] []]. Qed.

Definition hm_byte (a : ascii) : bool := is_digit a || bool_decide (a = ":"%char).

Lemma hm_byte_plain a : hm_byte a = true -> plain a = true.
Proof. by destruct a as [[] [] [] [] [] [] [] []]. Qed.

Lemma hm_text_bytes t : all_bytes hm_byte (hm_text t) = true.
Proof.
  unfold hm_text. rewrite !all_bytes_app. change (all_bytes hm_byte ":") with true.
  assert (Hd : forall n, all_bytes hm_byte (pad_dec 2 n) = true).
  { intros n. apply (all_bytes_impl is_digit); [|apply all_digits_pad_dec]. intros a Ha. unfold hm_byte. by rewrite Ha. }
  by rewrite !Hd.
Qed.

Lemma hm_text_trim t : trim (hm_text t) = hm_text t.
Proof. apply trim_plain, all_bytes_Forall, (all_bytes_impl hm_byte); [apply hm_byte_plain|apply hm_text_bytes]. Qed.

Lemma parse_hm_text t : (t < 1440)%N -> parse_hm (hm_text t) = Some t.
Proof.
  intros Ht. unfold parse_hm. rewrite hm_text_trim. unfold hm_text.
  change (":" +:+ pad_dec 2 (t mod 60)) with (String ":" (pad_dec 2 (t mod 60))).
  rewrite split_once_free by by apply pad_dec_free. cbn [mbind option_bind].
  assert (Hh : (t / 60 < 24)%N) by (apply N.Div0.div_lt_upper_bound; lia).
  assert (Hm : (t mod 60 < 60)%N) by (apply N.mod_lt; lia).
  rewrite !parse_pad_dec by (unfold u32_max; lia). cbn [mbind option_bind].
  rewrite (proj2 (N.ltb_lt _ _) Hh), (proj2 (N.ltb_lt _ _) Hm). cbn [andb]. f_equal.
  pose proof (N.div_mod t 60 ltac:(lia)). lia.
Qed.

(** a window written as two times of day means the cyclic interval from the first to the second, second excluded: a minute of the day is inside exactly when it is fewer minutes after the start than the end is. A window that ends before it starts wraps midnight, and one of no length is never active. *)
Theorem quiet_window_exact start stop now :
  (start < 1440)%N -> (stop < 1440)%N -> (now < 1440)%N ->
  in_quiet_window (hm_text start +:+ "-" +:+ hm_text stop) now = true <->
  ((now + 1440 - start) mod 1440 < (stop + 1440 - start) mod 1440)%N.
Proof.
  intros Hs He Hn. unfold in_quiet_window.
  assert (Ht : trim (hm_text start +:+ "-" +:+ hm_text stop) = hm_text start +:+ "-" +:+ hm_text stop).
  { apply trim_plain, all_bytes_Forall. rewrite !all_bytes_app. change (all_bytes plain "-") with true.
    by rewrite !(all_bytes_impl hm_byte plain) by first [apply hm_byte_plain|apply hm_text_bytes]. }
  rewrite Ht. change ("-" +:+ hm_text stop) with (String "-" (hm_text stop)).
  rewrite split_once_free by (apply (all_bytes_impl hm_byte); [by intros [[] [] [] [] [] [] [] []]|apply hm_text_bytes]).
  rewrite !parse_hm_text by done.
  assert (Hmod : forall a, (a < 1440)%N -> ((a + 1440 - start) mod 1440 = if a <? start then a + 1440 - start else a - start)%N).
  { intros a Ha. destruct (N.ltb_spec a start); [by rewrite N.mod_small by lia|].
    replace (a + 1440 - start)%N with ((a - start) + 1 * 1440)%N by lia. rewrite N.Div0.mod_add. apply N.mod_small. lia. }
  rewrite !Hmod by done. unfold in_window.
  destruct (N.eqb_spec start stop), (N.ltb_spec start stop), (N.ltb_spec now start), (N.ltb_spec stop start),
    (N.leb_spec start now), (N.ltb_spec now stop); cbn [andb orb]; split; intros; (done || lia).
Qed.

Lemma quiet_window_exact_witness :
  (1320 < 1440)%N /\ in_quiet_window "22:00-06:00" 60 = true.
Proof. split; [lia|]. apply (quiet_window_exact 1320 360 60); vm_compute; reflexivity. Defined.

(** ** The queue *)

Definition owner (q : AgentQuestion) : string := owner_of (q_to q).

Definition add_owner (seen : list string) (q : AgentQuestion) : list string :=
  if one_of (owner q) seen then seen else seen ++ [owner q].

Lemma add_owner_elem seen q o : o ∈ add_owner seen q <-> o ∈ seen \/ o = owner q.
Proof.
  unfold add_owner. destruct (one_of (owner q) seen) eqn:E.
  - apply one_of_true in E. split; [by left|]. by intros [H| ->].
  - by rewrite elem_of_app, list_elem_of_singleton.
Qed.

Lemma add_owner_NoDup seen q : NoDup seen -> NoDup (add_owner seen q).
Proof.
  intros H. unfold add_owner. destruct (one_of (owner q) seen) eqn:E; [done|].
  apply NoDup_app. split_and!; [done| |apply NoDup_singleton]. intros o Ho ->%list_elem_of_singleton.
  apply one_of_true in Ho. congruence.
Qed.

Lemma owners_in_order held seen :
  let order := fold_left add_owner held seen in
  (forall o, o ∈ order <-> o ∈ seen \/ exists q, q ∈ held /\ o = owner q) /\ (NoDup seen -> NoDup order).
Proof.
  cbn zeta. revert seen. induction held as [|q held IH]; intros seen; cbn [fold_left].
  - split; [|done]. intros o. split; [by left|]. intros [H|(q & Hq%elem_of_nil & _)]; done.
  - destruct (IH (add_owner seen q)) as [Hin Hnd]. split; [|intros H; by apply Hnd, add_owner_NoDup].
    intros o. rewrite Hin, add_owner_elem. split.
    + intros [[H| ->]|(q' & Hq' & ->)]; [by left|right; exists q; split; [left|done]|right; exists q'; split; [by right|done]].
    + intros [H|(q' & [->|Hq']%elem_of_cons & ->)]; [by left; left|by left; right|right; by exists q'].
Qed.

(** A held question that is due: outside its window and not overtaken by events. *)
Definition is_due (st : ProjectState) (human : HumanConfig) (now_minutes : N) (q : AgentQuestion) : bool :=
  is_held q && negb (in_focus human now_minutes q) && still_relevant st q.

Definition due_of (st : ProjectState) (human : HumanConfig) (now_minutes : N) (o : string) : list AgentQuestion :=
  List.filter (fun q => is_due st human now_minutes q && bool_decide (owner q = o)) (questions st).

Lemma live_due st human m o :
  List.filter (still_relevant st) (List.filter (fun q => negb (in_focus human m q))
    (List.filter (fun q => bool_decide (owner_of (q_to q) = o)) (List.filter is_held (questions st)))) = due_of st human m o.
Proof.
  unfold due_of. induction (questions st) as [|q qs IH]; [done|]. cbn [List.filter].
  unfold is_due, owner in *. destruct (is_held q); cbn [andb]; [|exact IH]. cbn [List.filter].
  destruct (bool_decide (owner_of (q_to q) = o)); rewrite ?andb_true_r, ?andb_false_r; [|exact IH]. cbn [List.filter].
  destruct (in_focus human m q); cbn [negb andb]; [exact IH|]. cbn [List.filter].
  destruct (still_relevant st q); [|exact IH]. by f_equal.
Qed.

Lemma flush_batches_spec st human m :
  let batches := flush_batches st human m in
  NoDup batches.*1 /\
  (forall o b, (o, b) ∈ batches <-> b = due_of st human m o /\ b <> []).
Proof.
  cbn zeta. unfold flush_batches, select_deferred.
  set (held := List.filter is_held (questions st)).
  change (fun seen q => if one_of (owner_of (q_to q)) seen then seen else seen ++ [owner_of (q_to q)]) with add_owner.
  destruct (owners_in_order held []) as [Hin Hnd]. set (order := fold_left add_owner held []) in *.
  rewrite <- list_fmap_compose. unfold compose. cbn beta.
  pose proof (live_due st human m) as Hlive. fold held in Hlive.
  split.
  - eapply sublist_NoDup; [apply Hnd, NoDup_nil_2|].
    transitivity (((fun o => (o, List.filter (still_relevant st) (List.filter (fun q => negb (in_focus human m q))
       (List.filter (fun q => bool_decide (owner_of (q_to q) = o)) held)))) <$> order).*1).
    + apply fmap_sublist, filter_bool_sublist.
    + rewrite <- list_fmap_compose. unfold compose. cbn. by rewrite list_fmap_id.
  - intros o b. rewrite list_elem_of_In, List.filter_In, <- list_elem_of_In, list_elem_of_fmap.
    rewrite negb_true_iff, bool_decide_eq_false. split.
    + intros [(o' & [= -> ->] & Ho) Hne]. by rewrite Hlive in *.
    + intros [-> Hne]. split; [|done]. exists o. rewrite Hlive. split; [done|]. apply Hin. right.
      destruct (due_of st human m o) as [|q l] eqn:E; [done|].
      assert (Hq : q ∈ due_of st human m o) by (rewrite E; left).
      unfold due_of in Hq. rewrite list_elem_of_In, List.filter_In, <- list_elem_of_In in Hq.
      destruct Hq as [Hq [[[Hh _]%andb_true_iff _]%andb_true_iff Ho%bool_decide_eq_true]%andb_true_iff].
      exists q. split; [|done]. unfold held. rewrite list_elem_of_In, List.filter_In, <- list_elem_of_In. done.
Qed.

(** ** What a flush does to the queue *)

(** The question is held for that owner, in any spelling of the name. *)
Definition held_for (o : string) (q : AgentQuestion) : bool :=
  q_deferred q && eq_ignore_ascii_case (q_to q) ("@" +:+ o).

Definition release_for (os : list string) (q : AgentQuestion) : AgentQuestion :=
  if existsb (fun o => held_for o q) os then release q else q.

Lemma release_idem q : release (release q) = release q.
Proof. by destruct q. Qed.

Lemma release_deferred q : q_deferred q = false -> release q = q.
Proof. destruct q. cbn. by intros ->. Qed.

(** Every question of the list is one of the originals, released or not. *)
Definition derived (qs0 : list AgentQuestion) (x : AgentQuestion) : Prop := exists y, y ∈ qs0 /\ (x = y \/ x = release y).

Lemma derived_release qs0 x : derived qs0 x -> derived qs0 (release x).
Proof. intros (y & Hy & [->| ->]); exists y; (split; [done|right]); [done|apply release_idem]. Qed.

Lemma release_for_cons o os q : release_for (o :: os) q = release_for os (release_for [o] q).
Proof.
  unfold release_for. cbn [existsb]. rewrite orb_false_r. destruct (held_for o q); cbn [orb]; [|done].
  destruct (existsb _ _) eqn:E; [|done]. apply existsb_exists in E as (o' & _ & H). unfold held_for in H. by destruct q.
Qed.

(** Releasing by identifier first changes nothing for a question the second pass
    releases anyway. *)
Lemma release_batch qs0 o batch qs :
  NoDup (q_id <$> qs0) -> Forall (derived qs0) qs -> Forall (fun q => q ∈ qs0 /\ held_for o q = true) batch ->
  let qs' := fold_left (fun qs q => update_first (is_question (q_id q)) release qs) batch qs in
  release_for [o] <$> qs' = release_for [o] <$> qs /\ Forall (derived qs0) qs'.
Proof.
  intros Hnd Hqs Hb. cbn zeta. revert qs Hqs. induction Hb as [|q batch [Hq Hh] _ IH]; intros qs Hqs; cbn [fold_left]; [done|].
  destruct (IH (update_first (is_question (q_id q)) release qs)) as [-> Hd].
  { apply update_first_Forall; [|done]. intros x Hx _. by apply derived_release. }
  split; [|done]. clear -Hnd Hqs Hq Hh. induction Hqs as [|x qs Hx _ IH]; [done|]. cbn [update_first].
  destruct (is_question (q_id q) x) eqn:E; rewrite !fmap_cons; [|by rewrite IH]. f_equal.
  apply bool_decide_eq_true in E. destruct Hx as (y & Hy & Hxy).
  assert (y = q) as ->.
  { eapply (keyed_inj q_id); [exact Hnd|done|done|]. rewrite <- E. by destruct Hxy as [->| ->]. }
  destruct Hxy as [->| ->]; [|by rewrite release_idem]. unfold release_for. cbn [existsb]. rewrite !orb_false_r, Hh.
  destruct (held_for o (release q)); [apply release_idem|done].
Qed.

(** An owner's batch is held for that owner. *)
Lemma lower_app a b : ascii_lowercase (a +:+ b) = ascii_lowercase a +:+ ascii_lowercase b.
Proof. unfold ascii_lowercase. induction a as [|x a IH]; [done|].
  change (String x a +:+ b) with (String x (a +:+ b)). cbn [str_map]. by rewrite IH. Qed.

Lemma lower_idem s : ascii_lowercase (ascii_lowercase s) = ascii_lowercase s.
Proof.
  unfold ascii_lowercase. induction s as [|a s IH]; [done|]. cbn. rewrite IH. f_equal.
  by destruct a as [[] [] [] [] [] [] [] []].
Qed.

Lemma lower_at s r : ascii_lowercase s = "@" +:+ r -> exists t, s = "@" +:+ t /\ ascii_lowercase t = r.
Proof.
  destruct s as [|a t]; [done|]. cbn. intros [= Ha Hr]. exists t. split; [|done].
  assert (a = "@"%char) as -> by by destruct a as [[] [] [] [] [] [] [] []]. done.
Qed.

Lemma owner_of_at t : trim ("@" +:+ t) = "@" +:+ t -> owner_of ("@" +:+ t) = ascii_lowercase t.
Proof. intros H. unfold owner_of. rewrite H. by rewrite (proj2 (strip_prefix_spec "@" _ t) eq_refl). Qed.

Lemma starts_with_at s : starts_with "@" s = true -> exists t, s = "@" +:+ t.
Proof.
  unfold starts_with. destruct s as [|a t]; [done|]. cbn [String.prefix].
  destruct (ascii_dec "@" a) as [<-|]; [|done]. intros _. exists t. reflexivity.
Qed.

Lemma held_for_owner q o :
  trim (q_to q) = q_to q -> ascii_lowercase o = o ->
  held_for o q = true <-> q_deferred q = true /\ starts_with "@" (q_to q) = true /\ owner q = o.
Proof.
  intros Ht Ho. unfold held_for, eq_ignore_ascii_case. rewrite andb_true_iff, bool_decide_eq_true, lower_app, Ho.
  change (ascii_lowercase "@") with "@". unfold owner. split.
  - intros [Hd (t & Hq & Hl)%lower_at]. rewrite Hq in *. split_and!; [done| |by rewrite owner_of_at].
    unfold starts_with. apply prefix_app_same.
  - intros (Hd & (t & Hq)%starts_with_at & Hw). split; [done|]. rewrite Hq in *. rewrite owner_of_at in Hw by done.
    by rewrite lower_app, Hw.
Qed.

Lemma due_of_held st human m o :
  Forall (fun q => trim (q_to q) = q_to q) (questions st) ->
  Forall (fun q => q ∈ questions st /\ held_for o q = true) (due_of st human m o).
Proof.
  intros Ht. apply Forall_forall. intros q Hq. unfold due_of in Hq.
  rewrite list_elem_of_In, List.filter_In, <- list_elem_of_In in Hq. destruct Hq as [Hq [Hd Ho%bool_decide_eq_true]%andb_true_iff].
  unfold is_due, is_held in Hd. rewrite !andb_true_iff in Hd. destruct Hd as [[[[[_ Hdef] Hat] _] _] _].
  split; [done|]. apply held_for_owner; [by eapply Forall_forall in Ht| |done].
  rewrite <- Ho. unfold owner, owner_of. apply lower_idem.
Qed.

Lemma flush_batch_questions now new_id o b st qs0 :
  NoDup (q_id <$> qs0) -> Forall (derived qs0) (questions st) -> Forall (fun q => q ∈ qs0 /\ held_for o q = true) b ->
  questions (flush_batch now new_id o b st) = release_for [o] <$> questions st.
Proof.
  intros Hnd Hd Hb. destruct (release_batch qs0 o b (questions st) Hnd Hd Hb) as [<- _]. unfold flush_batch.
  change (questions (log_activity ?a ?b ?c ?d (post_chat_in ?e ?f ?g ?h ?i ?j (?s <| questions := ?qs |>)))) with qs.
  apply list_fmap_ext. intros i q _. unfold release_for. cbn [existsb]. by rewrite orb_false_r.
Qed.

Lemma flush_all_questions now ids qs0 batches i st :
  NoDup (q_id <$> qs0) -> Forall (derived qs0) (questions st) ->
  Forall (fun '(o, b) => Forall (fun q => q ∈ qs0 /\ held_for o q = true) b) batches ->
  questions (flush_all now ids i batches st) = release_for batches.*1 <$> questions st.
Proof.
  intros Hnd Hd Hb. revert i st Hd. induction Hb as [|[o b] batches Hb _ IH]; intros i st Hd; cbn [flush_all fmap list_fmap fst].
  - rewrite <- (list_fmap_id (questions st)) at 1. apply list_fmap_ext. done.
  - rewrite IH; rewrite (flush_batch_questions _ _ _ _ _ qs0) by done.
    + rewrite <- list_fmap_compose. apply list_fmap_ext. intros j q _. symmetry. apply release_for_cons.
    + apply Forall_fmap. eapply Forall_impl; [exact Hd|]. intros q Hq. cbn. unfold release_for.
      destruct (existsb _ _); [by apply derived_release|done].
Qed.

Lemma flush_questions human now ids m st :
  NoDup (q_id <$> questions st) -> Forall (fun q => trim (q_to q) = q_to q) (questions st) ->
  questions (flush_focus_digests human now ids m st) = release_for (flush_batches st human m).*1 <$> questions st.
Proof.
  intros Hnd Ht. unfold flush_focus_digests. apply (flush_all_questions _ _ (questions st)); [done| |].
  - apply Forall_forall. intros q Hq. exists q. by split; [|left].
  - apply Forall_forall. intros [o b] Hob. destruct (flush_batches_spec st human m) as [_ Hs].
    apply Hs in Hob as [-> _]. by apply due_of_held.
Qed.

(** The messages and the log lines of a flush, in the order of the batches. *)
Fixpoint digests (now : string) (ids : nat -> string) (i : nat) (batches : list (string * list AgentQuestion)) : list ChatMsg :=
  match batches with
  | [] => []
  | (owner, batch) :: rest =>
      mkChatMsg (ids i) now "SM" (digest_message owner batch) None AGENTS_CHANNEL [] [] None 0 false :: digests now ids (S i) rest
  end.

Definition flush_line (now : string) (b : string * list AgentQuestion) : ActivityEntry :=
  mkActivityEntry now "SM" ("flushed " +:+ dec_nat (length b.2) +:+ " queued question(s) to @" +:+ b.1) None.

Definition push_all {A} (cap : nat) (l : list A) (log : list A) : list A := fold_left (fun log x => push_capped cap x log) l log.

Lemma flush_all_rest now ids batches i st :
  flush_all now ids i batches st =
  st <| questions := questions (flush_all now ids i batches st) |>
     <| chat := push_all MAX_CHAT (digests now ids i batches) (chat st) |>
     <| activity := push_all MAX_ACTIVITY (flush_line now <$> batches) (activity st) |>.
Proof.
  revert i st. induction batches as [|[o b] batches IH]; intros i st; [by destruct st|].
  cbn [flush_all digests fmap list_fmap push_all fold_left]. rewrite IH at 1. by destruct st.
Qed.


(** ** A morning of two people *)

Definition held_question (id tk to : string) : AgentQuestion :=
  mkAgentQuestion id tk "DevBug" to "which table is it?" "" "t" "" false false true.

Definition two_people : HumanConfig :=
  mkHumanConfig None 60 {["luffy" := mkFocusWindow "08:00-10:00" true; "nami" := mkFocusWindow "09:00-12:00" true]}.

Definition morning : ProjectState :=
  ProjectState_default
    <| questions := [held_question "#1" "" "@LUFFY"; held_question "#2" "" "@nami"; held_question "#3" "" "@luffy"] |>.

Definition flushed_morning : ProjectState := flush_focus_digests two_people "t" dec_nat 630 morning.


(** A question whose ticket was rejected while it was held, alone in its owner's
    queue, is still held when the window is over: no batch names the owner, and only
    the owners of batches are released. *)
Theorem stale_hold_stays :
  let st := ProjectState_default <| questions := [held_question "F1#1" "F1" "@luffy"] |> in
  let st' := flush_focus_digests two_people "t" dec_nat 630 st in
  in_focus two_people 630 (held_question "F1#1" "F1" "@luffy") = false /\
  (q_deferred <$> questions st') = [true] /\ chat st' = [].
Proof. vm_compute. done. Qed.

(** The test on the way in trims the addressee, the one that selects does not: a
    name with a space before it is held and belongs to no queue. *)
Theorem padded_name_is_held_nowhere :
  should_defer two_people " @luffy" 500 0 60 = true /\
  select_deferred (ProjectState_default <| questions := [held_question "#1" "" " @luffy"] |>) = [].
Proof. vm_compute. done. Qed.
