(* ===== verification/DevPorts.v ===== *)
(** * The ports of a developer pass

    What [use_cases/run_dev] calls and what it writes. A [Mutation] is one closure
    handed to [mutate_state], [apply] what it does to the loaded state; [DevCall]
    is one call of a port and [dev_reply] what comes back. [now] and [ids] are the
    clock and the minted message ids a write reads, [to_lowercase] Unicode case
    folding, [usd] the text of an amount, [flag_message] the notice of withheld
    brief notes ([brief_screening.rs]). *)
From S2P Require Import Prelude RustStr Kinds TestCase Ticket State StateOps Ports Questions Channels Titles AddTicket Claims Engine Gates Failures Focus Effects.

Inductive DevMode := ModeBug | ModeFeature.

Definition mode_role (m : DevMode) : Role := match m with ModeBug => DevBug | ModeFeature => DevFeature end.
Definition complete_status (m : DevMode) : Status := match m with ModeBug => Fixed | ModeFeature => Done end.
Definition role_name (m : DevMode) : string := match m with ModeBug => "DEV-BUG" | ModeFeature => "DEV-FEATURE" end.
Definition role_key (m : DevMode) : string := match m with ModeBug => "dev_bug" | ModeFeature => "dev_feature" end.
(** [{:?}] *)
Definition mode_debug (m : DevMode) : string := match m with ModeBug => "Bug" | ModeFeature => "Feature" end.

(** [ServiceConfig] *)
Record ServiceConfig := mkServiceConfig {
  sc_name : string;
  sc_repo : string;
  sc_work_dir : string;
  sc_scopes : list string;
  sc_build_cmd : string;
  sc_test_cmd : string;
  sc_status : string;
}.

Definition effective_services (services : list ServiceConfig) (default_work_dir : string) : list ServiceConfig :=
  match services with
  | [] => [mkServiceConfig "main" "" default_work_dir [] "" "" "active"]
  | _ => services
  end.

Definition is_active_service (s : ServiceConfig) : bool := bool_decide (sc_status s = "active").

Definition resolve_service (services : list ServiceConfig) (tag : option string) : option ServiceConfig :=
  match tag with
  | Some t =>
      match List.find (fun s => bool_decide (sc_name s = t) && is_active_service s) services with
      | Some s => Some s
      | None => List.find is_active_service services
      end
  | None => List.find is_active_service services
  end.

(** The part of the configuration a pass reads, and what is attached to it. *)
Record DevPass := mkDevPass {
  dp_mode : DevMode;
  dp_worker : string;
  dp_service : option string;
  dp_work_dir : string;
  dp_engine : string;
  dp_git : bool;
  dp_files : bool;
  dp_verify : bool;
  dp_phase : bool;
  dp_git_enabled : bool;
  dp_default_branch : string;
  dp_commit_email : string;
  dp_approve_over_usd : option f64;
  dp_tdd : bool;
  dp_human : HumanConfig;
  dp_services : list ServiceConfig;
}.

(** [DeployReport], [LintReport], [CrossCheck] *)
Record DeployReport := mkDeployReport {
  dr_success : bool;
  dr_deployed : bool;
  dr_summary : string;
  dr_failure_bundle : option DeployFailureBundle;
}.

Record LintReport := mkLintReport { lr_errors : N; lr_sample : string; lr_files : list string }.

Record CrossCheck := mkCrossCheck { cc_available : bool; cc_reason : string; cc_errors : list string }.

(** [GitAuthor] *)
Record GitAuthor := mkGitAuthor { ga_name : string; ga_email : string }.

(** ** Writes *)

Inductive Mutation :=
| MStarted (id : TicketId)
| MHolds (holds : list (TicketId * f64))
| MBriefs (id : TicketId) (kept dropped : list string)
| MEngineAlive
| MAsk (id : TicketId) (to body : string) (defer : bool)
| MSession (key sid : string)
| MBaseline (errors : N)
| MFailure (id : TicketId) (why : string) (layer : FailureLayer) (gate : string) (files : list string)
| MRelease (id : TicketId)
| MPark (id : TicketId) (cp : WipCheckpoint)
| MUnpark (leaves : list string)
| MNotReproducible (id : TicketId)
| MComplete (id : TicketId).

(** [AppError]'s text *)
Definition app_error_text (e : AppError) : string :=
  match e with AppDomain e => domain_error_text e | AppPort e => port_error_text e end.

(** [Spend::avg_role_cost] *)

Definition avg_role_cost (key : string) (sp : Spend) : option f64 :=
  runs ← sp_runs_by_role sp !! key;
  if decide (runs = 0%N) then None
  else Some (f64_div (default f64_zero (sp_metered_cost_by_role sp !! key)) (f64_of_N runs)).

(** The traces of a ticket's work that a finished ticket no longer needs. *)
Definition clear_work (id : TicketId) (st : ProjectState) : ProjectState :=
  st <| ticket_journal ::= delete id |> <| cost_holds ::= delete id |> <| cost_approved ::= fun s => s ∖ {[id]} |>.

Definition as_corrupt {A} (r : result AppError A) : result PortError A :=
  match r with Ok a => Ok a | Err e => Err (Corrupt (app_error_text e)) end.

Definition release_ticket (id : TicketId) (st : ProjectState) : ProjectState :=
  match ticket id st with
  | None => st
  | Some t => match release_claim System t with Ok t' => set_ticket id (fun _ => t') st | Err _ => st end
  end.

(** [record_on_ticket] of [wip.rs] *)
Definition park_on_ticket (now : string) (id : TicketId) (cp : WipCheckpoint) (st : ProjectState)
    : result PortError ProjectState :=
  match ticket id st with
  | None => Ok st
  | Some t =>
      match record_wip_checkpoint System cp t with
      | Err e => Err (Corrupt (domain_error_text e))
      | Ok t' =>
          let st := set_ticket id (fun _ => t') st in
          let st := add_evidence_for now id "wip" "WIP CHECKPOINT"
                      (wip_ref_name cp +:+ " @ " +:+ wip_sha cp +:+ " — " +:+ wip_note cp) [] "SYSTEM" st in
          Ok (journal_note id ("SYSTEM: WIP parked at " +:+ wip_ref_name cp +:+ " (" +:+ wip_sha cp +:+
                ") — restore with `git checkout " +:+ wip_ref_name cp +:+ " -- .`") st)
      end
  end.

Definition unpark_ticket (st : ProjectState) (leaf : string) : ProjectState :=
  match (id ← result_ok (TicketId_new leaf); pair id <$> ticket id st) with
  | None => st
  | Some (id, t) => match clear_wip_checkpoints System t with Ok t' => set_ticket id (fun _ => t') st | Err _ => st end
  end.

Definition not_reproducible_message (id : string) : string :=
  id +:+ ": not reproducible — DEV ran against a green tree and produced no code change. The bug does not reproduce on main (likely already resolved by a merged fix). Closing as not-reproducible so the sprint stops re-investigating it.".

Section Writes.
Context (to_lowercase : string -> string) (usd : f64 -> string).
Context (flag_message : ProjectState -> string -> string -> list string -> string).
Context (p : DevPass) (now : string) (ids : nat -> string).

Fixpoint hold_all (cap : f64) (i : nat) (holds : list (TicketId * f64)) (st : ProjectState) : ProjectState :=
  match holds with
  | [] => st
  | (id, est) :: rest =>
      hold_all cap (S i) rest
        (post_comment (ids i) now "SM"
          ("⏸️ " +:+ id +:+ " held for cost approval: estimated ~$" +:+ usd est +:+
           "/run                              exceeds the $" +:+ usd cap +:+ " gate. Approve it from the ticket to run.") (Some id)
          (st <| cost_holds ::= insert id est |>))
  end.

(** The message of an incident that is over. *)
Definition recovered_message (inc : EngineIncident) : string :=
  "✅ " +:+ dp_engine p +:+ " is answering again after " +:+ dec (ei_hits inc) +:+ " failed run(s) — " +:+
  ei_reason inc +:+ " is resolved, work resumes.".

Definition ask (id : TicketId) (to body : string) (defer : bool) (st : ProjectState) : ProjectState :=
  let from := role_debug (mode_role (dp_mode p)) in
  let '(st, asked) := ask_question now id from to body st in
  if asked then
    let st := if defer then st <| questions ::= fun qs => match reverse qs with
                                                | q :: rest => reverse (q <| q_deferred := true |> :: rest)
                                                | [] => [] end |> else st in
    post_comment (ids 0) now from ("❓ " +:+ from +:+ " → " +:+ to +:+ ": " +:+ body) (Some id) st
  else st.

Definition apply (m : Mutation) (st : ProjectState) : result PortError ProjectState :=
  match m with
  | MStarted id => Ok (log_activity now (role_name (dp_mode p)) "started implementing" (Some id) st)
  | MHolds holds => Ok (hold_all (default f64_zero (dp_approve_over_usd p)) 0 holds st)
  | MBriefs id kept dropped =>
      let st := fold_left (fun st b => journal_note id (role_name (dp_mode p) +:+ ": " +:+ b) st) kept st in
      Ok (match dropped with
          | [] => st
          | _ => post_chat_in (ids 0) now "SYSTEM" (flag_message st (role_name (dp_mode p)) id dropped) AGENTS_CHANNEL [] st
          end)
  | MEngineAlive =>
      Ok (match close_engine_incident (dp_engine p) st with
          | (st, Some inc) => post_chat_in (ids 0) now "SYSTEM" (recovered_message inc) AGENTS_CHANNEL [] st
          | (st, None) => st
          end)
  | MAsk id to body defer => Ok (ask id to body defer st)
  | MSession key sid => Ok (st <| ticket_sessions ::= insert key sid |>)
  | MBaseline errors => Ok (st <| clippy_baseline := Some errors |>)
  | MFailure id why layer gate files =>
      Ok (record_failure_at to_lowercase now ids (dp_engine p) (role_debug (mode_role (dp_mode p)))
            (hc_route_exceptions_to (dp_human p)) id why layer gate files st)
  | MRelease id => Ok (release_ticket id st)
  | MPark id cp => park_on_ticket now id cp st
  | MUnpark closed => Ok (fold_left unpark_ticket closed st)
  | MNotReproducible id =>
      let? st := as_corrupt (transition id System Rejected st) in
      Ok (clear_work id (post_comment (ids 0) now "SYSTEM" (not_reproducible_message id) (Some id) st))
  | MComplete id =>
      let? st := as_corrupt (transition id (mode_role (dp_mode p)) (complete_status (dp_mode p)) st) in
      let st := clear_work id st in
      Ok (st <| history ::= fun h =>
            h ++ [mkDeployRecord (current_version st) id (from_option t_title "" (ticket id st)) now] |>)
  end.
End Writes.

(** ** Calls *)

Inductive DevCall :=
| CLoad
| CClaim (id : TicketId) (worker now : string)
| CMutate (m : Mutation)
| CRun (r : AgentRequest)
| CResume (role : Role) (session follow_up : string) (timeout : N)
| CBrief (st : ProjectState) (id : TicketId)
| CBootTests (paths : list string)
| CHealTests
| CTests (paths : list string)
| CLint
| CCross
| CTree
| CGit (args : list string)
| CBranch
| CHeadSha
| CCheckpoint (ref message : string) (author : GitAuthor)
| CStat (path : string)
| CGreen (fp : option string)
| CClaimVerify (fp : option string)
| CReleaseVerify (fp : option string)
| CMarkGreen (fp : option string)
| CNow
| CMinutes
| CPhase (phase : option (string * string)).

(** A test run under a timeout replies [None] when it ran out. *)
Definition dev_reply (c : DevCall) : Type :=
  match c with
  | CLoad => result PortError ProjectState
  | CClaim _ _ _ => result PortError bool
  | CMutate _ => result PortError unit
  | CRun _ | CResume _ _ _ _ => Reply
  | CBrief _ _ => AgentRequest
  | CBootTests _ | CHealTests => option (result PortError DeployReport)
  | CTests _ => result PortError DeployReport
  | CLint => result PortError (option LintReport)
  | CCross => result PortError CrossCheck
  | CTree => WorkingTreeDiff
  | CGit _ => bool * string
  | CBranch | CHeadSha => result PortError string
  | CCheckpoint _ _ _ => result PortError (option string)
  | CStat _ => option (N * N)
  | CGreen _ | CClaimVerify _ => bool
  | CReleaseVerify _ | CMarkGreen _ | CPhase _ => unit
  | CNow => string
  | CMinutes => N
  end.

#[global] Abbreviation DevProg := (Prog dev_reply).

Declare Scope dev_scope.
Delimit Scope dev_scope with dev.
Open Scope dev_scope.
Notation "'do!' x := c 'in' k" := (@Do DevCall dev_reply _ c (fun x => k))
  (at level 10, x name, c at level 100, k at level 200) : dev_scope.
Notation "'run!' x := p 'in' k" := (@pbind DevCall dev_reply _ _ p (fun x => k))
  (at level 10, x name, p at level 100, k at level 200) : dev_scope.
