(* ===== verification/Wip.v ===== *)
(** * Parking a slot's uncommitted work

    [run_dev/wip.rs]: before a slot worktree is released or cleaned, what it holds
    is committed to a local ref and recorded on the ticket; refs die with their
    tickets. *)
From Stdlib Require Import Sorted.
From stdpp Require Import sorting.
From S2P Require Import Prelude RustStr Kinds TestCase Ticket State StateOps Ports Effects Engine Gates Failures DevPorts.

Definition WIP_REF_PREFIX : string := "refs/coxagent/wip/".
Definition MAX_KEPT_UNATTRIBUTED : nat := 3.

Definition bot_author (commit_email : string) : GitAuthor :=
  mkGitAuthor "coxagent-bot"
    (if blank commit_email then "coxagent-bot@users.noreply.github.com" else trim commit_email).

Definition wip_ref_for (id : TicketId) : string := WIP_REF_PREFIX +:+ id.

(** A timestamp's letters and digits. *)
Definition compact_instant (rfc3339 : string) : string :=
  unchars (List.filter (fun c => match c with String a "" => is_ascii_alnum a | _ => false end) (chars rfc3339)).

(** [Path::components], up to what these functions ask of them. *)
Definition components (path : string) : list string :=
  List.filter (fun c => negb (one_of c [""; "."])) (split_byte "/" path).

Definition file_name (path : string) : option string :=
  name ← last (components path); if decide (name = "..") then None else Some name.

Definition unattributed_wip_ref (work_dir now : string) : string :=
  WIP_REF_PREFIX +:+ "unattributed-" +:+ compact_instant now +:+ "-" +:+
  from_option (take_chars 60) "unknown-slot" (file_name work_dir).

Definition is_slot_worktree (work_dir : string) : bool := one_of ".coxagent-worktrees" (components work_dir).

Definition checkpoint_note (branch diffstat : string) (untracked : nat) : string :=
  join "; " (["branch " +:+ branch] ++ (if bool_decide (diffstat = "") then [] else [diffstat]) ++
             (if 0 <? untracked then [dec_nat untracked +:+ " untracked"] else [])).

(** [is_closed] *)
Definition is_closed (s : Status) : bool := one_of s [Done; Documented; Verified; Rejected].

Definition is_unattributed (leaf : string) : bool := starts_with "unattributed-" leaf.

(** A ticket's ref whose ticket is closed or gone. *)
Definition is_dead_ref (tickets : gmap string bool) (name : string) : bool :=
  match strip_prefix WIP_REF_PREFIX name with
  | None => false
  | Some leaf => negb (is_unattributed leaf) && negb (bool_decide (tickets !! leaf = Some false))
  end.

Definition is_unattributed_ref (name : string) : bool := from_option is_unattributed false (strip_prefix WIP_REF_PREFIX name).

Definition stale_wip_refs (ref_names : list string) (tickets : gmap string bool) (keep_unattributed : nat) : list string :=
  List.filter (is_dead_ref tickets) ref_names ++
  drop keep_unattributed (reverse (sort_by str_le (List.filter is_unattributed_ref ref_names))).

(** The map [id -> closed] of [prune_ticket_wip_refs]; a later ticket overwrites. *)
Definition closed_map (st : ProjectState) : gmap string bool :=
  fold_left (fun m t => <[t_id t := is_closed (t_status t)]> m) (tickets st) ∅.

(** ** Parking *)

Definition diffstat_line (stat : string) : string :=
  trim (default "" (List.find (fun l => contains "changed" l && contains "file" l) (reverse (lines stat)))).

Section Park.
Context (p : DevPass).

Definition park_slot_wip (tk : option TicketId) (author : GitAuthor) : DevProg (result string (option WipCheckpoint)) :=
  if negb (is_slot_worktree (dp_work_dir p)) then Ret (Ok None)
  else
    do! status := CGit ["status"; "--porcelain"] in
    if negb status.1 || blank status.2 then Ret (Ok None)
    else
      do! branch := CBranch in
      let branch := match branch with Ok b => b | Err _ => "HEAD" end in
      do! stat := CGit ["diff"; "HEAD"; "--stat"] in
      let untracked := length (List.filter (starts_with "?? ") (lines status.2)) in
      do! now := CNow in
      let ref_name := match tk with Some id => wip_ref_for id | None => unattributed_wip_ref (dp_work_dir p) now end in
      let subject := default "unattributed slot residue" tk in
      do! sha := CCheckpoint ref_name ("WIP checkpoint: " +:+ subject +:+ " — parked by slot hygiene (engine died mid-edit)") author in
      match sha with
      | Err e => Ret (Err (subject +:+ ": " +:+ port_error_text e))
      | Ok None => Ret (Ok None)
      | Ok (Some sha) =>
          let cp := mkWipCheckpoint ref_name sha (checkpoint_note branch (diffstat_line stat.2) untracked) now in
          match tk with
          | None => Ret (Ok (Some cp))
          | Some id =>
              do! recorded := CMutate (MPark id cp) in
              match recorded with
              | Ok _ => Ret (Ok (Some cp))
              | Err e => Ret (Err (ref_name +:+ ": recording checkpoint failed: " +:+ port_error_text e))
              end
          end
      end.

(** The loop over the dead refs: the ones deleted, and the closed tickets among
    them. *)
Fixpoint delete_refs (tickets : gmap string bool) (refs pruned closed : list string) : DevProg (list string * list string) :=
  match refs with
  | [] => Ret (pruned, closed)
  | r :: rest =>
      do! deleted := CGit ["update-ref"; "-d"; r] in
      if deleted.1 : bool then
        let closed := match strip_prefix WIP_REF_PREFIX r with
                      | Some leaf => if decide (tickets !! leaf = Some true) then closed ++ [leaf] else closed
                      | None => closed
                      end in
        delete_refs tickets rest (pruned ++ [r]) closed
      else delete_refs tickets rest pruned closed
  end.

Definition prune_ticket_wip_refs : DevProg (list string) :=
  do! out := CGit ["for-each-ref"; "--format=%(refname)"; WIP_REF_PREFIX] in
  if negb out.1 then Ret []
  else
    let refs := List.filter (fun l => negb (blank l)) (lines out.2) in
    if bool_decide (refs = []) then Ret []
    else
      do! st := CLoad in
      match st with
      | Err _ => Ret []
      | Ok st =>
          let tickets := closed_map st in
          run! r := delete_refs tickets (stale_wip_refs refs tickets MAX_KEPT_UNATTRIBUTED) [] [] in
          let '(pruned, closed) := r in
          if bool_decide (closed = []) then Ret pruned
          else do! _ := CMutate (MUnpark closed) in Ret pruned
      end.
End Park.

(** ** What is pruned *)

(** How many entries come after [x]. *)
Definition above (x : string) (l : list string) : nat := length (List.filter (str_lt x) l).

Lemma above_perm x l k : l ≡ₚ k -> above x l = above x k.
Proof.
  unfold above. intros H. induction H as [|a l k _ IH|a b l|l k m _ IH1 _ IH2]; cbn; [done| | |congruence].
  - by destruct (str_lt x a); cbn; rewrite IH.
  - by destruct (str_lt x a), (str_lt x b).
Qed.

Lemma above_app x l k : above x (l ++ k) = above x l + above x k.
Proof. unfold above. by rewrite List.filter_app, length_app. Qed.

Lemma str_lt_not_le a b : str_lt a b = negb (str_le b a).
Proof.
  unfold str_lt, str_le. rewrite (String.compare_antisym a b). by destruct (String.compare b a).
Qed.

(** The entries left after the newest [k] are those with [k] entries above. *)
Lemma drop_newest l k x :
  StronglySorted (fun a b => str_le a b = true) l -> NoDup l ->
  x ∈ drop k (reverse l) <-> x ∈ l /\ k <= above x l.
Proof.
  revert k. induction l as [|a l IH] using rev_ind; intros k Hs Hnd.
  - change (reverse (@nil string)) with (@nil string). rewrite drop_nil. split; [by intros ?%elem_of_nil|by intros [?%elem_of_nil _]].
  - apply NoDup_app in Hnd as (Hnd & Hd & _). pose proof (fun y b => StronglySorted_app_1_elem_of _ _ _ y b Hs) as Hle.
    apply StronglySorted_app_1_l in Hs. rewrite reverse_snoc, above_app, elem_of_app, list_elem_of_singleton.
    assert (Ha : forall y, y ∈ l -> above y [a] = 1).
    { intros y Hy. unfold above. cbn. rewrite str_lt_not_le. destruct (str_le a y) eqn:E; [|done]. exfalso.
      assert (y = a) as ->. { apply str_le_antisym; [|done]. apply (Hle y a); [done|by apply list_elem_of_singleton]. }
      apply (Hd a Hy). by apply list_elem_of_singleton. }
    assert (Hz : above a (l ++ [a]) = 0).
    { rewrite above_app. unfold above at 2. cbn. rewrite str_lt_not_le, str_le_refl. cbn. rewrite Nat.add_0_r.
      unfold above. assert (Hf : List.filter (str_lt a) l = []); [|by rewrite Hf].
      clear -Hle. induction l as [|y l IH]; [done|]. cbn. rewrite str_lt_not_le.
      rewrite (Hle y a) by (left || by apply list_elem_of_singleton). cbn. apply IH. intros z b Hz Hb. apply Hle; [by right|done]. }
    destruct k as [|k]; cbn [drop].
    + rewrite elem_of_cons, elem_of_reverse. split; [|by intros [[?| ->] _]; [right|left]].
      intros [->|?]; (split; [by (right + left)|lia]).
    + rewrite IH by done. split.
      * intros [Hx Hk]. rewrite Ha by done. split; [by left|lia].
      * intros [[Hx| ->] Hk]; [rewrite Ha in Hk by done; split; [done|lia]|]. rewrite <- above_app, Hz in Hk. lia.
Qed.

Lemma filter_elem {A} (f : A -> bool) (l : list A) x : x ∈ List.filter f l <-> x ∈ l /\ f x = true.
Proof. by rewrite !list_elem_of_In, List.filter_In. Qed.

(** the prune of parked work never deletes a ref that can still restore something: the ref of a ticket that is on the board and not closed survives, a closed or vanished ticket's ref does not, and of the refs no ticket owns exactly the newest three by name survive. *)
Theorem prune_keeps_live refs tickets name :
  NoDup refs ->
  (name ∈ stale_wip_refs refs tickets MAX_KEPT_UNATTRIBUTED <->
   name ∈ refs /\
   exists leaf, name = WIP_REF_PREFIX +:+ leaf /\
     if is_unattributed leaf
     then MAX_KEPT_UNATTRIBUTED <= length (List.filter (fun r => is_unattributed_ref r && str_lt name r) refs)
     else tickets !! leaf <> Some false).
Proof.
  intros Hnd. unfold stale_wip_refs. rewrite elem_of_app, filter_elem, drop_newest.
  2: { apply sort_by_sorted; [apply str_le_total|]. apply str_le_trans. }
  2: { rewrite sort_by_perm. by apply NoDup_ListNoDup, List.NoDup_filter, NoDup_ListNoDup. }
  rewrite elem_of_sort_by, (above_perm _ _ _ (sort_by_perm _ _)), filter_elem.
  assert (Hab : above name (List.filter is_unattributed_ref refs) =
                length (List.filter (fun r => is_unattributed_ref r && str_lt name r) refs)).
  { unfold above. f_equal. clear. induction refs as [|r refs IH]; [done|]. cbn [List.filter].
    destruct (is_unattributed_ref r); cbn [List.filter andb]; [|exact IH]. destruct (str_lt name r); by rewrite IH. }
  rewrite Hab. unfold is_dead_ref, is_unattributed_ref at 1. split.
  - intros [[Hin Hd]|[[Hin Hu] Hk]]; (split; [done|]).
    + destruct (strip_prefix WIP_REF_PREFIX name) as [leaf|] eqn:E; [|done]. apply strip_prefix_spec in E. exists leaf.
      apply andb_true_iff in Hd as [Hn Ht]. apply negb_true_iff in Hn as ->. split; [done|].
      by apply negb_true_iff, bool_decide_eq_false in Ht.
    + destruct (strip_prefix WIP_REF_PREFIX name) as [leaf|] eqn:E; [|done]. apply strip_prefix_spec in E. exists leaf.
      cbn in Hu. by rewrite Hu.
  - intros (Hin & leaf & E & Hl). apply strip_prefix_spec in E as ->. destruct (is_unattributed leaf) eqn:Eu.
    + right. by cbn.
    + left. split; [done|]. cbn. by apply negb_true_iff, bool_decide_eq_false.
Qed.

Lemma prune_keeps_live_witness :
  let refs := ["refs/coxagent/wip/F1"; "refs/coxagent/wip/F2"; "refs/heads/main"] in
  NoDup refs /\ "refs/coxagent/wip/F2" ∈ stale_wip_refs refs {["F1" := false]} MAX_KEPT_UNATTRIBUTED.
Proof.
  assert (Hnd : NoDup ["refs/coxagent/wip/F1"; "refs/coxagent/wip/F2"; "refs/heads/main"])
    by (apply (bool_decide_unpack _); vm_compute; exact I).
  split; [exact Hnd|]. apply (prune_keeps_live _ {["F1" := false]} _ Hnd). split; [right; left|].
  exists "F2". split; vm_compute; done.
Defined.
