(* ===== verification/RunDev.v ===== *)
(** * The developer pass

    [RunDevUseCase::execute] of [use_cases/run_dev/mod.rs] as a program over its
    ports: boot check, choice and claim of a ticket, the engine runs, the
    definition-of-done gates, completion. A stage that can end the pass returns a
    [Flow]. [digest] is the default hasher, [to_uppercase] Unicode case folding,
    [extract_notes] the screened brief notes of an output (kept, withheld). The
    prompt of a fresh run is what [CBrief] replies. *)
From S2P Require Import Prelude RustStr Kinds TestCase Ticket State StateOps Ports Questions Selection AddTicket Claims Engine Gates Failures Focus Effects DevPorts Wip.

(** ** Text *)

(** [s.get(n..)] *)
Definition str_get_from (n : nat) (s : string) : option string :=
  if (n =? 0) || is_char_boundary n s then Some (String.substring n (String.length s - n) s) else None.

(** [s.rsplit_once(pat)] *)
Fixpoint rsplit_once (pat s : string) : option (string * string) :=
  match s with
  | EmptyString => None
  | String a s' =>
      match rsplit_once pat s' with
      | Some (l, r) => Some (String a l, r)
      | None => match strip_prefix pat s with Some r => Some ("", r) | None => None end
      end
  end.

(** [&s[..s.len().min(n)]]: [None] is the panic of a slice inside a character. *)
Definition slice_to (n : nat) (s : string) : option string := str_get_to (n `min` String.length s) s.

(** [trim_start_matches] for a set of bytes. *)
Fixpoint drop_bytes (bs : list ascii) (s : string) : string :=
  match s with String a s' => if one_of a bs then drop_bytes bs s' else s | EmptyString => "" end.

Definition is_username_byte (a : ascii) : bool := is_ascii_alnum a || one_of a ["-"; "_"; "."]%char.

(** [@name], a single token. *)
Definition is_person (role : string) : bool :=
  (1 <? String.length role) &&
  match strip_prefix "@" role with Some name => all_bytes is_username_byte name | None => false end.

Definition parse_ask_line (to_uppercase : string -> string) (line : string) : option (string * string) :=
  rest ← strip_prefix "ASK " (drop_bytes ["`"; "*"; "-"; " "]%char (trim line));
  '(role, question) ← split_once ":" rest;
  let role := to_uppercase (trim role) in
  if negb (one_of role ["BA"; "SA"]) && negb (is_person role) then None
  else
    let q := trim question in
    if String.length q <? 10 then None else Some (role, q).

(** The last line of the final twenty that asks. *)
Definition parse_ask (to_uppercase : string -> string) (stdout : string) : option (string * string) :=
  head (omap (parse_ask_line to_uppercase) (take 20 (reverse (lines stdout)))).

(** [checkpoint_error_suffix] *)
Definition checkpoint_error_suffix (r : result string unit) : string :=
  match r with Ok _ => "" | Err e => "; WIP checkpoint failed: " +:+ e end.

Definition stub_hint (error_summary : string) : string :=
  if contains_any ["unimplemented!"; "todo!"; "unreachable!"; "not implemented"] error_summary
  then "One or more errors are a leftover stub (`unimplemented!`/`todo!`/`not implemented`). For each stub: either implement its real body NOW,or if it is untested scaffolding, remove the stub call so the suite isgreen — a stub must never block the whole build." +:+ newline +:+ newline
  else "".

(** The last [n] characters. *)
Definition tail_chars (n : nat) (s : string) : string := unchars (reverse (take n (reverse (chars s)))).

(** The constants of [prompts.rs] a run is built with. *)
Inductive SystemPrompt := PDev | PDevHeal | PTest.

(** ** Results *)

Definition DevResult : Type := result AppError (option TicketId).

Inductive DevOut := Returned (r : DevResult) | Panicked.

Inductive Flow (A : Type) := Go (a : A) | Exit (o : DevOut).
#[export] Instance DevMode_eq_dec : EqDecision DevMode.
Proof. solve_decision. Defined.

Arguments Go {A} _.
Arguments Exit {A} _.

Definition fbind {A B} (m : DevProg (Flow A)) (k : A -> DevProg (Flow B)) : DevProg (Flow B) :=
  run! x := m in match x with Go a => k a | Exit o => Ret (Exit o) end.

Notation "'flow!' x := m 'in' k" := (fbind m (fun x => k))
  (at level 10, x name, m at level 100, k at level 200) : dev_scope.

Definition fail_with {A} (e : PortError) : Flow A := Exit (Returned (Err (AppPort e))).

Section Pass.
Context (digest : list HashPiece -> string) (to_lowercase to_uppercase : string -> string).
Context (extract_notes : string -> list string * list string) (system_prompt : SystemPrompt -> string).
Context (p : DevPass).

Definition report (phase : option (string * string)) : DevProg unit :=
  if dp_phase p then do! _ := CPhase phase in Ret tt else Ret tt.

Definition working_tree : DevProg WorkingTreeDiff := if dp_git p then do! tree := CTree in Ret tree else Ret WorkingTreeDiff_default.

(** ** The tree fingerprint *)

Definition is_rename_or_copy (line : string) : bool :=
  from_option (fun xy => contains "R" xy || contains "C" xy) false (str_get_to 2 line).

Definition status_path (line : string) : option string :=
  rest ← str_get_from 3 line;
  let path := if is_rename_or_copy line then from_option snd rest (rsplit_once " -> " rest) else rest in
  Some (trim_matches "034" (trim path)).

Fixpoint dirty_entries (ls : list string) : DevProg (list DirtyEntry) :=
  match ls with
  | [] => Ret []
  | line :: ls =>
      run! meta := match status_path line with Some path => do! m := CStat path in Ret m | None => Ret None end in
      run! rest := dirty_entries ls in
      Ret ((line, meta) :: rest)
  end.

Definition tree_fingerprint : DevProg (option string) :=
  if negb (dp_git p && dp_files p) then Ret None
  else
    do! head := CGit ["rev-parse"; "HEAD"] in
    if negb head.1 then Ret None
    else
      do! status := CGit ["status"; "--porcelain"; "--untracked-files=all"] in
      if negb status.1 then Ret None
      else
        run! dirty := dirty_entries (lines status.2) in
        Ret (Some (fingerprint digest head.2 dirty)).

(** ** The boot check *)

Definition base_branch : string := if decide (dp_default_branch p = "") then "main" else dp_default_branch p.

(** An idle detached clean worktree is moved to the tip of its base. *)
Definition fresh_base : DevProg unit :=
  if negb (dp_git_enabled p && dp_git p) then Ret tt
  else
    do! head := CGit ["symbolic-ref"; "-q"; "HEAD"] in
    if head.1 : bool then Ret tt
    else
      run! tree := working_tree in
      if negb (bool_decide (changed_paths tree = [])) then Ret tt
      else
        do! _ := CGit ["fetch"; "origin"; base_branch] in
        let target := "origin/" +:+ base_branch in
        do! tip := CGit ["rev-parse"; target] in
        if tip.1 : bool then do! _ := CGit ["reset"; "--hard"; target] in Ret tt else Ret tt.

Definition heal_request (attempt : N) (last_error : string) : AgentRequest :=
  mkAgentRequest DevBug (system_prompt PDevHeal)
    (if decide (attempt = 1%N)
     then "The project does NOT compile. Fix ALL errors:" +:+ newline +:+ newline +:+ "```" +:+ newline +:+ last_error +:+
          newline +:+ "```" +:+ newline +:+ newline +:+ stub_hint last_error +:+
          "Run `cargo check`, fix every error, then `cargo test` to verify."
     else "Still not compiling. Last test output:" +:+ newline +:+ newline +:+ "```" +:+ newline +:+ last_error +:+
          newline +:+ "```" +:+ newline +:+ newline +:+ stub_hint last_error +:+
          ", Fix the remaining errors. Check what you missed.")
    (dp_work_dir p) 600 (attempt - 1) None.

Inductive Healed := HealGreen | HealGaveUp | HealPanicked.

(** The loop over the attempts that are left. *)
Fixpoint heal (tries : nat) (attempt : N) (last_error : string) : DevProg Healed :=
  match tries with
  | O => Ret HealGaveUp
  | S tries =>
      do! r := CRun (heal_request attempt last_error) in
      match r with
      | Ok o =>
          if succeeded o then
            do! t := CHealTests in
            match t with
            | Some (Ok r) =>
                if dr_success r then Ret HealGreen
                else match slice_to 150 (dr_summary r) with
                     | None => Ret HealPanicked
                     | Some _ => heal tries (attempt + 1) (dr_summary r)
                     end
            | _ => Ret HealGaveUp
            end
          else Ret HealGaveUp
      | Err _ => Ret HealGaveUp
      end
  end.

Definition restore_worktree_to_head : DevProg unit :=
  if negb (dp_git p) then Ret tt
  else
    do! _ := CGit ["checkout"; "."] in
    do! _ := CGit ["clean"; "-fd"] in Ret tt.

Definition self_heal_compile (error_summary : string) : DevProg DevOut :=
  if negb (dp_verify p) then Ret (Returned (Ok None))
  else
    run! checkpoint := (if dp_git p then do! sha := CHeadSha in Ret (is_ok sha) else Ret false) in
    run! h := heal 3 1 error_summary in
    match h with
    | HealGreen => Ret (Returned (Ok None))
    | HealPanicked => Ret Panicked
    | HealGaveUp =>
        run! _ := (if checkpoint : bool then restore_worktree_to_head else Ret tt) in
        Ret (Returned (Ok None))
    end.

Definition boot_check : DevProg (Flow unit) :=
  if negb (dp_verify p) then Ret (Go tt)
  else
    run! fp := tree_fingerprint in
    run! tree := working_tree in
    let dirty := build_relevant (changed_paths tree) in
    if bool_decide (dirty = []) then Ret (Go tt)
    else
      do! green := CGreen fp in
      if green : bool then Ret (Go tt)
      else
        do! mine := CClaimVerify fp in
        if negb mine then Ret (Go tt)
        else
          run! _ := report (Some (role_name (dp_mode p), "boot check: verifying " +:+ dec_nat (length dirty) +:+ " changed file(s)")) in
          do! outcome := CBootTests dirty in
          do! _ := CReleaseVerify fp in
          match outcome with
          | Some (Ok r) =>
              if dr_success r then do! _ := CMarkGreen fp in Ret (Go tt)
              else match slice_to 200 (dr_summary r) with
                   | None => Ret (Exit Panicked)
                   | Some _ =>
                       run! healed := self_heal_compile (dr_summary r) in
                       match healed with
                       | Panicked => Ret (Exit Panicked)
                       | Returned _ => run! _ := report None in Ret (Exit healed)
                       end
                   end
          | _ => run! _ := report None in Ret (Exit (Returned (Ok None)))
          end.

(** ** Choosing a ticket *)

(** [RunDevUseCase::candidates] *)
Definition dev_candidates (st : ProjectState) : list TicketId :=
  let ids := match dp_mode p with ModeBug => open_bug_candidates st | ModeFeature => ready_feature_candidates st end in
  let ids := List.filter (in_dev_scope st) ids in
  match dp_service p with
  | None => ids
  | Some mine =>
      let services := effective_services (dp_services p) "" in
      List.filter (fun id =>
        from_option (fun t => from_option (fun s => bool_decide (sc_name s = mine)) false (resolve_service services (t_service_tag t)))
          false (ticket id st)) ids
  end.

Definition worker_id : string := if decide (dp_worker p = "") then "local" else dp_worker p.

Definition is_parked (st : ProjectState) (id : TicketId) : bool := (3 <=? attempts id st)%N.

(** The cost gate holds the ticket. *)
Definition is_over_cost (st : ProjectState) (estimate : option f64) (id : TicketId) : option f64 :=
  cap ← dp_approve_over_usd p; est ← estimate;
  if f64_ltb cap est && negb (bool_decide (id ∈ cost_approved st)) then Some est else None.

Fixpoint pick (st : ProjectState) (estimate : option f64) (now : string) (cands : list TicketId)
    (new_holds : list (TicketId * f64)) : DevProg (result PortError (option TicketId * list (TicketId * f64))) :=
  match cands with
  | [] => Ret (Ok (None, new_holds))
  | cand :: rest =>
      if is_parked st cand then pick st estimate now rest new_holds
      else match is_over_cost st estimate cand with
      | Some est =>
          pick st estimate now rest
            (if bool_decide (is_Some (cost_holds st !! cand)) then new_holds else new_holds ++ [(cand, est)])
      | None =>
          do! won := CClaim cand worker_id now in
          match won with
          | Err e => Ret (Err e)
          | Ok true => do! _ := CMutate (MStarted cand) in Ret (Ok (Some cand, new_holds))
          | Ok false => pick st estimate now rest new_holds
          end
      end
  end.

Definition choose : DevProg (Flow TicketId) :=
  do! st := CLoad in
  match st with
  | Err e => Ret (fail_with e)
  | Ok st =>
      do! now := CNow in
      run! picked := pick st (avg_role_cost (role_key (dp_mode p)) (spend st)) now (dev_candidates st) [] in
      match picked with
      | Err e => Ret (fail_with e)
      | Ok (chosen, new_holds) =>
          run! _ := (if bool_decide (new_holds = []) then Ret tt else do! _ := CMutate (MHolds new_holds) in Ret tt) in
          match chosen with
          | None => run! _ := report None in Ret (Exit (Returned (Ok None)))
          | Some id => Ret (Go id)
          end
      end
  end.
(** ** Leaving a claimed ticket *)

(** [release_claim]: the slot's work is parked, the ticket freed either way. *)
Definition release_slot (id : TicketId) : DevProg (result string unit) :=
  run! parked := (if dp_git p && dp_git_enabled p
                  then park_slot_wip p (Some id) (bot_author (dp_commit_email p)) else Ret (Ok None)) in
  do! _ := CMutate (MRelease id) in
  Ret (result_map (fun _ => tt) parked).

(** The failure is recorded, the ticket released, the pass ends in the error. *)
Definition fail_pass {A} (id : TicketId) (why : string) (layer : FailureLayer) (gate : string) (files : list string)
    (err : string -> PortError) : DevProg (Flow A) :=
  do! _ := CMutate (MFailure id why layer gate files) in
  run! released := release_slot id in
  Ret (fail_with (err (checkpoint_error_suffix released))).

Definition backend (msg : string) (ckpt : string) : PortError := Backend (msg +:+ ckpt).

Definition mode_text : string := mode_debug (dp_mode p).

Definition engine_failed {A} (id : TicketId) (o : AgentOutcome) : DevProg (Flow A) :=
  fail_pass id (failure_detail o) LDesign "engine" []
    (backend (mode_text +:+ " engine failed on " +:+ id +:+ ": " +:+ failure_detail o)).

Definition engine_error {A} (id : TicketId) (e : PortError) : DevProg (Flow A) :=
  fail_pass id (port_error_text e) LDesign "engine" []
    (fun ckpt => if decide (ckpt = "") then e else Backend (port_error_text e +:+ ckpt)).

(** ** The engine runs *)

Definition role : Role := mode_role (dp_mode p).

Definition tdd_request (id : TicketId) (title : string) (criteria : list string) : AgentRequest :=
  mkAgentRequest Test (system_prompt PTest)
    ("TDD: ticket " +:+ id +:+ " (" +:+ title +:+ ") is about to be implemented. Write FAILING tests that encode EXACTLY these acceptance criteria — nothing else, no implementation, no fixing existing tests:" +:+ newline +:+ "- " +:+
     join (newline +:+ "- ") criteria +:+ newline +:+
     "Put them where this project keeps tests, as PURE function tests over the state/domain types that exist in the codebase — never a fake HTTP server, host harness or network port. Every fixture must be buildable from data the codebase actually has; if an acceptance criterion asserts data that does not exist in the codebase, that is a design gap — do NOT fabricate it, report it. The tests must COMPILE (no word-salad signatures, no invented identifiers) and fail only for the missing behaviour. Commit nothing.")
    (dp_work_dir p) 900 0 (Some id).

Definition tdd_stage (st : ProjectState) (id : TicketId) : DevProg unit :=
  let criteria := from_option t_acceptance_criteria [] (ticket id st) in
  if dp_tdd p && bool_decide (dp_mode p = ModeFeature) && negb (bool_decide (criteria = []))
  then do! _ := CRun (tdd_request id (from_option t_title "" (ticket id st)) criteria) in Ret tt
  else Ret tt.

Definition plan_note : string :=
  newline +:+ newline +:+ "FIRST: do NOT write code yet. Explore the relevant code (use the repo map / code-graph tools), then output a concise implementation PLAN: the exact steps, the files you will touch, the tests you will add, and the biggest risk. Wait for the follow-up before implementing.".

Definition execute_note : string :=
  "Plan accepted. Now IMPLEMENT it exactly: follow your steps, write the tests you named, and flag (don't silently absorb) anything that forces a deviation from the plan.".

Definition review_note : string :=
  "Before handing off: run `git diff` and review YOUR OWN change like a principal engineer reviewing a stranger's PR. Fix what you find — dead code, debug leftovers, missed edge cases, naming, missing tests for new logic. Do NOT start new work or commit.".

Definition is_success (r : Reply) : bool := match r with Ok o => succeeded o | Err _ => false end.

(** A stored conversation is resumed; when that fails the run is cold. *)
Definition resume_or_run (prior : option string) (task_full : string) (request : AgentRequest) : DevProg Reply :=
  match prior with
  | None => do! r := CRun request in Ret r
  | Some sid =>
      do! r := CResume role sid task_full 3600 in
      if is_success r then Ret r else do! r := CRun request in Ret r
  end.

Definition execute_plan (st : ProjectState) (id : TicketId) (sid : string) : DevProg (Flow (option string)) :=
  do! exec := CResume role sid execute_note 3600 in
  if is_success exec then Ret (Go (Some sid))
  else
    do! fresh := CBrief st id in
    do! r := CRun fresh in
    match r with
    | Ok f => if succeeded f then Ret (Go (ao_session_id f)) else engine_failed id f
    | Err e => engine_error id e
    end.

(** The question of an output, put to whom it asks; [true] when it was parked. *)
Definition park_question (id : TicketId) (stdout : string) : DevProg bool :=
  match parse_ask to_uppercase stdout with
  | None => Ret false
  | Some (to, body) =>
      do! minutes := CMinutes in
      let defer := should_defer (dp_human p) to minutes 0 (hc_question_sla_minutes (dp_human p)) in
      do! asked := CMutate (MAsk id to body defer) in
      Ret (is_ok asked)
  end.

Definition after_answer (st : ProjectState) (id : TicketId) (plan_first : bool) (o : AgentOutcome)
    : DevProg (Flow (option string)) :=
  let '(kept, dropped) := extract_notes (ao_stdout o) in
  run! _ := (if bool_decide (kept = []) && bool_decide (dropped = []) then Ret tt
             else do! _ := CMutate (MBriefs id kept dropped) in Ret tt) in
  do! _ := CMutate MEngineAlive in
  run! asked := park_question id (ao_stdout o) in
  if asked : bool then
    run! _ := release_slot id in
    run! _ := report None in
    Ret (Exit (Returned (Ok None)))
  else
    match ao_session_id o, plan_first with
    | Some sid, true => execute_plan st id sid
    | sid, _ => Ret (Go sid)
    end.

Definition session_key (id : TicketId) : string := id +:+ "/" +:+ role_key (dp_mode p).

Definition first_run (st : ProjectState) (id : TicketId) : DevProg (Flow (option string)) :=
  do! request := CBrief st id in
  let is_large := from_option (fun t => bool_decide (t_complexity t = CLarge)) false (ticket id st) in
  let plan_first := (rq_escalation_level request =? 0)%N && is_large in
  let task_full := rq_task_prompt request in
  let request := if plan_first then request <| rq_task_prompt ::= fun t => t +:+ plan_note |> else request in
  let prior := if plan_first then None else ticket_sessions st !! session_key id in
  run! initial := resume_or_run prior task_full request in
  match initial with
  | Ok o => if succeeded o then after_answer st id plan_first o else engine_failed id o
  | Err e => engine_error id e
  end.

(** The conversation is remembered and reviews its own change. *)
Definition self_review (id : TicketId) (session : option string) : DevProg unit :=
  match session with
  | None => Ret tt
  | Some sid =>
      do! _ := CMutate (MSession (session_key id) sid) in
      do! _ := CResume role sid review_note 900 in Ret tt
  end.

(** ** The definition of done *)

Definition repair_request (id : TicketId) (follow_up : string) (timeout : N) : AgentRequest :=
  mkAgentRequest role (system_prompt PDev) follow_up (dp_work_dir p) timeout 0 (Some id).

(** A red report's summary; a run that could not be made is not red. *)
Definition red_summary (r : result PortError DeployReport) : option string :=
  match r with Ok r => if dr_success r then None else Some (dr_summary r) | Err _ => None end.

Definition test_follow_up (id fail : string) : string :=
  "Your change for ticket " +:+ id +:+ " left the test suite FAILING. Fix ONLY these failures now (do not start new work):" +:+
  newline +:+ tail_chars 3000 fail.

(** Resumed when the engine can, cold otherwise. *)
Definition repair_tests (id : TicketId) (session : option string) (fail : string) : DevProg unit :=
  run! resumed := match session with
                  | Some sid => do! r := CResume role sid (test_follow_up id fail) 1800 in Ret (is_ok r)
                  | None => Ret false
                  end in
  if resumed : bool then Ret tt
  else do! _ := CRun (repair_request id (test_follow_up id fail) 1800) in Ret tt.

Definition gate_tests (id : TicketId) (session : option string) (changed : list string) : DevProg (Flow unit) :=
  do! first := CTests changed in
  run! red := match red_summary first with
              | None => Ret None
              | Some fail =>
                  run! _ := repair_tests id session fail in
                  do! second := CTests changed in Ret (red_summary second)
              end in
  match red with
  | None => Ret (Go tt)
  | Some fail =>
      fail_pass id fail LDesign "engine" []
        (backend (mode_text +:+ " left tests red on " +:+ id +:+ " — ticket returned to the queue"))
  end.

(** The bounded repair of the later gates: in the conversation if there is one. *)
Definition fix_up (id : TicketId) (session : option string) (text : string) : DevProg unit :=
  match session with
  | Some sid => do! _ := CResume role sid text 900 in Ret tt
  | None => do! _ := CRun (repair_request id text 900) in Ret tt
  end.

Definition lint_fixup (base count : N) (report : LintReport) : string :=
  "Your change introduced NEW `cargo clippy` errors (was " +:+ dec base +:+ ", now " +:+ dec count +:+
  "). Run `cargo clippy --workspace --all-targets`, fix ONLY errors caused by your change, and do not start new work. If a lint fires on code you must keep (e.g. platform-gated symbols), gate it with the right #[cfg(...)] rather than deleting behaviour." +:+
  (if bool_decide (lr_sample report = "") then "" else newline +:+ "Current errors include:" +:+ newline +:+ lr_sample report).

Fixpoint dedup (l : list string) : list string :=
  match l with
  | x :: ((y :: _) as l') => if bool_decide (x = y) then dedup l' else x :: dedup l'
  | _ => l
  end.

Definition lint_files (r : option LintReport) : list string :=
  from_option (fun r => take 5 (dedup (sort_by str_le (List.filter (fun f => negb (blank f)) (lr_files r))))) [] r.

Definition lint_sample (r : option LintReport) : string :=
  match r with
  | Some r => if bool_decide (lr_sample r = "") then "" else "; e.g. " +:+ default "" (head (lines (lr_sample r)))
  | None => ""
  end.

Definition set_baseline (errors : N) (when : bool) : DevProg unit :=
  if when then do! _ := CMutate (MBaseline errors) in Ret tt else Ret tt.

(** What the second measure of the lint gate decides. *)
Definition judge_lint (id : TicketId) (base count : N) : DevProg (Flow unit) :=
  do! lint := CLint in
  let after_report := match lint with Ok r => r | Err _ => None end in
  let after := from_option lr_errors count after_report in
  run! tree := working_tree in
  let mine := from_option (fun r => bool_decide (lr_files r = []) || lints_touch_changed_files tree (lr_files r)) true after_report in
  if (base <? after)%N && mine then
    fail_pass id ("added clippy errors (" +:+ dec base +:+ " -> " +:+ dec after +:+ lint_sample after_report +:+ ")")
      LGate "clippy" (lint_files after_report)
      (backend (mode_text +:+ " added lint errors on " +:+ id +:+ " — ticket returned to the queue"))
  else
    run! _ := set_baseline after (base <? after)%N in
    run! _ := set_baseline after (after <? base)%N in
    Ret (Go tt).

Definition repair_lint (id : TicketId) (session : option string) (changed : list string) (base : N) (report : LintReport)
    : DevProg (Flow unit) :=
  let count := lr_errors report in
  run! _ := fix_up id session (lint_fixup base count report) in
  do! tests := CTests changed in
  match red_summary tests with
  | Some _ =>
      fail_pass id "clippy repair pass left the test suite red" LGate "tests" []
        (backend (mode_text +:+ " clippy repair broke tests on " +:+ id +:+ " — ticket returned to the queue"))
  | None => judge_lint id base count
  end.

Definition gate_lint (id : TicketId) (session : option string) (changed : list string) : DevProg (Flow unit) :=
  do! lint := CLint in
  match lint with
  | Ok (Some report) =>
      let count := lr_errors report in
      do! st := CLoad in
      match result_ok st ≫= clippy_baseline with
      | None => run! _ := set_baseline count true in Ret (Go tt)
      | Some base =>
          if (base <? count)%N then repair_lint id session changed base report
          else run! _ := set_baseline count (count <? base)%N in Ret (Go tt)
      end
  | _ => Ret (Go tt)
  end.

Definition gate_cross (id : TicketId) : DevProg (Flow unit) :=
  do! check := CCross in
  match check with
  | Ok check =>
      if cc_available check && negb (bool_decide (cc_errors check = [])) then
        fail_pass id ("does not compile for the deploy platform: " +:+ take_chars 200 (join "; " (cc_errors check)))
          LGate "linux-build" []
          (backend (mode_text +:+ " broke the Linux build on " +:+ id +:+ " — ticket returned to the queue"))
      else Ret (Go tt)
  | Err _ => Ret (Go tt)
  end.

Definition regression_fixup (id : string) : string :=
  "Your fix for " +:+ id +:+ " ships with NO regression test. Add a test that FAILS without your fix and passes with it — that is the only proof the bug is dead. Put it where the gate can see it: a `tests/` path, an e2e spec at `*.spec.ts` / `*.spec.js`, a `*_test.rs` / `*.test.ts` file, or an added `#[test]`/`#[tokio::test]`/`it(`/`def test_` block. Do not start new work or commit.".

(** A bug with no change is closed, one with a change must carry a test. *)
Definition gate_regression (id : TicketId) (session : option string) (changed : list string) : DevProg (Flow unit) :=
  run! tree := working_tree in
  if negb (bool_decide (dp_mode p = ModeBug)) then Ret (Go tt)
  else if bool_decide (build_relevant (changed_paths tree) = []) then
    do! closed := CMutate (MNotReproducible id) in
    match closed with
    | Err e => Ret (fail_with e)
    | Ok _ => run! _ := report None in Ret (Exit (Returned (Ok (Some id))))
    end
  else if diff_is_docs_only to_lowercase tree || diff_touches_tests to_lowercase tree then Ret (Go tt)
  else
    run! _ := fix_up id session (regression_fixup id) in
    run! tree := working_tree in
    if negb (diff_touches_tests to_lowercase tree) then
      fail_pass id "bug fix shipped without a regression test" LGate "regression-test" []
        (backend (mode_text +:+ " fix for " +:+ id +:+ " has no regression test — returned to the queue"))
    else
      do! tests := CTests changed in
      match red_summary tests with
      | Some _ =>
          fail_pass id "regression test added but suite is red" LGate "tests" []
            (backend (mode_text +:+ " regression test left suite red on " +:+ id))
      | None => Ret (Go tt)
      end.

Definition gates (id : TicketId) (session : option string) : DevProg (Flow unit) :=
  if negb (dp_verify p) then Ret (Go tt)
  else
    run! tree := working_tree in
    let changed := build_relevant (changed_paths tree) in
    flow! _ := gate_tests id session changed in
    flow! _ := gate_lint id session changed in
    flow! _ := gate_cross id in
    gate_regression id session changed.

Definition complete (id : TicketId) : DevProg (Flow DevOut) :=
  run! _ := (if dp_verify p then run! fp := tree_fingerprint in do! _ := CMarkGreen fp in Ret tt else Ret tt) in
  do! done := CMutate (MComplete id) in
  match done with
  | Err e => Ret (fail_with e)
  | Ok _ => run! _ := report None in Ret (Go (Returned (Ok (Some id))))
  end.

(** ** [execute] *)

(** From the claim on. *)
Definition work (id : TicketId) : DevProg (Flow DevOut) :=
  run! _ := report (Some (role_name (dp_mode p), id)) in
  do! st := CLoad in
  match st with
  | Err e => Ret (fail_with e)
  | Ok st =>
      run! _ := tdd_stage st id in
      flow! session := first_run st id in
      run! _ := self_review id session in
      flow! _ := gates id session in
      complete id
  end.

Definition out_of (f : Flow DevOut) : DevOut := match f with Go o => o | Exit o => o end.

Definition execute : DevProg DevOut :=
  run! _ := fresh_base in
  run! out := (flow! _ := boot_check in flow! id := choose in work id) in
  Ret (out_of out).
End Pass.
