(* ===== verification/RunDevFacts.v ===== *)
(** * What a developer pass does

    The protocol of [RunDev.execute], watched call by call whatever the ports reply:
    what it may claim, when it may report a ticket done, that it lets go of what it
    claimed, and how many engine runs it can cost. *)
From S2P Require Import Prelude RustStr Kinds TestCase Ticket State StateOps Ports Questions Selection AddTicket Claims Engine Gates Failures Focus Effects DevPorts Wip RunDev.

(** ** The monitor *)

Inductive How := ByFailure | ByQuestion | ByCompletion | ByClosing.

(** Where the pass stands with the ticket it works on. *)
Inductive Stage :=
| Idle
| Held (id : TicketId)
| Failing (id : TicketId)
| Asking (id : TicketId)
| Refused (id : TicketId)
| Freed (id : TicketId) (how : How).

(** What is known of the tree since the last engine run. *)
Inductive Tested := Untested | NotRed | Red.

Record Watch := mkWatch {
  w_stage : Stage;
  w_state : option ProjectState;
  w_tested : Tested;
  w_tree : option WorkingTreeDiff;
  w_runs : nat;
  (** The reads and the writes that free a ticket have all landed. *)
  w_landed : bool;
}.

Definition watch_mutation (m : Mutation) (ok : bool) (s : Stage) : Stage :=
  match m, s with
  | MFailure _ _ _ _ _, Held id => Failing id
  | MAsk _ _ _ _, Held id => if ok then Asking id else s
  | MRelease _, Failing id => if ok then Freed id ByFailure else s
  | MRelease _, Asking id => if ok then Freed id ByQuestion else s
  | MComplete _, Held id => if ok then Freed id ByCompletion else Refused id
  | MNotReproducible _, Held id => if ok then Freed id ByClosing else Refused id
  | _, _ => s
  end.

Definition engine_ran (w : Watch) : Watch :=
  mkWatch (w_stage w) (w_state w) Untested None (S (w_runs w)) (w_landed w).

Definition watch (c : DevCall) : dev_reply c -> Watch -> Watch :=
  match c return dev_reply c -> Watch -> Watch with
  | CLoad => fun r w =>
      mkWatch (w_stage w) (result_ok r) (w_tested w) (w_tree w) (w_runs w) (w_landed w && is_ok r)
  | CClaim id _ _ => fun r w =>
      mkWatch (match r with Ok true => Held id | _ => w_stage w end) (w_state w) (w_tested w) (w_tree w) (w_runs w) (w_landed w)
  | CMutate m => fun r w =>
      mkWatch (watch_mutation m (is_ok r) (w_stage w)) (w_state w) (w_tested w) (w_tree w) (w_runs w)
        (match m with MRelease _ => w_landed w && is_ok r | _ => w_landed w end)
  | CRun _ | CResume _ _ _ _ => fun _ w => engine_ran w
  | CTests _ => fun r w =>
      mkWatch (w_stage w) (w_state w) (match red_summary r with None => NotRed | Some _ => Red end) (w_tree w) (w_runs w) (w_landed w)
  | CTree => fun tree w => mkWatch (w_stage w) (w_state w) (w_tested w) (Some tree) (w_runs w) (w_landed w)
  | _ => fun _ w => w
  end.

Definition first_watch : Watch := mkWatch Idle None Untested None 0 true.

Section Protocol.
Context (digest : list HashPiece -> string) (to_lowercase to_uppercase : string -> string).
Context (extract_notes : string -> list string * list string) (system_prompt : SystemPrompt -> string).
Context (p : DevPass).

(** A ticket the pass may try to claim: a candidate of the state just loaded that is
    not parked and not held by the cost gate. *)
Definition may_claim (w : Watch) (id : TicketId) : Prop :=
  exists st, w_state w = Some st /\ id ∈ dev_candidates p st /\ is_parked st id = false /\
    is_over_cost p st (avg_role_cost (role_key (dp_mode p)) (spend st)) id = None.

(** A bug fix the gate accepts: documents only, or with a test. *)
Definition carries_test (tree : WorkingTreeDiff) : bool :=
  diff_is_docs_only to_lowercase tree || diff_touches_tests to_lowercase tree.

(** When the ticket may be reported done. *)
Definition done_ok (w : Watch) : Prop :=
  dp_verify p = true ->
  w_tested w = NotRed /\
  (dp_mode p = ModeBug -> exists tree, w_tree w = Some tree /\ carries_test tree = true).

(** When a bug may be closed as not reproducible. *)
Definition closing_ok (w : Watch) : Prop :=
  dp_mode p = ModeBug /\ dp_verify p = true /\ w_tested w = NotRed /\
  (dp_git p = true -> exists tree, w_tree w = Some tree /\ build_relevant (changed_paths tree) = []).

Definition max_runs : nat := 8.

Definition permit (w : Watch) (c : DevCall) : Prop :=
  match c with
  | CClaim id _ _ => w_stage w = Idle /\ may_claim w id
  | CRun _ | CResume _ _ _ _ => w_runs w < max_runs
  | CMutate (MFailure id _ _ _ _) | CMutate (MAsk id _ _ _) => w_stage w = Held id
  | CMutate (MRelease id) => w_stage w = Failing id \/ w_stage w = Asking id
  | CMutate (MComplete id) => w_stage w = Held id /\ done_ok w
  | CMutate (MNotReproducible id) => w_stage w = Held id /\ closing_ok w
  | _ => True
  end.

(** How the result and the ticket's fate go together, when the store answers. *)
Definition ends_well (o : DevOut) (w : Watch) : Prop :=
  w_landed w = true ->
  match o with
  | Returned (Ok (Some id)) => w_stage w = Freed id ByCompletion \/ w_stage w = Freed id ByClosing
  | Returned (Ok None) => w_stage w = Idle \/ exists id, w_stage w = Freed id ByQuestion
  | Returned (Err _) => w_stage w = Idle \/ exists id, w_stage w = Freed id ByFailure \/ w_stage w = Refused id
  | Panicked => w_stage w = Idle
  end.

#[local] Abbreviation Every := (every (fun _ _ _ => True) permit watch).

(** What a stage leaves behind when it goes on, or the end of the pass. *)
Definition flow_post {A} (Q : A -> Watch -> Prop) (f : Flow A) (w : Watch) : Prop :=
  match f with Go a => Q a w | Exit o => ends_well o w end.

Lemma every_fbind {A B} (m : DevProg (Flow A)) (k : A -> DevProg (Flow B)) w (P : A -> Watch -> Prop) Q :
  Every m w (flow_post P) -> (forall a w', P a w' -> Every (k a) w' (flow_post Q)) ->
  Every (fbind m k) w (flow_post Q).
Proof. intros Hm Hk. unfold fbind. eapply every_seq; [exact Hm|]. intros [a|o] w' H; [by apply Hk|done]. Qed.

(** ** Calls the monitor does not follow *)

Definition quiet (c : DevCall) : bool :=
  match c with
  | CLoad | CClaim _ _ _ | CRun _ | CResume _ _ _ _ | CTests _ | CTree => false
  | CMutate (MAsk _ _ _ _ | MFailure _ _ _ _ _ | MRelease _ | MNotReproducible _ | MComplete _) => false
  | _ => true
  end.

Lemma watch_mutation_quiet m ok s : quiet (CMutate m) = true -> watch_mutation m ok s = s.
Proof. by destruct m, s. Qed.

Lemma quiet_ignored c w : quiet c = true -> permit w c /\ forall r, watch c r w = w.
Proof.
  intros Hq. split; [destruct c; try done; match goal with m : Mutation |- _ => by destruct m end|].
  intros r. destruct w, c; try done. cbn. rewrite watch_mutation_quiet by done. by destruct m.
Qed.

#[local] Abbreviation Quiet := (only quiet).

Lemma quiet_seq {A B} (q : DevProg A) (k : A -> DevProg B) w Q :
  Quiet q -> (forall a, Every (k a) w Q) -> Every (pbind q k) w Q.
Proof. apply every_only_bind, quiet_ignored. Qed.

Lemma report_quiet phase : Quiet (report p phase).
Proof. unfold report. by destruct (dp_phase p). Qed.

Lemma dirty_entries_quiet ls : Quiet (dirty_entries ls).
Proof.
  induction ls as [|l ls IH]; cbn; [done|]. apply only_bind; [by destruct (status_path l)|]. intros m. by apply only_bind.
Qed.

Lemma tree_fingerprint_quiet : Quiet (tree_fingerprint digest p).
Proof.
  unfold tree_fingerprint. repeat (case_match || (split; [done|]; intros ?) || done).
  apply only_bind; [apply dirty_entries_quiet|done].
Qed.

Lemma park_slot_quiet tk author : Quiet (park_slot_wip p tk author).
Proof. unfold park_slot_wip. repeat (case_match || (split; [done|]; intros ?) || done). Qed.

Lemma set_baseline_quiet n b : Quiet (set_baseline n b).
Proof. by destruct b. Qed.

(** ** Where a ticket is held *)

(** [id] is held and at most [n] engine runs have been spent. *)
Definition stands (id : TicketId) (n : nat) (w : Watch) : Prop := w_stage w = Held id /\ w_runs w <= n.

Lemma release_slot_frees id how w :
  match how with ByFailure => w_stage w = Failing id | ByQuestion => w_stage w = Asking id | _ => False end ->
  Every (release_slot p id) w (fun _ w' => w_landed w' = true -> w_stage w' = Freed id how).
Proof.
  intros Hw. unfold release_slot. apply quiet_seq; [destruct (_ && _); [apply park_slot_quiet|done]|]. intros parked.
  split; [destruct how; cbn; auto; done|]. intros r _. cbn. intros [_ Hr]%andb_prop. destruct how; try done; by rewrite Hw, Hr.
Qed.

Lemma fail_pass_ends {A} id why layer gate files err w (Q : A -> Watch -> Prop) :
  w_stage w = Held id -> Every (fail_pass p id why layer gate files err) w (flow_post Q).
Proof.
  intros Hw. split; [done|]. intros r _. eapply every_seq; [by eapply (release_slot_frees id ByFailure); cbn; rewrite Hw|].
  intros released v Hv Hl. right. exists id. left. auto.
Qed.

(** The tree as it was last read. *)
Definition tree_read (w : Watch) (tree : WorkingTreeDiff) (w' : Watch) : Prop :=
  w_stage w' = w_stage w /\ w_runs w' = w_runs w /\ w_tested w' = w_tested w /\
  if dp_git p then w_tree w' = Some tree else tree = WorkingTreeDiff_default.

Lemma working_tree_reads w : Every (working_tree p) w (tree_read w).
Proof. unfold working_tree, tree_read. by destruct (dp_git p). Qed.

Lemma with_tree {A} (k : WorkingTreeDiff -> DevProg A) w Q :
  (forall tree w', tree_read w tree w' -> Every (k tree) w' Q) -> Every (pbind (working_tree p) k) w Q.
Proof. intros H. eapply every_seq; [apply working_tree_reads|exact H]. Qed.

(** ** Before the claim *)

(** Nothing is claimed and no run was spent. *)
Definition fresh (w : Watch) : Prop := w_stage w = Idle /\ w_runs w = 0.

Lemma fresh_base_fresh w : fresh w -> Every (fresh_base p) w (fun _ => fresh).
Proof.
  intros [Hs Hr]. unfold fresh_base. case_match; [done|]. split; [done|]. intros head _. case_match; [done|].
  apply with_tree. intros tree w' (Hs' & Hr' & _). cbn in Hs', Hr'. case_match; [by split; etransitivity|].
  split; [done|]. intros ? _. split; [done|]. intros tip _. case_match; repeat split; cbn; congruence.
Qed.

Lemma heal_idle tries attempt err w :
  w_stage w = Idle -> w_runs w + tries <= max_runs -> Every (heal system_prompt p tries attempt err) w (fun _ w' => w_stage w' = Idle).
Proof.
  revert attempt err w. induction tries as [|tries IH]; intros attempt err w Hs Hr; cbn; [done|].
  split; [lia|]. intros r _. destruct r as [o|]; [|done]. case_match; [|done]. cbn. split; [done|]. intros t _.
  destruct t as [[r|]|]; [|done..]. case_match; [done|]. case_match; [|done]. apply IH; cbn; [done|lia].
Qed.

Lemma self_heal_idle err w :
  fresh w -> Every (self_heal_compile system_prompt p err) w (fun o w' => w_stage w' = Idle /\ (o = Panicked \/ o = Returned (Ok None))).
Proof.
  intros [Hs Hr]. unfold self_heal_compile. case_match; [by split; [|right]|].
  apply quiet_seq; [by case_match|]. intros ckpt. eapply every_seq; [apply (heal_idle 3); [done|unfold max_runs; lia]|].
  intros h w' Hw'. destruct h; cbn; [by split; [|right]| |by split; [|left]]. apply quiet_seq; [|by split; [|right]].
  unfold restore_worktree_to_head. by repeat case_match.
Qed.

Lemma boot_check_fresh w : fresh w -> Every (boot_check digest system_prompt p) w (flow_post (fun _ => fresh)).
Proof.
  intros Hw. unfold boot_check. case_match; [exact Hw|]. apply quiet_seq; [apply tree_fingerprint_quiet|]. intros fp.
  apply with_tree. intros tree w' (Hs & Hr & _). assert (fresh w') as Hf by (destruct Hw; split; congruence).
  case_match; [exact Hf|]. split; [done|]. intros green _. case_match; [exact Hf|]. split; [done|]. intros mine _.
  case_match; [exact Hf|]. apply quiet_seq; [apply report_quiet|]. intros _.
  split; [done|]. intros outcome _. split; [done|]. intros ? _.
  assert (Every (run! _ := report p None in Ret (Exit (Returned (Ok None)))) w' (flow_post (fun _ : unit => fresh))) as Hout.
  { apply quiet_seq; [apply report_quiet|]. intros _ _. left. apply Hf. }
  destruct outcome as [[rep|]|]; [|apply Hout..]. case_match; [by repeat split; apply Hf|].
  case_match; [|by intros _; apply Hf]. eapply every_seq; [by apply self_heal_idle|]. intros o v [Hv [-> | ->]]; [intros _; exact Hv|].
  apply quiet_seq; [apply report_quiet|]. intros _ _. by left.
Qed.

Lemma pick_claims st now cands holds w :
  fresh w -> w_state w = Some st -> (forall id, id ∈ cands -> id ∈ dev_candidates p st) ->
  Every (pick p st (avg_role_cost (role_key (dp_mode p)) (spend st)) now cands holds) w
    (fun r w' => match r with Ok (Some id, _) => stands id 0 w' | _ => fresh w' end).
Proof.
  intros Hw Hst. revert holds. induction cands as [|c cands IH]; intros holds Hin; cbn; [done|].
  assert (forall id, id ∈ cands -> id ∈ dev_candidates p st) as Hin' by set_solver.
  case_match; [by auto|]. case_match; [by auto|]. split.
  { split; [apply Hw|]. exists st. repeat split; try done. apply Hin. set_solver. }
  intros won _. assert (forall w', w' = mkWatch Idle (w_state w) (w_tested w) (w_tree w) (w_runs w) (w_landed w) -> w' = w) as Hid.
  { intros w' ->. destruct w. destruct Hw as [Hs _]. cbn in *. by rewrite Hs. }
  destruct Hw as [Hs Hr]. destruct won as [[]|e]; cbn.
  - split; [done|]. intros _ _. split; cbn; [done|lia].
  - rewrite Hs. rewrite (Hid _ eq_refl). by apply IH.
  - by split.
Qed.

Lemma choose_stands w : fresh w -> Every (choose p) w (flow_post (fun id => stands id 0)).
Proof.
  intros [Hs Hr]. split; [done|]. intros st _. destruct st as [st|]; [|by cbn; rewrite andb_false_r]. split; [done|]. intros now _.
  eapply every_seq; [by apply pick_claims|]. intros [[[id|] holds]|e] w' Hw'; [| |intros _; left; apply Hw'].
  - apply quiet_seq; [by case_match|]. done.
  - apply quiet_seq; [by case_match|]. intros _. apply quiet_seq; [apply report_quiet|]. intros _ _. left. apply Hw'.
Qed.

(** ** The engine runs *)

Lemma stands_le id n m w : stands id n w -> n <= m -> stands id m w.
Proof. intros [Hs Hr] H. split; [done|lia]. Qed.

Lemma stands_run id n w : stands id n w -> stands id (S n) (engine_ran w).
Proof. intros [Hs Hr]. split; cbn; [done|lia]. Qed.

(** A run in the budget. *)
Lemma every_run_call {A} (c : DevCall) (k : dev_reply c -> DevProg A) id n w Q :
  match c with CRun _ | CResume _ _ _ _ => True | _ => False end ->
  stands id n w -> n < max_runs -> (forall r, Every (k r) (engine_ran w) Q) -> Every (Do c k) w Q.
Proof. intros Hc [Hs Hr] Hn Hk. destruct c; try done; (split; [cbn; lia|]; intros ? _; apply Hk). Qed.

Definition tdd_runs : nat := if decide (dp_mode p = ModeFeature) then 1 else 0.

Lemma tdd_stage_stands st id w :
  stands id 0 w -> Every (tdd_stage system_prompt p st id) w (fun _ => stands id tdd_runs).
Proof.
  intros Hw. unfold tdd_stage, tdd_runs. case_match eqn:H.
  - destruct (decide (dp_mode p = ModeFeature)) as [|Hf]; [|apply andb_prop in H as [[_ H]%andb_prop _]; by apply bool_decide_eq_true in H].
    apply (every_run_call _ _ id 0); [done..|unfold max_runs; lia|]. intros ?. by apply stands_run.
  - eapply stands_le; [exact Hw|]. case_decide; lia.
Qed.

Lemma resume_or_run_stands prior task req id n w :
  stands id n w -> n + 2 <= max_runs ->
  Every (resume_or_run p prior task req) w (fun _ => stands id (n + from_option (fun _ => 2) 1 prior)).
Proof.
  intros Hw Hn. destruct prior as [sid|].
  - eapply every_run_call; [done..|lia|]. intros r. apply stands_run in Hw. case_match; [by eapply stands_le; [eassumption|cbn; lia]|].
    eapply every_run_call; [done..|lia|]. intros r'. apply stands_run in Hw. by eapply stands_le; [eassumption|cbn; lia].
  - eapply every_run_call; [done..|lia|]. intros r. apply stands_run in Hw. by eapply stands_le; [eassumption|cbn; lia].
Qed.

Lemma execute_plan_stands st id sid n w :
  stands id n w -> n + 2 <= max_runs -> Every (execute_plan p st id sid) w (flow_post (fun _ => stands id (n + 2))).
Proof.
  intros Hw Hn. eapply every_run_call; [done..|lia|]. intros r. apply stands_run in Hw.
  case_match; [by eapply stands_le; [eassumption|cbn; lia]|]. split; [done|]. intros fresh _. rewrite (proj2 (quiet_ignored (CBrief st id) _ eq_refl)).
  eapply every_run_call; [done..|lia|]. intros r'. apply stands_run in Hw. destruct r' as [f|e].
  - case_match; [by eapply stands_le; [eassumption|cbn; lia]|]. apply fail_pass_ends, Hw.
  - apply fail_pass_ends, Hw.
Qed.

Lemma park_question_asks id out n w :
  stands id n w ->
  Every (park_question to_uppercase p id out) w (fun asked w' => if asked : bool then w_stage w' = Asking id else stands id n w').
Proof.
  intros Hw. unfold park_question. case_match; [|done]. case_match. split; [done|]. intros minutes _.
  split; [apply Hw|]. intros r _. cbn. destruct Hw as [Hs Hr]. rewrite Hs. by destruct (is_ok r).
Qed.

Lemma after_answer_stands st id (plan : bool) o n w :
  stands id n w -> n + (if plan : bool then 2 else 0) <= max_runs ->
  Every (after_answer to_uppercase extract_notes p st id plan o) w (flow_post (fun _ => stands id (n + if plan : bool then 2 else 0))).
Proof.
  intros Hw Hn. unfold after_answer. destruct (extract_notes (ao_stdout o)) as [kept dropped].
  apply quiet_seq; [by destruct (_ && _)|]. intros _. split; [done|]. intros ? _. rewrite (proj2 (quiet_ignored (CMutate MEngineAlive) _ eq_refl)).
  eapply every_seq; [by apply park_question_asks|]. intros asked v Hv. destruct asked.
  - eapply every_seq; [by apply (release_slot_frees id ByQuestion)|]. intros ? u Hu.
    apply quiet_seq; [apply report_quiet|]. intros _ Hl. right. exists id. auto.
  - destruct (ao_session_id o); [destruct plan|]; [by apply execute_plan_stands|by eapply stands_le; [eassumption|cbn; lia]..].
Qed.

Lemma first_run_stands st id n w :
  stands id n w -> n + 3 <= max_runs ->
  Every (first_run to_uppercase extract_notes p st id) w (flow_post (fun _ => stands id (n + 3))).
Proof.
  intros Hw Hn. split; [done|]. intros request _. rewrite (proj2 (quiet_ignored (CBrief st id) _ eq_refl)). cbv zeta.
  generalize (from_option (fun t => bool_decide (t_complexity t = CLarge)) false (ticket id st)). intros large.
  generalize ((rq_escalation_level request =? 0)%N && large)%bool. intros plan.
  eapply every_seq; [apply resume_or_run_stands; [done|lia]|]. intros r v Hv.
  assert (stands id (n + if plan : bool then 1 else 2) v) as Hv'.
  { eapply stands_le; [exact Hv|]. destruct plan; cbn; [lia|]. destruct (ticket_sessions st !! session_key p id); cbn; lia. }
  destruct r as [o|e]; [|apply fail_pass_ends, Hv]. destruct (succeeded o); [|apply fail_pass_ends, Hv].
  eapply every_mono; [|apply after_answer_stands; [exact Hv'|destruct plan; lia]].
  intros [a|] w'; [|done]. intros Hw'. eapply stands_le; [exact Hw'|]. destruct plan; lia.
Qed.

Lemma self_review_stands id session n w :
  stands id n w -> n < max_runs -> Every (self_review p id session) w (fun _ => stands id (S n)).
Proof.
  intros Hw Hn. destruct session as [sid|]; [|by eapply stands_le; [eassumption|cbn; lia]]. split; [done|]. intros r _.
  rewrite (proj2 (quiet_ignored (CMutate (MSession _ _)) _ eq_refl)). eapply every_run_call; [done..|].
  intros ?. by apply stands_run.
Qed.

(** ** The gates *)

(** The ticket is held and the last tests since the last run were not red. *)
Definition tested_green (id : TicketId) (n : nat) (w : Watch) : Prop := stands id n w /\ w_tested w = NotRed.

Lemma tested_green_le id n m w : tested_green id n w -> n <= m -> tested_green id m w.
Proof. intros [Hs Ht] H. split; [by eapply stands_le|done]. Qed.

Lemma tests_verify id n paths r w :
  stands id n w -> red_summary r = None -> tested_green id n (watch (CTests paths) r w).
Proof. intros [Hs Hr] Hn. split; [by split|]. cbn. by rewrite Hn. Qed.

Lemma tests_stand id n paths r w : stands id n w -> stands id n (watch (CTests paths) r w).
Proof. done. Qed.

Lemma fix_up_stands id session text n w :
  stands id n w -> n < max_runs -> Every (fix_up system_prompt p id session text) w (fun _ => stands id (S n)).
Proof. intros Hw Hn. destruct session; (eapply every_run_call; [done..|]; intros ?; by apply stands_run). Qed.

Lemma repair_tests_stands id session fail n w :
  stands id n w -> n + 2 <= max_runs -> Every (repair_tests system_prompt p id session fail) w (fun _ => stands id (n + 2)).
Proof.
  intros Hw Hn. unfold repair_tests.
  apply (every_seq _ _ _ _ _ _ (fun _ => stands id (S n))).
  { destruct session; [|by eapply stands_le; [eassumption|cbn; lia]]. eapply every_run_call; [done..|lia|]. intros ?. by apply stands_run. }
  intros resumed v Hv. destruct resumed; [by eapply stands_le; [eassumption|cbn; lia]|].
  eapply every_run_call; [done..|lia|]. intros ?. apply stands_run in Hv. by eapply stands_le; [eassumption|cbn; lia].
Qed.

Lemma gate_tests_verifies id session changed n w :
  stands id n w -> n + 2 <= max_runs ->
  Every (gate_tests system_prompt p id session changed) w (flow_post (fun _ => tested_green id (n + 2))).
Proof.
  intros Hw Hn. split; [done|]. intros first _. destruct (red_summary first) as [fail|] eqn:Hfirst.
  - apply every_bind. eapply every_seq; [by apply repair_tests_stands|]. intros ? v Hv. split; [done|]. intros second _. cbn [every].
    destruct (red_summary second) as [fail'|] eqn:Hsecond; [by apply fail_pass_ends, Hv|]. by apply tests_verify.
  - eapply tested_green_le; [by apply tests_verify|lia].
Qed.

Lemma judge_lint_verified id base count n w :
  tested_green id n w -> Every (judge_lint p id base count) w (flow_post (fun _ => tested_green id n)).
Proof.
  intros [[Hs Hr] Ht]. split; [done|]. intros lint _. rewrite (proj2 (quiet_ignored CLint _ eq_refl)). apply with_tree.
  intros tree v (Hs' & Hr' & Ht' & _). cbv zeta. destruct (_ && _); [by apply fail_pass_ends; rewrite Hs'|].
  apply quiet_seq; [apply set_baseline_quiet|]. intros _. apply quiet_seq; [apply set_baseline_quiet|]. intros _.
  by repeat split; [rewrite Hs'|rewrite Hr'|rewrite Ht'].
Qed.

Lemma repair_lint_verified id session changed base report n w :
  stands id n w -> n < max_runs ->
  Every (repair_lint system_prompt p id session changed base report) w (flow_post (fun _ => tested_green id (S n))).
Proof.
  intros Hw Hn. eapply every_seq; [by apply fix_up_stands|]. intros ? v Hv. split; [done|]. intros tests _.
  destruct (red_summary tests) eqn:Ht; [by apply fail_pass_ends, Hv|]. by apply judge_lint_verified, tests_verify.
Qed.

Lemma gate_lint_verified id session changed n w :
  tested_green id n w -> n < max_runs ->
  Every (gate_lint system_prompt p id session changed) w (flow_post (fun _ => tested_green id (S n))).
Proof.
  intros Hw Hn. assert (tested_green id (S n) w) as HS by (eapply tested_green_le; [exact Hw|lia]).
  split; [done|]. intros lint _. rewrite (proj2 (quiet_ignored CLint _ eq_refl)).
  destruct lint as [[report|]|]; [|exact HS..]. split; [done|]. intros st _.
  set (v := watch CLoad st w). assert (tested_green id n v /\ tested_green id (S n) v) as [Hv HvS] by (split; assumption).
  destruct (result_ok st ≫= clippy_baseline) as [base|].
  - destruct (base <? _)%N; [by apply repair_lint_verified; [apply Hv|]|]. by apply quiet_seq; [apply set_baseline_quiet|].
  - by apply quiet_seq; [apply set_baseline_quiet|].
Qed.

Lemma gate_cross_verified id n w :
  tested_green id n w -> Every (gate_cross p id) w (flow_post (fun _ => tested_green id n)).
Proof.
  intros Hw. split; [done|]. intros check _. rewrite (proj2 (quiet_ignored CCross _ eq_refl)).
  destruct check as [check|]; [|done]. destruct (_ && _); [by apply fail_pass_ends, Hw|done].
Qed.

(** What is known when the gates are passed. *)
Definition ready (id : TicketId) (w : Watch) : Prop := w_stage w = Held id /\ done_ok w.

Lemma gate_regression_ready id session changed n w :
  tested_green id n w -> n + (if decide (dp_mode p = ModeBug) then 1 else 0) <= max_runs -> dp_verify p = true ->
  Every (gate_regression to_lowercase system_prompt p id session changed) w (flow_post (fun _ => ready id)).
Proof.
  intros [[Hs Hr] Ht] Hn Hv. apply with_tree. intros tree v (Hs' & Hr' & Ht' & Htree).
  rewrite <-Hs' in Hs. rewrite <-Hr' in Hr. rewrite <-Ht' in Ht. clear Hs' Hr' Ht' w.
  case_bool_decide as Hm; cbn [negb]; [|by split; [|intros _; split; [|done]]]. rewrite decide_True in Hn by done.
  case_bool_decide as Hempty.
  { split; [by repeat split; try done; intros Hg; rewrite Hg in Htree; eauto|]. intros closed _. destruct closed as [|e].
    - apply quiet_seq; [apply report_quiet|]. intros _ _. right. cbn. by rewrite Hs.
    - intros _. right. exists id. right. cbn. by rewrite Hs. }
  destruct (dp_git p) eqn:Hg; [|by subst tree].
  destruct (diff_is_docs_only to_lowercase tree || diff_touches_tests to_lowercase tree) eqn:Hc.
  { split; [done|]. intros _. split; [done|]. intros _. by exists tree. }
  eapply every_seq; [apply (fix_up_stands id _ _ n); [by split|lia]|]. intros ? u Hu. apply with_tree.
  intros tree' x (Hs' & Hr' & _ & Htree'). rewrite Hg in Htree'.
  destruct (diff_touches_tests to_lowercase tree') eqn:Hc'; cbn [negb]; [|apply fail_pass_ends; rewrite Hs'; apply Hu].
  split; [done|]. intros tests _. destruct (red_summary tests) eqn:Hred; [apply fail_pass_ends; cbn; rewrite Hs'; apply Hu|].
  split; [cbn; rewrite Hs'; apply Hu|]. intros _. split; [cbn; by rewrite Hred|]. intros _. exists tree'. split; [done|].
  unfold carries_test. by rewrite Hc', orb_true_r.
Qed.

Lemma gates_ready id session n w :
  stands id n w -> n + 3 + (if decide (dp_mode p = ModeBug) then 1 else 0) <= max_runs ->
  Every (gates to_lowercase system_prompt p id session) w (flow_post (fun _ => ready id)).
Proof.
  intros Hw Hn. unfold gates. destruct (dp_verify p) eqn:Hv; cbn [negb]; [|by split; [apply Hw|congruence]].
  apply with_tree. intros tree v (Hs & Hr & _). assert (stands id n v) as Hst by (destruct Hw; split; [congruence|lia]).
  eapply every_fbind; [apply gate_tests_verifies; [exact Hst|lia]|]. intros ? v1 H1.
  eapply every_fbind; [apply gate_lint_verified; [exact H1|lia]|]. intros ? v2 H2.
  eapply every_fbind; [eapply gate_cross_verified; exact H2|]. intros ? v3 H3.
  eapply gate_regression_ready; [exact H3|lia|done].
Qed.

Lemma complete_frees id w : ready id w -> Every (complete digest p id) w (flow_post ends_well).
Proof.
  intros [Hs Hd]. unfold complete. apply quiet_seq.
  { case_match; [|done]. apply only_bind; [apply tree_fingerprint_quiet|]. by intros ?. }
  intros _. split; [by split|]. intros done _. destruct done as [|e].
  - apply quiet_seq; [apply report_quiet|]. intros _ _. left. cbn. by rewrite Hs.
  - intros _. right. exists id. right. cbn. by rewrite Hs.
Qed.

(** ** The pass *)

Lemma work_ends id w :
  stands id 0 w -> Every (work digest to_lowercase to_uppercase extract_notes system_prompt p id) w (flow_post ends_well).
Proof.
  intros Hw. apply quiet_seq; [apply report_quiet|]. intros _. split; [done|]. intros st _.
  destruct st as [st|]; [|by cbn; rewrite andb_false_r]. apply every_bind.
  eapply every_mono; [|by apply tdd_stage_stands]. intros ? v Hv. unfold tdd_runs in Hv.
  assert (Hb : (if decide (dp_mode p = ModeFeature) then 1 else 0) + (if decide (dp_mode p = ModeBug) then 1 else 0) = 1).
  { by destruct (dp_mode p). }
  eapply every_fbind; [apply first_run_stands; [exact Hv|unfold max_runs; lia]|]. intros session v1 H1.
  eapply every_seq; [apply self_review_stands; [exact H1|unfold max_runs; lia]|]. intros ? v2 H2.
  eapply every_fbind; [eapply gates_ready; [exact H2|unfold max_runs; lia]|]. intros ? v3 H3. by apply complete_frees.
Qed.

Lemma execute_ends :
  Every (execute digest to_lowercase to_uppercase extract_notes system_prompt p) first_watch ends_well.
Proof.
  eapply every_seq; [by apply fresh_base_fresh|]. intros ? w Hw. eapply (every_seq _ _ _ _ _ _ (flow_post ends_well)).
  - eapply every_fbind; [by apply boot_check_fresh|]. intros ? v Hv. eapply every_fbind; [by apply choose_stands|].
    intros id u Hu. by apply work_ends.
  - by intros [o|o] v Hv.
Qed.

(** ** What is promised *)

Definition is_engine_run (c : DevCall) : bool := match c with CRun _ | CResume _ _ _ _ => true | _ => false end.

Definition in_budget (w : Watch) (c : DevCall) : Prop := is_engine_run c = true -> w_runs w < max_runs.

Definition earned (w : Watch) (c : DevCall) : Prop :=
  match c with
  | CMutate (MComplete id) => w_stage w = Held id /\ done_ok w
  | CMutate (MNotReproducible id) => w_stage w = Held id /\ closing_ok w
  | _ => True
  end.

Definition claims_in_turn (w : Watch) (c : DevCall) : Prop :=
  match c with
  | CClaim id _ _ => w_stage w = Idle /\ may_claim w id
  | CMutate (MFailure id _ _ _ _) | CMutate (MAsk id _ _ _) => w_stage w = Held id
  | CMutate (MRelease id) => w_stage w = Failing id \/ w_stage w = Asking id
  | _ => True
  end.

#[local] Abbreviation pass := (execute digest to_lowercase to_uppercase extract_notes system_prompt p).
#[local] Abbreviation always permitted after := (every (fun _ _ _ => True) permitted watch pass first_watch after).

(** C19: a ticket is reported done, or a bug closed, only after the gates were asked.
    Whatever the store, the engine, git and the deploy adapter reply, a pass writes
    the completion only of a ticket it holds, and, where a deploy adapter is
    attached, only when the test run it made after its last engine run did not
    report red (a run that could not be made counts as not red), and for a bug only
    when, besides, git's answer about the working tree since that run shows nothing
    but documents or a test. It closes a bug as not reproducible only on a ticket it
    holds, in a bug pass with a deploy adapter attached, after a test run since its
    last engine run that did not report red, and - where git is attached - when
    git's answer about the working tree since that run shows no change relevant to
    the build. The gates see the working tree through git's answer only: one that
    git reports as unchanged, or that is not read at all for want of git, passes as
    unchanged. *)
Theorem done_is_earned : always earned (fun _ _ => True).
Proof.
  eapply every_permits; [|done|apply execute_ends].
  intros w c Hc. destruct c; try done. by match goal with m : Mutation |- _ => destruct m end.
Qed.

(** C20: what a pass claims it lets go of. It claims only when it holds nothing, and only a candidate of the state it just loaded that is neither parked nor held by the cost gate; it records a failure or a question only on the ticket it holds, and frees it only after one of them. When every load answers and every freeing write lands, a pass that reports a ticket has completed or closed it, one that reports nothing never claimed or parked its question and freed the ticket, one that fails has freed the ticket after recording the failure or had its completing write refused, and a panic only happens with nothing claimed. *)
Theorem claim_is_let_go : always claims_in_turn ends_well.
Proof.
  eapply every_permits; [|done|apply execute_ends].
  intros w c Hc. destruct c; try done. by match goal with m : Mutation |- _ => destruct m end.
Qed.

(** C21: a pass costs at most eight engine runs, resumed conversations and repairs included, whatever fails on the way. *)
Theorem pass_budget : always in_budget (fun _ w => w_runs w <= max_runs).
Proof.
  eapply every_permits; [| |apply (every_keeps _ _ _ (fun w => w_runs w <= max_runs)); [| |apply execute_ends]].
  - intros w c Hc Hr. by destruct c.
  - by intros o w [_ H].
  - intros c r w Hc Hw. destruct c; try done; cbn in *; lia.
  - cbn. unfold max_runs. lia.
Qed.
End Protocol.
