(* ===== verification/RunDevCases.v ===== *)
(** * Developer passes in scripted worlds

    [RunDev.execute] run over worlds whose ports scripted_reply by a script, with the
    behaviours the comments of [run_dev/mod.rs] do not announce. *)
From S2P Require Import Prelude RustStr Kinds TestCase Ticket State StateOps Ports Questions Selection AddTicket Claims Engine Gates Failures Focus Effects DevPorts Wip RunDev.

(** ** A scripted world *)

Record Script := mkScript {
  (** The reply to the [n]-th load. *)
  sc_loads : nat -> result PortError ProjectState;
  sc_tests : result PortError DeployReport;
  sc_boot : option (result PortError DeployReport);
  sc_tree : WorkingTreeDiff;
}.

Definition fine_run : Reply := Ok (mkAgentOutcome "done" "" (Some 0%Z) None "" None NotRequested "claude" "" []).
Definition empty_brief : AgentRequest := mkAgentRequest DevBug "" "task" "." 0 0 None.
Definition is_load (c : DevCall) : bool := match c with CLoad => true | _ => false end.

Section Scripted.
Context (s : Script).

Definition scripted_reply (seen : list DevCall) (c : DevCall) : dev_reply c :=
  match c return dev_reply c with
  | CLoad => sc_loads s (length (List.filter is_load seen))
  | CClaim _ _ _ => Ok true
  | CMutate _ => Ok tt
  | CRun _ | CResume _ _ _ _ => fine_run
  | CBrief _ _ => empty_brief
  | CBootTests _ | CHealTests => sc_boot s
  | CTests _ => sc_tests s
  | CLint => Ok None
  | CCross => Ok (mkCrossCheck false "" [])
  | CTree => sc_tree s
  | CGit _ => (true, "")
  | CBranch | CHeadSha => Ok "main"
  | CCheckpoint _ _ _ => Ok None
  | CStat _ => None
  | CGreen _ => false
  | CClaimVerify _ => true
  | CReleaseVerify _ | CMarkGreen _ | CPhase _ => tt
  | CNow => "2026-01-01T00:00:00Z"
  | CMinutes => 0%N
  end.

Definition handle (c : DevCall) (seen : list DevCall) : list DevCall * dev_reply c := (seen ++ [c], scripted_reply seen c).

(** The writes, and whether the tree was marked green. *)
Definition writes (seen : list DevCall) : list Mutation := omap (fun c => match c with CMutate m => Some m | _ => None end) seen.
Definition marked_green (seen : list DevCall) : bool := List.existsb (fun c => match c with CMarkGreen _ => true | _ => false end) seen.

Definition scripted_pass (mode : DevMode) (git verify : bool) : DevPass :=
  mkDevPass mode "w1" None "." "claude" git false verify false false "main" "" None false (mkHumanConfig None 0 ∅) [].

Definition play (p : DevPass) : list DevCall * DevOut :=
  run handle (execute (fun _ => "") ascii_lowercase (fun s => s) (fun _ => ([], [])) (fun _ => "") p) [].
End Scripted.

Definition one_bug : ProjectState := ProjectState_default <| tickets := [bug_ticket "B1" High Open] |>.
Definition one_feature : ProjectState := ProjectState_default <| tickets := [ready_ticket "F1" High []] |>.
Definition no_change : WorkingTreeDiff := WorkingTreeDiff_default.
Definition green_report : DeployReport := mkDeployReport true false "" None.

(** A pass on a feature whose tests are green completes it. *)
Example green_feature_completes :
  let r := play (mkScript (fun _ => Ok one_feature) (Ok green_report) (Some (Ok green_report)) no_change) (scripted_pass ModeFeature true true) in
  r.2 = Returned (Ok (Some "F1")) /\ writes r.1 = [MStarted "F1"; MEngineAlive; MComplete "F1"] /\ marked_green r.1 = true.
Proof. vm_compute. done. Qed.

(** A suite that cannot be run at all is no red suite: the ticket is completed and the
    tree remembered as green. *)
Theorem unrunnable_suite_passes :
  let r := play (mkScript (fun _ => Ok one_feature) (Err (Backend "cargo not found")) None no_change) (scripted_pass ModeFeature true true) in
  r.2 = Returned (Ok (Some "F1")) /\ writes r.1 = [MStarted "F1"; MEngineAlive; MComplete "F1"] /\ marked_green r.1 = true.
Proof. vm_compute. done. Qed.

(** A load that fails after the claim ends the pass with the ticket claimed: nothing
    records the failure or frees it. *)
Theorem load_error_keeps_the_claim :
  let loads n := match n with 0 => Ok one_bug | _ => Err (Backend "locked") end in
  let r := play (mkScript loads (Ok green_report) None no_change) (scripted_pass ModeBug true true) in
  r.2 = Returned (Err (AppPort (Backend "locked"))) /\ writes r.1 = [MStarted "B1"].
Proof. vm_compute. done. Qed.

(** Without git attached, as when git fails, the tree reads as unchanged: a fixed bug
    is closed as not reproducible. *)
Theorem unread_tree_closes_the_bug :
  let r := play (mkScript (fun _ => Ok one_bug) (Ok green_report) None no_change) (scripted_pass ModeBug false true) in
  r.2 = Returned (Ok (Some "B1")) /\ writes r.1 = [MStarted "B1"; MEngineAlive; MNotReproducible "B1"].
Proof. vm_compute. done. Qed.

(** A red boot check whose summary has a two-byte character across byte 200 panics. *)
Definition accent : string := String "195" (String "169" "").
Definition long_summary : string := fold_right String accent (repeat "x"%char 199).

Theorem boot_check_panics :
  let red := Some (Ok (mkDeployReport false false long_summary None)) in
  let tree := mkWorkingTreeDiff ["src/lib.rs"] "" "" ∅ in
  (play (mkScript (fun _ => Ok one_bug) (Ok green_report) red tree) (scripted_pass ModeBug true true)).2 = Panicked.
Proof. vm_compute. done. Qed.

(** When the boot check is red and the suite stays red after three repairs, everything
    uncommitted is discarded, the changes the check was run for included. *)
Definition git_calls (seen : list DevCall) : list (list string) := omap (fun c => match c with CGit args => Some args | _ => None end) seen.

Theorem gave_up_discards_the_tree :
  let red := Some (Ok (mkDeployReport false false "error[E0425]" None)) in
  let tree := mkWorkingTreeDiff ["src/lib.rs"] "" "" ∅ in
  let r := play (mkScript (fun _ => Ok one_bug) (Ok green_report) red tree) (scripted_pass ModeBug true true) in
  r.2 = Returned (Ok None) /\ git_calls r.1 = [["checkout"; "."]; ["clean"; "-fd"]].
Proof. vm_compute. done. Qed.
