(* ===== verification/Runner.v ===== *)
(** * The runner

    [use_cases/runner.rs]: the handle the dashboard drives, and the supervision loop
    [run_forever] as a program over its ports. One [turn] is one pass through the
    body of the loop, or one wait at its gate. [lower] is Unicode case folding. A
    method of the handle is one atomic step. *)
From S2P Require Import Prelude RustStr Kinds Ticket State StateOps Ports Channels Engine Effects.

(** ** The handle *)

Inductive Mode := PAUSED | RUNNING | STOPPED.

#[export] Instance Mode_eq_dec : EqDecision Mode.
Proof. solve_decision. Defined.

(** [RunnerSnapshot] *)
Record RunnerSnapshot := mkRunnerSnapshot {
  rs_mode : string;
  rs_cycle : N;
  rs_last_summary : string;
  rs_active_role : option string;
  rs_active_note : option string;
  rs_operator : option string;
  rs_host : option string;
}.

Record RunnerHandle := mkRunnerHandle { rh_mode : Mode; rh_step : bool; rh_status : RunnerSnapshot }.

Definition RunnerHandle_default : RunnerHandle :=
  mkRunnerHandle PAUSED false (mkRunnerSnapshot "paused" 0 "idle" None None None None).

Definition on_status (f : RunnerSnapshot -> RunnerSnapshot) (h : RunnerHandle) : RunnerHandle :=
  mkRunnerHandle (rh_mode h) (rh_step h) (f (rh_status h)).

Definition set_mode_label (label : string) : RunnerHandle -> RunnerHandle :=
  on_status (fun s => mkRunnerSnapshot label (rs_cycle s) (rs_last_summary s) (rs_active_role s) (rs_active_note s)
                        (rs_operator s) (rs_host s)).

Definition store_mode (m : Mode) (h : RunnerHandle) : RunnerHandle := mkRunnerHandle m (rh_step h) (rh_status h).

Definition set_active (role note : string) : RunnerHandle -> RunnerHandle :=
  on_status (fun s => mkRunnerSnapshot (rs_mode s) (rs_cycle s) (rs_last_summary s) (Some role)
                        (if decide (note = "") then None else Some note) (rs_operator s) (rs_host s)).

Definition clear_active : RunnerHandle -> RunnerHandle :=
  on_status (fun s => mkRunnerSnapshot (rs_mode s) (rs_cycle s) (rs_last_summary s) None None (rs_operator s) (rs_host s)).

Definition update (cycle : N) (summary : string) : RunnerHandle -> RunnerHandle :=
  on_status (fun s => mkRunnerSnapshot (rs_mode s) cycle summary (rs_active_role s) (rs_active_note s) (rs_operator s) (rs_host s)).

Definition set_operator (account host : string) : RunnerHandle -> RunnerHandle :=
  on_status (fun s => mkRunnerSnapshot (rs_mode s) (rs_cycle s) (rs_last_summary s) (rs_active_role s) (rs_active_note s)
                        (if decide (account = "") then None else Some account) (if decide (host = "") then None else Some host)).

Definition resume (h : RunnerHandle) : RunnerHandle := set_mode_label "running" (store_mode RUNNING h).
Definition pause (h : RunnerHandle) : RunnerHandle := clear_active (set_mode_label "paused" (store_mode PAUSED h)).
Definition step (h : RunnerHandle) : RunnerHandle := mkRunnerHandle (rh_mode h) true (rh_status h).
Definition stop (h : RunnerHandle) : RunnerHandle := set_mode_label "stopped" (store_mode STOPPED h).

Definition is_paused (h : RunnerHandle) : bool := bool_decide (rh_mode h = PAUSED).

Definition worker_id (h : RunnerHandle) : string :=
  match rs_operator (rh_status h), rs_host (rh_status h) with
  | Some a, Some h => a +:+ "@" +:+ h
  | Some a, None => a
  | None, Some h => h
  | None, None => "local"
  end.

Definition cycle_may_run (workspace_running : bool) (desired : option bool) (wait_for_start : bool) : bool :=
  workspace_running && default (negb wait_for_start) desired.

(** ** The report of a cycle *)

(** [CycleReport] of [cycle/mod.rs] *)
Record CycleReport := mkCycleReport {
  cr_cycle : N;
  cr_ba_created : list TicketId;
  cr_sa_readied : option TicketId;
  cr_design_system_created : bool;
  cr_pd_designed : option TicketId;
  cr_bug_fixed : option TicketId;
  cr_feature_done : option TicketId;
  cr_documented : option TicketId;
  cr_bugs_filed : list TicketId;
  cr_errors : list string;
  cr_over_budget : bool;
}.

Definition is_some {A} (o : option A) : bool := match o with Some _ => true | None => false end.
Definition is_nil {A} (l : list A) : bool := match l with [] => true | _ => false end.

Definition did_work (r : CycleReport) : bool :=
  negb (is_nil (cr_ba_created r)) || is_some (cr_sa_readied r) || cr_design_system_created r || is_some (cr_pd_designed r) ||
  is_some (cr_bug_fixed r) || is_some (cr_feature_done r) || is_some (cr_documented r) || negb (is_nil (cr_bugs_filed r)).

Definition named (label : string) (o : option TicketId) : string := from_option (fun id => label +:+ id) "" o.

Definition summary (r : CycleReport) : string :=
  "cycle " +:+ dec (cr_cycle r) +:+ " —" +:+ " BA+" +:+ dec_nat (length (cr_ba_created r)) +:+
  named " design " (cr_sa_readied r) +:+ named " ux " (cr_pd_designed r) +:+ named " fixed " (cr_bug_fixed r) +:+
  named " done " (cr_feature_done r) +:+ named " docs " (cr_documented r) +:+ " bugs+" +:+ dec_nat (length (cr_bugs_filed r)) +:+
  (if is_nil (cr_errors r) then "" else " (" +:+ dec_nat (length (cr_errors r)) +:+ " errors)").

Definition progressed (r : CycleReport) : bool :=
  negb (is_nil (cr_ba_created r)) || is_some (cr_sa_readied r) || is_some (cr_feature_done r) || is_some (cr_bug_fixed r) ||
  is_some (cr_documented r).

(** ** Calls *)

Inductive RunnerMutation :=
| MForgetEngines
| MOutage (engine : string) (first : option string) (count : nat) (alive : bool)
| MSay (msg : string)
| MTripped.

Inductive Nap := Interval | Backoff.

Inductive RunnerCall :=
| GLoadMode | GSwapStep | GNotified | GPause | GUpdate (cycle : N) (summary : string) | GClearActive | GWorkerId
| CReload | CSetWorker (worker : string) | CRunCycle (n : N) | CEngineId | CNotify (event text : string)
| SLoad | SMutate (m : RunnerMutation)
| GSleep (nap : Nap).

Definition runner_reply (c : RunnerCall) : Type :=
  match c with
  | GLoadMode => Mode
  | GSwapStep | CReload => bool
  | GWorkerId | CEngineId => string
  | CRunCycle _ => CycleReport
  | SLoad => result PortError ProjectState
  | SMutate _ => result PortError unit
  | _ => unit
  end.

#[global] Abbreviation RunnerProg := (Prog runner_reply).

Declare Scope runner_scope.
Delimit Scope runner_scope with runner.
Open Scope runner_scope.
Notation "'do!' x := c 'in' k" := (@Do RunnerCall runner_reply _ c (fun x => k))
  (at level 10, x name, c at level 100, k at level 200) : runner_scope.
Notation "'run!' x := p 'in' k" := (@pbind RunnerCall runner_reply _ _ p (fun x => k))
  (at level 10, x name, p at level 100, k at level 200) : runner_scope.

(** What the loop carries from cycle to cycle. *)
Record Locals := mkLocals { l_cycle : N; l_infra_streak : N; l_last_logic_errors : string }.

Definition Locals_default : Locals := mkLocals 0 0 "".

(** A turn goes on, returns, or panics. *)
Inductive TurnOut := Next (l : Locals) | Exited | TurnPanicked.

(** [s.truncate(n)]: [None] is its panic inside a character. *)
Definition truncate (n : nat) (s : string) : option string :=
  if String.length s <=? n then Some s else str_get_to n s.

Section Runner.
Context (lower : string -> string).

Definition infra_faults (r : CycleReport) : list string := List.filter (is_infra_fault lower) (cr_errors r).
Definition logic_errors (r : CycleReport) : list string := List.filter (fun e => negb (is_infra_fault lower e)) (cr_errors r).

(** Work landed, or every failure was task-shaped. *)
Definition engine_alive (r : CycleReport) : bool :=
  progressed r || (is_nil (infra_faults r) && negb (is_nil (cr_errors r))).

Definition outage_text (engine : string) (count : nat) (detail : string) : string :=
  engine +:+ " failed " +:+ dec_nat count +:+ " run(s) this cycle: " +:+ detail.

(** The closures handed to [mutate_state]. *)
Definition apply (now : string) (ids : nat -> string) (m : RunnerMutation) (st : ProjectState) : ProjectState :=
  match m with
  | MForgetEngines =>
      let sp := spend st in
      st <| spend := mkSpend (sp_total_cost_usd sp) (sp_input_tokens sp) (sp_output_tokens sp) (sp_runs sp) (sp_by_role sp)
             (sp_runs_by_role sp) (sp_metered_cost_by_role sp) (sp_by_operator sp) ∅ ∅ (sp_prompt_chars_by_role sp)
             (sp_confined_runs sp) (sp_unconfined_requested_runs sp) (sp_sandbox_denied_runs sp) (sp_last_sandbox_status sp)
             (sp_step_provenance sp) |>
  | MOutage engine (Some detail) count _ =>
      let already := existsb (is_incident engine) (engine_incidents st) in
      let st := open_engine_incident now engine "CYCLE" detail st in
      if negb already && ((2 <=? count) || is_auth_death lower detail)
      then post_chat_in (ids 0) now "SYSTEM"
             ("🔌 " +:+ outage_text engine count detail +:+ ". If it keeps up, the loop pauses itself — fix the credentials or the model and this clears.")
             AGENTS_CHANNEL [] st
      else st
  | MOutage engine None _ alive =>
      if alive then
        match close_engine_incident engine st with
        | (st, Some inc) =>
            post_chat_in (ids 0) now "SYSTEM"
              ("✅ " +:+ engine +:+ " is answering again after " +:+ dec (ei_hits inc) +:+ " failed run(s) — resolved, work resumes.")
              AGENTS_CHANNEL [] st
        | (st, None) => st
        end
      else st
  | MSay msg => post_chat_in (ids 0) now "SYSTEM" msg AGENTS_CHANNEL [] st
  | MTripped =>
      let msg := "🔌 Engine infrastructure looks DOWN (auth/network) — loop paused after 3 empty cycles. Fix the outage, then Resume." in
      post_chat_in (ids 1) now "SM" msg AGENTS_CHANNEL [] (post_comment (ids 0) now "SM" msg None st)
  end.

(** ** The turn *)

(** The wait at the gate: [None] waited and is asked again, [Some stepping] passed. *)
Inductive Gate := Stopped | Passed (stepping : bool) | Waited.

Definition gate : RunnerProg Gate :=
  do! mode := GLoadMode in
  match mode with
  | STOPPED => Ret Stopped
  | RUNNING => Ret (Passed false)
  | PAUSED =>
      do! asked := GSwapStep in
      if asked : bool then Ret (Passed true) else do! _ := GNotified in Ret Waited
  end.

(** The master switch of the workspace; a step bypasses it. *)
Definition workspace_allows (stepping : bool) : RunnerProg bool :=
  if stepping then Ret true
  else
    do! st := SLoad in
    Ret (cycle_may_run (match st with Ok s => wr_running (workspace_run s) | Err _ => true end) (Some true) false).

Definition notify_if (when : bool) (event text : string) : RunnerProg unit :=
  if when then do! _ := CNotify event text in Ret tt else Ret tt.

(** The outage is opened and closed where every role passes. *)
Definition watch_engine (r : CycleReport) : RunnerProg unit :=
  let faults := infra_faults r in
  do! engine := CEngineId in
  do! st := SLoad in
  let was_open := match st with Ok s => existsb (is_incident engine) (engine_incidents s) | Err _ => false end in
  run! _ := match head faults with
            | Some detail =>
                let urgent := is_auth_death lower detail in
                notify_if (negb was_open && ((2 <=? length faults) || urgent)) "engine_incident"
                  (outage_text engine (length faults) detail +:+
                   if urgent then " — credentials are dead; re-login the engine CLI (e.g. `claude login`) and the loop resumes" else "")
            | None => Ret tt
            end in
  run! _ := notify_if (is_nil faults && was_open && engine_alive r) "engine_recovered" (engine +:+ " is answering again — work resumes") in
  do! _ := SMutate (MOutage engine (head faults) (length faults) (engine_alive r)) in Ret tt.

(** A changed set of task-shaped errors is announced: the new memory, or a panic. *)
Definition announce_errors (r : CycleReport) (last : string) : RunnerProg (option string) :=
  let joined := join " · " (logic_errors r) in
  if decide (joined = "") then Ret (Some "")
  else if decide (joined = last) then Ret (Some last)
  else match truncate 600 ("⚠️ cycle errors: " +:+ joined) with
       | None => Ret None
       | Some msg => do! _ := SMutate (MSay msg) in Ret (Some joined)
       end.

Definition next_streak (r : CycleReport) (streak : N) : N :=
  if negb (progressed r) && (1 <=? length (infra_faults r)) then (streak + 1)%N
  else if engine_alive r then 0%N
  else streak.

Definition trip : RunnerProg unit :=
  do! _ := SMutate MTripped in
  do! _ := CNotify "loop_paused" "loop paused: engine infrastructure looks DOWN (auth/network) after 3 empty cycles — retrying with a canary every 10 minutes" in
  do! _ := GSleep Backoff in Ret tt.

(** From the report on. *)
Definition supervise (stepping : bool) (l : Locals) (r : CycleReport) : RunnerProg TurnOut :=
  if cr_over_budget r then
    do! _ := CNotify "loop_paused" "loop paused: spend cap reached" in
    do! _ := GPause in Ret (Next l)
  else
    run! _ := watch_engine r in
    run! last := announce_errors r (l_last_logic_errors l) in
    match last with
    | None => Ret TurnPanicked
    | Some last =>
        let streak := next_streak r (l_infra_streak l) in
        if (3 <=? streak)%N then run! _ := trip in Ret (Next (mkLocals (l_cycle l) 0 last))
        else
          run! _ := (if stepping then do! _ := GPause in Ret tt else do! _ := GSleep Interval in Ret tt) in
          Ret (Next (mkLocals (l_cycle l) streak last))
    end.

(** Past the gate. *)
Definition drive (stepping : bool) (l : Locals) : RunnerProg TurnOut :=
  run! allowed := workspace_allows stepping in
  if negb allowed then do! _ := GSleep Interval in Ret (Next l)
  else
    let cycle := (l_cycle l + 1)%N in
    do! reloaded := CReload in
    run! _ := (if reloaded then do! _ := SMutate MForgetEngines in Ret tt else Ret tt) in
    do! worker := GWorkerId in
    do! _ := CSetWorker worker in
    do! _ := GUpdate cycle ("cycle " +:+ dec cycle +:+ " — running") in
    do! report := CRunCycle cycle in
    do! _ := GUpdate cycle (summary report) in
    do! _ := GClearActive in
    supervise stepping (mkLocals cycle (l_infra_streak l) (l_last_logic_errors l)) report.

Definition turn (l : Locals) : RunnerProg TurnOut :=
  run! g := gate in
  match g with
  | Stopped => Ret Exited
  | Waited => Ret (Next l)
  | Passed stepping => drive stepping l
  end.

(** [n] turns of [run_forever]. *)
Fixpoint turns (n : nat) (l : Locals) : RunnerProg TurnOut :=
  match n with
  | O => Ret (Next l)
  | S n => run! out := turn l in match out with Next l => turns n l | _ => Ret out end
  end.
End Runner.
