(* ===== verification/RunnerFacts.v ===== *)
(** * What the runner does

    The breaker counts what it says, a runner that nobody resumes runs one cycle per
    step, and after a cycle within its budget the incident of the runner's engine
    is open exactly when the cycle had a fault, or it was open and the cycle gave no
    sign of life. *)
From S2P Require Import Prelude RustStr Kinds Ticket State StateOps Ports Channels Ledgers Engine Effects Runner.

(** ** Calls that neither ask the gate, run a cycle nor sleep *)

Definition plain (c : RunnerCall) : bool :=
  match c with GLoadMode | GSwapStep | CRunCycle _ | GSleep _ => false | _ => true end.

Lemma notify_if_plain b event text : only plain (notify_if b event text).
Proof. by destruct b. Qed.

Lemma watch_engine_plain lower r : only plain (watch_engine lower r).
Proof.
  split; [done|]. intros engine. split; [done|]. intros st. apply only_bind; [destruct (head _); [apply notify_if_plain|done]|].
  intros _. by apply only_bind; [apply notify_if_plain|].
Qed.

Lemma announce_plain lower r last : only plain (announce_errors lower r last).
Proof. unfold announce_errors. repeat case_decide; try done. by destruct (truncate 600 _). Qed.

(** ** The breaker *)

Section Breaker.
Context (lower : string -> string).

Inductive Sign := Faulty | Alive | Silent.

Definition sign_of (r : CycleReport) : Sign :=
  if progressed r then Alive
  else if negb (is_nil (infra_faults lower r)) then Faulty
  else if is_nil (cr_errors r) then Silent
  else Alive.

(** The reference: the faulty cycles of a stretch without a sign of life, three by
    three; [n] of the stretch are behind. *)
Fixpoint trips_of (n : nat) (signs : list Sign) : nat :=
  match signs with
  | [] => n / 3
  | Alive :: signs => n / 3 + trips_of 0 signs
  | Faulty :: signs => trips_of (S n) signs
  | Silent :: signs => trips_of n signs
  end.

Fixpoint stretch (n : nat) (signs : list Sign) : nat :=
  match signs with
  | [] => n
  | Alive :: signs => stretch 0 signs
  | Faulty :: signs => stretch (S n) signs
  | Silent :: signs => stretch n signs
  end.

Lemma stretch_app n s t : stretch n (s ++ t) = stretch (stretch n s) t.
Proof. revert n. induction s as [|[] s IH]; intros n; cbn; auto. Qed.

Lemma trips_app n s x :
  trips_of n (s ++ [x]) =
  trips_of n s + match x with Faulty => S (stretch n s) / 3 - stretch n s / 3 | _ => 0 end.
Proof.
  revert n. induction s as [|[] s IH]; intros n; cbn [app trips_of stretch]; [|by rewrite ?IH; lia..].
  destruct x; cbn [trips_of]; [|cbn; lia|lia]. assert (n / 3 <= S n / 3) by (apply Nat.Div0.div_le_mono; lia). lia.
Qed.

Lemma next_streak_sign r s :
  next_streak lower r s =
  match sign_of r with Faulty => (s + 1)%N | Alive => 0%N | Silent => s end.
Proof.
  unfold next_streak, engine_alive, sign_of. destruct (progressed r); [done|].
  destruct (infra_faults lower r); cbn; [|done]. by destruct (cr_errors r).
Qed.

(** The monitor: the reports of the cycles within budget, and the long naps. *)
Record Seen := mkSeen { seen_signs : list Sign; seen_trips : nat }.

Definition observe (c : RunnerCall) : runner_reply c -> Seen -> Seen :=
  match c return runner_reply c -> Seen -> Seen with
  | CRunCycle _ => fun r s => if cr_over_budget r then s else mkSeen (seen_signs s ++ [sign_of r]) (seen_trips s)
  | GSleep Backoff => fun _ s => mkSeen (seen_signs s) (S (seen_trips s))
  | _ => fun _ s => s
  end.

#[local] Abbreviation Every := (every (fun _ _ _ => True) (fun _ _ => True) observe).

Definition unseen (c : RunnerCall) : bool := match c with CRunCycle _ | GSleep Backoff => false | _ => true end.

Lemma unseen_ignored c s : unseen c = true -> True /\ forall r, observe c r s = s.
Proof. intros H. split; [done|]. intros r. destruct c; try done. by destruct nap. Qed.

Lemma unseen_bind {A B} (q : RunnerProg A) (k : A -> RunnerProg B) s Q :
  only unseen q -> (forall a, Every (k a) s Q) -> Every (pbind q k) s Q.
Proof. apply every_only_bind, unseen_ignored. Qed.

Lemma plain_unseen {A} (q : RunnerProg A) : only plain q -> only unseen q.
Proof. apply only_mono. by intros []. Qed.

(** The streak is the stretch, counted modulo three. *)
Definition in_step (l : Locals) (s : Seen) : Prop :=
  seen_trips s = trips_of 0 (seen_signs s) /\ l_infra_streak l = N.of_nat (stretch 0 (seen_signs s) mod 3).

Definition turn_post (out : TurnOut) (s : Seen) : Prop :=
  match out with
  | Next l => in_step l s
  | Exited => seen_trips s = trips_of 0 (seen_signs s)
  | TurnPanicked => True
  end.

Lemma streak_step l s r :
  in_step l s ->
  let s' := mkSeen (seen_signs s ++ [sign_of r]) (seen_trips s) in
  let streak := next_streak lower r (l_infra_streak l) in
  if (3 <=? streak)%N
  then trips_of 0 (seen_signs s') = S (seen_trips s) /\ stretch 0 (seen_signs s') mod 3 = 0
  else trips_of 0 (seen_signs s') = seen_trips s /\ streak = N.of_nat (stretch 0 (seen_signs s') mod 3).
Proof.
  intros [Ht Hl]. cbn [seen_signs seen_trips]. rewrite next_streak_sign, stretch_app, trips_app, <-Ht, Hl.
  generalize (stretch 0 (seen_signs s)). intros n. pose proof (Nat.mod_upper_bound n 3).
  destruct (sign_of r); cbn [stretch].
  - pose proof (Nat.div_mod_eq n 3). pose proof (Nat.div_mod_eq (S n) 3). pose proof (Nat.mod_upper_bound (S n) 3).
    destruct (N.leb_spec 3 (N.of_nat (n mod 3) + 1)); lia.
  - cbn. split; [lia|done].
  - destruct (N.leb_spec 3 (N.of_nat (n mod 3))); [lia|]. by split; [lia|].
Qed.

Lemma supervise_in_step stepping l s r :
  in_step l s ->
  Every (supervise lower stepping l r) (if cr_over_budget r then s else mkSeen (seen_signs s ++ [sign_of r]) (seen_trips s)) turn_post.
Proof.
  intros Hs. unfold supervise. destruct (cr_over_budget r); [by repeat (split; [done|]; intros ? _)|].
  apply unseen_bind; [apply plain_unseen, watch_engine_plain|]. intros _.
  apply unseen_bind; [apply plain_unseen, announce_plain|].
  intros [last|]; [|done]. pose proof (streak_step l s r Hs) as Hstep. cbv zeta in Hstep |- *.
  destruct (3 <=? next_streak lower r (l_infra_streak l))%N.
  - destruct Hstep as [Ht Hm]. repeat (split; [done|]; intros ? _). split; [exact (eq_sym Ht)|symmetry; exact (f_equal N.of_nat Hm)].
  - destruct Hstep as [Ht Hm]. apply unseen_bind; [by destruct stepping|]. intros _. by split.
Qed.

Lemma drive_in_step stepping l s : in_step l s -> Every (drive lower stepping l) s turn_post.
Proof.
  intros Hs. unfold drive. apply unseen_bind; [by destruct stepping|]. intros allowed.
  destruct allowed; cbn [negb]; [|by split; [|intros ? _]].
  split; [done|]. intros reloaded _. apply unseen_bind; [by destruct reloaded|]. intros _.
  do 3 (split; [done|]; intros ? _). split; [done|]. intros report _. do 2 (split; [done|]; intros ? _).
  by apply supervise_in_step.
Qed.

Lemma gate_unseen : only unseen gate.
Proof. split; [done|]. intros [| |]; [|done..]. split; [done|]. intros asked. by destruct asked. Qed.

Lemma turn_in_step l s : in_step l s -> Every (turn lower l) s turn_post.
Proof.
  intros Hs. apply unseen_bind; [apply gate_unseen|]. intros [|stepping|]; [apply Hs|by apply drive_in_step|done].
Qed.

(** C22: the circuit breaker trips exactly as often as it promises. However the ports reply, after any number of turns of the loop the ten-minute naps taken are the faulty cycles of every stretch without a sign of life, three by three: a cycle with work or with only task-shaped errors ends a stretch, a silent cycle neither counts nor ends it, a cycle over budget is not looked at, and what the loop carries is the remainder. *)
Theorem breaker_exact n :
  Every (turns lower n Locals_default) (mkSeen [] 0) turn_post.
Proof.
  assert (H : in_step Locals_default (mkSeen [] 0)) by done. revert H.
  generalize Locals_default, (mkSeen [] 0). induction n as [|n IH]; intros l s Hs; [done|].
  eapply every_seq; [by apply turn_in_step|]. intros [l'| |] s' Hs'; [by apply IH|done..].
Qed.
End Breaker.

(** ** The handle under the loop *)

(** What others do to the handle while the loop runs. *)
Inductive UserOp :=
| UResume | UPause | UStep | UStop
| UActive (role note : string) | UIdle | UOperator (account host : string).

Definition user_op (op : UserOp) (h : RunnerHandle) : RunnerHandle :=
  match op with
  | UResume => resume h
  | UPause => pause h
  | UStep => step h
  | UStop => stop h
  | UActive role note => set_active role note h
  | UIdle => clear_active h
  | UOperator account host => set_operator account host h
  end.

Definition user_ops (ops : list UserOp) (h : RunnerHandle) : RunnerHandle := fold_left (fun h op => user_op op h) ops h.

(** Before each call of the loop the next batch of operations happens; [w_runs]
    counts the cycles started. *)
Record World := mkWorld { w_handle : RunnerHandle; w_future : list (list UserOp); w_time : nat; w_cycles : nat }.

Section Handle.
Context (lower : string -> string) (oracle : nat -> forall c, runner_reply c).

Definition on_handle (c : RunnerCall) (t : nat) (h : RunnerHandle) : RunnerHandle * runner_reply c :=
  match c return RunnerHandle * runner_reply c with
  | GLoadMode => (h, rh_mode h)
  | GSwapStep => (mkRunnerHandle (rh_mode h) false (rh_status h), rh_step h)
  | GPause => (pause h, tt)
  | GUpdate n s => (update n s h, tt)
  | GClearActive => (clear_active h, tt)
  | GWorkerId => (h, worker_id h)
  | c => (h, oracle t c)
  end.

Definition is_cycle (c : RunnerCall) : bool := match c with CRunCycle _ => true | _ => false end.

Definition handle (c : RunnerCall) (w : World) : World * runner_reply c :=
  let h := user_ops (from_option (fun ops => ops) [] (head (w_future w))) (w_handle w) in
  let '(h, r) := on_handle c (w_time w) h in
  (mkWorld h (tail (w_future w)) (S (w_time w)) (if is_cycle c then S (w_cycles w) else w_cycles w), r).

Definition is_resume (op : UserOp) : bool := match op with UResume => true | _ => false end.
Definition is_step (op : UserOp) : bool := match op with UStep => true | _ => false end.

Definition b2n (b : bool) : nat := if b then 1 else 0.

Definition steps_in (ops : list UserOp) : nat := length (List.filter is_step ops).
Definition steps_ahead (future : list (list UserOp)) : nat := sum_list (steps_in <$> future).

Definition unresumed (future : list (list UserOp)) : Prop := Forall (Forall (fun op => is_resume op = false)) future.

(** The monitor: whether the gate has given leave for a cycle that has not started. *)
Definition leave (c : RunnerCall) : runner_reply c -> bool -> bool :=
  match c return runner_reply c -> bool -> bool with
  | GLoadMode => fun mode b => b || bool_decide (mode = RUNNING)
  | GSwapStep => fun asked b => b || asked
  | CRunCycle _ => fun _ _ => false
  | GSleep _ => fun _ _ => false
  | _ => fun _ b => b
  end.

Definition granted (b : bool) (c : RunnerCall) : Prop := is_cycle c = true -> b = true.

#[local] Abbreviation Every := (every (fun _ _ _ => True) granted leave).

Lemma plain_ignored c b : plain c = true -> granted b c /\ forall r, leave c r b = b.
Proof. by destruct c. Qed.

Lemma plain_bind {A B} (q : RunnerProg A) (k : A -> RunnerProg B) b Q :
  only plain q -> (forall a, Every (k a) b Q) -> Every (pbind q k) b Q.
Proof. apply every_only_bind, plain_ignored. Qed.

Lemma supervise_plain_end stepping l r : Every (supervise lower stepping l r) false (fun _ b => b = false).
Proof.
  unfold supervise. case_match; [by repeat (split; [done|]; intros ? _)|].
  apply plain_bind; [apply watch_engine_plain|]. intros _. apply plain_bind; [apply announce_plain|].
  intros [last|]; [|done]. cbv zeta. case_match; [by repeat (split; [done|]; intros ? _)|].
  apply every_bind. destruct stepping; by split.
Qed.

Lemma drive_uses_leave stepping l : Every (drive lower stepping l) true (fun _ b => b = false).
Proof.
  apply plain_bind; [by destruct stepping|]. intros allowed.
  destruct allowed; cbn [negb]; [|by split]. cbv zeta. split; [done|]. intros reloaded _.
  apply plain_bind; [by destruct reloaded|]. intros _. do 6 (split; [done|]; intros ? _). apply supervise_plain_end.
Qed.

Lemma turn_asks_leave l : Every (turn lower l) false (fun _ b => b = false).
Proof.
  apply every_bind. split; [done|]. intros mode _. destruct mode; [|apply drive_uses_leave|done].
  split; [done|]. intros asked _. destruct asked; [apply drive_uses_leave|]. by split.
Qed.

Lemma turns_ask_leave n l : Every (turns lower n l) false (fun _ b => b = false).
Proof.
  revert l. induction n as [|n IH]; intros l; [done|]. eapply every_seq; [apply turn_asks_leave|].
  intros [l'| |] b ->; [apply IH|done..].
Qed.

(** ** A runner that nobody resumes *)

Definition allowance (w : World) : nat := b2n (rh_step (w_handle w)) + steps_ahead (w_future w).

(** Not running, never resumed, and within what was allowed. *)
Definition within (total : nat) (w : World) (b : bool) : Prop :=
  rh_mode (w_handle w) <> RUNNING /\ unresumed (w_future w) /\ w_cycles w + b2n b + allowance w <= total.

Lemma user_op_unresumed op h : is_resume op = false -> rh_mode h <> RUNNING -> rh_mode (user_op op h) <> RUNNING.
Proof. by destruct op. Qed.

Lemma user_op_step op h : b2n (rh_step (user_op op h)) <= b2n (rh_step h) + b2n (is_step op).
Proof. destruct op; cbn; lia. Qed.

Lemma user_ops_within ops h :
  Forall (fun op => is_resume op = false) ops -> rh_mode h <> RUNNING ->
  rh_mode (user_ops ops h) <> RUNNING /\ b2n (rh_step (user_ops ops h)) <= b2n (rh_step h) + steps_in ops.
Proof.
  unfold steps_in. intros Hops. revert h. induction Hops as [|op ops Hop _ IH]; intros h Hh; [split; [done|cbn; lia]|].
  change (user_ops (op :: ops) h) with (user_ops ops (user_op op h)).
  destruct (IH (user_op op h)) as [Hm Hs]; [by apply user_op_unresumed|]. split; [done|].
  pose proof (user_op_step op h) as H. cbn [List.filter]. destruct (is_step op); cbn [length b2n] in H |- *; lia.
Qed.

Lemma handle_within total c w b :
  within total w b -> granted b c ->
  True /\ within total (handle c w).1 (leave c (handle c w).2 b).
Proof.
  intros (Hm & Hu & Hb) Hg. split; [done|]. destruct w as [h future t cycles]. unfold handle, within, allowance in *.
  cbn [w_handle w_future w_time w_cycles] in *. set (ops := from_option _ _ _).
  assert (unresumed (tail future) /\ Forall (fun op => is_resume op = false) ops /\
    steps_ahead future = steps_in ops + steps_ahead (tail future)) as (Hu' & Hops & Hahead).
  { subst ops. destruct future; [done|]. by inversion_clear Hu. }
  destruct (user_ops_within ops h Hops Hm) as [Hm' Hs]. rewrite Hahead in Hb. clear Hahead Hm Hu Hops. clearbody ops.
  generalize dependent (user_ops ops h). intros h' Hm' Hs.
  destruct c; cbn [on_handle fst snd w_handle w_future w_cycles leave is_cycle] in *;
    try (split_and!; [done|done|]; cbn; lia).
  - rewrite bool_decide_eq_false_2, orb_false_r by done. split_and!; [done|done|lia].
  - split_and!; [done|done|]. destruct b, (rh_step h'); cbn in *; lia.
  - split_and!; [done|done|]. rewrite (Hg eq_refl) in Hb. cbn in *. lia.
Qed.

(** a runner that nobody resumes runs no cycle it was not asked for. Whatever else is done to the handle between the calls of the loop — pauses, stops, steps, the labels of the phases — and whatever the ports reply, a loop that is not running starts at most one cycle per step requested. *)
Theorem unresumed_runs_only_steps n l w :
  rh_mode (w_handle w) <> RUNNING -> unresumed (w_future w) ->
  w_cycles (run handle (turns lower n l) w).1 <= w_cycles w + allowance w.
Proof.
  intros Hm Hu. set (total := w_cycles w + allowance w).
  assert (Hw : within total w false) by (split_and!; [done|done|unfold total; cbn [b2n]; lia]).
  destruct (every_run _ _ _ handle (within total) (turns lower n l) w false _ (handle_within total) Hw (turns_ask_leave n l))
    as (b & (_ & _ & Hb) & _). lia.
Qed.
End Handle.

(** Ports that all fail. *)
Definition blank_report : CycleReport := mkCycleReport 0 [] None false None None None None [] [] false.

Definition blank (c : RunnerCall) : runner_reply c :=
  match c return runner_reply c with
  | GLoadMode => PAUSED
  | GSwapStep | CReload => false
  | GWorkerId | CEngineId => ""
  | CRunCycle _ => blank_report
  | SLoad => Err (Backend "")
  | SMutate _ => Err (Backend "")
  | _ => tt
  end.

Lemma unresumed_runs_only_steps_witness :
  let w := mkWorld RunnerHandle_default [[UStep]; []; [UPause; UStop]] 0 0 in
  rh_mode (w_handle w) <> RUNNING /\
  w_cycles (run (handle (fun _ => blank)) (turns ascii_lowercase 3 Locals_default) w).1 <= w_cycles w + allowance w.
Proof. split; [done|]. apply unresumed_runs_only_steps; [done|]. repeat constructor. Defined.

(** ** The incident of an engine *)

Section Incident.
Context (lower : string -> string) (engine now : string) (ids : nat -> string).

(** A store that holds one state, and the notices sent. *)
Definition on_store (c : RunnerCall) (w : ProjectState * list string) : (ProjectState * list string) * runner_reply c :=
  match c return (ProjectState * list string) * runner_reply c with
  | CEngineId => (w, engine)
  | SLoad => (w, Ok w.1)
  | SMutate m => ((apply lower now ids m w.1, w.2), Ok tt)
  | CNotify event _ => ((w.1, w.2 ++ [event]), tt)
  | c => (w, blank c)
  end.

Definition incident_open (e : string) (st : ProjectState) : bool := existsb (is_incident e) (engine_incidents st).

Lemma incident_open_in e st : incident_open e st = bool_decide (e ∈ ei_engine <$> engine_incidents st).
Proof.
  unfold incident_open. induction (engine_incidents st) as [|i l IH]; [done|]. cbn [existsb]. rewrite IH. unfold is_incident.
  apply eq_true_iff_eq. rewrite orb_true_iff, !bool_decide_eq_true, fmap_cons, elem_of_cons. naive_solver.
Qed.

Lemma incidents_update f st : engine_incidents (st <| engine_incidents ::= f |>) = f (engine_incidents st).
Proof. done. Qed.

Lemma filter_keeps_all (k : string) (l : list string) : k ∉ l -> filter (fun y => y <> k) l = l.
Proof.
  induction l as [|x l IH]; [done|]. rewrite not_elem_of_cons. intros [Hx Hl]. by rewrite filter_cons_True, IH by done.
Qed.

(** Removing the first entry of a key from a list without repeats removes the key. *)
Lemma remove_first_key {A} (key : A -> string) k l :
  NoDup (key <$> l) -> key <$> remove_first (fun x => bool_decide (key x = k)) l = filter (fun y => y <> k) (key <$> l).
Proof.
  induction l as [|x l IH]; cbn [remove_first]; [done|]. rewrite fmap_cons. intros [Hx Hnd]%NoDup_cons.
  case_bool_decide as E.
  - rewrite filter_cons_False by naive_solver. subst k. by rewrite filter_keeps_all.
  - rewrite filter_cons_True, fmap_cons, IH by done. done.
Qed.

Lemma is_incident_refl e i : ei_engine i = e -> is_incident e i = true.
Proof. intros <-. by apply bool_decide_eq_true. Qed.

Lemma open_marks e role detail st :
  incident_open e (open_engine_incident now engine role detail st) = bool_decide (e = engine) || incident_open e st.
Proof.
  unfold open_engine_incident. destruct (List.find (is_incident engine) (engine_incidents st)) as [i|] eqn:E; rewrite !incident_open_in.
  - rewrite incidents_update, map_update_first by (by intros []). apply find_some in E as [Hi He]. apply bool_decide_eq_true in He.
    destruct (decide (e = engine)) as [Heq|Heq]; [|by rewrite (bool_decide_eq_false_2 _ Heq)].
    rewrite (bool_decide_eq_true_2 _ Heq). subst. apply bool_decide_eq_true, list_elem_of_fmap. exists i. by rewrite list_elem_of_In.
  - apply eq_true_iff_eq. rewrite orb_true_iff, !bool_decide_eq_true.
    rewrite incidents_update, fmap_app. set_solver.
Qed.

Lemma close_unmarks e st :
  NoDup (ei_engine <$> engine_incidents st) ->
  incident_open e (close_engine_incident engine st).1 = negb (bool_decide (e = engine)) && incident_open e st.
Proof.
  intros Hnd. unfold close_engine_incident. destruct (List.find (is_incident engine) (engine_incidents st)) as [i|] eqn:E.
  - cbn [fst]. rewrite !incident_open_in, incidents_update, (remove_first_key ei_engine engine) by done.
    apply eq_true_iff_eq. rewrite andb_true_iff, negb_true_iff, bool_decide_eq_false, !bool_decide_eq_true.
    rewrite list_elem_of_filter. naive_solver.
  - cbn [fst]. case_bool_decide as Heq; [|done]. subst. rewrite incident_open_in. apply bool_decide_eq_false.
    by apply find_none_key.
Qed.
Lemma outage_marks e first count alive st :
  NoDup (ei_engine <$> engine_incidents st) ->
  incident_open e (apply lower now ids (MOutage engine first count alive) st) =
  if bool_decide (e = engine) then (is_some first || (incident_open engine st && negb alive)) else incident_open e st.
Proof.
  intros Hnd. destruct first as [detail|]; cbn [apply is_some orb].
  - assert (H : forall b st', incident_open e (if b : bool then post_chat_in (ids 0) now "SYSTEM"
        ("🔌 " +:+ outage_text engine count detail +:+ ". If it keeps up, the loop pauses itself — fix the credentials or the model and this clears.")
        AGENTS_CHANNEL [] st' else st') = incident_open e st') by (by intros []).
    rewrite H, open_marks. by case_bool_decide.
  - destruct alive; [|rewrite andb_true_r; case_bool_decide; by subst].
    rewrite andb_false_r. pose proof (close_unmarks e st Hnd) as H. destruct (close_engine_incident engine st) as [st' [inc|]];
      cbn [fst] in H; [change (incident_open e st' = if bool_decide (e = engine) then false else incident_open e st)|]; rewrite H; by case_bool_decide.
Qed.

Lemma run_notify_if b event text st told :
  run on_store (notify_if b event text) (st, told) = ((st, told ++ if b then [event] else []), tt).
Proof. destruct b; cbn; [done|]. by rewrite app_nil_r. Qed.

(** The incidents and the notices of [watch_engine]. *)
Definition incident_after (r : CycleReport) (st : ProjectState) (e : string) : bool :=
  if bool_decide (e = engine)
  then negb (is_nil (infra_faults lower r)) || (incident_open engine st && negb (engine_alive lower r))
  else incident_open e st.

Definition incident_notices (r : CycleReport) (st : ProjectState) : list string :=
  let faults := infra_faults lower r in
  let was := incident_open engine st in
  (if negb was && ((2 <=? length faults) || from_option (is_auth_death lower) false (head faults))
   then ["engine_incident"] else []) ++
  (if is_nil faults && was && engine_alive lower r then ["engine_recovered"] else []).

Lemma watch_engine_incident r st :
  NoDup (ei_engine <$> engine_incidents st) ->
  let '(st', told) := (run on_store (watch_engine lower r) (st, [])).1 in
  (forall e, incident_open e st' = incident_after r st e) /\ told = incident_notices r st.
Proof.
  intros Hnd. unfold incident_after, incident_notices, watch_engine. cbn [run on_store]. fold (incident_open engine st).
  generalize (engine_alive lower r). intros alive. destruct (infra_faults lower r) as [|detail faults].
  - cbn [head pbind]. rewrite run_pbind, run_notify_if. cbn [run on_store fst snd is_nil negb orb].
    split; [intros e; by rewrite outage_marks|]. unfold incident_open. by destruct (existsb _ _).
  - cbn [head]. rewrite run_pbind, run_notify_if, run_pbind, run_notify_if. cbn [run on_store fst snd is_nil negb orb andb].
    split; [intros e; by rewrite outage_marks|]. rewrite !app_nil_r. cbn [app from_option]. unfold incident_open.
    by destruct (existsb _ _), (2 <=? length (detail :: faults)), (is_auth_death lower detail).
Qed.

(** A part of the turn that leaves the incidents and their notices alone. *)
Definition aside {A} (p : RunnerProg A) : Prop :=
  forall st told, let '(st', told') := (run on_store p (st, told)).1 in
    engine_incidents st' = engine_incidents st /\
    exists k, told' = told ++ repeat "loop_paused" k.

Lemma aside_ret {A} (a : A) : aside (Ret a).
Proof. intros st told. cbn. split; [done|]. exists 0. by rewrite app_nil_r. Qed.

Lemma aside_bind {A B} (p : RunnerProg A) (k : A -> RunnerProg B) : aside p -> (forall a, aside (k a)) -> aside (pbind p k).
Proof.
  intros Hp Hk st told. rewrite run_pbind. specialize (Hp st told).
  destruct (run on_store p (st, told)) as [[st1 told1] a]. cbn [fst] in *. destruct Hp as [H1 [n ->]].
  specialize (Hk a st1 (told ++ repeat "loop_paused" n)).
  destruct (run on_store (k a) _) as [[st2 told2] b]. cbn [fst] in *. destruct Hk as [H2 [m ->]].
  split; [congruence|]. exists (n + m). by rewrite <- app_assoc, repeat_app.
Qed.

Lemma aside_call c : aside (Do c Ret) -> forall A (k : runner_reply c -> RunnerProg A), (forall a, aside (k a)) -> aside (Do c k).
Proof. intros H A k Hk. exact (aside_bind (Do c Ret) k H Hk). Qed.

Lemma aside_blank c :
  (forall w, on_store c w = (w, blank c)) -> aside (Do c Ret).
Proof. intros H st told. cbn [run]. rewrite H. cbn. split; [done|]. exists 0. by rewrite app_nil_r. Qed.

Lemma aside_announce r last : aside (announce_errors lower r last).
Proof.
  unfold announce_errors. case_decide; [apply aside_ret|]. case_decide; [apply aside_ret|].
  destruct (truncate _ _); [|apply aside_ret].
  apply aside_call; [|intros; apply aside_ret]. intros st told. cbn. split; [done|]. exists 0. by rewrite app_nil_r.
Qed.

Lemma aside_trip : aside trip.
Proof.
  unfold trip. apply aside_call; [intros st told; cbn; split; [done|]; exists 0; by rewrite app_nil_r|intros _].
  apply aside_call; [intros st told; cbn; split; [done|]; by exists 1|intros _].
  apply aside_call; [by apply aside_blank|]. intros; apply aside_ret.
Qed.

Lemma aside_after_watch stepping l r :
  aside (run! last := announce_errors lower r (l_last_logic_errors l) in
    match last with
    | None => Ret TurnPanicked
    | Some last =>
        let streak := next_streak lower r (l_infra_streak l) in
        if (3 <=? streak)%N then run! _ := trip in Ret (Next (mkLocals (l_cycle l) 0 last))
        else
          run! _ := (if stepping : bool then do! _ := GPause in Ret tt else do! _ := GSleep Interval in Ret tt) in
          Ret (Next (mkLocals (l_cycle l) streak last))
    end).
Proof.
  apply aside_bind; [apply aside_announce|]. intros [last|]; [|apply aside_ret]. cbv zeta.
  destruct (3 <=? _)%N; (apply aside_bind; [|intros; apply aside_ret]); [apply aside_trip|].
  destruct stepping; (apply aside_call; [by apply aside_blank|]); intros; apply aside_ret.
Qed.

(** The notices about engines. *)
Definition about_engines (told : list string) : list string :=
  List.filter (fun n => one_of n ["engine_incident"; "engine_recovered"]) told.

Lemma about_engines_paused told k : about_engines (told ++ repeat "loop_paused" k) = about_engines told.
Proof.
  unfold about_engines. rewrite List.filter_app. replace (List.filter _ (repeat "loop_paused" k)) with ([] : list string); [apply app_nil_r|].
  induction k as [|k IH]; [done|exact IH].
Qed.

(** C23: the engine incident follows the cycle. Take the part of a runner's turn from
    the cycle's report on, over a store that answers every call and lists every
    engine's incident once. Unless the report is over budget - then incidents are
    not looked at and nothing is told - the incident of the runner's engine is open
    afterwards exactly when the cycle had an infrastructure fault, or one was open
    and the cycle gave no sign of life; every other engine's incident is untouched.
    The notice of an outage goes out exactly when the incident opens on two faults
    or on dead credentials, the notice of recovery exactly when a cycle with a sign
    of life and no fault finds the incident open. *)
Theorem incident_tracks_engine stepping l r st :
  NoDup (ei_engine <$> engine_incidents st) ->
  let faults := infra_faults lower r in
  let was := incident_open engine st in
  let '(st', told) := (run on_store (supervise lower stepping l r) (st, [])).1 in
  if cr_over_budget r then engine_incidents st' = engine_incidents st /\ about_engines told = []
  else
    (forall e, incident_open e st' =
       if bool_decide (e = engine) then negb (is_nil faults) || (was && negb (engine_alive lower r))
       else incident_open e st) /\
    about_engines told =
      (if negb was && ((2 <=? length faults) || from_option (is_auth_death lower) false (head faults))
       then ["engine_incident"] else []) ++
      (if is_nil faults && was && engine_alive lower r then ["engine_recovered"] else []).
Proof.
  intros Hnd. cbv zeta. unfold supervise. destruct (cr_over_budget r); [done|].
  rewrite run_pbind. pose proof (watch_engine_incident r st Hnd) as Hw.
  destruct (run on_store (watch_engine lower r) (st, [])) as [[st1 told1] []]. cbn [fst] in Hw. destruct Hw as [H1 ->].
  pose proof (aside_after_watch stepping l r st1 (incident_notices r st)) as Ha. cbv zeta in Ha.
  destruct (run on_store _ (st1, incident_notices r st)) as [[st2 told2] out]. cbn [fst] in *. destruct Ha as [H2 [k ->]].
  split.
  { intros e. transitivity (incident_open e st1); [unfold incident_open; by rewrite H2|exact (H1 e)]. }
  rewrite about_engines_paused. unfold incident_notices.
  by destruct (negb _ && _), (is_nil _ && _ && _).
Qed.
End Incident.

Lemma incident_tracks_engine_witness :
  let st := open_engine_incident "t" "claude" "CYCLE" "401" ProjectState_default in
  let r := mkCycleReport 1 [] None false None (Some "B1") None None [] [] false in
  NoDup (ei_engine <$> engine_incidents st) /\
  about_engines (run (on_store ascii_lowercase "claude" "t" dec_nat) (supervise ascii_lowercase false Locals_default r) (st, [])).1.2
  = ["engine_recovered"].
Proof.
  cbv zeta. set (st := open_engine_incident _ _ _ _ _). set (r := mkCycleReport _ _ _ _ _ _ _ _ _ _ _).
  assert (H : NoDup (ei_engine <$> engine_incidents st)) by (apply (bool_decide_unpack _); vm_compute; exact I).
  split; [exact H|].
  pose proof (incident_tracks_engine ascii_lowercase "claude" "t" dec_nat false Locals_default r st H) as Ht. cbv zeta in Ht.
  destruct (run (on_store ascii_lowercase "claude" "t" dec_nat) (supervise ascii_lowercase false Locals_default r) (st, [])) as [[st' told] u].
  cbn [fst snd] in *. destruct Ht as [_ ->]. vm_compute. reflexivity.
Defined.

(** ** What the handle loses *)

(** A world whose cycles report [r], with [mode] to begin with. *)
Definition reporting (r : CycleReport) (c : RunnerCall) : runner_reply c :=
  match c return runner_reply c with CRunCycle _ => r | c => blank c end.

Definition world_from (h : RunnerHandle) (future : list (list UserOp)) : World := mkWorld h future 0 0.
Definition play (r : CycleReport) (n : nat) (w : World) : World * TurnOut :=
  run (handle (fun _ => reporting r)) (turns ascii_lowercase n Locals_default) w.

Definition before_call (n : nat) (op : UserOp) : list (list UserOp) := repeat [] n ++ [[op]].

Definition exited (out : TurnOut) : bool := match out with Exited => true | _ => false end.

(** A stop between two turns ends the loop at the next gate. *)
Example stop_ends_the_loop :
  let '(w, out) := play blank_report 5 (world_from (resume RunnerHandle_default) (before_call 10 UStop)) in
  exited out = true /\ w_cycles w = 1.
Proof. vm_compute. done. Qed.

(** A stop during a cycle over budget, or during a stepped cycle, is overwritten by the
    pause that follows: the loop waits at the gate for good. *)
Theorem stop_is_overwritten :
  (let '(w, out) := play (mkCycleReport 1 [] None false None None None None [] [] true) 9
                      (world_from (resume RunnerHandle_default) (before_call 7 UStop)) in
   exited out = false /\ rh_mode (w_handle w) = PAUSED) /\
  (let '(w, out) := play blank_report 9 (world_from (step RunnerHandle_default) (before_call 7 UStop)) in
   exited out = false /\ rh_mode (w_handle w) = PAUSED).
Proof. vm_compute. done. Qed.

(** A step requested while running is kept: the pause that follows is answered by one
    more cycle. *)
Theorem step_outlives_the_pause :
  let w := play blank_report 9 (world_from (pause (step (resume RunnerHandle_default))) []) in
  rh_mode (w_handle w.1) = PAUSED /\ w_cycles w.1 = 1.
Proof. vm_compute. done. Qed.

(** The tripped breaker says the loop is paused; the handle keeps running. *)
Theorem tripped_loop_is_running :
  let w := play (mkCycleReport 1 [] None false None None None None [] ["401 unauthorized"] false) 3
             (world_from (resume RunnerHandle_default) []) in
  exists l, w.2 = Next l /\ l_infra_streak l = 0%N /\ w_cycles w.1 = 3 /\
  rh_mode (w_handle w.1) = RUNNING /\ rs_mode (rh_status (w_handle w.1)) = "running".
Proof. eexists. vm_compute. repeat split. Qed.

(** Errors whose announcement has a two-byte character across byte 600 end the loop. *)
Definition long_error : string := fold_right String (String "195" (String "169" "")) (repeat "x"%char 578).

Theorem long_errors_panic :
  (play (mkCycleReport 1 [] None false None None None None [] [long_error] false) 1
     (world_from (resume RunnerHandle_default) [])).2 = TurnPanicked.
Proof. vm_compute. done. Qed.
