(* ===== verification/Metering.v ===== *)
(** * The spend meter

    [infrastructure/src/engine/metering.rs] — the decorator that meters every engine
    run into a shared accumulator — and [drain_meter] of [cycle/scrum.rs], which folds
    the accumulator into the project state at the end of a cycle. A [None] meter is
    one that is not attached. *)
From S2P Require Import Prelude RustStr Kinds TestCase Ticket State StateOps Ports Engine.

(** The wire name of a role and its name on the dashboard
    ([engine_provenance::role_label]). *)
Definition wire_role (r : Role) : string :=
  match r with
  | Ba => "ba" | Po => "po" | Sm => "sm" | Sa => "sa" | Pd => "pd" | DevBug => "dev_bug" | DevFeature => "dev_feature"
  | Test => "test" | Docs => "docs" | User => "user" | System => "system"
  end.

Definition role_label (r : Role) : string :=
  match r with
  | Ba => "BA" | Po => "PO" | Sm => "SM" | Sa => "SA" | Pd => "PD" | DevBug => "DEV-BUG" | DevFeature => "DEV-FEATURE"
  | Test => "TEST" | Docs => "DOCS" | User => "USER" | System => "SYSTEM"
  end.

(** [*m.entry(k).or_default() += n] *)
Definition bump_count (k : string) (n : N) (m : gmap string N) : gmap string N := <[k := u64_wrap (default 0%N (m !! k) + n)]> m.
Definition bump_f64 (k : string) (x : f64) (m : gmap string f64) : gmap string f64 :=
  <[k := f64_add (default f64_zero (m !! k)) x]> m.

(** ** The decorator *)

Definition record_usage (key : string) (u : Usage) (m : Spend) : Spend :=
  m <| sp_total_cost_usd ::= fun c => f64_add c (us_cost_usd u) |>
    <| sp_input_tokens ::= fun n => u64_wrap (n + us_input_tokens u) |>
    <| sp_output_tokens ::= fun n => u64_wrap (n + us_output_tokens u) |>
    <| sp_runs ::= fun n => u64_wrap (n + 1) |>
    <| sp_by_role ::= bump_f64 key (us_cost_usd u) |>
    <| sp_metered_cost_by_role ::= bump_f64 key (us_cost_usd u) |>
    <| sp_runs_by_role ::= bump_count key 1 |>.

Definition record_sandbox (sandbox : SandboxStatus) (m : Spend) : Spend :=
  match sandbox with
  | NotRequested => m
  | Confined via =>
      m <| sp_confined_runs ::= fun n => u64_wrap (n + 1) |> <| sp_last_sandbox_status := "confined via " +:+ via |>
  | Unavailable reason =>
      m <| sp_unconfined_requested_runs ::= fun n => u64_wrap (n + 1) |>
        <| sp_last_sandbox_status := "unavailable: " +:+ reason |>
  | Denied via =>
      m <| sp_sandbox_denied_runs ::= fun n => u64_wrap (n + 1) |>
        <| sp_last_sandbox_status := "denied by " +:+ via +:+ ": the profile never applied, the run never started" |>
  end.

(** [now] is the clock, [id] the decorated engine. *)
Definition record_provenance (now id : string) (label : option string) (role action : string) (o : AgentOutcome) (m : Spend)
    : Spend :=
  let attempts :=
    match ao_attempts o with
    | [] => [mkEngineAttempt (if decide (ao_engine o = "") then id else ao_engine o) (model_id (ao_model o))]
    | l => l
    end in
  m <| sp_step_provenance ::= fun l => l ++ [mkMeteredStep label (mkStepProvenance now role action attempts)] |>.

Definition meter_outcome (key : string) (o : AgentOutcome) (m : Spend) : Spend :=
  record_sandbox (ao_sandbox o) (match ao_usage o with Some u => record_usage key u m | None => m end).

Definition run_action (escalation : N) (o : AgentOutcome) : string :=
  "agent run" +:+ (if (0 <? escalation)%N then " (escalation " +:+ dec escalation +:+ ")" else "") +:+
  (if succeeded o then "" else " — failed").

(** A run the inner engine answered with [reply], and a resumed session. *)
Definition metered_run (now id : string) (r : AgentRequest) (reply : Reply) (m : Spend) : Spend :=
  let key := wire_role (rq_role r) in
  let m := m <| sp_prompt_chars_by_role ::=
             bump_count key (N.of_nat (String.length (rq_system_prompt r) + String.length (rq_task_prompt r))) |> in
  match reply with
  | Err _ => m
  | Ok o =>
      let m := if decide (ao_engine o = "") then m else m <| sp_engine_by_role ::= insert key (ao_engine o) |> in
      meter_outcome key o
        (record_provenance now id (rq_label r) (role_label (rq_role r)) (run_action (rq_escalation_level r) o) o m)
  end.

Definition metered_resume (now id : string) (role : Role) (reply : Reply) (m : Spend) : Spend :=
  match reply with
  | Err _ => m
  | Ok o => meter_outcome "resume" o (record_provenance now id None (role_label role) "agent run (session resume)" o m)
  end.

(** ** The fold *)

Definition MAX_STEP_PROVENANCE : nat := 12.

Definition record_step_provenance (tk : string) (step : StepProvenance) (st : ProjectState) : ProjectState :=
  st <| ticket_step_provenance ::= push_entry MAX_STEP_PROVENANCE tk step |>.

Definition fold_step (st : ProjectState) (ms : MeteredStep) : ProjectState :=
  match mt_ticket ms with Some tk => record_step_provenance tk (mt_step ms) st | None => st end.

(** Every key of [new] is added onto [old], key by key. *)
Definition add_counts (old new : gmap string N) : gmap string N :=
  merge (fun o n => match n with Some n => Some (u64_wrap (default 0%N o + n)) | None => o end) old new.
Definition add_costs (old new : gmap string f64) : gmap string f64 :=
  merge (fun o n => match n with Some n => Some (f64_add (default f64_zero o) n) | None => o end) old new.

Definition charge_operator (worker : string) (m : Spend) (ops : gmap string OperatorSpend) : gmap string OperatorSpend :=
  if decide (worker = "") then ops
  else
    let op := default (mkOperatorSpend f64_zero 0 0 0) (ops !! worker) in
    <[worker := mkOperatorSpend (f64_add (os_cost_usd op) (sp_total_cost_usd m)) (u64_wrap (os_input_tokens op + sp_input_tokens m))
                  (u64_wrap (os_output_tokens op + sp_output_tokens m)) (u64_wrap (os_runs op + sp_runs m))]> ops.

Definition fold_spend (worker : string) (m sp : Spend) : Spend :=
  mkSpend (f64_add (sp_total_cost_usd sp) (sp_total_cost_usd m)) (u64_wrap (sp_input_tokens sp + sp_input_tokens m))
    (u64_wrap (sp_output_tokens sp + sp_output_tokens m)) (u64_wrap (sp_runs sp + sp_runs m))
    (add_costs (sp_by_role sp) (sp_by_role m)) (add_counts (sp_runs_by_role sp) (sp_runs_by_role m))
    (add_costs (sp_metered_cost_by_role sp) (sp_metered_cost_by_role m)) (charge_operator worker m (sp_by_operator sp))
    (sp_engine_by_role m ∪ sp_engine_by_role sp)
    (if decide (worker = "") then sp_operator_by_role sp else ((fun _ => worker) <$> sp_engine_by_role m) ∪ sp_operator_by_role sp)
    (add_counts (sp_prompt_chars_by_role sp) (sp_prompt_chars_by_role m))
    (sp_confined_runs sp) (sp_unconfined_requested_runs sp) (sp_sandbox_denied_runs sp) (sp_last_sandbox_status sp)
    (sp_step_provenance sp).

(** The state after the fold with what the cycle cost, and the meter it leaves. *)
Record Drained := mkDrained { dn_state : ProjectState; dn_cost : f64; dn_runs : N; dn_by_role : gmap string f64 }.

Definition drain_meter (worker : string) (meter : option Spend) (st : ProjectState) : Drained * option Spend :=
  match meter with
  | None => (mkDrained st f64_zero 0 ∅, None)
  | Some m =>
      (mkDrained (fold_left fold_step (sp_step_provenance m) (st <| spend ::= fold_spend worker m |>))
         (sp_total_cost_usd m) (sp_runs m) (sp_by_role m), Some Spend_default)
  end.

(** ** Where what is metered goes *)

Lemma wrap_l a b : u64_wrap (u64_wrap a + b) = u64_wrap (a + b).
Proof. apply N.Div0.add_mod_idemp_l. Qed.

Lemma wrap_r a b : u64_wrap (a + u64_wrap b) = u64_wrap (a + b).
Proof. apply N.Div0.add_mod_idemp_r. Qed.

Lemma wrap_wrap a : u64_wrap (u64_wrap a) = u64_wrap a.
Proof. apply N.Div0.mod_mod. Qed.

Lemma wrap_cong a b c : u64_wrap a = u64_wrap b -> u64_wrap (a + c) = u64_wrap (b + c).
Proof. intros H. by rewrite <-wrap_l, H, wrap_l. Qed.

Lemma keep_last_keep_last {A} n (l k : list A) : keep_last n (keep_last n l ++ k) = keep_last n (l ++ k).
Proof.
  unfold keep_last. rewrite !length_app, length_drop. destruct (decide (length l <= n)) as [H|H].
  - replace (length l - n) with 0 by lia. cbn [drop]. f_equal. lia.
  - rewrite <-(drop_app_le l k (length l - n)) by lia. rewrite drop_drop. f_equal. lia.
Qed.

Lemma lookup_add_counts (old new : gmap string N) k :
  add_counts old new !! k = match new !! k with Some n => Some (u64_wrap (default 0%N (old !! k) + n)) | None => old !! k end.
Proof. unfold add_counts. rewrite lookup_merge. by destruct (old !! k), (new !! k). Qed.

(** What happens to the meter: runs, resumed sessions, the drain of a cycle. *)
Inductive MeterOp :=
| MRun (now : string) (r : AgentRequest) (reply : Reply)
| MResume (now : string) (role : Role) (reply : Reply)
| MDrain (worker : string) (saved : bool).

Section Conservation.
Context (id : string).

Definition meter_op (s : Spend * ProjectState) (op : MeterOp) : Spend * ProjectState :=
  let '(m, st) := s in
  match op with
  | MRun now r reply => (metered_run now id r reply m, st)
  | MResume now role reply => (metered_resume now id role reply m, st)
  | MDrain worker saved =>
      let '(d, m) := drain_meter worker (Some m) st in
      (default Spend_default m, if saved : bool then dn_state d else st)
  end.

(** The meter a drain throws away: it is emptied before the save, which may fail. *)
Definition thrown_away (s : Spend * ProjectState) (op : MeterOp) : list Spend :=
  match op with MDrain _ false => [s.1] | _ => [] end.

Fixpoint lost (ops : list MeterOp) (s : Spend * ProjectState) : list Spend :=
  match ops with
  | [] => []
  | op :: ops => thrown_away s op ++ lost ops (meter_op s op)
  end.

Definition drain_saved (op : MeterOp) : Prop := match op with MDrain _ saved => saved = true | _ => True end.

(** The usage an operation brings, under its key, and the step it leaves on a ticket. *)
Definition usage_of (op : MeterOp) : option (string * Usage) :=
  match op with
  | MRun _ r (Ok o) => pair (wire_role (rq_role r)) <$> ao_usage o
  | MResume _ _ (Ok o) => pair "resume" <$> ao_usage o
  | _ => None
  end.

Definition usages (ops : list MeterOp) : list (string * Usage) := omap usage_of ops.

Definition runs_of (key : string) (sp : Spend) : N := default 0%N (sp_runs_by_role sp !! key).

Definition labelled (tk : string) (ms : MeteredStep) : option StepProvenance :=
  if decide (mt_ticket ms = Some tk) then Some (mt_step ms) else None.

Definition unfolded (tk : string) (m : Spend) : list StepProvenance := omap (labelled tk) (sp_step_provenance m).

Definition steps_of (tk : string) (op : MeterOp) : list StepProvenance :=
  match op with
  | MRun now r (Ok o) => unfolded tk (record_provenance now id (rq_label r) (role_label (rq_role r))
                                       (run_action (rq_escalation_level r) o) o Spend_default)
  | _ => []
  end.

Definition log_of (tk : string) (st : ProjectState) : list StepProvenance := default [] (ticket_step_provenance st !! tk).

(** The three totals and the runs of a role. *)
Inductive Counter := Runs | InputTokens | OutputTokens | RunsOf (key : string).

Definition field (c : Counter) (sp : Spend) : N :=
  match c with Runs => sp_runs sp | InputTokens => sp_input_tokens sp | OutputTokens => sp_output_tokens sp | RunsOf key => runs_of key sp end.

Definition amount (c : Counter) (u : string * Usage) : N :=
  match c with
  | Runs => 1
  | InputTokens => us_input_tokens u.2
  | OutputTokens => us_output_tokens u.2
  | RunsOf key => if decide (u.1 = key) then 1 else 0
  end.

(** What a list of meters holds. *)
Definition held (c : Counter) (ms : list Spend) : N := foldr (fun m n => field c m + n)%N 0%N ms.

Lemma held_app c ms ns : held c (ms ++ ns) = (held c ms + held c ns)%N.
Proof. unfold held. induction ms as [|m ms IH]; cbn; [done|]. rewrite IH. lia. Qed.

Definition total (c : Counter) (us : list (string * Usage)) : N := foldr (fun u n => amount c u + n)%N 0%N us.

Lemma total_app c us vs : total c (us ++ vs) = (total c us + total c vs)%N.
Proof. unfold total. induction us as [|u us IH]; cbn; [done|]. rewrite IH. lia. Qed.

Lemma field_usage c key u m : u64_wrap (field c (record_usage key u m)) = u64_wrap (field c m + amount c (key, u)).
Proof.
  destruct c as [| | |k]; [apply wrap_wrap..|].
  change (field (RunsOf k) (record_usage key u m)) with (default 0%N (bump_count key 1 (sp_runs_by_role m) !! k)).
  cbn [field amount fst]. unfold runs_of, bump_count. case_decide as H.
  - subst. rewrite lookup_insert_eq. apply wrap_wrap.
  - by rewrite lookup_insert_ne, N.add_0_r.
Qed.

Lemma field_sandbox c s m : field c (record_sandbox s m) = field c m.
Proof. by destruct c, s. Qed.

Lemma field_outcome c key o m :
  u64_wrap (field c (meter_outcome key o m)) = u64_wrap (field c m + total c (option_list (pair key <$> ao_usage o))).
Proof.
  unfold meter_outcome. rewrite field_sandbox. unfold total. destruct (ao_usage o); cbn [fmap option_fmap option_map option_list option_rect foldr];
    rewrite N.add_0_r; [apply field_usage|done].
Qed.

Lemma field_fold c worker m sp : u64_wrap (field c (fold_spend worker m sp)) = u64_wrap (field c sp + field c m).
Proof.
  destruct c as [| | |k]; [apply wrap_wrap..|].
  cbn [field]. unfold runs_of, fold_spend. cbn [sp_runs_by_role]. rewrite lookup_add_counts.
  destruct (sp_runs_by_role m !! k); cbn; [apply wrap_wrap|by rewrite N.add_0_r].
Qed.

Lemma fold_steps_spend ms st : spend (fold_left fold_step ms st) = spend st.
Proof. revert st. induction ms as [|ms l IH]; intros st; cbn [fold_left]; [done|]. rewrite IH. unfold fold_step. by destruct (mt_ticket ms). Qed.

Lemma drained_spend worker m st :
  spend (fold_left fold_step (sp_step_provenance m) (st <| spend ::= fold_spend worker m |>)) = fold_spend worker m (spend st).
Proof. apply fold_steps_spend. Qed.

Lemma fold_step_log tk ms st :
  keep_last MAX_STEP_PROVENANCE (log_of tk (fold_step st ms)) =
  keep_last MAX_STEP_PROVENANCE (log_of tk st ++ option_list (labelled tk ms)).
Proof.
  unfold fold_step, labelled. destruct (mt_ticket ms) as [t|]; [|by rewrite decide_False, app_nil_r].
  change (log_of tk (record_step_provenance t (mt_step ms) st)) with
    (default [] (push_entry MAX_STEP_PROVENANCE t (mt_step ms) (ticket_step_provenance st) !! tk)).
  unfold log_of, push_entry. destruct (decide (t = tk)) as [->|Hne].
  - rewrite lookup_insert_eq, decide_True by done. cbn [default]. apply keep_last_id, keep_last_le.
  - rewrite lookup_insert_ne by done. rewrite decide_False by congruence. by rewrite app_nil_r.
Qed.

Lemma fold_steps_log tk ms st :
  keep_last MAX_STEP_PROVENANCE (log_of tk (fold_left fold_step ms st)) =
  keep_last MAX_STEP_PROVENANCE (log_of tk st ++ omap (labelled tk) ms).
Proof.
  revert st. induction ms as [|x l IH]; intros st; cbn [fold_left]; [by rewrite app_nil_r|].
  rewrite IH, <-keep_last_keep_last, fold_step_log, keep_last_keep_last, <-app_assoc. cbn. by destruct (labelled tk x).
Qed.

Lemma pending_app tk (m m' : Spend) ms :
  sp_step_provenance m' = sp_step_provenance m ++ ms -> unfolded tk m' = unfolded tk m ++ omap (labelled tk) ms.
Proof. unfold unfolded. intros ->. apply omap_app. Qed.

Lemma provenance_outcome key o m : sp_step_provenance (meter_outcome key o m) = sp_step_provenance m.
Proof. unfold meter_outcome. by destruct (ao_usage o), (ao_sandbox o). Qed.

(** What one operation does to a counter and to the log of a ticket. *)
Lemma op_counts c op m st :
  let '(m', st') := meter_op (m, st) op in
  u64_wrap (field c (spend st') + field c m' + held c (thrown_away (m, st) op)) =
  u64_wrap (field c (spend st) + field c m + total c (option_list (usage_of op))).
Proof.
  destruct op as [now r [o|e]|now role [o|e]|worker [|]]; cbn [meter_op usage_of fmap option_fmap thrown_away held foldr fst];
    rewrite ?N.add_0_r.
  - unfold metered_run. rewrite <-wrap_r, field_outcome, wrap_r, <-N.add_assoc. do 3 f_equal.
    by destruct c; cbn; case_decide.
  - by destruct c.
  - unfold metered_resume. by rewrite <-wrap_r, field_outcome, wrap_r, <-N.add_assoc.
  - done.
  - cbn [drain_meter dn_state default]. rewrite drained_spend, N.add_0_r, <-wrap_l, field_fold, wrap_l.
    assert (field c (Datatypes.id Spend_default) = 0%N) as H by by destruct c. by rewrite H, N.add_0_r.
  - cbn [drain_meter dn_state default]. assert (field c (Datatypes.id Spend_default) = 0%N) as H by by destruct c. by rewrite H, N.add_0_r.
Qed.

Lemma op_logs tk op m st :
  drain_saved op ->
  let '(m', st') := meter_op (m, st) op in
  keep_last MAX_STEP_PROVENANCE (log_of tk st' ++ unfolded tk m') =
  keep_last MAX_STEP_PROVENANCE (log_of tk st ++ unfolded tk m ++ steps_of tk op).
Proof.
  intros Hs. destruct op as [now r [o|e]|now role [o|e]|worker saved]; cbn [meter_op steps_of]; [..|cbn in Hs; subst saved].
  - f_equal. f_equal. unfold metered_run. apply pending_app. rewrite provenance_outcome. by case_decide.
  - by rewrite app_nil_r.
  - rewrite app_nil_r. f_equal. f_equal. unfold metered_resume.
    rewrite (pending_app tk m _ [_]) by (by rewrite provenance_outcome). cbn. by rewrite app_nil_r.
  - by rewrite app_nil_r.
  - cbn [drain_meter dn_state default]. rewrite !app_nil_r. etrans; [apply fold_steps_log|done].
Qed.

Definition meter_ops (ops : list MeterOp) (s : Spend * ProjectState) : Spend * ProjectState := fold_left meter_op ops s.

Lemma usages_cons op ops : usages (op :: ops) = option_list (usage_of op) ++ usages ops.
Proof. cbn. by destruct (usage_of op). Qed.

(** C28: what the meter counts is in exactly one place. Whatever runs, resumed
    sessions and end-of-cycle drains happen in whatever order, and whichever drains'
    saves fail: for the number of runs, the input and the output tokens, and the
    runs of every role, what the engine reported is, as a 64-bit counter, the sum of
    what the project state gained, what the meter holds, and what the meter held at
    each drain whose save failed - which is lost, since the meter is emptied first.
    And when every drain's save succeeds, the provenance log of a ticket followed by
    the steps still in the meter has the same newest twelve as the log before with
    all the steps run for that ticket since; a resumed session's step names no
    ticket. The other counters of the meter are not claimed. *)
Theorem metered_in_one_place ops st m :
  let '(m', st') := meter_ops ops (m, st) in
  (forall c, u64_wrap (field c (spend st') + field c m' + held c (lost ops (m, st))) =
             u64_wrap (field c (spend st) + field c m + total c (usages ops))) /\
  (Forall drain_saved ops -> forall tk,
     keep_last MAX_STEP_PROVENANCE (log_of tk st' ++ unfolded tk m') =
     keep_last MAX_STEP_PROVENANCE (log_of tk st ++ unfolded tk m ++ concat (steps_of tk <$> ops))).
Proof.
  revert st m. induction ops as [|op ops IH]; intros st m.
  { split; [intros c; cbn; by rewrite !N.add_0_r|]. intros _ tk. cbn. by rewrite app_nil_r. }
  change (meter_ops (op :: ops) (m, st)) with (meter_ops ops (meter_op (m, st) op)).
  pose proof (fun c => op_counts c op m st) as Hc. pose proof (fun tk => op_logs tk op m st) as Hl.
  cbn [lost]. destruct (meter_op (m, st) op) as [m1 st1]. specialize (IH st1 m1).
  destruct (meter_ops ops (m1, st1)) as [m' st']. destruct IH as [IHc IHl]. split.
  - intros c. rewrite held_app, usages_cons, total_app, (N.add_comm (held c (thrown_away _ _))), !N.add_assoc.
    rewrite (wrap_cong _ _ _ (IHc c)), <-!N.add_assoc, (N.add_comm (total c (usages ops))), !N.add_assoc. apply wrap_cong, Hc.
  - intros [Hs Hss]%Forall_cons tk. rewrite (IHl Hss), fmap_cons, app_assoc, <-keep_last_keep_last, (Hl tk Hs), keep_last_keep_last.
    cbn [concat]. by rewrite !app_assoc.
Qed.

(** The counters of the confined, unconfined and refused runs stay in the meter: a
    drain resets them without folding them, so the project state never sees one. *)
Theorem sandbox_runs_never_persist ops st m :
  let '(m', st') := meter_ops ops (m, st) in
  sp_confined_runs (spend st') = sp_confined_runs (spend st) /\
  sp_unconfined_requested_runs (spend st') = sp_unconfined_requested_runs (spend st) /\
  sp_sandbox_denied_runs (spend st') = sp_sandbox_denied_runs (spend st) /\
  sp_last_sandbox_status (spend st') = sp_last_sandbox_status (spend st).
Proof.
  revert st m. induction ops as [|op ops IH]; intros st m; [done|].
  change (meter_ops (op :: ops) (m, st)) with (meter_ops ops (meter_op (m, st) op)).
  assert (H : exists m1 st1, meter_op (m, st) op = (m1, st1) /\
    (spend st1 = spend st \/ exists worker, spend st1 = fold_spend worker m (spend st))).
  { destruct op as [now r reply|now role reply|worker [|]]; cbn [meter_op]; [by eauto 6..| |by eauto 6].
    do 2 eexists. split; [done|]. right. exists worker. apply drained_spend. }
  destruct H as (m1 & st1 & -> & H). specialize (IH st1 m1). destruct (meter_ops ops (m1, st1)) as [m' st'].
  destruct IH as (-> & -> & -> & ->). by destruct H as [->|[worker ->]].
Qed.
End Conservation.

(** A metered run, a drain that reaches the store, another run, and a drain that does not. *)
Definition two_runs : list MeterOp :=
  let r := mkAgentRequest DevBug "" "" "" 60 0 (Some "B1") in
  let o := mkAgentOutcome "" "" (Some 0%Z) (Some (mkUsage 10 5 f64_zero)) "" None NotRequested "e" "m" [] in
  [MRun "t1" r (Ok o); MDrain "ann" true; MRun "t2" r (Ok o); MDrain "ann" false].

Lemma metered_in_one_place_witness :
  let '(m', st') := meter_ops "e" two_runs (Spend_default, ProjectState_default) in
  (u64_wrap (sp_input_tokens (spend st') + sp_input_tokens m' + held InputTokens (lost "e" two_runs (Spend_default, ProjectState_default)))
   = 20%N) /\ sp_input_tokens (spend st') = 10%N.
Proof.
  pose proof (metered_in_one_place "e" two_runs ProjectState_default Spend_default) as H.
  destruct (meter_ops "e" two_runs (Spend_default, ProjectState_default)) as [m' st'] eqn:E.
  destruct H as [H _]. split.
  - specialize (H InputTokens). cbn [field] in H. rewrite H. vm_compute. reflexivity.
  - apply (f_equal (fun x => sp_input_tokens (spend x.2))) in E. vm_compute in E. symmetry. exact E.
Defined.
