(* ===== verification/Scorecard.v ===== *)
(** * The books of a cycle

    What a cycle leaves in the project state: the project-wide cycle counter and the
    budget warnings of [cycle/mod.rs], the activity trail and the scorecard of
    [cycle/scrum.rs], the grades of [state/work.rs] and the delivery gate of
    [metrics_gate.rs]. *)
From Stdlib Require Import Sorted SpecFloat.
From S2P Require Import Prelude RustStr Kinds TestCase Ticket State StateOps Ports Goals Engine Titles Runner Metering.

(** ** The cycle counter *)

Definition max_cycle (scores : list CycleScore) : option N :=
  match scores with [] => None | _ => Some (foldr (fun c n => N.max (cs_cycle c) n) 0%N scores) end.

Definition advance_project_cycle (st : ProjectState) : ProjectState * N :=
  let st := if decide (cycle st = 0%N) then st <| cycle := default 0%N (max_cycle (cycle_scores st)) |> else st in
  let st := st <| cycle ::= fun n => u64_sat_add n 1 |> in
  (st, cycle st).

(** ** Grades *)

Definition grade_of (shipped runs useful incidents errors : N) : string :=
  if (0 <? incidents)%N || ((4 <=? runs) && (useful =? 0))%N then "D"
  else if (0 <? shipped)%N then "A"
  else if (0 <? runs)%N && (runs <=? N.min (useful * 2) u64_max)%N && (errors =? 0)%N then "B"
  else "C".

Definition can_finalize_cycle (shipped runs useful incidents errors : N) : bool :=
  negb (one_of (grade_of shipped runs useful incidents errors) ["C"; "D"]).

Definition should_record_cycle (scored_max : option N) (new_cycle : N) : bool :=
  from_option (fun m => (m <? new_cycle)%N) true scored_max.

(** ** The scorecard *)

Definition RoleHealth_default : RoleHealth := mkRoleHealth 0 0 "" "".

Definition counts_as_error (e : string) : bool := negb (contains "paused by self-tuning" e) && negb (contains "skipped" e).

(** An error of the form [ROLE: message] feeds the health of its role. *)
Definition feed_health (now : string) (health : gmap string RoleHealth) (e : string) : gmap string RoleHealth :=
  match split_once ":" e with
  | None => health
  | Some (role, msg) =>
      let role := trim role in
      if contains " " role then health
      else
        let h := default RoleHealth_default (health !! role) in
        let m := trim msg in
        let timeouts := if contains "timed out" (ascii_lowercase m) || contains "timeout" (ascii_lowercase m)
                        then u64_wrap (rh_timeouts h + 1) else rh_timeouts h in
        <[role := mkRoleHealth (u64_wrap (rh_errors h + 1)) timeouts (take_chars 160 m) now]> health
  end.

Definition b2N (b : bool) : N := if b then 1 else 0.

Definition shipped_of (r : CycleReport) : N := (b2N (is_some (cr_feature_done r)) + b2N (is_some (cr_bug_fixed r)))%N.

Definition useful_of (r : CycleReport) : N :=
  (shipped_of r + N.of_nat (length (cr_ba_created r)) + b2N (is_some (cr_sa_readied r)) + b2N (is_some (cr_pd_designed r)) +
   b2N (is_some (cr_documented r)) + N.of_nat (length (cr_bugs_filed r)))%N.

Definition errors_of (r : CycleReport) : list string := List.filter counts_as_error (cr_errors r).

Definition max_string (l : list string) : option string :=
  match l with [] => None | x :: l => Some (fold_left (fun a b => if str_le a b then b else a) l x) end.

Definition record_cycle_score (now : string) (r : CycleReport) (cost_usd : f64) (runs : N) (phase_secs : gmap string N)
    (phase_cost : gmap string f64) (st : ProjectState) : ProjectState :=
  let shipped := shipped_of r in
  let useful := useful_of r in
  let errors := N.of_nat (length (errors_of r)) in
  let st := st <| role_health ::= fun h => fold_left (feed_health now) (errors_of r) h |> in
  let incidents := N.of_nat (length (engine_incidents st)) in
  let grade := grade_of shipped runs useful incidents errors in
  if negb (should_record_cycle (max_cycle (cycle_scores st)) (cr_cycle r)) then st
  else if negb (can_finalize_cycle shipped runs useful incidents errors) then
    log_activity now "GATE"
      ("cycle " +:+ dec (cr_cycle r) +:+ " scored " +:+ grade +:+ " — blocked from delivery history (shipped " +:+ dec shipped +:+
       ", useful " +:+ dec useful +:+ "/" +:+ dec runs +:+ " runs, errors " +:+ dec errors +:+ ", incidents " +:+ dec incidents +:+ ")")
      None st
  else
    let last_scored_at :=
      default "" (max_string (cs_at <$> List.filter (fun c => (cs_cycle c <? cr_cycle r)%N) (cycle_scores st))) in
    let '(by_area, by_kind) := attention_delta_since last_scored_at st in
    st <| cycle_scores ::= push_capped 100
            (mkCycleScore (cr_cycle r) now runs useful cost_usd shipped incidents errors grade phase_secs phase_cost by_area by_kind) |>.

(** ** The budget *)

(** [policy::approaching_cap], and a reached cap. *)
Definition approaching_cap (spent : f64) (cap : option f64) (pct : f64) : bool :=
  from_option (fun cap => f64_ltb f64_zero cap && f64_leb (SFmul 53 1024 cap pct) spent && f64_ltb spent cap) false cap.

Definition over_cap (spent : f64) (cap : option f64) : bool :=
  from_option (fun cap => f64_ltb f64_zero cap && f64_leb cap spent) false cap.

Definition apply_budget_warnings (warn_pct : f64) (lifetime_cap daily_cap : option f64) (spent_today : f64)
    (over_lifetime over_daily : bool) (st : ProjectState) : ProjectState * (bool * bool) :=
  let near_lifetime := approaching_cap (sp_total_cost_usd (spend st)) lifetime_cap warn_pct || over_lifetime in
  let new_lifetime := near_lifetime && negb (budget_warned_lifetime st) in
  let st := st <| budget_warned_lifetime := near_lifetime |> in
  let near_daily := approaching_cap spent_today daily_cap warn_pct || over_daily in
  let new_daily := near_daily && negb (budget_warned_daily st) in
  (st <| budget_warned_daily := near_daily |>, (new_lifetime, new_daily)).

(** ** The trail *)

Definition log_each (now agent action : string) (ids : list TicketId) (st : ProjectState) : ProjectState :=
  fold_left (fun st id => log_activity now agent action (Some id) st) ids st.

Definition log_report (now : string) (r : CycleReport) (st : ProjectState) : ProjectState :=
  let st := log_each now "BA" "proposed feature" (cr_ba_created r) st in
  let st := log_each now "SA" "designed (technical)" (option_list (cr_sa_readied r)) st in
  let st := if cr_design_system_created r then log_activity now "PD" "established design system" None st else st in
  let st := log_each now "PD" "designed UX & readied" (option_list (cr_pd_designed r)) st in
  let st := log_each now "DEV-BUG" "fixed bug" (option_list (cr_bug_fixed r)) st in
  let st := log_each now "DEV-FEATURE" "implemented feature" (option_list (cr_feature_done r)) st in
  let st := log_each now "DOCS" "documented" (option_list (cr_documented r)) st in
  log_each now "TEST" "filed bug" (cr_bugs_filed r) st.

(** What [record_activity] does between its load and its save: the state it saves, the
    meter it leaves, whether a cap is reached, the warnings to send. *)
Record Books := mkBooks { bk_state : ProjectState; bk_meter : option Spend; bk_over : bool; bk_warn : bool * bool }.

Definition close_books (now worker : string) (leader : bool) (r : CycleReport) (meter : option Spend)
    (phase_secs : gmap string N) (caps : option f64 * option f64) (warn_pct : f64) (st : ProjectState) : Books :=
  let st := log_report now r st in
  let '(d, meter) := drain_meter worker meter st in
  let st := if leader then record_cycle_score now r (dn_cost d) (dn_runs d) phase_secs (dn_by_role d) (dn_state d) else dn_state d in
  let '(st, spent_today) := add_daily_spend now (dn_cost d) st in
  let over_lifetime := over_cap (sp_total_cost_usd (spend st)) caps.1 in
  let over_daily := over_cap spent_today caps.2 in
  let st := if over_daily then log_activity now "POLICY" "daily budget cap reached" None st else st in
  let '(st, warn) := apply_budget_warnings warn_pct caps.1 caps.2 spent_today over_lifetime over_daily st in
  mkBooks st meter (over_lifetime || over_daily) warn.

(** ** The history the scorecard keeps *)

Definition graded (c : CycleScore) : Prop := cs_grade c = "A" \/ cs_grade c = "B".

(** The number the counter stands on: the history's when it was never used. *)
Definition counter (st : ProjectState) : N := if decide (cycle st = 0%N) then default 0%N (max_cycle (cycle_scores st)) else cycle st.

(** Every row is a delivering cycle, in strictly rising order, a hundred at most, and
    none is ahead of the counter once the counter is in use; the counter is a u64. *)
Record books_wf (st : ProjectState) : Prop := {
  bw_sorted : StronglySorted N.lt (cs_cycle <$> cycle_scores st);
  bw_bound : length (cycle_scores st) <= 100;
  bw_graded : Forall graded (cycle_scores st);
  bw_counter : cycle st = 0%N \/ Forall (fun c => (cs_cycle c <= cycle st)%N) (cycle_scores st);
  bw_u64 : (counter st <= u64_max)%N;
}.

(** Of these, what holds of the rows alone. *)
Record history_wf (st : ProjectState) : Prop := {
  hw_sorted : StronglySorted N.lt (cs_cycle <$> cycle_scores st);
  hw_bound : length (cycle_scores st) <= 100;
  hw_graded : Forall graded (cycle_scores st);
}.

(** One cycle's end: a leading cycle under the number the counter gives it, and one
    without the lease under its own. *)
Record Closing := mkClosing {
  cl_now : string; cl_worker : string; cl_report : CycleReport; cl_meter : option Spend;
  cl_secs : gmap string N; cl_caps : option f64 * option f64; cl_pct : f64;
}.

Definition renumber (n : N) (r : CycleReport) : CycleReport :=
  mkCycleReport n (cr_ba_created r) (cr_sa_readied r) (cr_design_system_created r) (cr_pd_designed r) (cr_bug_fixed r)
    (cr_feature_done r) (cr_documented r) (cr_bugs_filed r) (cr_errors r) (cr_over_budget r).

Definition close (leader : bool) (c : Closing) (r : CycleReport) (st : ProjectState) : ProjectState :=
  bk_state (close_books (cl_now c) (cl_worker c) leader r (cl_meter c) (cl_secs c) (cl_caps c) (cl_pct c) st).

(** How the store takes the counter's read-modify-write at the start of a leading
    cycle: it loads and saves, loads but does not save, or does not load, when the
    leader falls back to its process-local number. *)
Inductive CounterReply := CounterSaved | CounterUnsaved | CounterUnread (local : N).

Definition lead_number (reply : CounterReply) (st : ProjectState) : ProjectState * N :=
  match reply with
  | CounterSaved => advance_project_cycle st
  | CounterUnsaved => (st, snd (advance_project_cycle st))
  | CounterUnread local => (st, local)
  end.

Definition lead_cycle (reply : CounterReply) (c : Closing) (st : ProjectState) : ProjectState :=
  let '(st, n) := lead_number reply st in close true c (renumber n (cl_report c)) st.

Definition work_cycle (c : Closing) (st : ProjectState) : ProjectState := close false c (cl_report c) st.

Definition finalizes (c : Closing) (st : ProjectState) : bool :=
  let r := cl_report c in
  can_finalize_cycle (shipped_of r) (from_option sp_runs 0%N (cl_meter c)) (useful_of r)
    (N.of_nat (length (engine_incidents st))) (N.of_nat (length (errors_of r))).

(** What the steps around the scorecard leave alone. *)
Definition books_core (st : ProjectState) : list CycleScore * N * list EngineIncident := (cycle_scores st, cycle st, engine_incidents st).

Lemma log_each_core now agent action ids st : books_core (log_each now agent action ids st) = books_core st.
Proof. unfold log_each. revert st. induction ids as [|id ids IH]; intros st; [done|]. cbn [fold_left]. by rewrite IH. Qed.

Lemma log_core now agent action tk st : books_core (log_activity now agent action tk st) = books_core st.
Proof. done. Qed.

Lemma log_report_core now r st : books_core (log_report now r st) = books_core st.
Proof.
  unfold log_report. cbv zeta. rewrite !log_each_core.
  destruct (cr_design_system_created r); [rewrite log_core|]; by rewrite !log_each_core.
Qed.

Lemma drain_core worker meter st : books_core (dn_state (drain_meter worker meter st).1) = books_core st.
Proof.
  destruct meter as [m|]; [|done]. cbn [drain_meter fst dn_state]. generalize (sp_step_provenance m).
  assert (H : books_core (st <| spend ::= fold_spend worker m |>) = books_core st) by done. revert H.
  generalize (st <| spend ::= fold_spend worker m |>). intros s Hs l. rewrite <-Hs. clear Hs. revert s.
  induction l as [|x l IH]; intros s; [done|]. cbn [fold_left]. rewrite IH. unfold fold_step. by destruct (mt_ticket x).
Qed.

Lemma daily_core now usd st : books_core (add_daily_spend now usd st).1 = books_core st.
Proof. unfold add_daily_spend. cbv zeta. cbn [fst]. repeat case_decide; done. Qed.

Lemma warnings_core pct lc dc today ol od st : books_core (apply_budget_warnings pct lc dc today ol od st).1 = books_core st.
Proof. done. Qed.

(** The scored state: the trail, the drained meter. *)
Definition scored_from (c : Closing) (r : CycleReport) (st : ProjectState) : ProjectState :=
  dn_state (drain_meter (cl_worker c) (cl_meter c) (log_report (cl_now c) r st)).1.

Lemma scored_core c r st : books_core (scored_from c r st) = books_core st.
Proof. unfold scored_from. by rewrite drain_core, log_report_core. Qed.

Definition drained_of (c : Closing) (r : CycleReport) (st : ProjectState) : Drained :=
  (drain_meter (cl_worker c) (cl_meter c) (log_report (cl_now c) r st)).1.

Lemma close_core leader c r st :
  books_core (close leader c r st) =
  books_core (if leader then record_cycle_score (cl_now c) r (dn_cost (drained_of c r st)) (dn_runs (drained_of c r st)) (cl_secs c)
                         (dn_by_role (drained_of c r st)) (scored_from c r st) else scored_from c r st).
Proof.
  unfold close, close_books, scored_from, drained_of. destruct (drain_meter _ _ _) as [d meter]. cbn [fst].
  set (s := if leader then _ else _). pose proof (daily_core (cl_now c) (dn_cost d) s) as Hd.
  destruct (add_daily_spend _ _ s) as [s' today]. cbn [fst] in Hd. rewrite <-Hd. cbv zeta.
  destruct (over_cap today _); unfold apply_budget_warnings; cbv zeta; done.
Qed.

(** ** What one cycle does to the history *)

Lemma max_below c l n :
  (foldr (fun c n => N.max (cs_cycle c) n) 0 (c :: l) < n)%N <-> Forall (fun c => (cs_cycle c < n)%N) (c :: l).
Proof.
  revert c. induction l as [|x l IH]; intros c.
  - rewrite Forall_singleton. cbn [foldr]. lia.
  - rewrite Forall_cons, <-IH. cbn [foldr]. lia.
Qed.

Lemma should_record_above scores n :
  should_record_cycle (max_cycle scores) n = true <-> Forall (fun c => (cs_cycle c < n)%N) scores.
Proof. destruct scores as [|c l]; [by split|]. unfold should_record_cycle. cbn [max_cycle from_option]. by rewrite N.ltb_lt, max_below. Qed.

Lemma max_cycle_ge scores : Forall (fun c => (cs_cycle c <= default 0 (max_cycle scores))%N) scores.
Proof.
  destruct scores as [|c l]; [done|]. cbn [max_cycle default]. set (m := foldr _ _ _).
  assert (H : (m < m + 1)%N) by lia. apply max_below in H. eapply Forall_impl; [exact H|]. cbn. lia.
Qed.

Lemma grade_finalizes a b c d e : can_finalize_cycle a b c d e = true -> grade_of a b c d e = "A" \/ grade_of a b c d e = "B".
Proof.
  unfold can_finalize_cycle, grade_of. destruct (_ || _); [by vm_compute|]. destruct (0 <? a)%N; [by left|].
  destruct (_ && _); [by right|by vm_compute].
Qed.

Lemma increasing_snoc l n : StronglySorted N.lt l -> Forall (fun m => (m < n)%N) l -> StronglySorted N.lt (l ++ [n]).
Proof.
  induction l as [|x l IH]; intros Hs Hl; cbn; [by repeat constructor|].
  inversion Hs; inversion Hl; subst. constructor; [auto|]. rewrite Forall_app, Forall_singleton. auto.
Qed.

Lemma sorted_drop l n : StronglySorted N.lt l -> StronglySorted N.lt (drop n l).
Proof. revert n. induction l as [|x l IH]; intros [|n] H; cbn; auto. inversion H. auto. Qed.

Definition scored_as (c : Closing) (n : N) (st : ProjectState) (x : CycleScore) : Prop :=
  cs_cycle x = n /\ cs_runs x = from_option sp_runs 0%N (cl_meter c) /\ cs_shipped x = shipped_of (cl_report c) /\
  cs_useful x = useful_of (cl_report c) /\ cs_errors x = N.of_nat (length (errors_of (cl_report c))) /\
  cs_incidents x = N.of_nat (length (engine_incidents st)) /\
  cs_grade x = grade_of (cs_shipped x) (cs_runs x) (cs_useful x) (cs_incidents x) (cs_errors x).

Lemma drained_runs c r st : dn_runs (drained_of c r st) = from_option sp_runs 0%N (cl_meter c).
Proof. unfold drained_of. by destruct (cl_meter c). Qed.

(** The history after the end of a leading cycle numbered [n]. *)
Lemma close_history c n st :
  let st' := close true c (renumber n (cl_report c)) st in
  cycle st' = cycle st /\ engine_incidents st' = engine_incidents st /\
  if should_record_cycle (max_cycle (cycle_scores st)) n && finalizes c st
  then exists x, cycle_scores st' = push_capped 100 x (cycle_scores st) /\ scored_as c n st x
  else cycle_scores st' = cycle_scores st.
Proof.
  cbv zeta. set (r := renumber n (cl_report c)). pose proof (close_core true c r st) as H. cbn iota in H.
  pose proof (scored_core c r st) as Hs.
  rewrite drained_runs in H. unfold record_cycle_score in H. cbv zeta in H. revert Hs H.
  generalize (scored_from c r st), (dn_cost (drained_of c r st)), (dn_by_role (drained_of c r st)).
  intros s cost roles Hs. set (s' := s <| role_health ::= _ |>). change (books_core s) with (books_core s') in Hs. clearbody s'.
  revert Hs. intros [= H1 H2 H3]. unfold finalizes.
  change (shipped_of r) with (shipped_of (cl_report c)). change (useful_of r) with (useful_of (cl_report c)).
  change (errors_of r) with (errors_of (cl_report c)). change (cr_cycle r) with n. rewrite H1, H3.
  destruct (should_record_cycle _ n); cbn [negb andb]; [|by intros [= -> -> ->]; rewrite H1, H2, H3].
  destruct (can_finalize_cycle _ _ _ _ _) eqn:Hf; cbn [negb]; [|by intros [= -> -> ->]; rewrite H1, H2, H3].
  destruct (attention_delta_since _ _) as [area kind]. intros [= -> -> ->]. rewrite H2, H3. split_and!; [done..|].
  eexists. split; [by rewrite <-H1|]. by split_and!.
Qed.

Lemma advance_counter st :
  advance_project_cycle st = (st <| cycle := u64_sat_add (counter st) 1 |>, u64_sat_add (counter st) 1).
Proof. unfold advance_project_cycle, counter. by case_decide; destruct st. Qed.

Lemma counter_above st : books_wf st -> Forall (fun c => (cs_cycle c <= counter st)%N) (cycle_scores st).
Proof. intros [_ _ _ Hc _]. unfold counter. case_decide; [apply max_cycle_ge|]. by destruct Hc. Qed.

Lemma counter_at_most st n : Forall (fun c => (cs_cycle c <= n)%N) (cycle_scores st) -> (cycle st <= n)%N -> (counter st <= n)%N.
Proof.
  unfold counter. intros Hs Hc. case_decide; [|done]. destruct (cycle_scores st) as [|c l]; [apply N.le_0_l|].
  change (foldr (fun c n => N.max (cs_cycle c) n) 0 (c :: l) <= n)%N. assert (H' : Forall (fun c => (cs_cycle c < n + 1)%N) (c :: l)).
  { eapply Forall_impl; [exact Hs|]. cbn. lia. }
  apply max_below in H'. lia.
Qed.

(** What a later state keeps of a sound history. *)
Lemma books_wf_later st st' :
  books_wf st -> (counter st <= cycle st')%N -> (cycle st' <= u64_max)%N -> cycle_scores st' = cycle_scores st -> books_wf st'.
Proof.
  intros Hw Hn Hu E. pose proof (counter_above st Hw) as Ha. destruct Hw as [Hs Hl Hg _ _].
  assert (Hle : Forall (fun c => (cs_cycle c <= cycle st')%N) (cycle_scores st')).
  { rewrite E. eapply Forall_impl; [exact Ha|]. cbn. lia. }
  split; rewrite ?E; auto. { right. by rewrite <-E. }
  etrans; [|exact Hu]. by apply counter_at_most.
Qed.

Lemma books_wf_scored st st' x :
  books_wf st -> (counter st <= cycle st')%N -> (cycle st' <= u64_max)%N -> cs_cycle x = cycle st' -> graded x ->
  Forall (fun c => (cs_cycle c < cycle st')%N) (cycle_scores st) ->
  cycle_scores st' = push_capped 100 x (cycle_scores st) -> books_wf st'.
Proof.
  intros [Hs Hl Hg _ _] Hn Hu Hx Hgx Ha E.
  assert (Hle : Forall (fun c => (cs_cycle c <= cycle st')%N) (cycle_scores st')).
  { rewrite E. apply push_capped_Forall; [cbn; lia|]. eapply Forall_impl; [exact Ha|]. cbn. lia. }
  split.
  - rewrite E. unfold push_capped, keep_last. rewrite fmap_drop, fmap_app. apply sorted_drop. cbn. rewrite Hx.
    apply increasing_snoc; [done|]. by rewrite Forall_fmap.
  - rewrite E. apply push_capped_le.
  - rewrite E. by apply push_capped_Forall.
  - by right.
  - etrans; [|exact Hu]. by apply counter_at_most.
Qed.

Lemma history_pushed st st' n x :
  history_wf st -> Forall (fun c => (cs_cycle c < n)%N) (cycle_scores st) -> cs_cycle x = n -> graded x ->
  cycle_scores st' = push_capped 100 x (cycle_scores st) -> history_wf st'.
Proof.
  intros [Hs Hl Hg] Ha Hx Hgx E. split; rewrite E.
  - unfold push_capped, keep_last. rewrite fmap_drop, fmap_app. apply sorted_drop. cbn. rewrite Hx.
    apply increasing_snoc; [done|]. by rewrite Forall_fmap.
  - apply push_capped_le.
  - by apply push_capped_Forall.
Qed.

Lemma history_same st st' : history_wf st -> cycle_scores st' = cycle_scores st -> history_wf st'.
Proof. intros [] E. by split; rewrite E. Qed.

Lemma work_core c st : books_core (work_cycle c st) = books_core st.
Proof. unfold work_cycle. rewrite close_core. apply scored_core. Qed.

Lemma books_wf_core st st' : books_core st' = books_core st -> books_wf st -> books_wf st'.
Proof.
  intros [= E1 E2 E3] [Hs Hl Hg Hc Hu]. split; unfold counter in *; rewrite ?E1, ?E2; auto.
Qed.

Lemma scored_graded c n st x : finalizes c st = true -> scored_as c n st x -> graded x.
Proof.
  unfold finalizes, graded. intros Hf (_ & -> & -> & -> & -> & -> & ->). by apply grade_finalizes.
Qed.

(** The rows below [n]. *)
Definition all_below (n : N) (scores : list CycleScore) : bool := forallb (fun x => (cs_cycle x <? n)%N) scores.

Lemma all_below_record n scores : should_record_cycle (max_cycle scores) n = all_below n scores.
Proof.
  apply eq_true_iff_eq. rewrite should_record_above. unfold all_below. rewrite forallb_forall, Forall_forall.
  split; intros H x Hx; [apply N.ltb_lt|apply N.ltb_lt, H]; [apply H|]; by apply list_elem_of_In.
Qed.

(** One leading cycle, under whatever number it got. *)
Lemma lead_history reply c st :
  let '(st0, n) := lead_number reply st in
  cycle (lead_cycle reply c st) = cycle st0 /\
  if finalizes c st && all_below n (cycle_scores st)
  then exists x, cycle_scores (lead_cycle reply c st) = push_capped 100 x (cycle_scores st) /\ scored_as c n st x /\ graded x
  else cycle_scores (lead_cycle reply c st) = cycle_scores st.
Proof.
  unfold lead_cycle. destruct (lead_number reply st) as [st0 n] eqn:E.
  assert (cycle_scores st0 = cycle_scores st /\ engine_incidents st0 = engine_incidents st) as [Ec Ei].
  { destruct reply as [| |local]; cbn in E; rewrite ?advance_counter in E; by injection E as <- <-. }
  pose proof (close_history c n st0) as (H1 & _ & H3). cbv zeta in H1, H3.
  assert (finalizes c st0 = finalizes c st) as Ef by (unfold finalizes; by rewrite Ei).
  rewrite all_below_record, Ef, Ec, andb_comm in H3. split; [exact H1|].
  destruct (finalizes c st && _) eqn:Hf; [|exact H3]. destruct H3 as (x & Hx & Hs).
  assert (scored_as c n st x) as Hs' by (unfold scored_as in *; by rewrite Ei in Hs).
  exists x. split_and!; [done..|]. apply andb_prop in Hf as [Hf _]. by eapply scored_graded.
Qed.


Lemma default_books_wf : books_wf ProjectState_default.
Proof. split; cbn; [constructor|lia|constructor|by left|done]. Qed.

(** A cycle that shipped a feature for two engine runs. *)
Definition shipping : Closing :=
  mkClosing "2026-01-05T10:00:00Z" "ann@mac" (mkCycleReport 0 [] None false None None (Some "CXA-F001") None [] [] false)
    (Some (Spend_default <| sp_runs := 2%N |>)) ∅ (None, None) f64_zero.


(** A leader whose load of the counter fails keeps its process-local number. One such
    number ahead of the project's is recorded, and blocks every later row. *)
Theorem local_number_blocks_the_history :
  let st := ProjectState_default <| cycle := 10%N |> in
  let st := lead_cycle (CounterUnread 5000) shipping st in
  cs_cycle <$> cycle_scores st = [5000%N] /\ finalizes shipping st = true /\
  cycle (lead_cycle CounterSaved shipping st) = 11%N /\
  cs_cycle <$> cycle_scores (lead_cycle CounterSaved shipping st) = [5000%N].
Proof. vm_compute. done. Qed.

(** A pause is an error of its role: burn mode and the full queue count, the pause of
    self-tuning does not. *)
Theorem burn_pause_counts_as_error :
  counts_as_error "DEV-FEATURE: paused by self-tuning — burning down bugs first" = false /\
  counts_as_error "DEV-FEATURE: paused by burn mode — open bugs still above the exit gate" = true /\
  rh_errors <$> (feed_health "t" ∅ "DEV-FEATURE: paused by burn mode — open bugs still above the exit gate" !! "DEV-FEATURE") = Some 1%N.
Proof. vm_compute. done. Qed.
