(* ===== verification/CyclePorts.v ===== *)
(** * The ports of a cycle

    What [RunCycleUseCase] of [use_cases/cycle/mod.rs] is configured with and calls.
    A [CycleMutation] is one closure handed to [mutate_state], [apply_cycle] what it
    does to the loaded state. A [Phase] is a step of the cycle that reports nothing
    back; the passes of the roles reply what the cycle puts into its report, their
    errors as text. [now] and [ids] are the clock and the message ids a write reads. *)
From S2P Require Import Prelude RustStr Kinds TestCase Ticket State StateOps Ports Channels Titles AddTicket MergePolicy Engine Effects DevPorts Runner Selection.

(** The configuration and attachments a cycle reads. *)
Record CycleConfig := mkCycleConfig {
  cc_worker : string;
  cc_dir_name : option string;
  cc_dir_parent : option string;
  cc_work_dir : string;
  cc_git : bool;
  cc_forge : bool;
  cc_deploy : bool;
  cc_janitor : bool;
  cc_leader_election : bool;
  cc_model : string;
  cc_model_allowlist : list string;
  cc_quiet_hours_utc : string;
  cc_sandbox : bool;
  cc_vi : bool;
  cc_scrum : bool;
  cc_ba_every_n_cycles : N;
  cc_feature_dev_enabled : bool;
  cc_debt_sweep_every : N;
  cc_route_exceptions_to : option string;
  cc_git_enabled : bool;
  cc_max_open_prs : N;
  cc_target_branch : string;
  cc_default_branch : string;
  cc_ops_monitor : bool;
  cc_host_port : option N;
  cc_host_port_probe : result unit (option N);
  cc_deploy_enabled : bool;
  cc_auto_rollback : bool;
  cc_live_health_auto_rollback : bool;
  cc_live_health_fail_checks : N;
  cc_max_rollback_age_secs : N;
  cc_migration_detection_paths : list string;
  cc_budget_warn_pct : f64;
}.

(** ** Writes *)

Inductive CycleMutation :=
| MRecoveryOver (msg : string)
| MRecoveryOn (msg : string)
| MRecoveryStatus (msg : string)
| MSeenClosed (n : N)
| MDrainNotice (sprint : N) (msg : string)
| MOpsDown
| MOpsUp
| MClaimDaily (job today : string)
| MClearBurn
| MKnownGood (sha at_ summary : string)
| MRollback (reason at_ to_sha : string) (ok : bool) (summary : string) (bundle : option DeployFailureBundle)
| MRollbackSkipped (reason to_sha summary : string) (stale migration_blocked : bool)
| MIncident (body : string) (inc : IncidentRecord)
| MLesson (text : string)
| MTestPass (fingerprint : string).

(** [state/lessons.rs]: [record_lesson] *)
Definition MAX_LESSON_RECORDS : nat := 24.
Definition MAX_PROMPT_LESSONS : nat := 12.

Definition is_lesson (text : string) (r : LessonRecord) : bool := bool_decide (ls_text r = text).

Definition re_recorded (r : LessonRecord) : LessonRecord :=
  mkLessonRecord (ls_text r) (ls_at r) (ls_cycle r) (u64_sat_add (ls_re_recordings r) 1) (ls_recurrences r) (ls_escalated r)
    (ls_id r) (ls_source r).

Definition record_lesson (now lesson : string) (st : ProjectState) : ProjectState * bool :=
  let lesson := trim lesson in
  if decide (lesson = "") then (st, false)
  else
    let known := existsb (is_lesson lesson) (lesson_records st) in
    let st :=
      if known then st <| lesson_records ::= update_first (is_lesson lesson) re_recorded |>
      else st <| lesson_records ::= push_capped MAX_LESSON_RECORDS (mkLessonRecord lesson now (cycle st) 0 [] None None None) |> in
    let st := if one_of lesson (lessons st) then st else st <| lessons ::= push_capped MAX_PROMPT_LESSONS lesson |> in
    (st, negb known).

Definition MAX_INCIDENTS : nat := 12.
Definition INCIDENTS_CHANNEL : string := "incidents".

(** [short_sha]: seven bytes of an ASCII sha. *)
Definition short_sha (sha : string) : string := String.substring 0 (7 `min` String.length sha) sha.

Definition rolled_back_status (now_at : string) (to_sha summary : string) (st : ProjectState) : DeployStatus :=
  mkDeployStatus now_at true ("rolled back to " +:+ short_sha to_sha +:+ ": " +:+ summary) (Some to_sha)
    (deploy st ≫= ds_health_check) None.

Section CycleWrites.
Context (now : string) (ids : nat -> string).

Definition say (i : nat) (msg : string) (st : ProjectState) : ProjectState :=
  post_chat_in (ids i) now "SM" msg AGENTS_CHANNEL [] st.

Definition apply_cycle (m : CycleMutation) (st : ProjectState) : result PortError ProjectState :=
  match m with
  | MRecoveryOver msg => Ok (if queue_recovery st then say 0 msg (st <| queue_recovery := false |>) else st)
  | MRecoveryOn msg =>
      Ok (if queue_recovery st then st
          else say 1 msg (post_comment (ids 0) now "SM" msg None (st <| queue_recovery := true |> <| pr_fix_attempts := ∅ |>)))
  | MRecoveryStatus msg => Ok (if queue_recovery st then say 0 msg st else st)
  | MSeenClosed n => Ok (st <| seen_closed_prs ::= fun s => s ∪ {[n]} |>)
  | MDrainNotice sprint msg =>
      Ok (if decide (drain_notice_sprint st = sprint) then st
          else say 1 msg (post_comment (ids 0) now "SM" msg None (st <| drain_notice_sprint := sprint |>)))
  | MOpsDown => Ok (st <| ops_down := true |> <| ops_down_streak ::= fun n => u32_sat_add n 1 |>)
  | MOpsUp => Ok (st <| ops_down := false |> <| ops_down_streak := 0%N |>)
  | MClaimDaily job today =>
      if decide (daily_jobs st !! job = Some today) then Err (Conflict "already ran today")
      else Ok (st <| daily_jobs ::= insert job today |>)
  | MClearBurn => Ok (Selection.clear_burn_mode_if_gate_met st).1
  | MKnownGood sha at_ summary =>
      let st := st <| deploy_index ::= fun n => u64_wrap (n + 1) |> <| in_rollback := false |> in
      Ok (st <| last_good_deploy := Some (mkKnownGoodDeploy sha at_ (deploy_index st) summary) |>)
  | MRollback reason at_ to_sha ok summary bundle =>
      let st := log_activity now "ROLLBACK" summary None st in
      let st := post_comment (ids 0) now "SM"
                  ("🔙 auto-rollback (" +:+ reason +:+ ") to " +:+ short_sha to_sha +:+ ": " +:+ summary) None st in
      let st := st <| last_rollback := Some (mkRollbackStatus at_ reason to_sha ok summary false false bundle) |> in
      Ok (if ok then st <| in_rollback := true |> <| deploy := Some (rolled_back_status at_ to_sha summary st) |> else st)
  | MRollbackSkipped reason to_sha summary stale blocked =>
      Ok (st <| last_rollback := Some (mkRollbackStatus now reason to_sha false summary stale blocked None) |>)
  | MIncident body inc =>
      let st := if decide (in_failed_sha inc = "") then st else st <| rolled_back_commits ::= fun s => s ∪ {[in_failed_sha inc]} |> in
      let st := post_chat_in (ids 0) now "SM" body INCIDENTS_CHANNEL [] st in
      Ok (st <| incidents ::= push_capped MAX_INCIDENTS inc |>)
  | MLesson text => Ok (record_lesson now text st).1
  | MTestPass fp => Ok (st <| daily_jobs ::= insert "test-verified-set-v3" fp |>)
  end.
End CycleWrites.

(** ** Calls *)

Inductive Phase :=
| ReconcileBrakeHolds | RefreshCodegraph (n : N) | AdvanceSprint (n : N) | SprintWatch | DailyDigest | BugSnapshot
| MemoryHygiene | SelfTune | LessonEfficacy | ForgeHygiene | CutRelease | TrendSentinel | ShipTruth | PrTruth | PoDaily
| SecuritySweep | BacklogHygiene | LessonToGate | ReviewOpenPrs | AddressPrFeedback | DebtSweep (n : N) | ReclaimMisfiledBugs
| Unpark | DriveSprintFlow | ImpedimentWatch | Standup | Grooming | DedupBacklog | EvictTerminal | CommitForTicket (id : TicketId) (kind : string)
| ClarifyNextFeature | AnswerOpenQuestions | EscalateStaleQuestions | FlushFocusDigests | PreflightCriteria | AdaptiveApproval
| CollectEvidence (id : TicketId) | CollectMissingEvidence | MatchRecurrence (text reason incident_at : string)
| RealignSpec | TestCaseScreenshots | SweepUnshipped | ScrumDiscussion (r : CycleReport) (n : N).

(** A pass of a role replies with the text of its error. *)
Inductive CycleCall :=
| KJanitor | KSandboxStatus | KSwapWarned | KEngineId | KNow | KPaused
| KLoad | KSave (st : ProjectState) | KMutate (m : CycleMutation)
| KAcquireLeader (me now : string) | KHeartbeat (me role now : string)
| KNotify (kind msg : string) | KReport (phase : option (string * string))
| KPhase (ph : Phase)
| KTreeHygiene
(** The first queued job, taken off the queue; the merge of a pull request that a
    person ordered. *)
| KTakeJob | KForceMerge (num : N) (by_ : string)
| KListPrs | KClosePr (n : N)
| KAddTicket (input : AddTicketInput)
| KGit (args : list string)
| KHealth (port : N) | KWaitHealthy (port : N) | KDeploy (dir : string) | KRunTests
| KHeadSha | KUpdateRef (ref sha : string) | KWorktreeRemove (dir : string) | KWorktreeAdd (dir sha : string)
| KChangedPaths (from to : string) | KAge (at_ : string)
| KPing | KDev (m : DevMode)
| KBa | KSa | KPd | KDocs | KTest | KConformance | KMilestones | KReleases | KDesignSystem
| KVisualQa (id : TicketId)
| KMint | KTakeMeter | KPhaseSecs | KCaps | KPurgeTarget.

Definition cycle_reply (c : CycleCall) : Type :=
  match c with
  | KSandboxStatus => SandboxStatus
  | KSwapWarned | KPaused => bool
  | KEngineId | KNow | KMint => string
  | KLoad => result PortError ProjectState
  | KSave _ | KMutate _ | KClosePr _ | KUpdateRef _ _ | KWorktreeRemove _ | KWorktreeAdd _ _ => result PortError unit
  | KAcquireLeader _ _ => result PortError bool
  | KTreeHygiene => list string
  | KTakeJob => option PendingJob
  | KListPrs => result PortError (list PullRequest)
  | KAddTicket _ => result AppError TicketId
  | KGit _ => bool * string
  | KHealth _ => result PortError bool
  | KWaitHealthy _ => option HealthCheckResult
  | KDeploy _ | KRunTests => result PortError DeployReport
  | KHeadSha => result PortError string
  | KChangedPaths _ _ => result PortError (list string)
  | KAge _ => option N
  | KPing => Reply
  | KDev _ | KSa | KPd | KDocs => result string (option TicketId)
  | KBa | KTest | KConformance => result string (list TicketId)
  | KMilestones => result string unit
  | KReleases => result string (list string)
  | KDesignSystem => result string bool
  | KVisualQa _ => list TicketId
  | KTakeMeter => option Spend
  | KPhaseSecs => gmap string N
  | KCaps => option f64 * option f64
  | _ => unit
  end.

#[global] Abbreviation CycleProg := (Prog cycle_reply).

Declare Scope cycle_scope.
Delimit Scope cycle_scope with cycle.
Open Scope cycle_scope.
Notation "'do!' x := c 'in' k" := (@Do CycleCall cycle_reply _ c (fun x => k))
  (at level 10, x name, c at level 100, k at level 200) : cycle_scope.
Notation "'run!' x := p 'in' k" := (@pbind CycleCall cycle_reply _ _ p (fun x => k))
  (at level 10, x name, p at level 100, k at level 200) : cycle_scope.
(** A call whose reply is dropped. *)
Notation "'just!' c 'in' k" := (@Do CycleCall cycle_reply _ c (fun _ => k))
  (at level 10, c at level 100, k at level 200) : cycle_scope.
