(* ===== verification/Deploys.v ===== *)
(** * Deploy, health gate, rollback

    [cycle/ops.rs], the bug filing of [cycle/qa_evidence.rs] and the deploy leg of
    [run_cycle] ([cycle/mod.rs]): deploy, the mandatory health gate, the test suite,
    and either a new known-good build or the rollback to the last one.
    [to_lowercase] is Unicode case folding. *)
From S2P Require Import Prelude RustStr Kinds TestCase Ticket State StateOps Ports Channels Titles AddTicket MergePolicy Engine Effects DevPorts Runner CyclePorts.

Definition LAST_GOOD_REF : string := "refs/coxagent/last-good".

(** ** The report *)

Definition add_error (e : string) (r : CycleReport) : CycleReport := r <| cr_errors ::= fun l => l ++ [e] |>.
Definition add_bug (id : TicketId) (r : CycleReport) : CycleReport := r <| cr_bugs_filed ::= fun l => l ++ [id] |>.
Definition add_bug_opt (o : option TicketId) (r : CycleReport) : CycleReport := from_option (fun id => add_bug id r) r o.

(** ** Text *)

Definition describe_health_failure (h : HealthCheckResult) : string :=
  "(containers started but the app never answered healthily on its port — health check failed: " +:+
  from_option (fun code => "HTTP " +:+ dec code) "no response" (hc_http_status h) +:+
  from_option (fun ms => " after " +:+ dec ms +:+ "ms") "" (hc_response_time_ms h) +:+ ")".

Definition path_join (parent dir : string) : string :=
  if (bool_decide (parent = "")) || ends_with "/" parent then parent +:+ dir else parent +:+ "/" +:+ dir.

Section Deploys.
Context (to_lowercase : string -> string).
Context (p : CycleConfig).

Definition notify (kind msg : string) : CycleProg unit := just! KNotify kind msg in Ret tt.
Definition mutate (m : CycleMutation) : CycleProg unit := just! KMutate m in Ret tt.

Definition rollback_worktree_path : string :=
  let dir := default "project" (cc_dir_name p) +:+ "-rollback" in
  from_option (fun parent => path_join parent dir) dir (cc_dir_parent p).

(** ** The health gate *)

Definition HEALTH_ATTEMPTS : nat := 15.

Fixpoint poll_health (tries : nat) (port : N) : CycleProg bool :=
  match tries with
  | O => Ret false
  | S tries =>
      do! h := KHealth port in
      match h with Ok true => Ret true | _ => poll_health tries port end
  end.

Definition verify_deploy_health (host_port : option N) : CycleProg bool :=
  match host_port with
  | None => Ret true
  | Some port => if (port =? 0)%N then Ret false else poll_health HEALTH_ATTEMPTS port
  end.

Definition verify_deploy_health_probe (probe : result unit (option N)) : CycleProg bool :=
  match probe with Ok port => verify_deploy_health port | Err _ => Ret false end.

Definition verify_health_after_deploy : CycleProg bool :=
  if cc_deploy p then verify_deploy_health_probe (cc_host_port_probe p) else Ret true.

(** [None] is the guard around a probe that wedges. *)
Definition run_health_check : CycleProg (bool * option HealthCheckResult) :=
  if negb (cc_deploy p) then Ret (true, None)
  else
    match cc_host_port_probe p with
    | Ok None => Ret (true, None)
    | Err _ => Ret (false, None)
    | Ok (Some port) =>
        do! r := KWaitHealthy port in
        let r := default (mkHealthCheckResult false None None) r in
        Ret (hc_passed r, Some r)
    end.

(** ** The records *)

Definition record_deploy (ok : bool) (summary : string) (commit_sha : option string) (health_check : option HealthCheckResult)
    (bundle : option DeployFailureBundle) : CycleProg unit :=
  do! st := KLoad in
  match st with
  | Err _ => Ret tt
  | Ok st =>
      do! at_ := KNow in
      do! id := KMint in
      let st := log_activity at_ "DEPLOY" summary None st in
      let st := post_comment id at_ "SM" ((if ok then "shipped" else "deploy failed") +:+ ": " +:+ summary) None st in
      let st := st <| deploy := Some (mkDeployStatus at_ ok summary commit_sha health_check bundle) |> in
      just! KSave st in Ret tt
  end.

Definition record_known_good (sha : option string) (summary : string) : CycleProg unit :=
  match sha with
  | None => Ret tt
  | Some sha =>
      run! _ := (if cc_git p then just! KUpdateRef LAST_GOOD_REF sha in Ret tt else Ret tt) in
      do! at_ := KNow in
      mutate (MKnownGood sha at_ summary)
  end.

(** ** Bugs *)

Definition open_bug_marked (marker : string) (t : Ticket) : bool :=
  bool_decide (t_kind t = Bug) && bool_decide (t_status t = Open) && starts_with marker (t_title t).

Definition bug_input (title description : string) (acceptance : list string) : AddTicketInput :=
  mkAddTicketInput Bug title description High CMedium false acceptance None None.

(** A bug under a marker, unless one is open. *)
Definition file_marked_bug (marker title description : string) (acceptance : list string) : CycleProg (option TicketId) :=
  do! st := KLoad in
  match st with
  | Err _ => Ret None
  | Ok st =>
      if existsb (open_bug_marked marker) (tickets st) then Ret None
      else do! r := KAddTicket (bug_input (marker +:+ ": " +:+ title) description acceptance) in Ret (result_ok r)
  end.

Definition is_port_clash (summary : string) : bool :=
  contains_any ["already allocated"; "address already in use"; "bind for"] (to_lowercase summary).

Definition deploy_bug_description (summary : string) : string :=
  if is_port_clash summary then
    "The docker deploy failed because a host port is already in use — an infra clash, not a code defect. Fix the compose file so every published port maps from an environment variable defaulting to " +:+
    from_option (fun port => "host port " +:+ dec port +:+ " (this project's assigned port)") "the project's assigned host port" (cc_host_port p) +:+
    " (e.g. `" +:+ dquote +:+ "${APP_PORT:-<port>}:<container>" +:+ dquote +:+
    "`), never a hardcoded shared port, so redeploys and other stacks don't collide. Verify `docker compose up -d --build` then succeeds." +:+
    newline +:+ newline +:+ "Deploy output: " +:+ summary
  else
    "The docker deploy failed and the container is not running. Root-cause and fix so `docker compose up -d --build` succeeds." +:+
    newline +:+ newline +:+ "Deploy output: " +:+ summary.

Definition file_deploy_bug (summary : string) : CycleProg (option TicketId) :=
  file_marked_bug "Deploy failing" summary (deploy_bug_description summary)
    (if is_port_clash summary
     then ["Published ports come from an env var, not a hardcoded value";
           "`docker compose up -d --build` succeeds with the container running"]
     else []).

Definition file_test_failure (summary : string) : CycleProg (option TicketId) :=
  file_marked_bug "Tests failing" (default "test suite is red" (head (lines summary)))
    ("The test suite is failing — Definition of Done is not met. Make the tests pass (fix the code or the test)." +:+
     newline +:+ newline +:+ "Output:" +:+ newline +:+ summary)
    ["The full test suite passes"].

Definition file_rollback_failed_bug (summary : string) : CycleProg (option TicketId) :=
  file_marked_bug "Rollback failed" summary
    ("Auto-rollback to the last known-good deploy failed after one retry — the environment may still be on a broken build. Investigate the deploy tooling (e.g. is the Docker daemon up?) and restore service by hand if needed." +:+
     newline +:+ newline +:+ "Rollback output: " +:+ summary)
    ["The app is reachable and serving a known-good build"].

(** ** Rollback *)

Definition post_mortem (reason : string) (failed_sha : option string) (target_sha : string) (rolled_forward : bool)
    (summary : string) (failure_summary : option string) : CycleProg unit :=
  let failed := default "" failed_sha in
  let short_target := short_sha target_sha in
  do! incident_at := KNow in
  let mood := if rolled_forward then "rolled-forward/stale" else "rolled-back" in
  let body := "🩺 Post-mortem (" +:+ reason +:+ "): " +:+ summary +:+ " → " +:+ mood +:+ " to " +:+ short_target +:+ " [" +:+
              failed +:+ "] — root cause filed as tracked work." in
  run! _ := mutate (MIncident body (mkIncidentRecord incident_at reason failed target_sha (negb rolled_forward) summary None None)) in
  run! _ := notify "incident_post_mortem" body in
  run! _ := mutate (MLesson (reason +:+ " triggered an auto-rollback to " +:+ short_target +:+ "; fix shipped as tracked work.")) in
  let match_text := match failure_summary with Some s => if decide (trim s = "") then summary else s | None => summary end in
  just! KPhase (MatchRecurrence match_text reason incident_at) in Ret tt.

Definition record_rollback_skipped (reason : string) (failed_sha : option string) (to_sha summary : string)
    (stale migration_blocked : bool) : CycleProg unit :=
  run! _ := mutate (MRollbackSkipped reason to_sha summary stale migration_blocked) in
  run! _ := notify "rollback_blocked" ("Rollback skipped for `" +:+ reason +:+ "`: " +:+ summary) in
  post_mortem reason failed_sha to_sha true summary None.

Definition finish_rollback (reason : string) (failed_sha : option string) (good_sha : string) (ok : bool) (summary : string)
    (failure_summary : option string) (bundle : option DeployFailureBundle) (r : CycleReport) : CycleProg CycleReport :=
  do! at_ := KNow in
  run! _ := mutate (MRollback reason at_ good_sha ok summary bundle) in
  run! _ := notify (if ok then "rollback_ok" else "rollback_failed")
              ("auto-rollback (" +:+ reason +:+ ") to " +:+ short_sha good_sha +:+ ": " +:+ summary) in
  if ok then run! _ := post_mortem reason failed_sha good_sha false summary failure_summary in Ret r
  else run! id := file_rollback_failed_bug summary in Ret (add_bug_opt id r).

Definition migration_shipped_since (good_sha failed_sha : string) : CycleProg bool :=
  do! changed := KChangedPaths good_sha failed_sha in
  let changed := match changed with Ok l => l | Err _ => [] end in
  Ret (existsb (fun path => existsb (fun prefix => starts_with prefix path) (cc_migration_detection_paths p)) changed).

(** The redeploy of the known-good build in a worktree of its own. *)
Definition redeploy (good_sha : string) : CycleProg (bool * string * option DeployFailureBundle) :=
  let path := rollback_worktree_path in
  just! KWorktreeRemove path in
  do! added := KWorktreeAdd path good_sha in
  match added with
  | Err e => Ret (false, "rollback worktree failed: " +:+ port_error_text e, None)
  | Ok _ =>
      do! r := KDeploy path in
      match r with
      | Err e => Ret (false, "rollback deploy failed: " +:+ port_error_text e, None)
      | Ok r =>
          if dr_success r then
            run! healthy := verify_health_after_deploy in
            if healthy : bool then Ret (true, dr_summary r, None)
            else Ret (false, dr_summary r +:+ " (containers started but the app never bound its port — health check failed)", None)
          else Ret (false, dr_summary r, dr_failure_bundle r)
      end
  end.

Definition revert_to_known_good (reason : string) (failed_sha : option string) (r : CycleReport) : CycleProg CycleReport :=
  if negb (cc_deploy p && cc_git p) then Ret r
  else
    do! st := KLoad in
    match st with
    | Err _ => Ret r
    | Ok st =>
        match last_good_deploy st with
        | None => Ret r
        | Some good =>
            if decide (failed_sha = Some (kg_sha good)) then Ret r
            else
              do! age := KAge (kg_at good) in
              if from_option (fun age => (cc_max_rollback_age_secs p <? age)%N) true age then
                run! _ := record_rollback_skipped reason failed_sha (kg_sha good) "known-good deploy is stale" true false in Ret r
              else
                run! migrated := (match failed_sha with Some sha => migration_shipped_since (kg_sha good) sha | None => Ret false end) in
                if migrated : bool then
                  run! _ := record_rollback_skipped reason failed_sha (kg_sha good)
                              "a migration shipped since the known-good deploy — rolling back the app code alone would be unsafe"
                              false true in Ret r
                else
                  run! out := redeploy (kg_sha good) in
                  let '(ok, summary, own_bundle) := out in
                  let bundle := if ok : bool then deploy st ≫= ds_failure_bundle else own_bundle in
                  finish_rollback reason failed_sha (kg_sha good) ok summary (ds_summary <$> deploy st) bundle r
        end
    end.

Definition attempt_rollback (reason : string) (failed_sha : option string) (r : CycleReport) : CycleProg CycleReport :=
  if cc_auto_rollback p then revert_to_known_good reason failed_sha r else Ret r.

Definition attempt_live_health_rollback (failed_sha : option string) (r : CycleReport) : CycleProg CycleReport :=
  if cc_live_health_auto_rollback p then revert_to_known_good "live health failed" failed_sha r else Ret r.

(** ** The deploy leg of a cycle *)

Definition collect_all (ids : list TicketId) : CycleProg unit :=
  fold_right (fun id k => just! KPhase (CollectEvidence id) in k) (Ret tt) ids.

(** Evidence for what shipped: the looks at a build that answers. *)
Definition collect_shipped (r : CycleReport) : CycleProg CycleReport :=
  run! _ := collect_all (option_list (cr_feature_done r) ++ option_list (cr_bug_fixed r)) in
  run! r := (match cr_feature_done r with
             | Some id => do! bugs := KVisualQa id in Ret (fold_left (fun r id => add_bug id r) bugs r)
             | None => Ret r
             end) in
  just! KPhase CollectMissingEvidence in Ret r.

(** A deploy that reported: whether it is bad, and the report. *)
Definition deploy_reported (attempt_sha : option string) (d : DeployReport) (r : CycleReport) : CycleProg (bool * CycleReport) :=
  run! health := (if dr_success d then run_health_check else Ret (true, None)) in
  let '(health_ok, health_check) := health in
  let success := dr_success d && health_ok in
  let summary :=
    match health_check with
    | Some h => if health_ok : bool then dr_summary d else dr_summary d +:+ " " +:+ describe_health_failure h
    | None => dr_summary d
    end in
  run! _ := record_deploy success summary attempt_sha health_check (dr_failure_bundle d) in
  run! _ := notify (if success then "deploy_ok" else "deploy_failed") summary in
  if success then run! r := collect_shipped r in Ret (false, r)
  else run! id := file_deploy_bug summary in Ret (true, add_bug_opt id r).

Definition deploy_errored (attempt_sha : option string) (e : PortError) (r : CycleReport) : CycleProg CycleReport :=
  let summary := "deploy failed: " +:+ port_error_text e in
  run! _ := record_deploy false summary attempt_sha None None in
  run! _ := notify "deploy_failed" summary in
  run! id := file_deploy_bug summary in
  Ret (add_error ("DEPLOY: " +:+ port_error_text e) (add_bug_opt id r)).

(** How the deploy went: bad, ran well, or was skipped. *)
Inductive Attempt := Bad | RanOk | Skipped.

Definition try_deploy (attempt_sha : option string) (r : CycleReport) : CycleProg (Attempt * CycleReport) :=
  do! d := KDeploy (cc_work_dir p) in
  match d with
  | Err e => run! r := deploy_errored attempt_sha e r in Ret (Bad, r)
  | Ok d =>
      if dr_deployed d then
        run! out := deploy_reported attempt_sha d r in
        Ret (if out.1 : bool then Bad else RanOk, out.2)
      else Ret (Skipped, r)
  end.

Definition run_suite (r : CycleReport) : CycleProg (bool * CycleReport) :=
  do! t := KRunTests in
  match t with
  | Err e => Ret (false, add_error ("TESTS: " +:+ port_error_text e) r)
  | Ok t =>
      if dr_deployed t && negb (dr_success t) then
        run! id := file_test_failure (dr_summary t) in Ret (true, add_bug_opt id r)
      else Ret (false, r)
  end.

Definition deploy_leg (r : CycleReport) : CycleProg CycleReport :=
  run! attempt_sha := (if cc_git p then do! sha := KHeadSha in Ret (result_ok sha) else Ret None) in
  run! attempt := try_deploy attempt_sha r in
  run! tests := run_suite attempt.2 in
  let '(tests_bad, r) := tests in
  match attempt.1 with
  | Bad => attempt_rollback "deploy failed" attempt_sha r
  | RanOk | Skipped =>
      if tests_bad : bool then attempt_rollback "tests failed" attempt_sha r
      else
        match attempt.1 with
        | RanOk => run! _ := record_known_good attempt_sha "deploy + tests passed" in Ret r
        | _ => Ret r
        end
  end.
End Deploys.
