(* ===== verification/Cycle.v ===== *)
(** * One cycle of the team

    [run_cycle] of [cycle/mod.rs] as a program over its ports, with the queue recovery
    and the ops monitor of [cycle/recovery.rs], the pull-request backpressure of
    [cycle/forge.rs] and the books of [cycle/scrum.rs]. A stage that can end the cycle
    early returns a [Stage]. [semver_parse] and [semver_text] are the semver crate's,
    [percent] the text of a share, [to_lowercase] Unicode case folding. *)
From S2P Require Import Prelude RustStr Kinds TestCase Ticket State StateOps Ports Channels Titles AddTicket MergePolicy Selection Engine Focus Effects DevPorts Runner Metering Scorecard CyclePorts Deploys.

#[export] Instance SemVer_eq_dec : EqDecision SemVer.
Proof. solve_decision. Defined.

Inductive Stage (A : Type) := On (a : A) | Over (r : CycleReport).
Arguments On {A} _.
Arguments Over {A} _.

Definition sbind {A B} (m : CycleProg (Stage A)) (k : A -> CycleProg (Stage B)) : CycleProg (Stage B) :=
  run! x := m in match x with On a => k a | Over r => Ret (Over r) end.

Notation "'stage!' x := m 'in' k" := (sbind m (fun x => k))
  (at level 10, x name, m at level 100, k at level 200) : cycle_scope.

Definition CycleReport_new (n : N) : CycleReport := mkCycleReport n [] None false None None None None [] [] false.

(** ** Text *)

(** [s.get(a..b)] *)
Definition str_slice (a b : nat) (s : string) : option string :=
  head ← str_get_to b s;
  if (a =? 0) || is_char_boundary a head then Some (String.substring a (b - a) head) else None.

(** Minutes since midnight UTC of an RFC 3339 stamp. *)
Definition minutes_of (now : string) : option N :=
  h ← str_slice 11 13 now;
  m ← str_slice 14 16 now;
  h ← parse_uint u32_max h;
  m ← parse_uint u32_max m;
  Some (h * 60 + m)%N.

Definition version_on (line : string) : option string :=
  rest ← strip_prefix "version" (trim line);
  rhs ← strip_prefix "=" (trim_start rest);
  Some (trim (trim_matches "034" (trim rhs))).

Definition today_of (now : string) : string := default "" (str_get_to 10 now).

Section Cycle.
Context (to_lowercase : string -> string) (semver_parse : string -> option SemVer) (semver_text : SemVer -> string).
Context (percent : f64 -> string).
Context (p : CycleConfig).

(** The first [version = "x.y.z"] that parses. *)
Definition parse_cargo_version (text : string) : option string :=
  head (List.filter (fun v => is_some (semver_parse v)) (omap version_on (lines text))).

Definition report_phase (role note : string) : CycleProg unit := just! KReport (Some (role, note)) in Ret tt.
Definition report_idle : CycleProg unit := just! KReport None in Ret tt.

Definition phases (l : list Phase) : CycleProg unit := fold_right (fun ph k => just! KPhase ph in k) (Ret tt) l.

Definition log_git (action : string) : CycleProg unit :=
  do! st := KLoad in
  match st with
  | Err _ => Ret tt
  | Ok st => do! now := KNow in just! KSave (log_activity now "GIT" action None st) in Ret tt
  end.

(** A load that answers a question about the state; a failed load answers no. *)
Definition state_says (f : ProjectState -> bool) : CycleProg bool :=
  do! st := KLoad in Ret (match st with Ok st => f st | Err _ => false end).

(** ** Before the cycle starts *)

Definition warn_if_sandbox_unsupported : CycleProg unit :=
  if negb (cc_sandbox p) then Ret tt
  else
    do! s := KSandboxStatus in
    match s with
    | Unavailable reason =>
        do! warned := KSwapWarned in
        if warned : bool then Ret tt
        else notify "sandbox_unsupported"
               ("workflow.sandbox is on but this host has no supported confinement mechanism (" +:+ reason +:+
                ") — agent file writes are NOT confined to the workspace.")
    | _ => Ret tt
    end.

(** [policy::model_allowed] *)
Definition model_allowed : bool := bool_decide (cc_model_allowlist p = []) || one_of (cc_model p) (cc_model_allowlist p).

Definition model_policy_blocks (r : CycleReport) : CycleProg (bool * CycleReport) :=
  if model_allowed then Ret (false, r)
  else
    let r := add_error ("POLICY: model '" +:+ cc_model p +:+ "' is not in the allowlist") r <| cr_over_budget := true |> in
    do! st := KLoad in
    run! _ := (match st with
               | Ok st => do! now := KNow in
                          just! KSave (log_activity now "POLICY" ("blocked model '" +:+ cc_model p +:+ "'") None st) in Ret tt
               | Err _ => Ret tt
               end) in
    run! _ := notify "policy_blocked" ("model '" +:+ cc_model p +:+ "' is not in the allowlist — loop paused") in
    Ret (true, r).

Definition urgent_bug (t : Ticket) : bool :=
  bool_decide (t_kind t = Bug) && bool_decide (t_status t = Open) && bool_decide (t_priority t = High).

Definition quiet_hours_block : CycleProg bool :=
  let window := trim (cc_quiet_hours_utc p) in
  if decide (window = "") then Ret false
  else
    do! now := KNow in
    match minutes_of now with
    | None => Ret false
    | Some minutes =>
        if negb (in_quiet_window window minutes) then Ret false
        else run! urgent := state_says (fun st => existsb urgent_bug (tickets st)) in Ret (negb urgent)
    end.

Definition engine_incident_open : CycleProg bool :=
  do! engine := KEngineId in
  state_says (fun st => existsb (is_incident engine) (engine_incidents st)).

(** One developer pass, and a ping when there was nothing to claim. *)
Definition run_canary_probe (r : CycleReport) : CycleProg CycleReport :=
  run! _ := report_phase "DEV-BUG" "canary probe (engine incident open)" in
  do! d := KDev ModeBug in
  run! r := (match d with
             | Ok (Some done) => Ret (r <| cr_bug_fixed := Some done |>)
             | Ok None =>
                 do! o := KPing in
                 Ret (match o with
                      | Ok o => if succeeded o then add_error "canary: engine answered — recovering" r
                                else add_error ("canary probe: " +:+ failure_detail o) r
                      | Err e => add_error ("canary probe: " +:+ port_error_text e) r
                      end)
             | Err e => Ret (add_error ("canary probe: " +:+ e) r)
             end) in
  run! _ := report_idle in Ret r.

(** ** The lease and the number *)

Definition me : string := if decide (cc_worker p = "") then "local" else cc_worker p.

Definition elect (now : string) : CycleProg bool :=
  if cc_leader_election p then do! r := KAcquireLeader me now in Ret (default true (result_ok r)) else Ret false.

(** The project's number for a leader, the process's own otherwise. *)
Definition number (leader : bool) (n : N) : CycleProg N :=
  if leader then
    do! st := KLoad in
    match st with
    | Ok st => let '(st, n) := advance_project_cycle st in just! KSave st in Ret n
    | Err _ => Ret n
    end
  else Ret n.

(** ** Pull-request pressure *)

Definition flow_base : string :=
  let t := trim (cc_target_branch p) in if decide (t = "") then cc_default_branch p else t.

Definition into_base (pr : PullRequest) : bool := bool_decide (pr_base pr = flow_base).

Definition open_pr_count : CycleProg (option nat) :=
  if negb (cc_git_enabled p) || (cc_max_open_prs p =? 0)%N || negb (cc_forge p) then Ret None
  else do! prs := KListPrs in Ret (match prs with Ok prs => Some (length (List.filter into_base prs)) | Err _ => None end).

Definition recovery_threshold : nat := Nat.max (N.to_nat (cc_max_open_prs p) * 2) 8.

Definition recovered_text (open limit : string) : string :=
  if cc_vi p then "✅ Queue đã hồi phục — còn " +:+ open +:+ " PR mở (limit " +:+ limit +:+ "). Team quay lại làm việc bình thường."
  else "✅ Merge queue recovered — " +:+ open +:+ " open PR(s) (limit " +:+ limit +:+ "). Back to normal work.".

Definition recovery_text (open threshold limit : string) : string :=
  if cc_vi p then
    "🚨 RECOVERY MODE: " +:+ open +:+ " PR đang mở (ngưỡng " +:+ threshold +:+
    "). Từ giờ mỗi cycle chỉ merge + gỡ conflict — không code mới, không file bug mới (bug cũ chưa merge thì test lại chỉ đẻ trùng). Đóng các PR 'resolve conflict' mồ côi. Queue về dưới " +:+
    limit +:+ " là team chạy lại bình thường."
  else
    "🚨 RECOVERY MODE: " +:+ open +:+ " open PRs (threshold " +:+ threshold +:+
    "). Cycles now do merge/conflict work only — no new code, no new bug filing. Obsolete resolver-PRs get closed. Normal work resumes under " +:+
    limit +:+ " open PRs.".

Definition drain_text (open conflicted : string) : string :=
  if cc_vi p then
    "🔧 Recovery: còn " +:+ open +:+ " PR mở, " +:+ conflicted +:+
    " dính conflict. Luật: xử hết conflict TRƯỚC rồi mới design/feature mới — DEV fix 8 conflict/cycle (cũ nhất trước), SA re-review và merge ngay khi xanh."
  else
    "🔧 Recovery: " +:+ open +:+ " open PRs, " +:+ conflicted +:+
    " conflicting. Law: conflicts are cleared BEFORE any new design/feature work — DEV fixes 8 per cycle (oldest first), SA re-reviews and merges as soon as they're green.".

Definition is_resolver_pr (pr : PullRequest) : bool := contains "Resolve merge conflict on PR #" (pr_title pr).

Fixpoint close_resolvers (prs : list PullRequest) : CycleProg unit :=
  match prs with
  | [] => Ret tt
  | pr :: prs =>
      do! r := KClosePr (pr_number pr) in
      run! _ := (if is_ok r then
                   run! _ := mutate (MSeenClosed (pr_number pr)) in
                   log_git ("recovery: closed obsolete resolver PR #" +:+ dec (pr_number pr) +:+ " (" +:+ pr_title pr +:+ ")")
                 else Ret tt) in
      close_resolvers prs
  end.

Definition with_open_prs (k : list PullRequest -> CycleProg unit) : CycleProg unit :=
  if cc_forge p then do! prs := KListPrs in match prs with Ok prs => k prs | Err _ => Ret tt end else Ret tt.

Definition run_queue_recovery (open : option nat) : CycleProg bool :=
  match open with
  | None => Ret false
  | Some open =>
      let limit := N.to_nat (cc_max_open_prs p) in
      if open <? recovery_threshold then
        run! _ := (if open <=? limit then mutate (MRecoveryOver (recovered_text (dec_nat open) (dec_nat limit))) else Ret tt) in
        Ret false
      else
        run! _ := mutate (MRecoveryOn (recovery_text (dec_nat open) (dec_nat recovery_threshold) (dec_nat limit))) in
        run! _ := report_phase "SM" ("recovery: draining " +:+ dec_nat open +:+ " open PRs") in
        run! _ := with_open_prs (fun prs =>
          mutate (MRecoveryStatus (drain_text (dec_nat open) (dec_nat (length (List.filter (fun pr => negb (pr_mergeable pr)) prs)))))) in
        run! _ := with_open_prs (fun prs => close_resolvers (List.filter is_resolver_pr prs)) in
        Ret true
  end.

Definition clean_base_required : CycleProg bool := state_says refactor_mode.

Definition hold_text (open : string) : string :=
  if cc_vi p then
    "🏗️ Sprint refactor tạm HOÃN khởi công: còn " +:+ open +:+
    " PR đang mở — refactor trên nền chưa merge sạch sẽ làm các PR đó không thể merge nổi sau này. Kế hoạch: team dồn toàn lực merge/đóng hết queue (fix conflict 2 PR/cycle, cũ nhất trước), queue sạch là refactor bắt đầu ngay. Bạn có thể tự merge các PR xanh trong tab Review để đẩy nhanh."
  else
    "🏗️ Refactor sprint ON HOLD: " +:+ open +:+
    " PR(s) still open — restructuring on an unmerged base would make them unmergeable. Plan: the team drains the whole queue first (2 conflict-fixes per cycle, oldest first); the refactor starts the moment it's empty. You can speed this up by merging green PRs in the Review tab.".

Definition announce_drain_hold (open : nat) : CycleProg unit :=
  do! st := KLoad in
  match st with
  | Err _ => Ret tt
  | Ok st =>
      let sprint_no := from_option sp_number 0%N (sprint st) in
      if decide (drain_notice_sprint st = sprint_no) then Ret tt
      else mutate (MDrainNotice sprint_no (hold_text (dec_nat open)))
  end.

(** The pull requests agents may still act on, and the claims in flight. *)
Definition handed_off (st : ProjectState) (pr : PullRequest) : bool :=
  from_option (fun n => (2 <? n)%N) false (pr_fix_attempts st !! pr_number pr).

Definition in_flight (st : ProjectState) : nat :=
  length (List.filter (fun t => bool_decide (t_status t = InProgress)) (tickets st)).

Definition pr_queue_full : CycleProg bool :=
  if negb (cc_git_enabled p) || (cc_max_open_prs p =? 0)%N || negb (cc_forge p) then Ret false
  else
    do! prs := KListPrs in
    match prs with
    | Err _ => Ret false
    | Ok prs =>
        do! st := KLoad in
        let handed pr := match st with Ok st => handed_off st pr | Err _ => false end in
        let flying := match st with Ok st => in_flight st | Err _ => 0 end in
        let open := length (List.filter (fun pr => into_base pr && negb (handed pr)) prs) in
        if (open =? 0) && (flying =? 0) then Ret false
        else
          run! clean := clean_base_required in
          if clean : bool then run! _ := announce_drain_hold open in Ret true
          else Ret (N.to_nat (cc_max_open_prs p) <=? open + flying)
    end.

(** ** Chores of the leader *)

(** The version mirror follows the manifest of the base branch at origin. *)
Definition reconcile_version : CycleProg unit :=
  if negb (cc_git p) then Ret tt
  else
    just! KGit ["fetch"; "-q"; "origin"; flow_base] in
    do! shown := KGit ["show"; "origin/" +:+ flow_base +:+ ":Cargo.toml"] in
    if negb shown.1 then Ret tt
    else
      match parse_cargo_version shown.2 ≫= semver_parse with
      | None => Ret tt
      | Some repo =>
          do! st := KLoad in
          match st with
          | Err _ => Ret tt
          | Ok st =>
              if decide (repo = current_version st) then Ret tt
              else
                do! now := KNow in
                just! KSave (log_activity now "SYSTEM"
                  ("version mirror synced " +:+ semver_text (current_version st) +:+ " → " +:+ semver_text repo +:+
                   " (manifest on main is truth)") None (st <| current_version := repo |>)) in Ret tt
          end
      end.

Definition seed_wiki (n : N) : CycleProg unit :=
  if (n =? 1)%N then
    do! st := KLoad in
    match st with
    | Ok st => just! KSave (normalize_doc_folders (ensure_standard_folders st)) in Ret tt
    | Err _ => Ret tt
    end
  else Ret tt.

Definition awaiting_work (t : Ticket) : bool := one_of (t_status t) [Open; Pending; Ready].

Definition backlog_has_room : CycleProg bool := state_says (fun st => length (List.filter awaiting_work (tickets st)) <? 30).

(** [debt_sweep_every_cycles()]: zero means ten. *)
Definition debt_sweep_every_cycles : N := if (cc_debt_sweep_every p =? 0)%N then 10%N else cc_debt_sweep_every p.

Definition debt_sweep (n : N) : CycleProg unit :=
  if (n mod debt_sweep_every_cycles =? 0)%N then
    run! room := backlog_has_room in if room : bool then phases [DebtSweep n] else Ret tt
  else Ret tt.

Definition claim_daily (job : string) : CycleProg bool :=
  do! now := KNow in
  do! r := KMutate (MClaimDaily job (today_of now)) in Ret (is_ok r).

Definition down_input (port : string) : AddTicketInput :=
  mkAddTicketInput Bug ("App is DOWN — no response on port " +:+ port)
    "The Ops monitor found the deployed app not accepting connections. Check the container/logs for a crash and restore service."
    High CMedium false ["App answers on 127.0.0.1:" +:+ port +:+ " again"] None None.

Definition ops_monitor (r : CycleReport) : CycleProg CycleReport :=
  match cc_host_port p with
  | Some port =>
      if negb (cc_ops_monitor p && cc_deploy p) then Ret r
      else
        do! st := KLoad in
        match st with
        | Err _ => Ret r
        | Ok st =>
            if is_nil (history st) then Ret r
            else
              do! health := KHealth port in
              if default true (result_ok health) then
                if ops_down st then
                  run! _ := mutate MOpsUp in
                  run! _ := notify "ops_up" ("App recovered — responding on port " +:+ dec port +:+ " again.") in Ret r
                else Ret r
              else
                run! _ := mutate MOpsDown in
                run! _ := (if ops_down st then Ret tt
                           else
                             just! KAddTicket (down_input (dec port)) in
                             notify "ops_down" ("App is DOWN — nothing responding on port " +:+ dec port +:+ ". Filed a high-priority bug.")) in
                if (u32_sat_add (ops_down_streak st) 1 =? N.max (cc_live_health_fail_checks p) 1)%N
                then attempt_live_health_rollback p (deploy st ≫= ds_commit_sha) r
                else Ret r
        end
  | None => Ret r
  end.

(** Whether a refactor sprint is on; it ends with its last chore. *)
Definition maintain_refactor_sprint : CycleProg bool :=
  do! st := KLoad in
  match st with
  | Err _ => Ret false
  | Ok st =>
      if negb (refactor_mode st) then Ret false
      else if open_refactor_count st =? 0 then
        do! again := KLoad in
        match again with
        | Err _ => Ret false
        | Ok s =>
            do! now := KNow in
            do! id := KMint in
            let msg := if cc_vi p then "✅ Refactor sprint hoàn tất — nền tảng đã dọn xong, quay lại làm feature."
                       else "✅ Refactor sprint complete — the foundation is cleaned up; back to features." in
            just! KSave (log_activity now "SA" "refactor sprint complete" None
                           (post_comment id now "SA" msg None (s <| refactor_mode := false |>))) in Ret false
        end
      else run! _ := phases [RealignSpec] in Ret true
  end.

(** ** The leader's half at the top *)

Definition ba_due (n : N) : bool := (0 <? cc_ba_every_n_cycles p)%N && ((n - 1) mod cc_ba_every_n_cycles p =? 0)%N.

(** The proposals of the BA: due, not paused, no refactor, room in the backlog. *)
Definition propose (n : N) (recovery refactoring : bool) (r : CycleReport) : CycleProg CycleReport :=
  run! ba_paused := state_says (fun st => tn_skip_ba (tuning st)) in
  let r := if ba_paused && ba_due n then add_error "BA: paused by self-tuning — backlog outgrew throughput" r else r in
  run! room := backlog_has_room in
  if negb ba_paused && negb refactoring && ba_due n && room then
    if recovery : bool then Ret (add_error "BA: paused — merge-queue recovery" r)
    else
      run! _ := report_phase "BA" "proposing features" in
      do! ids := KBa in
      Ret (match ids with Ok ids => r <| cr_ba_created := ids |> | Err e => add_error ("BA: " +:+ e) r end)
  else Ret r.

Definition plan_milestones (r : CycleReport) : CycleProg CycleReport :=
  run! due := claim_daily "po-milestones" in
  if due : bool then
    run! _ := report_phase "PO" "planning milestones" in
    do! m := KMilestones in
    Ret (match m with Ok _ => r | Err e => add_error ("PO milestones: " +:+ e) r end)
  else Ret r.

Definition release_milestones (r : CycleReport) : CycleProg CycleReport :=
  do! released := KReleases in
  match released with
  | Ok [] => Ret r
  | Ok l => run! _ := report_phase "RELEASE" ("released milestone(s): " +:+ join ", " l) in Ret r
  | Err e => Ret (add_error ("RELEASE: " +:+ e) r)
  end.

Definition design_the_system (r : CycleReport) : CycleProg CycleReport :=
  run! due := claim_daily "pd-design-system" in
  if due : bool then
    run! _ := report_phase "PD" "designing UX" in
    do! created := KDesignSystem in
    Ret (match created with Ok b => r <| cr_design_system_created := b |> | Err e => add_error ("PD design-system: " +:+ e) r end)
  else Ret r.

Definition standup : CycleProg unit :=
  run! due := claim_daily "standup" in
  if due : bool then
    run! active := state_says (fun st => negb (is_nil (activity st))) in if active : bool then phases [Standup] else Ret tt
  else Ret tt.

Definition groom : CycleProg unit :=
  if cc_scrum p then run! due := claim_daily "grooming" in if due : bool then phases [Grooming] else Ret tt else Ret tt.

(** Before anything is proposed: the repository, the board, the queue, the app. *)
Definition leader_opening (n : N) (r : CycleReport) : CycleProg (bool * CycleReport) :=
  run! _ := phases [RefreshCodegraph n] in
  run! _ := reconcile_version in
  run! _ := seed_wiki n in
  run! _ := phases [AdvanceSprint n; SprintWatch; DailyDigest; BugSnapshot; MemoryHygiene; SelfTune; LessonEfficacy; ForgeHygiene;
                    CutRelease; TrendSentinel; ShipTruth; PrTruth; PoDaily; SecuritySweep; BacklogHygiene; LessonToGate;
                    ReviewOpenPrs; AddressPrFeedback] in
  run! _ := debt_sweep n in
  run! _ := phases [ReclaimMisfiledBugs; Unpark; DriveSprintFlow; ImpedimentWatch] in
  run! open := open_pr_count in
  run! recovery := run_queue_recovery open in
  run! r := ops_monitor r in
  Ret (recovery, r).

Definition leader_top (n : N) (r : CycleReport) : CycleProg (bool * CycleReport) :=
  run! opened := leader_opening n r in
  let '(recovery, r) := opened in
  run! _ := standup in
  run! _ := groom in
  run! refactoring := maintain_refactor_sprint in
  run! r := propose n recovery refactoring r in
  run! _ := (if negb (is_nil (cr_ba_created r)) || (n mod 10 =? 0)%N then phases [DedupBacklog] else Ret tt) in
  run! _ := phases [EvictTerminal] in
  run! r := plan_milestones r in
  run! r := release_milestones r in
  run! r := design_the_system r in
  Ret (recovery, r).

(** ** What every runner does *)

Definition unless_paused (r : CycleReport) : CycleProg (Stage unit) :=
  do! paused := KPaused in
  Ret (if paused : bool then Over (add_error "cycle cut short — paused by user" r) else On tt).

Definition design (recovery : bool) (r : CycleReport) : CycleProg (Stage CycleReport) :=
  if recovery then Ret (On (add_error "SA/PD: design paused — merge-queue recovery, conflicts first" r))
  else
    stage! _ := unless_paused r in
    do! sa := KSa in
    let r := match sa with Ok id => r <| cr_sa_readied := id |> | Err e => add_error ("SA: " +:+ e) r end in
    do! pd := KPd in
    Ret (On (match pd with Ok id => r <| cr_pd_designed := id |> | Err e => add_error ("PD: " +:+ e) r end)).

(** A developer pass and the commit of what it finished. *)
Definition develop (mode : DevMode) (kind : string) : CycleProg (result string (option TicketId)) :=
  do! d := KDev mode in
  match d with
  | Ok (Some id) => just! KPhase (CommitForTicket id kind) in Ret (Ok (Some id))
  | d => Ret d
  end.

Definition bug_lane (r : CycleReport) : CycleProg (Stage (bool * CycleReport)) :=
  run! queue_full := pr_queue_full in
  if queue_full : bool then Ret (On (true, add_error "DEV: paused new work — PR queue full, draining reviews first" r))
  else
    stage! _ := unless_paused r in
    run! d := develop ModeBug "fix" in
    Ret (On (false, match d with Ok id => r <| cr_bug_fixed := id |> | Err e => add_error ("DEV-BUG: " +:+ e) r end)).

Definition feature_lane (queue_full : bool) (r : CycleReport) : CycleProg (Stage CycleReport) :=
  do! loaded := KLoad in
  let brake_state := result_ok loaded in
  let reactive_brake := from_option (fun st => tn_bugs_first (tuning st)) false brake_state in
  let burn_hold := from_option burn_mode_holds false brake_state in
  run! _ := (if from_option (fun st => tn_burn_mode (tuning st)) false brake_state && negb burn_hold then mutate MClearBurn else Ret tt) in
  let bug_slot_worked := from_option (bug_slot_did_real_work (cr_bug_fixed r)) (is_some (cr_bug_fixed r)) brake_state in
  let r := if reactive_brake && bug_slot_worked
           then add_error "DEV-FEATURE: paused by self-tuning — burning down bugs first" r else r in
  let r := if burn_hold && bug_slot_worked
           then add_error "DEV-FEATURE: paused by burn mode — open bugs still above the exit gate" r else r in
  stage! _ := unless_paused r in
  let feature_paused := from_option (fun st => dev_feature_paused st bug_slot_worked) false brake_state in
  if cc_feature_dev_enabled p && negb queue_full && negb feature_paused then
    run! _ := phases [ClarifyNextFeature] in
    run! d := develop ModeFeature "feat" in
    Ret (On (match d with Ok id => r <| cr_feature_done := id |> | Err e => add_error ("DEV-FEATURE: " +:+ e) r end))
  else Ret (On r).

Definition answers_and_docs (r : CycleReport) : CycleProg CycleReport :=
  run! _ := phases [AnswerOpenQuestions; EscalateStaleQuestions; FlushFocusDigests; PreflightCriteria; AdaptiveApproval] in
  do! d := KDocs in
  Ret (match d with Ok id => r <| cr_documented := id |> | Err e => add_error ("DOCS: " +:+ e) r end).

(** ** The leader's half at the tail *)

Definition wants_deploy (before : option ProjectState) (r : CycleReport) : bool :=
  is_some (cr_feature_done r) || is_some (cr_bug_fixed r) || from_option (fun st => from_option (fun d => negb (ds_ok d)) false (deploy st)) false before ||
  from_option in_rollback false before.

Definition deploy_if_wanted (r : CycleReport) : CycleProg CycleReport :=
  do! before := KLoad in
  if wants_deploy (result_ok before) r && cc_deploy p && cc_deploy_enabled p then deploy_leg to_lowercase p r else Ret r.

(** The fixed tickets that wait for a verdict. *)
Definition fixed_set (st : ProjectState) : string :=
  join "," (t_id <$> List.filter (fun t => bool_decide (t_status t = Fixed)) (tickets st)).

Definition test_has_work (r : CycleReport) : CycleProg bool :=
  if is_some (cr_feature_done r) || is_some (cr_bug_fixed r) then Ret true
  else state_says (fun st => existsb (fun t => bool_decide (t_status t = Fixed)) (tickets st) &&
                             negb (bool_decide (daily_jobs st !! "test-verified-set-v3" = Some (fixed_set st)))).

Definition record_test_pass_fingerprint : CycleProg unit :=
  do! st := KLoad in
  match st with Ok st => mutate (MTestPass (fixed_set st)) | Err _ => Ret tt end.

Definition verifying (r : CycleReport) : string :=
  default "build" (match cr_feature_done r with Some id => Some id | None => cr_bug_fixed r end).

Definition verify_build (recovery : bool) (r : CycleReport) : CycleProg CycleReport :=
  if recovery then Ret (add_error "TEST: paused — merge-queue recovery" r)
  else
    run! work := test_has_work r in
    if negb work then Ret (add_error "TEST: skipped — nothing new to verify" r)
    else
      run! _ := report_phase "TEST" (verifying r) in
      do! t := KTest in
      run! r := (match t with
                 | Ok ids => run! _ := record_test_pass_fingerprint in Ret (r <| cr_bugs_filed := ids |>)
                 | Err e => Ret (add_error ("TEST: " +:+ e) r)
                 end) in
      run! _ := phases [TestCaseScreenshots] in
      do! c := KConformance in
      Ret (match c with Ok ids => r <| cr_bugs_filed ::= fun l => l ++ ids |> | Err e => add_error ("CONFORMANCE: " +:+ e) r end).

Definition leader_tail (n : N) (recovery : bool) (r : CycleReport) : CycleProg (Stage CycleReport) :=
  run! r := deploy_if_wanted r in
  run! r := verify_build recovery r in
  run! _ := phases [ReviewOpenPrs; AddressPrFeedback; SweepUnshipped] in
  stage! _ := unless_paused r in
  run! _ := phases [ScrumDiscussion r n] in
  Ret (On r).

(** ** Closing the cycle *)

Definition in_slot_worktree : bool := from_option (contains "-slot-") false (cc_dir_name p).

Definition maybe_purge_idle_slot_target : CycleProg unit :=
  if in_slot_worktree && cc_janitor p then just! KPurgeTarget in Ret tt else Ret tt.

Definition notify_budget_warnings (warn : bool * bool) : CycleProg unit :=
  let pct := percent (cc_budget_warn_pct p) in
  run! _ := (if warn.1 then notify "budget_warning"
               ("lifetime spend crossed " +:+ pct +:+ "% of the budget cap — approaching the automatic pause") else Ret tt) in
  if warn.2 then notify "budget_warning"
    ("today's spend crossed " +:+ pct +:+ "% of the daily budget cap — approaching the automatic pause") else Ret tt.

Definition record_activity (leader : bool) (r : CycleReport) : CycleProg bool :=
  do! st := KLoad in
  match st with
  | Err _ => Ret false
  | Ok st =>
      do! meter := KTakeMeter in
      run! secs := (if leader then do! s := KPhaseSecs in Ret s else Ret ∅) in
      do! caps := KCaps in
      do! now := KNow in
      let b := close_books now (cc_worker p) leader r meter secs caps (cc_budget_warn_pct p) st in
      just! KSave (bk_state b) in
      run! _ := notify_budget_warnings (bk_warn b) in
      Ret (bk_over b)
  end.

Definition quota_text : string :=
  if cc_vi p then "🛑 Tất cả engine đều hết quota/token — tạm dừng vòng chạy. Nạp lại quota hoặc thêm engine fallback (Settings → engine.fallbacks) rồi resume."
  else "🛑 Every engine hit a quota/token wall — pausing the loop. Top up quota or add a fallback engine (Settings → engine.fallbacks), then resume.".

Definition quota_stop (r : CycleReport) : CycleProg CycleReport :=
  if existsb (contains ALL_EXHAUSTED) (cr_errors r) then
    let owner := trim (default "" (cc_route_exceptions_to p)) in
    let text := if decide (owner = "") then quota_text else "@" +:+ owner +:+ " " +:+ quota_text in
    do! st := KLoad in
    run! _ := (match st with
               | Ok st =>
                   do! now := KNow in
                   do! id := KMint in
                   just! KSave (log_activity now "SM" "paused — engines out of quota" None
                                  (post_chat_in id now "SYSTEM" text AGENTS_CHANNEL [] st)) in Ret tt
               | Err _ => Ret tt
               end) in
    run! _ := notify "quota_exhausted" quota_text in
    Ret (r <| cr_over_budget := true |>)
  else Ret r.

Definition close_cycle (leader : bool) (r : CycleReport) : CycleProg CycleReport :=
  run! _ := report_idle in
  run! _ := (if negb leader && negb (did_work r) then maybe_purge_idle_slot_target else Ret tt) in
  run! over := record_activity leader r in
  let r := r <| cr_over_budget := over |> in
  run! _ := (if over : bool then notify "budget_reached" "spend cap reached — loop paused" else Ret tt) in
  quota_stop r.

(** ** The cycle *)

(** The stages that start once the cycle may run. *)
Definition team_cycle (leader : bool) (n : N) (r : CycleReport) : CycleProg (Stage CycleReport) :=
  run! top := (if leader then leader_top n r else Ret (false, r)) in
  let '(recovery, r) := top in
  stage! r := design recovery r in
  stage! lane := bug_lane r in
  let '(queue_full, r) := lane in
  stage! r := feature_lane queue_full r in
  run! r := answers_and_docs r in
  if leader then leader_tail n recovery r else Ret (On r).

(** [drain_jobs]: one queued job per cycle, whoever runs it. *)
Definition job_arg (name : string) (args : Json) : option Json :=
  match args with JObject fields => snd <$> List.find (fun f => bool_decide (fst f = name)) fields | _ => None end.

Definition as_u64 (v : Json) : option N := match v with JUnsigned n => Some n | _ => None end.

(** The pull request a job orders to merge. *)
Definition merge_order (job : PendingJob) : option N :=
  if decide (pj_kind job = "force_merge") then job_arg "pr" (pj_args job) ≫= as_u64 else None.

Definition drain_jobs : CycleProg unit :=
  do! job := KTakeJob in
  match job with
  | None => Ret tt
  | Some job =>
      match merge_order job with
      | Some num => just! KForceMerge num (pj_queued_by job) in Ret tt
      | None => Ret tt
      end
  end.

Definition full_cycle (n : N) (r : CycleReport) : CycleProg CycleReport :=
  do! now := KNow in
  run! leader := elect now in
  run! n := number leader n in
  let r := r <| cr_cycle := n |> in
  run! _ := drain_jobs in
  just! KHeartbeat me (if leader : bool then "leader" else "worker") now in
  do! hygiene := KTreeHygiene in
  let r := fold_left (fun r e => add_error e r) hygiene r in
  run! _ := phases [ReconcileBrakeHolds] in
  run! out := team_cycle leader n r in
  match out with
  | Over r => Ret r
  | On r => close_cycle leader r
  end.

Definition run_cycle (n : N) : CycleProg CycleReport :=
  run! _ := (if cc_janitor p then just! KJanitor in Ret tt else Ret tt) in
  run! _ := warn_if_sandbox_unsupported in
  run! blocked := model_policy_blocks (CycleReport_new n) in
  let '(stop, r) := blocked in
  if stop : bool then Ret r
  else
    run! quiet := quiet_hours_block in
    if quiet : bool then Ret r
    else
      run! incident := engine_incident_open in
      if incident : bool then run_canary_probe r else full_cycle n r.

(** The review loop of its own. *)
Definition run_review_pass : CycleProg unit :=
  run! quiet := quiet_hours_block in
  if quiet : bool then Ret tt
  else
    run! incident := engine_incident_open in
    if incident : bool then Ret tt else phases [ForgeHygiene; ReviewOpenPrs; AddressPrFeedback].
End Cycle.
