(* ===== verification/CycleFacts.v ===== *)
(** * What a cycle does

    The laws of [run_cycle] on every path, whatever its ports reply: the calls due
    once per project need the lease, a pause seen ends the cycle, an open incident
    leaves one probe, and the leader's cycle that finds the merge queue in recovery
    stops proposing, designing and testing. *)
From S2P Require Import Prelude RustStr Kinds TestCase Ticket State StateOps Ports Channels Titles AddTicket MergePolicy Selection Engine Focus Effects DevPorts Runner Metering Scorecard CyclePorts Deploys Cycle.

(** ** Programs of one kind of call *)

(** Walks a program down to its calls, unfolding the stages on the way. *)
Ltac only_walk :=
  repeat
    (cbv zeta;
     match goal with
     | |- only _ (Ret _) => exact I
     | |- only _ (Do _ _) => split; [reflexivity|intros ?]
     | |- only _ (pbind _ _) => apply only_bind; [|intros ?]
     | |- only _ (sbind _ _) => unfold sbind
     | |- only _ (match ?x with _ => _ end) => destruct x
     | |- only _ _ => solve [eauto with cycle_only]
     | |- only _ ?q => let f := head_of q in unfold f
     end)
with head_of q := match q with ?f _ => head_of f | _ => q end.

Create HintDb cycle_only.

Section Kinds.
Context (kind : CycleCall -> bool).

Lemma only_phases l : forallb (fun ph => kind (KPhase ph)) l = true -> only kind (phases l).
Proof. induction l as [|ph l IH]; [done|]. cbn. intros [H1 H2]%andb_prop. by split; [|intros _; apply IH]. Qed.

Lemma only_collect ids : (forall id, kind (KPhase (CollectEvidence id)) = true) -> only kind (collect_all ids).
Proof. intros H. induction ids as [|id ids IH]; [done|]. by split; [apply H|]. Qed.

Lemma only_poll tries port : kind (KHealth port) = true -> only kind (poll_health tries port).
Proof. intros H. induction tries as [|tries IH]; [done|]. split; [done|]. by intros [[]|]. Qed.

Lemma only_resolvers prs :
  (forall n, kind (KClosePr n) = true /\ kind (KMutate (MSeenClosed n)) = true) -> kind KLoad = true -> kind KNow = true ->
  (forall st, kind (KSave st) = true) -> only kind (close_resolvers prs).
Proof.
  intros Hc Hl Hn Hs. induction prs as [|pr prs IH]; [done|]. split; [apply Hc|]. intros r. apply only_bind; [|done].
  destruct (is_ok r); [|done]. split; [apply Hc|]. intros _. split; [done|]. intros [st|]; [|done]. by split; [|intros now; split].
Qed.
End Kinds.

(** ** The lease *)

Definition is_elect (c : CycleCall) : bool := match c with KAcquireLeader _ _ => true | _ => false end.
Definition after_elect (c : CycleCall) : bool := negb (is_elect c).

Definition is_job (c : CycleCall) : bool := match c with KTakeJob | KForceMerge _ _ => true | _ => false end.

(** What a runner without the lease may call. *)
Definition worker_call (c : CycleCall) : bool :=
  match c with
  | KJanitor | KSandboxStatus | KSwapWarned | KEngineId | KNow | KPaused | KLoad | KSave _ | KMint | KAcquireLeader _ _
  | KHeartbeat _ _ _ | KNotify _ _ | KReport _ | KTreeHygiene | KTakeJob | KListPrs | KPing | KDev _ | KSa | KPd | KDocs
  | KTakeMeter | KCaps | KPurgeTarget => true
  | KMutate m => match m with MClearBurn | MDrainNotice _ _ => true | _ => false end
  | KPhase ph =>
      match ph with
      | ReconcileBrakeHolds | CommitForTicket _ _ | ClarifyNextFeature | AnswerOpenQuestions | EscalateStaleQuestions
      | FlushFocusDigests | PreflightCriteria | AdaptiveApproval => true
      | _ => false
      end
  | _ => false
  end.

Definition worker_after_elect (c : CycleCall) : bool := worker_call c && after_elect c && negb (is_job c).

#[export] Hint Resolve only_phases only_collect only_poll only_resolvers : cycle_only.
#[export] Hint Extern 1 (forallb _ _ = true) => reflexivity : cycle_only.
#[export] Hint Extern 1 (_ = true) => reflexivity : cycle_only.

Section Lease.
Context (to_lowercase : string -> string) (semver_parse : string -> option SemVer) (semver_text : SemVer -> string).
Context (percent : f64 -> string) (p : CycleConfig).


(** The monitor: whether this cycle's bid for the lease was granted, and the job it
    took off the queue and has not run yet. *)
Record Bid := mkBid { b_won : bool; b_job : option PendingJob }.

Definition no_bid : Bid := mkBid false None.

(** A call of a worker, any call of the leader, or the merge a person ordered in the
    job just taken. *)
Definition under_lease (m : Bid) (c : CycleCall) : Prop :=
  worker_call c = true \/ b_won m = true \/
  exists num job, c = KForceMerge num (pj_queued_by job) /\ b_job m = Some job /\ merge_order job = Some num.

Definition lease (c : CycleCall) : cycle_reply c -> Bid -> Bid :=
  match c return cycle_reply c -> Bid -> Bid with
  | KAcquireLeader _ _ => fun r m => mkBid (default true (result_ok r)) (b_job m)
  | KTakeJob => fun job m => mkBid (b_won m) job
  | KForceMerge _ _ => fun _ m => mkBid (b_won m) None
  | _ => fun _ m => m
  end.

#[local] Abbreviation Every := (every (fun _ _ _ => True) under_lease lease).

Lemma worker_ignored c m : worker_after_elect c = true -> under_lease m c /\ forall r, lease c r m = m.
Proof.
  intros [[Hw He]%andb_prop Hj]%andb_prop. split; [by left|]. intros r.
  destruct c; try done; by destruct m.
Qed.

Lemma leader_ignored c m : after_elect c = true -> b_won m = true -> under_lease m c /\ forall r, b_won (lease c r m) = true.
Proof. intros He Hm. split; [by right; left|]. intros r. by destruct c. Qed.

Lemma worker_only {A} (q : CycleProg A) m : only worker_after_elect q -> Every q m (fun _ _ => True).
Proof. intros H. eapply every_mono; [|by apply (every_only _ _ _ worker_after_elect worker_ignored)]. done. Qed.

Lemma leader_only {A} (q : CycleProg A) m : b_won m = true -> only after_elect q -> Every q m (fun _ _ => True).
Proof.
  intros Hm H. eapply every_mono; [|by apply (every_only_keeps _ _ _ after_elect (fun m => b_won m = true) _ _ leader_ignored)]. done.
Qed.

(** A worker merges what the job it took orders. *)
Lemma drain_leased m : Every drain_jobs m (fun _ _ => True).
Proof.
  split; [by left|]. intros [job|] _; [|done]. destruct (merge_order job) as [num|] eqn:E; [|done].
  split; [|done]. right; right. exists num, job. done.
Qed.

(** What follows the election. *)
Definition elected (now : string) (n : N) (r : CycleReport) (leader : bool) : CycleProg CycleReport :=
  run! n := number leader n in
  let r := r <| cr_cycle := n |> in
  run! _ := drain_jobs in
  just! KHeartbeat (me p) (if leader : bool then "leader" else "worker") now in
  do! hygiene := KTreeHygiene in
  let r := fold_left (fun r e => add_error e r) hygiene r in
  run! _ := phases [ReconcileBrakeHolds] in
  run! out := team_cycle to_lowercase semver_parse semver_text p leader n r in
  match out with
  | Over r => Ret r
  | On r => close_cycle percent p leader r
  end.

Lemma elected_after now n r leader : only after_elect (elected now n r leader).
Proof. only_walk. Qed.

Lemma elected_worker now n r m : Every (elected now n r false) m (fun _ _ => True).
Proof.
  unfold elected. cbn [number pbind]. cbv zeta. eapply every_seq; [apply drain_leased|]. intros _ m' _.
  apply worker_only. only_walk.
Qed.

Lemma full_cycle_leased n r : Every (full_cycle to_lowercase semver_parse semver_text percent p n r) no_bid (fun _ _ => True).
Proof.
  split; [by left|]. intros now _. apply every_bind. unfold elect.
  destruct (cc_leader_election p); [|apply elected_worker].
  split; [by left|]. intros won _. cbn [lease every no_bid b_won b_job]. destruct (default true (result_ok won)) eqn:E.
  - by apply leader_only, elected_after.
  - apply elected_worker.
Qed.

Lemma opening_worker n :
  only worker_after_elect (if cc_janitor p then just! KJanitor in Ret tt else Ret tt) /\
  only worker_after_elect (warn_if_sandbox_unsupported p) /\ only worker_after_elect (model_policy_blocks p (CycleReport_new n)) /\
  only worker_after_elect (quiet_hours_block p) /\ only worker_after_elect engine_incident_open.
Proof. split_and!; only_walk. Qed.

Lemma canary_worker r : only worker_after_elect (run_canary_probe r).
Proof. only_walk. Qed.

End Lease.

(** ** The course of a cycle *)

(** What a cycle has seen: an engine asked about, an open incident of it, a pause,
    recovery, and the developer passes made. *)
Record Course := mkCourse {
  c_engine : option string; c_canary : bool; c_paused : bool; c_recovery : bool; c_bug : bool; c_feature : bool;
  c_pinged : bool;
}.

Definition course (c : CycleCall) : cycle_reply c -> Course -> Course :=
  match c return cycle_reply c -> Course -> Course with
  | KEngineId => fun id m => m <| c_engine := Some id |>
  | KLoad => fun st m =>
      match c_engine m with
      | None => m
      | Some e =>
          let open := match st with Ok st => existsb (is_incident e) (engine_incidents st) | Err _ => false end in
          m <| c_engine := None |> <| c_canary := open |>
      end
  | KPaused => fun b m => m <| c_paused := b |>
  | KPing => fun _ m => m <| c_pinged := true |>
  | KMutate (MRecoveryOn _) => fun _ m => m <| c_recovery := true |>
  | KDev ModeBug => fun _ m => m <| c_bug := true |>
  | KDev ModeFeature => fun _ m => m <| c_feature := true |>
  | _ => fun _ m => m
  end.

(** The passes of the roles and the phases: what costs tokens or touches the team. *)
Definition works (c : CycleCall) : bool :=
  match c with
  | KPhase _ | KPing | KDev _ | KBa | KSa | KPd | KDocs | KTest | KConformance | KMilestones | KReleases | KDesignSystem
  | KVisualQa _ | KDeploy _ | KRunTests => true
  | _ => false
  end.

(** The roles that grow the backlog. *)
Definition creative (c : CycleCall) : bool := match c with KBa | KSa | KPd | KTest | KConformance => true | _ => false end.

Definition probes (c : CycleCall) : bool := match c with KReport _ | KDev ModeBug | KPing => true | _ => false end.

Section Course.
Context (to_lowercase : string -> string) (semver_parse : string -> option SemVer) (semver_text : SemVer -> string).
Context (percent : f64 -> string) (p : CycleConfig).

Record lawful (m : Course) (c : CycleCall) : Prop := {
  lf_pause : c_paused m = false;
  lf_policy : works c = true -> model_allowed p = true;
  lf_canary : c_canary m = true -> probes c = true;
  lf_recovery : creative c = true -> c_recovery m = false;
  lf_bug : c = KDev ModeBug -> c_bug m = false /\ c_feature m = false;
  lf_feature : c = KDev ModeFeature -> c_feature m = false /\ cc_feature_dev_enabled p = true;
  lf_ping : c = KPing -> c_pinged m = false;
}.

#[local] Abbreviation Every := (every (fun _ _ _ => True) lawful course).

(** Calls that neither move the monitor nor depend on it while the cycle is live. *)
Definition calm_call (c : CycleCall) : bool :=
  match c with
  | KPaused | KDev _ | KPing | KEngineId => false
  | KMutate (MRecoveryOn _) => false
  | _ => negb (creative c)
  end.

Definition idle_calm (c : CycleCall) : bool := calm_call c && negb (works c).

Definition live (m : Course) : Prop := c_engine m = None /\ c_canary m = false /\ c_paused m = false.

Lemma live_lawful m c :
  live m -> (works c = true -> model_allowed p = true) -> (creative c = true -> c_recovery m = false) ->
  (c = KDev ModeBug -> c_bug m = false /\ c_feature m = false) ->
  (c = KDev ModeFeature -> c_feature m = false /\ cc_feature_dev_enabled p = true) -> c <> KPing -> lawful m c.
Proof. intros (He & Hc & Hp) ?????. split; [done|done|by rewrite Hc|done..]. Qed.

Lemma calm_lawful m c : live m -> calm_call c = true -> (works c = true -> model_allowed p = true) -> lawful m c /\ forall r, course c r m = m.
Proof.
  intros Hm Hcalm Hw. split.
  - apply live_lawful; [done..|by destruct c|by intros ->|by intros ->|by intros ->].
  - destruct Hm as (He & Hc & Hp). intros r. destruct c; try done; cbn; [by rewrite He|by destruct m0].
Qed.

Lemma idle_bind {A B} (q : CycleProg A) (k : A -> CycleProg B) m Q :
  live m -> only idle_calm q -> (forall a, Every (k a) m Q) -> Every (pbind q k) m Q.
Proof.
  intros Hm Hq Hk. eapply every_seq; [apply (every_only_at _ _ _ idle_calm); [|done]|by intros a m' ->].
  intros c [Hc Hw]%andb_prop. apply calm_lawful; [done..|]. by destruct (works c).
Qed.

Section Allowed.
Context (Hallowed : model_allowed p = true).

Lemma calm_only {A} (q : CycleProg A) m : live m -> only calm_call q -> Every q m (fun _ m' => m' = m).
Proof using Hallowed. intros Hm Hq. apply (every_only_at _ _ _ calm_call); [|done]. intros c Hc. by apply calm_lawful. Qed.

Lemma calm_bind {A B} (q : CycleProg A) (k : A -> CycleProg B) m Q :
  live m -> only calm_call q -> (forall a, Every (k a) m Q) -> Every (pbind q k) m Q.
Proof using Hallowed. intros Hm Hq Hk. eapply every_seq; [by apply calm_only|]. by intros a m' ->. Qed.

(** *** Stages *)

Definition goes (m : Course) {A} (out : Stage A) (m' : Course) : Prop := match out with On _ => m' = m | Over _ => True end.

Lemma pause_stage {A} m r (k : unit -> CycleProg (Stage A)) Q :
  live m -> (forall r m', Q (Over r) m') -> Every (k tt) m Q -> Every (sbind (unless_paused r) k) m Q.
Proof.
  intros (He & Hc & Hp) Ho Hk. split; [split; try done; by rewrite Hc|]. intros [] _; [apply Ho|].
  change (course KPaused false m) with (m <| c_paused := false |>). by destruct m; cbn in Hp; subst.
Qed.

Lemma recovery_stage open m :
  live m -> c_recovery m = false -> Every (run_queue_recovery p open) m (fun b m' => m' = m <| c_recovery := b |>).
Proof.
  intros Hm Hr. assert (E : m <| c_recovery := false |> = m) by (destruct m; cbn in Hr; by subst).
  unfold run_queue_recovery. destruct open as [open|]; [|exact (eq_sym E)]. cbv zeta. case_match.
  - apply calm_bind; [done|only_walk|]. intros _. exact (eq_sym E).
  - apply every_bind. split; [by apply live_lawful|]. intros ? _. cbn [every course]. set (m' := m <| c_recovery := true |>).
    assert (Hm' : live m') by by destruct Hm. do 3 (apply calm_bind; [done|only_walk|]; intros ?). done.
Qed.

(** Calm stages one after the other. *)
Ltac calmly := apply calm_bind; [done|solve [only_walk]|]; intros ?.

Lemma opening_stage n r m :
  live m -> c_recovery m = false ->
  Every (leader_opening semver_parse semver_text p n r) m (fun out m' => m' = m <| c_recovery := out.1 |>).
Proof.
  intros Hm Hr. unfold leader_opening. do 7 calmly. eapply every_seq; [by apply recovery_stage|].
  cbn beta. intros recovery m' ->. assert (Hm' : live (m <| c_recovery := recovery |>)) by by destruct Hm. by calmly.
Qed.

Lemma propose_stage n recovery refactoring r m :
  live m -> c_recovery m = recovery -> Every (propose p n recovery refactoring r) m (fun _ m' => m' = m).
Proof.
  intros Hm Hr. unfold propose. do 2 calmly. cbv zeta. case_match; [|done]. destruct recovery; [done|].
  calmly. split; [by apply live_lawful|]. by intros ids _.
Qed.

Lemma top_stage n r m :
  live m -> c_recovery m = false ->
  Every (leader_top semver_parse semver_text p n r) m (fun out m' => m' = m <| c_recovery := out.1 |>).
Proof.
  intros Hm Hr. eapply every_seq; [by apply opening_stage|]. cbn beta. intros [recovery r'] m' ->.
  assert (Hm' : live (m <| c_recovery := recovery |>)) by by destruct Hm. do 3 calmly.
  eapply every_seq; [by apply propose_stage|]. cbn beta. intros r1 m' ->. by do 5 calmly.
Qed.

Lemma design_stage recovery r m : live m -> c_recovery m = recovery -> Every (design recovery r) m (fun out m' => goes m out m').
Proof.
  intros Hm Hr. unfold design. destruct recovery; [done|]. apply pause_stage; [done..|].
  split; [by apply live_lawful|]. intros sa _. split; [by apply live_lawful|]. by intros pd _.
Qed.

Lemma develop_stage mode kind m m' :
  lawful m (KDev mode) -> (forall r, course (KDev mode) r m = m') -> live m' -> Every (develop mode kind) m (fun _ m'' => m'' = m').
Proof.
  intros Hl Hw Hm. split; [done|]. intros d _. rewrite Hw. destruct d as [[id|]|]; [|done..].
  split; [by apply calm_lawful|]. by intros [] _.
Qed.

(** The passes made after the bug lane. *)
Definition bug_tried (m m' : Course) : Prop := m' = m \/ m' = m <| c_bug := true |>.

Lemma bug_stage r m :
  live m -> c_bug m = false -> c_feature m = false ->
  Every (bug_lane p r) m (fun out m' => match out with On _ => bug_tried m m' | Over _ => True end).
Proof.
  intros Hm Hb Hf. unfold bug_lane. calmly. destruct a; [by left|]. apply pause_stage; [done..|].
  eapply every_seq; [apply (develop_stage _ _ _ (m <| c_bug := true |>)); [by apply live_lawful|done|by destruct Hm]|].
  cbn beta. intros d m' ->. by right.
Qed.

Lemma feature_stage queue_full r m :
  live m -> c_feature m = false ->
  Every (feature_lane p queue_full r) m
    (fun out m' => match out with On _ => m' = m \/ m' = m <| c_feature := true |> | Over _ => True end).
Proof.
  intros Hm Hf. split; [by apply calm_lawful|]. intros loaded _. replace (course KLoad loaded m) with m by (by destruct Hm as (He & _); cbn; rewrite He).
  apply calm_bind; [done|by destruct (_ && _); repeat split|]. intros _. cbv zeta. apply pause_stage; [done..|].
  destruct (cc_feature_dev_enabled p) eqn:Hd; cbn [andb]; [|by left]. destruct (_ && _); [|by left]. calmly.
  eapply every_seq; [apply (develop_stage _ _ _ (m <| c_feature := true |>)); [by apply live_lawful|done|by destruct Hm]|].
  cbn beta. intros d m' ->. by right.
Qed.

Lemma verify_stage recovery r m :
  live m -> c_recovery m = recovery -> Every (verify_build recovery r) m (fun _ m' => m' = m).
Proof.
  intros Hm Hr. unfold verify_build. destruct recovery; [done|]. calmly. destruct (negb _); [done|]. calmly.
  split; [by apply live_lawful|]. intros t _. change (course KTest t m) with m. calmly. calmly.
  split; [by apply live_lawful|]. by intros c _.
Qed.

Lemma tail_stage n recovery r m :
  live m -> c_recovery m = recovery -> Every (leader_tail to_lowercase p n recovery r) m (fun out m' => goes m out m').
Proof.
  intros Hm Hr. unfold leader_tail. calmly. eapply every_seq; [by apply verify_stage|]. cbn beta. intros r' m' ->. calmly.
  apply pause_stage; [done..|]. by calmly.
Qed.

(** A live cycle without a pass made. *)
Definition fresh_course (m : Course) : Prop := live m /\ c_recovery m = false /\ c_bug m = false /\ c_feature m = false.

Lemma stage_seq {A B} (q : CycleProg (Stage A)) (k : A -> CycleProg (Stage B)) m (P : A -> Course -> Prop) Q :
  Every q m (fun out m' => match out with On a => P a m' | Over _ => True end) ->
  (forall r m', Q (Over r) m') -> (forall a m', P a m' -> Every (k a) m' Q) -> Every (sbind q k) m Q.
Proof. intros Hq Ho Hk. eapply every_seq; [exact Hq|]. intros [a|r] m' H; [by apply Hk|apply Ho]. Qed.

Lemma team_stage leader n r m :
  fresh_course m ->
  Every (team_cycle to_lowercase semver_parse semver_text p leader n r) m (fun out m' => match out with On _ => live m' | Over _ => True end).
Proof.
  intros (Hm & Hr & Hb & Hf). unfold team_cycle.
  eapply every_seq with (P := fun out m' => m' = m <| c_recovery := out.1 |>).
  { destruct leader; [by apply top_stage|]. by destruct m; cbn in Hr; subst. }
  intros [recovery r'] m1 ->. cbn [fst]. set (m1 := m <| c_recovery := recovery |>).
  assert (Hm1 : live m1) by by destruct Hm. eapply stage_seq; [by apply design_stage|done|]. intros r1 m' ->.
  eapply stage_seq; [by apply bug_stage|done|]. intros [queue_full r2] m2 Hm2.
  assert (H2 : live m2 /\ c_feature m2 = false /\ c_recovery m2 = recovery) by (by destruct Hm2; subst m2; destruct Hm1).
  destruct H2 as (Hl2 & Hf2 & Hr2). eapply stage_seq; [by apply feature_stage|done|]. intros r3 m3 Hm3.
  assert (H3 : live m3 /\ c_recovery m3 = recovery) by (by destruct Hm3; subst m3; destruct Hl2).
  destruct H3 as (Hl3 & Hr3). calmly. destruct leader; [|done].
  eapply every_mono; [|by apply tail_stage]. intros [r4|r4] m'; [by intros ->|done].
Qed.

Lemma full_stage n r m : fresh_course m -> Every (full_cycle to_lowercase semver_parse semver_text percent p n r) m (fun _ _ => True).
Proof.
  intros Hm. destruct (Hm) as [Hl _]. split; [by apply calm_lawful|]. intros now _. change (course KNow now m) with m.
  do 3 calmly. split; [by apply calm_lawful|]. intros u _. change (course (KHeartbeat _ _ _) u m) with m.
  split; [by apply calm_lawful|]. intros h _. change (course KTreeHygiene h m) with m. calmly.
  eapply every_seq; [by apply team_stage|]. intros [r'|r'] m' Hm'; [|done].
  eapply every_mono; [|apply calm_only; [exact Hm'|only_walk]]. done.
Qed.

Lemma canary_stage r m :
  c_canary m = true -> c_paused m = false -> c_engine m = None -> c_bug m = false -> c_feature m = false -> c_pinged m = false ->
  Every (run_canary_probe r) m (fun _ _ => True).
Proof.
  intros Hc Hp He Hb Hf Hping. split; [by split|]. intros [] _. cbn [pbind].
  split; [by split|]. intros d _. cbn [course]. set (m' := m <| c_bug := true |>).
  eapply every_seq with (P := fun _ m'' => c_paused m'' = false).
  { destruct d as [[id|]|e]; [done| |done]. split; [by split|]. by intros o _. }
  intros r' m'' Hp''. split; [by split|]. by intros [] _.
Qed.
End Allowed.

Definition course_start : Course := mkCourse None false false false false false false.

Lemma incident_stage : Every engine_incident_open course_start (fun b m' => m' = course_start <| c_canary := b |>).
Proof. split; [by split|]. intros engine _. split; [by split|]. by intros st _. Qed.

(** C25: the laws of a cycle, on every path, whatever the ports reply: once the
    user's pause is seen, no call follows it; no role pass, phase, deploy or test
    runs when the model is outside the allowlist; a cycle that finds an open
    incident of its engine in the state it loads makes one developer pass over the
    bugs and at most one ping, and no other role pass or phase (nothing but these
    and its reports); once the leader's cycle has put the merge queue in recovery,
    that cycle makes no BA, SA, PD, TEST or conformance pass; and a cycle makes at
    most one pass over the bugs and then at most one over the features, the latter
    only when features are enabled. A runner without the lease does not look at the
    queue, and the design-system pass is not among those recovery stops. *)
Theorem cycle_is_lawful n :
  Every (run_cycle to_lowercase semver_parse semver_text percent p n) course_start (fun _ _ => True).
Proof.
  assert (Hs : live course_start) by done. unfold run_cycle. do 2 (apply idle_bind; [done|only_walk|]; intros ?).
  destruct (model_allowed p) eqn:Hallowed.
  - unfold model_policy_blocks. rewrite Hallowed. cbn [pbind]. apply idle_bind; [done|only_walk|]. intros []; [done|].
    eapply every_seq; [apply incident_stage|]. cbn beta. intros [] m' ->; [by apply canary_stage|by apply full_stage].
  - unfold model_policy_blocks. rewrite Hallowed. apply every_bind. split; [by apply calm_lawful|]. intros st _.
    change (course KLoad st course_start) with course_start. do 2 (apply idle_bind; [done|only_walk|]; intros ?). done.
Qed.
End Course.
