(* ===== verification/DeployFacts.v ===== *)
(** * What the deploy leg does

    On every path, whatever the ports reply: a build is promoted to known-good only
    when it was deployed, answered and was not red; the environment is reverted only
    after a failure, once, to a recorded build that is recent and behind no migration;
    and a failed deploy is announced and, when the store answers, recorded. The cases at the end are what the leg
    does not promise. *)
From S2P Require Import Prelude RustStr Kinds TestCase Ticket State StateOps Ports Channels Titles AddTicket MergePolicy Engine Effects DevPorts Runner CyclePorts Deploys Cycle CycleFacts.

(** What the leg has seen; [g_blind]: a load failed, or a save of a failed deploy. *)
Record Leg := mkLeg {
  g_head : option string;
  g_verdict : option bool;
  g_red : option bool;
  g_loaded : option ProjectState;
  g_age : option N;
  g_changed : list string;
  g_reverts : nat;
  g_told : bool;
  g_recorded : bool;
  g_blind : bool;
}.

Section Leg.
Context (to_lowercase : string -> string) (p : CycleConfig).

Definition failing_deploy (st : ProjectState) : bool := from_option (fun d => negb (ds_ok d)) false (deploy st).

(** The verdict on a forward deploy that came up, as far as the configuration decides it. *)
Definition unprobed : option bool :=
  match cc_host_port_probe p with Ok None => Some true | Err _ => Some false | Ok (Some _) => None end.

Definition leg (c : CycleCall) : cycle_reply c -> Leg -> Leg :=
  match c return cycle_reply c -> Leg -> Leg with
  | KHeadSha => fun sha g => g <| g_head := result_ok sha |>
  | KDeploy _ => fun d g =>
      if 0 <? g_reverts g then g
      else
        g <| g_verdict := match d with
                          | Err _ => Some false
                          | Ok d => if dr_deployed d then (if dr_success d then unprobed else Some false) else None
                          end |>
  | KWaitHealthy _ => fun h g => g <| g_verdict := Some (from_option hc_passed false h) |>
  | KRunTests => fun t g =>
      g <| g_red := Some (match t with Ok t => dr_deployed t && negb (dr_success t) | Err _ => false end) |>
  | KLoad => fun st g => match st with Ok st => g <| g_loaded := Some st |> | Err _ => g <| g_loaded := None |> <| g_blind := true |> end
  | KAge _ => fun age g => g <| g_age := age |>
  | KChangedPaths _ _ => fun l g => g <| g_changed := match l with Ok l => l | Err _ => [] end |>
  | KWorktreeAdd _ _ => fun _ g => g <| g_reverts ::= S |>
  | KNotify kind _ => fun _ g => g <| g_told := g_told g || bool_decide (kind = "deploy_failed") |>
  | KSave st => fun saved g =>
      if failing_deploy st
      then match saved with Ok _ => g <| g_recorded := true |> | Err _ => g <| g_blind := true |> end
      else g
  | _ => fun _ g => g
  end.

Definition migrates (path : string) : bool := existsb (fun prefix => starts_with prefix path) (cc_migration_detection_paths p).

(** The evidence a promotion and a revert rest on. *)
Definition promotable (g : Leg) (sha : string) : Prop :=
  g_head g = Some sha /\ g_verdict g = Some true /\ g_red g = Some false.

Record revertible (g : Leg) (sha : string) : Prop := {
  rv_optin : cc_auto_rollback p = true;
  rv_once : g_reverts g = 0;
  rv_failed : g_verdict g = Some false \/ g_red g = Some true;
  rv_target : exists st good, g_loaded g = Some st /\ last_good_deploy st = Some good /\ kg_sha good = sha;
  rv_moves : g_head g <> Some sha;
  rv_fresh : exists age, g_age g = Some age /\ (age <= cc_max_rollback_age_secs p)%N;
  rv_schema : is_some (g_head g) = true -> existsb migrates (g_changed g) = false;
}.

Definition sound (g : Leg) (c : CycleCall) : Prop :=
  match c with
  | KMutate (MKnownGood sha _ _) | KUpdateRef _ sha => promotable g sha
  | KWorktreeAdd _ sha => revertible g sha
  | _ => True
  end.

#[local] Abbreviation Every := (every (fun _ _ _ => True) sound leg).

(** ** What a mild stage keeps *)

Definition mild (c : CycleCall) : bool :=
  match c with
  | KHeadSha | KDeploy _ | KWaitHealthy _ | KRunTests | KAge _ | KChangedPaths _ _ | KWorktreeAdd _ _ | KUpdateRef _ _
  | KMutate (MKnownGood _ _ _) => false
  | _ => true
  end.

Record leg_keeps (g g' : Leg) : Prop := {
  kp_head : g_head g' = g_head g;
  kp_verdict : g_verdict g' = g_verdict g;
  kp_red : g_red g' = g_red g;
  kp_reverts : g_reverts g' = g_reverts g;
  kp_told : g_told g = true -> g_told g' = true;
  kp_recorded : g_recorded g || g_blind g = true -> g_recorded g' || g_blind g' = true;
}.

Lemma keeps_refl g : leg_keeps g g.
Proof. by split. Qed.

Lemma keeps_trans g1 g2 g3 : leg_keeps g1 g2 -> leg_keeps g2 g3 -> leg_keeps g1 g3.
Proof. intros [] []. split; try congruence; auto. Qed.

Lemma mild_sound g c : mild c = true -> sound g c.
Proof. intros Hc. destruct c; try done. by destruct m. Qed.

Lemma mild_leg g c r : mild c = true -> leg_keeps g (leg c r g).
Proof.
  intros Hc. destruct c; try done.
  - destruct r; split; cbn; auto. by rewrite orb_true_r.
  - cbn. destruct (failing_deploy st); [|apply keeps_refl]. destruct r; split; cbn; auto. by rewrite orb_true_r.
  - split; cbn; auto. by intros ->.
Qed.

Lemma mild_keeps {A} (q : CycleProg A) g : only mild q -> Every q g (fun _ => leg_keeps g).
Proof.
  revert g. induction q as [a|c k IH]; intros g; [intros _; apply keeps_refl|]. intros [Hc Hk].
  split; [by apply mild_sound|]. intros r _. eapply every_mono; [|by apply IH].
  intros a g' Hg'. eapply keeps_trans; [by apply mild_leg|exact Hg'].
Qed.

Lemma mild_bind {A B} (q : CycleProg A) (k : A -> CycleProg B) g Q :
  only mild q -> (forall a g', leg_keeps g g' -> Every (k a) g' Q) -> Every (pbind q k) g Q.
Proof. intros Hq Hk. eapply every_seq; [by apply mild_keeps|]. auto. Qed.

Lemma mild_call {A} c (k : cycle_reply c -> CycleProg A) g Q :
  mild c = true -> (forall r g', leg_keeps g g' -> Every (k r) g' Q) -> Every (Do c k) g Q.
Proof. intros Hc Hk. split; [by apply mild_sound|]. intros r _. by apply Hk, mild_leg. Qed.

Definition noted (g : Leg) : Prop := g_told g = true /\ g_recorded g || g_blind g = true.

Lemma keeps_noted g g' : leg_keeps g g' -> noted g -> noted g'.
Proof. intros [] []. split; auto. Qed.

(** ** Stages *)

(** [g'] differs from [g] in its verdict, its notes and what it loaded. *)
Definition same_attempt (g g' : Leg) : Prop := g_head g' = g_head g /\ g_reverts g' = g_reverts g /\ g_red g' = g_red g.

Lemma keeps_same g g' : leg_keeps g g' -> same_attempt g g'.
Proof. by intros []. Qed.

Lemma attempt_trans g1 g2 g3 : same_attempt g1 g2 -> same_attempt g2 g3 -> same_attempt g1 g3.
Proof. intros (H1 & H2 & H3) (H4 & H5 & H6). split_and!; congruence. Qed.

Lemma record_stage ok summary sha hc bundle g :
  Every (record_deploy ok summary sha hc bundle) g
    (fun _ g' => leg_keeps g g' /\ (ok = false -> g_recorded g' || g_blind g' = true)).
Proof.
  apply every_and; [apply mild_keeps; only_walk|]. split; [done|]. intros [st|e] _.
  - do 2 (split; [done|]; intros ? _). split; [done|]. intros [u|e] _ ->; cbn; [done|]. by rewrite orb_true_r.
  - intros _. cbn. by rewrite orb_true_r.
Qed.

Lemma health_stage g :
  cc_deploy p = true -> g_verdict g = unprobed ->
  Every (run_health_check p) g (fun out g' => same_attempt g g' /\ g_verdict g' = Some out.1).
Proof.
  unfold run_health_check, unprobed. intros -> Hv. cbn [negb]. destruct (cc_host_port_probe p) as [[port|]|]; [|done..].
  split; [done|]. by intros [h|] _.
Qed.

Definition settled_as (g : Leg) (bad : bool) (g' : Leg) : Prop :=
  same_attempt g g' /\ g_verdict g' = Some (negb bad) /\ (bad = true -> noted g').

Lemma settle_bad {A} (q : CycleProg (option TicketId)) summary sha hc bundle kind (f : option TicketId -> A) g g0 (Q : A -> Leg -> Prop) :
  only mild q -> same_attempt g0 g -> g_verdict g = Some false -> kind = "deploy_failed" ->
  (forall id g', settled_as g0 true g' -> Q (f id) g') ->
  Every (run! _ := record_deploy false summary sha hc bundle in run! _ := notify kind summary in run! id := q in Ret (f id)) g Q.
Proof.
  intros Hq Hs Hv -> HQ. eapply every_seq; [apply record_stage|]. cbn beta. intros _ g1 [Hk Hr]. specialize (Hr eq_refl).
  split; [done|]. intros [] _. cbn [pbind leg]. set (g2 := g1 <| g_told := _ |>).
  assert (Hk2 : leg_keeps g1 g2) by (by apply (mild_leg g1 (KNotify "deploy_failed" summary) tt)).
  assert (Hn : noted g2) by (split; [by destruct g1; cbn; rewrite orb_true_r|exact Hr]).
  apply mild_bind; [done|]. intros id g3 Hk3. pose proof (keeps_trans _ _ _ Hk Hk2) as H12.
  pose proof (keeps_trans _ _ _ H12 Hk3) as H13. apply HQ. split_and!.
  - eapply attempt_trans; [exact Hs|by apply keeps_same].
  - destruct H13 as [_ -> _ _ _ _]. exact Hv.
  - intros _. exact (keeps_noted _ _ Hk3 Hn).
Qed.

Lemma reported_stage sha d r g :
  cc_deploy p = true -> g_verdict g = (if dr_success d then unprobed else Some false) ->
  Every (deploy_reported to_lowercase p sha d r) g (fun out g' => settled_as g out.1 g').
Proof.
  intros Hd Hv. unfold deploy_reported.
  apply every_seq with (P := fun out g' => same_attempt g g' /\ g_verdict g' = Some (dr_success d && out.1)).
  { destruct (dr_success d); [by apply health_stage|]. by split. }
  intros [health_ok hc] g1 [Hs Hv1]. cbv zeta iota beta in Hv1 |- *. cbn [fst] in Hv1.
  destruct (dr_success d && health_ok).
  - eapply every_seq; [apply record_stage|]. cbn beta. intros _ g2 [Hk2 _].
    apply mild_bind; [only_walk|]. intros _ g3 Hk3. apply mild_bind; [only_walk|]. intros r' g4 Hk4.
    pose proof (keeps_trans _ _ _ (keeps_trans _ _ _ Hk2 Hk3) Hk4) as Hk.
    split_and!; [eapply attempt_trans; [exact Hs|by apply keeps_same]| |done]. destruct Hk as [_ -> _ _ _ _]. exact Hv1.
  - eapply settle_bad with (g0 := g); [only_walk|done..].
Qed.

Definition attempted (g : Leg) (a : Attempt) (g' : Leg) : Prop :=
  same_attempt g g' /\
  match a with
  | Bad => g_verdict g' = Some false /\ noted g'
  | RanOk => g_verdict g' = Some true
  | Skipped => g_verdict g' = None
  end.

Lemma try_stage sha r g :
  cc_deploy p = true -> g_reverts g = 0 -> Every (try_deploy to_lowercase p sha r) g (fun out g' => attempted g out.1 g').
Proof.
  intros Hd Hr. split; [done|]. intros d _. set (g1 := leg (KDeploy _) d g).
  assert (Hs : same_attempt g g1) by (unfold g1; cbn; rewrite Hr; by split_and!).
  assert (Hv : g_verdict g1 = match d with Err _ => Some false | Ok d => if dr_deployed d then (if dr_success d then unprobed else Some false) else None end)
    by (unfold g1; cbn; by rewrite Hr).
  clearbody g1. destruct d as [d|e].
  - destruct (dr_deployed d) eqn:E; [|by split]. eapply every_seq; [by apply reported_stage|]. cbn beta.
    intros [bad r'] g2 (Hs2 & Hv2 & Hn). cbn [fst] in *.
    destruct bad; (split; [by eapply attempt_trans|]); [by split; [|apply Hn]|done].
  - apply every_bind. eapply settle_bad with (g0 := g); [only_walk|done..|]. intros id g' (Hs' & Hv' & Hn). split; [done|]. by split; [|apply Hn].
Qed.

Lemma suite_stage r g :
  Every (run_suite r) g
    (fun out g' => g_head g' = g_head g /\ g_reverts g' = g_reverts g /\ g_verdict g' = g_verdict g /\ g_red g' = Some out.1 /\ (noted g -> noted g')).
Proof.
  split; [done|]. intros t _. cbn [leg]. set (g1 := g <| g_red := _ |>).
  assert (H1 : g_head g1 = g_head g /\ g_reverts g1 = g_reverts g /\ g_verdict g1 = g_verdict g /\ (noted g -> noted g1)) by by split_and!.
  assert (Hr : g_red g1 = Some (match t with Ok t => dr_deployed t && negb (dr_success t) | Err _ => false end)) by done.
  clearbody g1. destruct H1 as (Hh & Hrv & Hv & Hn). destruct t as [t|e]; [|by split_and!].
  destruct (_ && _); [|by split_and!]. apply mild_bind; [only_walk|]. intros id g2 Hk. pose proof (keeps_noted _ _ Hk) as Hn2.
  destruct Hk as [Ekh Ekv Ekr Ekn _ _]. split_and!; try congruence; [by rewrite Ekr|auto].
Qed.

(** What a revert leaves as it was. *)
Definition reverted (g g' : Leg) : Prop := g_verdict g' = g_verdict g /\ (noted g -> noted g').

Lemma keeps_reverted g g' : leg_keeps g g' -> reverted g g'.
Proof. intros H. split; [by destruct H|]. by apply keeps_noted. Qed.

Lemma reverted_trans g1 g2 g3 : reverted g1 g2 -> reverted g2 g3 -> reverted g1 g3.
Proof. intros [E1 H1] [E2 H2]. split; [congruence|auto]. Qed.

(** Once the revert has begun its own deploy is not the forward one. *)
Lemma redeploy_stage good g :
  revertible g good -> Every (redeploy p good) g (fun _ g' => reverted g g').
Proof.
  intros Hg. split; [done|]. intros u _. change (leg (KWorktreeRemove _) u g) with g.
  split; [done|]. intros added _. cbn [leg]. set (g1 := g <| g_reverts ::= S |>).
  assert (H1 : reverted g g1 /\ (0 <? g_reverts g1) = true) by by destruct g. clearbody g1. destruct H1 as [H1 Hp].
  destruct added as [[]|e]; [|done]. split; [done|]. intros d _. cbn [leg]. rewrite Hp.
  destruct d as [d|e]; [|done]. destruct (dr_success d); [|done].
  apply mild_bind; [only_walk|]. intros healthy g2 Hk. assert (reverted g g2) by (eapply reverted_trans; [exact H1|by apply keeps_reverted]).
  by destruct healthy.
Qed.

Lemma mild_reverted {A} (q : CycleProg A) g0 g : only mild q -> reverted g0 g -> Every q g (fun _ g' => reverted g0 g').
Proof.
  intros Hq Hg. eapply every_mono; [|by apply mild_keeps]. cbn beta. intros _ g' Hk.
  eapply reverted_trans; [exact Hg|by apply keeps_reverted].
Qed.

Lemma revert_stage reason sha r g :
  cc_auto_rollback p = true -> g_reverts g = 0 -> g_verdict g = Some false \/ g_red g = Some true -> g_head g = sha ->
  Every (revert_to_known_good p reason sha r) g (fun _ g' => reverted g g').
Proof.
  intros Hopt Hr Hf Hh. unfold revert_to_known_good. destruct (negb _); [done|]. split; [done|]. intros [st|e] _; [|by apply keeps_reverted, (mild_leg g KLoad (Err e))].
  cbn [leg]. set (g1 := g <| g_loaded := Some st |>).
  assert (H1 : leg_keeps g g1 /\ g_loaded g1 = Some st) by by destruct g. clearbody g1. destruct H1 as [Hk1 Hl1].
  destruct (last_good_deploy st) as [good|] eqn:Hgood; [|by apply keeps_reverted]. case_decide as Hne; [by apply keeps_reverted|].
  split; [done|]. intros age _. cbn [leg]. set (g2 := g1 <| g_age := age |>).
  assert (H2 : leg_keeps g g2 /\ g_loaded g2 = Some st /\ g_age g2 = age) by (split_and!; [eapply keeps_trans; [exact Hk1|by split]|done..]). clearbody g2. clear Hk1 Hl1 g1.
  destruct H2 as (Hk2 & Hl2 & Ha2). destruct (from_option _ true age) eqn:Hage.
  { apply mild_reverted; [only_walk|by apply keeps_reverted]. }
  assert (Hfresh : exists a, g_age g2 = Some a /\ (a <= cc_max_rollback_age_secs p)%N).
  { destruct age as [a|]; [|done]. exists a. split; [done|]. cbn in Hage. apply N.ltb_ge in Hage. done. }
  apply every_seq with (P := fun migrated g' => leg_keeps g g' /\ g_loaded g' = Some st /\ g_age g' = g_age g2 /\
    (migrated = false -> is_some sha = true -> existsb migrates (g_changed g') = false)).
  { destruct sha as [sha|]; [|by split_and!]. split; [done|]. intros changed _. split_and!; [eapply keeps_trans; [exact Hk2|by split]|done..|by intros]. }
  intros migrated g3 (Hk3 & Hl3 & Ha3 & Hm3). destruct migrated.
  { apply mild_reverted; [only_walk|by apply keeps_reverted]. }
  eapply every_seq; [apply redeploy_stage|].
  - destruct Hk3 as [Eh Ev Er En _ _]. split; [done|congruence|by rewrite Ev, Er|by eauto| |by rewrite Ha3|].
    + rewrite Eh, Hh. exact Hne.
    + rewrite Eh, Hh. by apply Hm3.
  - cbn beta. intros [[ok summary] own] g4 H4. apply mild_reverted; [only_walk|].
    eapply reverted_trans; [by apply keeps_reverted|exact H4].
Qed.

Definition leg_start : Leg := mkLeg None None None None None [] 0 false false false.

(** C24: a build is promoted or reverted only on evidence, and no failed deploy is
    silent. On every path of a leader's deploy, whatever the ports reply: the
    known-good record and its ref take a commit only if it is the head read before
    the attempt, the deploy of that attempt came up, passed the health gate that the
    configuration demands, and the test run after it did not report red (a suite
    that could not be run, or reports that it did not run, counts as not red). The
    environment is reverted only when opted in, at most once, after such a deploy
    failed or the tests reported red, to the known-good commit recorded in the state
    just loaded; that commit is another one than the head read before the attempt,
    its age is known and within the limit, and, when that head was read, no
    migration is among the changed paths git reports in between (a head that could
    not be read counts as another commit, paths that could not be read as none).
    And when the deploy failed, the failure has been announced, and recorded by a
    save that answered, unless a load or that save failed. *)
Theorem deploy_rests_on_evidence r :
  Every (deploy_if_wanted to_lowercase p r) leg_start (fun _ g => g_verdict g = Some false -> noted g).
Proof.
  split; [done|]. intros before _. set (g0 := leg KLoad before leg_start).
  assert (H0 : g_head g0 = None /\ g_reverts g0 = 0 /\ g_verdict g0 = None) by (by destruct before). clearbody g0.
  destruct H0 as (Hh0 & Hr0 & Hv0). destruct (wants_deploy _ r); [|cbn; congruence].
  destruct (cc_deploy p) eqn:Hd; [|cbn; congruence]. destruct (cc_deploy_enabled p); [|cbn; congruence].
  cbn [andb]. unfold deploy_leg.
  apply every_seq with (P := fun sha g => g_head g = sha /\ g_reverts g = 0).
  { destruct (cc_git p); [|done]. split; [done|]. intros sha _. split; [done|exact Hr0]. }
  intros sha g [Hh Hr]. eapply every_seq; [by apply try_stage|]. cbn beta. intros [a r1] g1 ((Hh1 & Hr1 & _) & Ha). cbn [fst snd] in *.
  eapply every_seq; [apply suite_stage|]. cbn beta. intros [red r2] g2 (Hh2 & Hr2 & Hv2 & Hred & Hn2). cbn [fst] in *.
  assert (Hhead : g_head g2 = sha) by congruence. assert (Hnone : g_reverts g2 = 0) by congruence.
  assert (Hroll : forall reason, g_verdict g2 = Some false \/ g_red g2 = Some true ->
    Every (attempt_rollback p reason sha r2) g2 (fun _ g' => reverted g2 g')).
  { intros reason Hf. unfold attempt_rollback. destruct (cc_auto_rollback p) eqn:Ho; [by apply revert_stage|done]. }
  destruct a.
  - destruct Ha as [Ha Hn]. eapply every_mono; [|apply Hroll; left; congruence]. cbn beta. intros _ g' [_ Hk] _. auto.
  - destruct red.
    + eapply every_mono; [|apply Hroll; by right]. cbn beta. intros _ g' [-> _]. congruence.
    + destruct sha as [sha|]; [|cbn; congruence]. unfold record_known_good.
      assert (Hp : promotable g2 sha) by (split_and!; congruence).
      destruct (cc_git p); cbn [pbind mutate]; repeat (split; [first [exact Hp|done]|]; intros ? _); cbn; congruence.
  - destruct red; [|cbn; congruence]. eapply every_mono; [|apply Hroll; by right]. cbn beta. intros _ g' [-> _]. congruence.
Qed.
End Leg.
