(* ===== verification/CycleCases.v ===== *)
(** * Cycles in scripted worlds

    [Cycle.run_cycle] and the deploy leg run over a project state whose other ports
    answer by a script, with the behaviours the comments of [cycle/] do not announce. *)
From S2P Require Import Prelude RustStr Kinds TestCase Ticket State StateOps Ports Channels Titles AddTicket MergePolicy Selection Engine Focus Effects DevPorts Runner RunnerFacts Metering Scorecard CyclePorts Deploys Cycle.

(** ** A scripted world *)

Record CycleScript := mkCycleScript {
  sw_deploy : string -> result PortError DeployReport;
  sw_suite : result PortError DeployReport;
  sw_wait : option HealthCheckResult;
  (** The probe, after the calls made so far. *)
  sw_health : list CycleCall -> result PortError bool;
  sw_head : result PortError string;
  sw_age : option N;
  sw_prs : list PullRequest;
  sw_meter : option Spend;
  sw_saves : bool;
}.

Record CycleWorld := mkCycleWorld { cw_state : ProjectState; cw_meter : option Spend; cw_calls : list CycleCall }.

Section Scripted.
Context (s : CycleScript).

Definition cycle_clock : string := "2026-01-05T10:00:00Z".

(** The ports that neither read nor write the state. *)
Definition scripted_port (c : CycleCall) : cycle_reply c :=
  match c return cycle_reply c with
  | KSandboxStatus => NotRequested
  | KSwapWarned | KPaused => false
  | KEngineId => "claude"
  | KNow => cycle_clock
  | KMint => "m"
  | KLoad => Err (Backend "")
  | KSave _ | KMutate _ | KClosePr _ | KUpdateRef _ _ | KWorktreeRemove _ | KWorktreeAdd _ _ => Ok tt
  | KAcquireLeader _ _ => Ok true
  | KTreeHygiene => []
  | KTakeJob => None
  | KListPrs => Ok (sw_prs s)
  | KAddTicket _ => Err (AppPort (Backend ""))
  | KGit _ => (false, "")
  | KHealth _ => Ok true
  | KWaitHealthy _ => sw_wait s
  | KDeploy dir => sw_deploy s dir
  | KRunTests => sw_suite s
  | KHeadSha => sw_head s
  | KChangedPaths _ _ => Ok []
  | KAge _ => sw_age s
  | KPing => Err (Backend "")
  | KDev _ | KSa | KPd | KDocs => Ok None
  | KBa | KTest | KConformance => Ok []
  | KMilestones => Ok tt
  | KReleases => Ok []
  | KDesignSystem => Ok false
  | KVisualQa _ => []
  | KTakeMeter => sw_meter s
  | KPhaseSecs => ∅
  | KCaps => (None, None)
  | _ => tt
  end.

Definition world_answer (c : CycleCall) (w : CycleWorld) : CycleWorld * cycle_reply c :=
  let w := mkCycleWorld (cw_state w) (cw_meter w) (cw_calls w ++ [c]) in
  match c return CycleWorld * cycle_reply c with
  | KLoad => (w, Ok (cw_state w))
  | KSave st => if sw_saves s then (mkCycleWorld st (cw_meter w) (cw_calls w), Ok tt) else (w, Err (Conflict "stale"))
  | KMutate m =>
      match apply_cycle cycle_clock dec_nat m (cw_state w) with
      | Ok st => (mkCycleWorld st (cw_meter w) (cw_calls w), Ok tt)
      | Err e => (w, Err e)
      end
  | KAddTicket input =>
      match add_ticket cycle_clock input (cw_state w) with
      | Ok (st, id) => (mkCycleWorld st (cw_meter w) (cw_calls w), Ok id)
      | Err e => (w, Err e)
      end
  | KHealth _ => (w, sw_health s (cw_calls w))
  | KTakeMeter => (mkCycleWorld (cw_state w) ((fun _ => Spend_default) <$> cw_meter w) (cw_calls w), cw_meter w)
  | c => (w, scripted_port c)
  end.

Definition world_of (st : ProjectState) : CycleWorld := mkCycleWorld st (sw_meter s) [].

Definition play_leg (p : CycleConfig) (st : ProjectState) : CycleWorld * CycleReport :=
  run world_answer (deploy_if_wanted ascii_lowercase p (CycleReport_new 1)) (world_of st).

Definition play_cycle (p : CycleConfig) (st : ProjectState) : CycleWorld * CycleReport :=
  run world_answer (run_cycle ascii_lowercase (fun _ => None) (fun _ => "") (fun _ => "80") p 1) (world_of st).
End Scripted.

Definition deploys (calls : list CycleCall) : list string := omap (fun c => match c with KDeploy dir => Some dir | _ => None end) calls.
Definition filed (calls : list CycleCall) : list string :=
  omap (fun c => match c with KAddTicket input => Some (in_title input) | _ => None end) calls.
Definition dev_passes (calls : list CycleCall) : list DevMode := omap (fun c => match c with KDev m => Some m | _ => None end) calls.

(** A leader with git, a deploy port on 8101 and every rollback opted in. *)
Definition leader_config : CycleConfig :=
  mkCycleConfig "ann@mac" (Some "app") (Some "/w") "/w/app" true true true false true "m" [] "" false false false 0 true 0 None
    true 3 "" "main" true (Some 8101%N) (Ok (Some 8101%N)) true true true 1 86400 ["migrations/"] f64_zero.

Definition up (success deployed : bool) (summary : string) : DeployReport := mkDeployReport success deployed summary None.
Definition healthy_probe : option HealthCheckResult := Some (mkHealthCheckResult true (Some 200%N) None).

Definition all_well : CycleScript :=
  mkCycleScript (fun _ => Ok (up true true "up")) (Ok (up true true "green")) healthy_probe (fun _ => Ok true) (Ok "head") (Some 60%N) [] None true.

Definition shipped_before : ProjectState :=
  ProjectState_default <| history := [mkDeployRecord (SemVer_new 0 1 0) "CXA-F001" "t" cycle_clock] |>
    <| last_good_deploy := Some (mkKnownGoodDeploy "good" cycle_clock 1 "") |> <| deploy_index := 1%N |>
    <| deploy := Some (mkDeployStatus cycle_clock false "red" (Some "bad") None None) |>.

Definition with_deploy (f : string -> result PortError DeployReport) (s : CycleScript) : CycleScript :=
  mkCycleScript f (sw_suite s) (sw_wait s) (sw_health s) (sw_head s) (sw_age s) (sw_prs s) (sw_meter s) (sw_saves s).
Definition with_suite (r : result PortError DeployReport) (s : CycleScript) : CycleScript :=
  mkCycleScript (sw_deploy s) r (sw_wait s) (sw_health s) (sw_head s) (sw_age s) (sw_prs s) (sw_meter s) (sw_saves s).

Definition docker_down : string -> result PortError DeployReport := fun _ => Err (Backend "docker: no daemon").

(** ** What the deploy leg does not promise *)

(** A green leg promotes its head. *)
Example green_leg_promotes :
  let '(w, r) := play_leg all_well leader_config shipped_before in
  kg_sha <$> last_good_deploy (cw_state w) = Some "head" /\ deploy_index (cw_state w) = 2%N /\ cr_errors r = [].
Proof. vm_compute. done. Qed.

(** A failed deploy reverts to the known-good build and says so. *)
Example failed_deploy_reverts :
  let s := with_deploy (fun dir => if decide (dir = "/w/app") then docker_down dir else Ok (up true true "up")) all_well in
  let '(w, r) := play_leg s leader_config shipped_before in
  deploys (cw_calls w) = ["/w/app"; "/w/app-rollback"] /\ in_rollback (cw_state w) = true /\
  rolled_back_commits (cw_state w) = {["head"]} /\ cr_bugs_filed r = ["B001"] /\ cr_errors r = ["DEPLOY: backend failure: docker: no daemon"].
Proof. vm_compute. split_and!; reflexivity. Qed.

(** A test suite that could not be run at all is not red: the build is promoted as one
    whose tests passed. *)
Theorem unrunnable_tests_earn_known_good :
  let '(w, r) := play_leg (with_suite (Err (Backend "cargo: not found")) all_well) leader_config shipped_before in
  last_good_deploy (cw_state w) = Some (mkKnownGoodDeploy "head" cycle_clock 2 "deploy + tests passed") /\
  cr_errors r = ["TESTS: backend failure: cargo: not found"].
Proof. vm_compute. done. Qed.

(** Nothing consults the blacklist: a commit that was rolled back is deployed again in
    the next cycle, and promoted. *)
Theorem rolled_back_commit_is_promoted :
  let st := shipped_before <| in_rollback := true |> <| rolled_back_commits := {["head"]} |> in
  let '(w, r) := play_leg all_well leader_config st in
  kg_sha <$> last_good_deploy (cw_state w) = Some "head" /\ rolled_back_commits (cw_state w) = {["head"]}.
Proof. vm_compute. split; reflexivity. Qed.

(** The app went down after a green deploy: the monitor reverts it, and the tail of the
    same cycle deploys the same commit over the revert. *)
Theorem live_revert_is_undone :
  let st := shipped_before <| deploy := Some (mkDeployStatus cycle_clock true "up" (Some "head") None None) |> in
  let s := mkCycleScript (sw_deploy all_well) (sw_suite all_well) healthy_probe
             (fun calls => Ok (negb (is_nil (deploys calls)))) (Ok "head") (Some 60%N) [] None true in
  let '(w, r) := play_cycle s leader_config st in
  deploys (cw_calls w) = ["/w/app-rollback"; "/w/app"] /\ kg_sha <$> last_good_deploy (cw_state w) = Some "head" /\
  rolled_back_commits (cw_state w) = {["head"]} /\ in_rollback (cw_state w) = false.
Proof. vm_compute. split_and!; reflexivity. Qed.

(** A deploy that keeps failing behind a stale known-good build gets a post-mortem per
    cycle; none of them files the prevention ticket it announces. *)
Theorem post_mortem_repeats :
  let s := mkCycleScript docker_down (sw_suite all_well) healthy_probe (fun _ => Ok true) (Ok "head") (Some 100000%N) [] None true in
  let '(w, _) := play_leg s leader_config shipped_before in
  let '(w, _) := play_leg s leader_config (cw_state w) in
  in_failed_sha <$> incidents (cw_state w) = ["head"; "head"] /\ (in_root_cause_ticket <$> incidents (cw_state w)) = [None; None] /\
  filed (cw_calls w) = [].
Proof. vm_compute. split_and!; reflexivity. Qed.

(** A rollback deploy that was skipped counts as a successful rollback. *)
Theorem skipped_rollback_is_ok :
  let s := with_deploy (fun dir => if decide (dir = "/w/app") then docker_down dir else Ok (up true false "no compose file")) all_well in
  let '(w, _) := play_leg s leader_config shipped_before in
  rb_ok <$> last_rollback (cw_state w) = Some true /\ ds_ok <$> deploy (cw_state w) = Some true.
Proof. vm_compute. done. Qed.

(** ** What a cycle does not promise *)

(** The bugs a cycle filed for its deploy vanish from its report when TEST completes. *)
Theorem test_pass_erases_filed_bugs :
  let st := shipped_before <| tickets := [bug_ticket "CXA-B001" High Fixed] |> in
  let '(w, r) := play_cycle (with_deploy docker_down all_well) leader_config st in
  filed (cw_calls w) = ["Deploy failing: deploy failed: backend failure: docker: no daemon";
                        "Rollback failed: rollback deploy failed: backend failure: docker: no daemon"] /\ cr_bugs_filed r = [].
Proof. vm_compute. done. Qed.

(** An idle leader's cycle carries an error, so the supervisor takes it for a sign of
    life of the engine. *)
Theorem idle_cycle_reads_as_alive :
  let '(_, r) := play_cycle all_well leader_config ProjectState_default in
  did_work r = false /\ cr_errors r = ["TEST: skipped — nothing new to verify"] /\ sign_of ascii_lowercase r = Alive.
Proof. vm_compute. done. Qed.

(** Pull requests handed to a human keep the queue in recovery but not full: a
    recovering team still starts new branches. *)
Definition handed_pr (n : N) : PullRequest := mkPullRequest n "t" "feat/x" "main" "" "" "passing" true cycle_clock.

Theorem recovery_still_starts_features :
  let numbers := [1; 2; 3; 4; 5; 6; 7; 8]%N in
  let st := ProjectState_default <| queue_recovery := true |> <| pr_fix_attempts := list_to_map ((fun n => (n, 3%N)) <$> numbers) |> in
  let s := mkCycleScript (sw_deploy all_well) (sw_suite all_well) healthy_probe (fun _ => Ok true) (Ok "head") None
             (handed_pr <$> numbers) None true in
  let '(w, r) := play_cycle s leader_config st in
  dev_passes (cw_calls w) = [ModeBug; ModeFeature] /\
  cr_errors r = ["SA/PD: design paused — merge-queue recovery, conflicts first"; "TEST: paused — merge-queue recovery"].
Proof. vm_compute. done. Qed.

(** The meter is emptied before the save that may fail: what the cycle spent is lost. *)
Theorem failed_save_loses_the_spend :
  let s := mkCycleScript (sw_deploy all_well) (sw_suite all_well) healthy_probe (fun _ => Ok true) (Ok "head") None []
             (Some (Spend_default <| sp_runs := 3%N |>)) false in
  let '(w, _) := play_cycle s leader_config ProjectState_default in
  sp_runs (spend (cw_state w)) = 0%N /\ sp_runs <$> cw_meter w = Some 0%N.
Proof. vm_compute. done. Qed.
