(* ===== verification/Calendar.v ===== *)
(** * Calendar days

    [days_back] of [application/src/metrics.rs]: the day [n] days before a day, by the
    days-from-civil arithmetic, and what it means. The reference calendar is
    [prev_day], the day before in the Gregorian calendar. The arithmetic is over [Z];
    for the four-digit years of an RFC 3339 stamp nothing comes near the ends of i64. *)
From S2P Require Import Prelude RustStr Ports.
#[local] Open Scope Z_scope.

(** ** The code *)

(** [s.parse::<i64>()] *)
Definition parse_i64 (s : string) : option Z :=
  match s with
  | String "-" r =>
      if bool_decide (r = "") || negb (all_bytes is_digit r) then None
      else if (undec r <=? 9223372036854775808)%N then Some (- Z.of_N (undec r)) else None
  | _ => Z.of_N <$> parse_uint (Z.to_N i64_max) s
  end.

(** [format!("{z:0w}")]: the width counts the sign. *)
Definition pad_Z (w : nat) (z : Z) : string :=
  if z <? 0 then "-" +:+ pad_dec (w - 1) (Z.to_N (- z)) else pad_dec w (Z.to_N z).

Definition parse_day (s : string) : option (Z * Z * Z) :=
  match split_byte "-" s with
  | y :: m :: d :: _ => y ← parse_i64 y; m ← parse_i64 m; d ← parse_i64 d; Some (y, m, d)
  | _ => None
  end.

(** Days since 1970-01-01. *)
Definition civil (y m d : Z) : Z :=
  let y := if m <=? 2 then y - 1 else y in
  let era := Z.quot (if 0 <=? y then y else y - 399) 400 in
  let yoe := y - era * 400 in
  let doy := Z.quot (153 * (if 2 <? m then m - 3 else m + 9) + 2) 5 + d - 1 in
  let doe := yoe * 365 + Z.quot yoe 4 - Z.quot yoe 100 + doy in
  era * 146097 + doe - 719468.

Definition from_civil (z : Z) : Z * Z * Z :=
  let z := z + 719468 in
  let era := Z.quot (if 0 <=? z then z else z - 146096) 146097 in
  let doe := z - era * 146097 in
  let yoe := Z.quot (doe - Z.quot doe 1460 + Z.quot doe 36524 - Z.quot doe 146096) 365 in
  let y := yoe + era * 400 in
  let doy := doe - (365 * yoe + Z.quot yoe 4 - Z.quot yoe 100) in
  let mp := Z.quot (5 * doy + 2) 153 in
  let d := doy - Z.quot (153 * mp + 2) 5 + 1 in
  let m := if mp <? 10 then mp + 3 else mp - 9 in
  (if m <=? 2 then y + 1 else y, m, d).

Definition show_day (x : Z * Z * Z) : string :=
  let '(y, m, d) := x in pad_Z 4 y +:+ "-" +:+ pad_Z 2 m +:+ "-" +:+ pad_Z 2 d.

Definition days_back (day : string) (n : N) : string :=
  match parse_day day with
  | None => day
  | Some (y, m, d) =>
      let n := if Z.of_N n <=? i64_max then Z.of_N n else 0 in
      show_day (from_civil (civil y m d - n))
  end.

(** ** The reference *)

Definition leap (y : Z) : bool := ((y mod 4 =? 0) && negb (y mod 100 =? 0)) || (y mod 400 =? 0).

Definition month_days (y m : Z) : Z :=
  if m =? 2 then if leap y then 29 else 28
  else if (m =? 4) || (m =? 6) || (m =? 9) || (m =? 11) then 30 else 31.

Definition valid_day (x : Z * Z * Z) : Prop :=
  let '(y, m, d) := x in 1 <= m <= 12 /\ 1 <= d <= month_days y m.

Definition prev_day (x : Z * Z * Z) : Z * Z * Z :=
  let '(y, m, d) := x in
  if 1 <? d then (y, m, d - 1)
  else if 1 <? m then (y, m - 1, month_days y (m - 1))
  else (y - 1, 12, 31).

Definition before (n : N) (x : Z * Z * Z) : Z * Z * Z := N.iter n prev_day x.

(** Earlier or the same. *)
Definition day_le (a b : Z * Z * Z) : Prop :=
  let '(y, m, d) := a in let '(y', m', d') := b in y < y' \/ y = y' /\ (m < m' \/ m = m' /\ d <= d').

Definition year (x : Z * Z * Z) : Z := x.1.1.

(** ** The count of days *)

(** Linear arithmetic with constant divisors. *)
Ltac ediv := Z.to_euclidean_division_equations; lia.

Lemma month_days_bounds y m : 28 <= month_days y m <= 31.
Proof. unfold month_days. repeat case_match; lia. Qed.

Lemma prev_valid x : valid_day x -> valid_day (prev_day x).
Proof.
  destruct x as [[y m] d]. intros [Hm Hd]. unfold prev_day. destruct (Z.ltb_spec 1 d); [cbn; lia|].
  destruct (Z.ltb_spec 1 m); [|cbn; lia]. cbn. pose proof (month_days_bounds y (m - 1)). lia.
Qed.

(** The days before the first of March of a year. *)
Definition march (y : Z) : Z := 365 * y + y / 4 - y / 100 + y / 400 - 719468.

Lemma civil_march y m d :
  civil y m d = march (if m <=? 2 then y - 1 else y) + Z.quot (153 * (if 2 <? m then m - 3 else m + 9) + 2) 5 + d - 1.
Proof.
  unfold civil, march. generalize (if m <=? 2 then y - 1 else y). intros x.
  generalize (Z.quot (153 * (if 2 <? m then m - 3 else m + 9) + 2) 5). intros q.
  assert (Z.quot (if 0 <=? x then x else x - 399) 400 = x / 400) as -> by (destruct (Z.leb_spec 0 x); ediv).
  rewrite !Z.quot_div_nonneg by ediv. ediv.
Qed.

Lemma march_step y : march y - march (y - 1) = if leap y then 366 else 365.
Proof.
  unfold march, leap. destruct (Z.eqb_spec (y mod 4) 0), (Z.eqb_spec (y mod 100) 0), (Z.eqb_spec (y mod 400) 0); cbn; ediv.
Qed.

Lemma civil_prev y m d : valid_day (y, m, d) -> let '(y', m', d') := prev_day (y, m, d) in civil y' m' d' = civil y m d - 1.
Proof.
  intros [Hm Hd]. unfold prev_day. destruct (Z.ltb_spec 1 d); [rewrite !civil_march; lia|].
  assert (d = 1) as -> by lia. pose proof (march_step y) as Hs.
  destruct (Z.ltb_spec 1 m).
  - rewrite !civil_march. unfold month_days. remember (m - 1) as k eqn:Ek.
    assert (m = 2 \/ m = 3 \/ m = 4 \/ m = 5 \/ m = 6 \/ m = 7 \/ m = 8 \/ m = 9 \/ m = 10 \/ m = 11 \/ m = 12) as Hc by lia.
    clear - Hc Hs Ek. destruct_or! Hc; subst m; vm_compute in Ek; subst k; cbn -[march leap]; destruct (leap y); ediv.
  - assert (m = 1) as -> by lia. rewrite !civil_march. cbn -[march]. ediv.
Qed.

(** ** The way back *)

(** The year of an era from its day, by centuries, leap cycles and single years. *)
Lemma era_year c q r doy :
  0 <= c <= 3 -> 0 <= q <= 24 -> 0 <= r <= 3 -> 0 <= doy <= 365 -> (doy = 365 -> r = 3 /\ (q < 24 \/ c = 3)) ->
  let doe := 36524 * c + 1461 * q + 365 * r + doy in
  (doe - doe / 1460 + doe / 36524 - doe / 146096) / 365 = 100 * c + 4 * q + r.
Proof.
  intros Hc Hq Hr Hd Hl doe.
  assert (doe / 1460 = 25 * c + q + (if 24 * c + q + 365 * r + doy <? 1460 then 0 else 1)) as ->.
  { unfold doe. destruct (Z.ltb_spec (24 * c + q + 365 * r + doy) 1460); ediv. }
  assert (doe / 36524 = c + (if 1461 * q + 365 * r + doy <? 36524 then 0 else 1)) as ->.
  { unfold doe. destruct (Z.ltb_spec (1461 * q + 365 * r + doy) 36524); ediv. }
  assert (doe / 146096 = if doe <? 146096 then 0 else 1) as -> by (destruct (Z.ltb_spec doe 146096); unfold doe in *; ediv).
  destruct (Z.ltb_spec (24 * c + q + 365 * r + doy) 1460), (Z.ltb_spec (1461 * q + 365 * r + doy) 36524), (Z.ltb_spec doe 146096); unfold doe in *; ediv.
Qed.

(** The month of a year that starts in March, from its day. *)
Lemma year_month y m d : valid_day (y, m, d) ->
  let mp := if 2 <? m then m - 3 else m + 9 in
  let doy := (153 * mp + 2) / 5 + d - 1 in
  0 <= doy <= 365 /\ (doy = 365 -> m = 2 /\ leap y = true) /\ (5 * doy + 2) / 153 = mp /\ 0 <= mp <= 11 /\
  (if mp <? 10 then mp + 3 else mp - 9) = m.
Proof.
  intros [Hm Hd] mp doy. unfold month_days in Hd.
  assert (m = 1 \/ m = 2 \/ m = 3 \/ m = 4 \/ m = 5 \/ m = 6 \/ m = 7 \/ m = 8 \/ m = 9 \/ m = 10 \/ m = 11 \/ m = 12) as Hc by lia.
  destruct_or! Hc; subst m; cbn in Hd; vm_compute in mp; subst mp doy; cbn; destruct (leap y); (split_and!; [ediv..| |lia|done]; ediv).
Qed.

(** The length of an era's years: the last day of a leap year falls in a leap year. *)
Lemma leap_in_era y : leap (y + 1) = true -> y mod 4 = 3 /\ (y mod 400 mod 100 / 4 < 24 \/ y mod 400 / 100 = 3).
Proof.
  unfold leap. destruct (Z.eqb_spec ((y + 1) mod 4) 0), (Z.eqb_spec ((y + 1) mod 100) 0), (Z.eqb_spec ((y + 1) mod 400) 0); cbn; intros; try done; ediv.
Qed.

(** The two directions with flooring division, which is what they compute. *)
Lemma era_floor x : Z.quot (if 0 <=? x then x else x - 399) 400 = x / 400.
Proof. destruct (Z.leb_spec 0 x); ediv. Qed.

Lemma civil_floor y m d : 1 <= m <= 12 ->
  let x := if m <=? 2 then y - 1 else y in
  let mp := if 2 <? m then m - 3 else m + 9 in
  civil y m d = x / 400 * 146097 + (x mod 400 * 365 + x mod 400 / 4 - x mod 400 / 100 + ((153 * mp + 2) / 5 + d - 1)) - 719468.
Proof.
  intros Hm x mp. unfold civil. fold x mp. rewrite era_floor.
  assert (x - x / 400 * 400 = x mod 400) as -> by ediv. pose proof (Z.mod_pos_bound x 400 ltac:(lia)).
  assert (0 <= mp) by (unfold mp; destruct (Z.ltb_spec 2 m); lia). rewrite !Z.quot_div_nonneg by lia. lia.
Qed.

Lemma from_civil_floor era doe : 0 <= doe < 146097 ->
  let yoe := (doe - doe / 1460 + doe / 36524 - doe / 146096) / 365 in
  let doy := doe - (365 * yoe + yoe / 4 - yoe / 100) in
  0 <= doy ->
  from_civil (era * 146097 + doe - 719468) =
    (let mp := (5 * doy + 2) / 153 in
     let m := if mp <? 10 then mp + 3 else mp - 9 in
     (if m <=? 2 then yoe + era * 400 + 1 else yoe + era * 400, m, doy - (153 * mp + 2) / 5 + 1)).
Proof.
  intros Hd yoe doy Hdoy. unfold from_civil. set (z := era * 146097 + doe - 719468 + 719468).
  assert (Z.quot (if 0 <=? z then z else z - 146096) 146097 = era) as -> by (unfold z; destruct (Z.leb_spec 0 (era * 146097 + doe - 719468 + 719468)); ediv).
  assert (z - era * 146097 = doe) as -> by (unfold z; lia).
  assert (H1 : Z.quot (doe - Z.quot doe 1460 + Z.quot doe 36524 - Z.quot doe 146096) 365 = yoe).
  { unfold yoe. rewrite !(Z.quot_div_nonneg doe) by lia. apply Z.quot_div_nonneg; [ediv|lia]. }
  rewrite H1. assert (0 <= yoe) by (unfold yoe; clear - Hd; apply Z.div_pos; [ediv|lia]). rewrite !(Z.quot_div_nonneg yoe) by lia. fold doy.
  assert (0 <= (5 * doy + 2) / 153) by ediv. rewrite !Z.quot_div_nonneg by lia. done.
Qed.

Lemma from_civil_civil y m d : valid_day (y, m, d) -> from_civil (civil y m d) = (y, m, d).
Proof.
  intros Hv. pose proof Hv as [Hm Hd]. pose proof (year_month y m d Hv) as (Hy & Hl & Hmp & Hb & Hback).
  pose proof (civil_floor y m d Hm) as Hciv. cbv zeta in *. rewrite Hciv. clear Hciv.
  set (x := if m <=? 2 then y - 1 else y) in *. set (mp := if 2 <? m then m - 3 else m + 9) in *. set (doy := (153 * mp + 2) / 5 + d - 1) in *.
  set (c := x mod 400 / 100). set (q := x mod 400 mod 100 / 4). set (r := x mod 4).
  assert (Hx : x mod 400 = 100 * c + 4 * q + r) by (unfold c, q, r; ediv).
  assert (Hc : 0 <= c <= 3) by (unfold c; ediv). assert (Hq : 0 <= q <= 24) by (unfold q; ediv). assert (Hr : 0 <= r <= 3) by (unfold r; ediv).
  assert (Hleap : doy = 365 -> r = 3 /\ (q < 24 \/ c = 3)).
  { intros E. destruct (Hl E) as [-> Hly]. cbn in x. apply leap_in_era. by replace (x + 1) with y by (unfold x; lia). }
  assert (Hcc : x mod 400 / 100 = c) by done.
  assert (Hdoe : x mod 400 * 365 + x mod 400 / 4 - c + doy = 36524 * c + 1461 * q + 365 * r + doy).
  { clearbody c q r. clear - Hx Hc Hq Hr. rewrite Hx. ediv. }
  pose proof (era_year c q r doy Hc Hq Hr Hy Hleap) as He. rewrite Hdoe. set (doe := 36524 * c + 1461 * q + 365 * r + doy) in *.
  cbv zeta in He. rewrite <-Hx in He.
  assert (Hdoy : doe - (365 * (x mod 400) + x mod 400 / 4 - x mod 400 / 100) = doy) by (rewrite Hcc; lia).
  rewrite from_civil_floor; [|clear - Hc Hq Hr Hy Hleap; unfold doe; destruct (Z.eq_dec doy 365); lia|rewrite He; lia].
  rewrite He, Hdoy, Hmp. cbv zeta. rewrite Hback. f_equal; [f_equal|].
  - assert (x mod 400 + x / 400 * 400 = x) as -> by (clearbody x; ediv). unfold x. destruct (m <=? 2); lia.
  - unfold doy. lia.
Qed.
Lemma civil_before n x : valid_day x ->
  valid_day (before n x) /\ let '(y, m, d) := before n x in let '(y0, m0, d0) := x in civil y m d = civil y0 m0 d0 - Z.of_N n.
Proof.
  intros Hx. unfold before. induction n as [|n [IHv IH]] using N.peano_ind.
  { cbn. destruct x as [[y m] d]. split; [done|lia]. }
  rewrite N.iter_succ. split; [by apply prev_valid|]. destruct (N.iter n prev_day x) as [[y m] d].
  pose proof (civil_prev y m d IHv) as Hp. destruct (prev_day (y, m, d)) as [[y' m'] d'], x as [[y0 m0] d0]. lia.
Qed.

(** ** Text *)

Lemma parse_pad_Z w z : 0 <= z <= i64_max -> parse_i64 (pad_Z w z) = Some z /\ byte_free "-" (pad_Z w z) = true.
Proof.
  intros Hz. unfold pad_Z. assert ((z <? 0) = false) as -> by lia. split; [|by apply pad_dec_free].
  unfold parse_i64. destruct (pad_dec_first w (Z.to_N z)) as (a & s & E & Ha).
  assert (Hm : forall (A : Type) (f : string -> A) (g : A), (match pad_dec w (Z.to_N z) with String "-" r => f r | _ => g end) = g).
  { intros A f g. rewrite E. destruct a as [[] [] [] [] [] [] [] []]; done. }
  rewrite Hm, parse_pad_dec by lia. cbn. f_equal. lia.
Qed.

Lemma parse_show x : valid_day x -> 0 <= year x <= i64_max -> parse_day (show_day x) = Some x.
Proof.
  destruct x as [[y m] d]. intros [Hm Hd] Hy. cbn in Hy. pose proof (month_days_bounds y m) as Hb. unfold i64_max in *.
  destruct (parse_pad_Z 4 y) as [Ey Fy]; [unfold i64_max; lia|]. destruct (parse_pad_Z 2 m) as [Em Fm]; [unfold i64_max; lia|].
  destruct (parse_pad_Z 2 d) as [Ed Fd]; [unfold i64_max; lia|]. unfold parse_day, show_day.
  change (pad_Z 4 y +:+ "-" +:+ pad_Z 2 m +:+ "-" +:+ pad_Z 2 d) with (pad_Z 4 y +:+ String "-" (pad_Z 2 m +:+ String "-" (pad_Z 2 d))).
  rewrite !split_byte_free by done. rewrite <-(app_nil_r_str (pad_Z 2 d)).
  assert (Hl : exists l, split_byte "-" (pad_Z 2 d +:+ "") = pad_Z 2 d :: l).
  { rewrite app_nil_r_str. clear - Fd. exists []. induction (pad_Z 2 d) as [|a s IH]; [done|]. cbn in Fd. apply andb_prop in Fd as [Ha Hs].
    cbn [split_byte]. rewrite bool_decide_false by (intros ->; by rewrite Ascii.eqb_refl in Ha). by rewrite IH. }
  destruct Hl as [l ->]. by rewrite Ey, Em, Ed.
Qed.

(** ** Order of the text *)

Lemma undec_acc_shift a s : undec_acc a s = (a * 10 ^ N.of_nat (String.length s) + undec s)%N.
Proof.
  unfold undec. revert a. induction s as [|c s IH]; intros a; cbn [undec_acc String.length]; [cbn; lia|].
  rewrite IH, (IH (0 * 10 + _)%N), Nat2N.inj_succ, N.pow_succ_r'. lia.
Qed.

Lemma undec_bound s : all_bytes is_digit s = true -> (undec s < 10 ^ N.of_nat (String.length s))%N.
Proof.
  induction s as [|c s IH]; [done|]. intros [Hc Hs]%andb_prop. unfold undec. cbn [undec_acc String.length].
  rewrite undec_acc_shift, Nat2N.inj_succ, N.pow_succ_r'. specialize (IH Hs).
  assert (digit_val c <= 9)%N; [|nia].
  revert Hc. unfold is_digit, digit_val, nat_of_ascii. intros [H1%Nat.leb_le H2%Nat.leb_le]%andb_prop. lia.
Qed.

Lemma digit_compare a b : is_digit a = true -> is_digit b = true -> Ascii.compare a b = (digit_val a ?= digit_val b)%N.
Proof.
  unfold is_digit, digit_val, nat_of_ascii. intros [H1%Nat.leb_le _]%andb_prop [H2%Nat.leb_le _]%andb_prop. rewrite ascii_compare_spec.
  destruct (N.compare_spec (N_of_ascii a) (N_of_ascii b)); symmetry; [apply N.compare_eq_iff|apply N.compare_lt_iff|apply N.compare_gt_iff]; lia.
Qed.

(** Digits of one width compare as their numbers. *)
Lemma digits_compare s t : String.length s = String.length t -> all_bytes is_digit s = true -> all_bytes is_digit t = true ->
  String.compare s t = (undec s ?= undec t)%N.
Proof.
  revert t. induction s as [|a s IH]; intros [|b t]; try done. intros [= Hl] [Ha Hs]%andb_prop [Hb Ht]%andb_prop.
  cbn [String.compare]. rewrite IH, digit_compare by done. unfold undec at 3 4. cbn [undec_acc].
  rewrite !undec_acc_shift, Hl. pose proof (undec_bound s Hs). pose proof (undec_bound t Ht). rewrite Hl in *.
  set (p := (10 ^ N.of_nat (String.length t))%N) in *.
  destruct (N.compare_spec (digit_val a) (digit_val b)) as [->|Hab|Hab].
  - symmetry. destruct (N.compare_spec (undec s) (undec t)); [apply N.compare_eq_iff|apply N.compare_lt_iff|apply N.compare_gt_iff]; lia.
  - symmetry. apply N.compare_lt_iff. nia.
  - symmetry. apply N.compare_gt_iff. nia.
Qed.

Lemma compare_app a b c d : String.length a = String.length c ->
  String.compare (a +:+ b) (c +:+ d) = match String.compare a c with Eq => String.compare b d | o => o end.
Proof.
  revert c. induction a as [|x a IH]; intros [|y c]; try done. intros [= Hl].
  change (String x a +:+ b) with (String x (a +:+ b)). change (String y c +:+ d) with (String y (c +:+ d)). cbn [String.compare].
  rewrite IH by done. by destruct (Ascii.compare x y).
Qed.

Lemma length_go w x s : (x < 10 ^ N.of_nat w)%N -> (String.length (pretty_N_go x s) <= w + String.length s)%nat.
Proof.
  revert x s. induction w as [|w IH]; intros x s Hx.
  { assert (x = 0)%N as -> by (cbn in Hx; lia). by rewrite pretty_N_go_0. }
  destruct (decide (x = 0)%N) as [->|Hn]; [rewrite pretty_N_go_0; lia|]. rewrite pretty_N_go_step by lia.
  etrans; [apply IH|cbn; lia]. rewrite Nat2N.inj_succ, N.pow_succ_r' in Hx. apply N.Div0.div_lt_upper_bound. lia.
Qed.

Lemma length_pad w n : (0 < w)%nat -> (n < 10 ^ N.of_nat w)%N -> String.length (pad_dec w n) = w.
Proof.
  intros Hw Hn. assert (Hd : (String.length (dec n) <= w)%nat).
  { unfold dec, pretty, pretty_N. case_decide; [cbn; lia|]. etrans; [by apply length_go|cbn; lia]. }
  unfold pad_dec. rewrite length_append. assert (forall k, String.length (zeros k) = k) as -> by (induction k; cbn; lia). lia.
Qed.

Lemma compare_pad w a b : (0 < w)%nat -> 0 <= a < 10 ^ Z.of_nat w -> 0 <= b < 10 ^ Z.of_nat w ->
  String.length (pad_Z w a) = String.length (pad_Z w b) /\ String.compare (pad_Z w a) (pad_Z w b) = (a ?= b).
Proof.
  intros Hw Ha Hb. unfold pad_Z. assert ((a <? 0) = false) as -> by lia. assert ((b <? 0) = false) as -> by lia.
  assert (Hp : (10 ^ N.of_nat w)%N = Z.to_N (10 ^ Z.of_nat w)) by (rewrite Z2N.inj_pow by lia; f_equal; lia).
  assert (Hl : String.length (pad_dec w (Z.to_N a)) = String.length (pad_dec w (Z.to_N b))) by (rewrite !length_pad by (rewrite ?Hp; lia); done).
  split; [done|]. rewrite digits_compare by (done || apply all_digits_pad_dec). rewrite !undec_pad_dec. by rewrite Z2N.inj_compare by lia.
Qed.

Definition in_years (x : Z * Z * Z) : Prop := valid_day x /\ 0 <= year x <= 9999.

(** A stamp's day compares as text the way the calendar orders it. *)
Lemma show_order a b : in_years a -> in_years b -> str_le (show_day a) (show_day b) = true <-> day_le a b.
Proof.
  destruct a as [[y m] d], b as [[y' m'] d']. intros [[Hm Hd] Hy] [[Hm' Hd'] Hy']. cbn [year fst] in *.
  pose proof (month_days_bounds y m). pose proof (month_days_bounds y' m').
  destruct (compare_pad 4 y y') as [Ly Cy]; [lia..|]. destruct (compare_pad 2 m m') as [Lm Cm]; [lia..|].
  destruct (compare_pad 2 d d') as [_ Cd]; [lia..|].
  rewrite str_le_spec. unfold show_day. rewrite !compare_app by done. rewrite Cy, Cm, Cd. cbn [String.compare Ascii.compare].
  unfold day_le. destruct (Z.compare_spec y y'), (Z.compare_spec m m'), (Z.compare_spec d d'); cbn; split; intros; try done; try lia; intuition lia.
Qed.

Lemma year_before n x : valid_day x -> year (before n x) <= year x.
Proof.
  intros Hx. unfold before. induction n as [|n IH] using N.peano_ind; [done|]. rewrite N.iter_succ.
  assert (forall z, year (prev_day z) <= year z); [|etrans; [apply H|exact IH]].
  intros [[y m] d]. unfold prev_day, year. repeat case_match; cbn; lia.
Qed.

(** C30: the day arithmetic is the calendar's. Counting back [n] days from a day written YYYY-MM-DD gives the text of the day reached by [n] steps of the Gregorian calendar, over every month, leap-year and century edge; and where all years have four digits, comparing a stamp's day with that text as strings — which is how the week of the evals and the windows of the dashboards are cut — keeps exactly the days that are not earlier. *)
Theorem days_back_exact x n :
  valid_day x -> 0 <= year x <= i64_max -> Z.of_N n <= i64_max ->
  days_back (show_day x) n = show_day (before n x) /\
  (year x <= 9999 -> 0 <= year (before n x) ->
   forall z, in_years z -> str_le (days_back (show_day x) n) (show_day z) = true <-> day_le (before n x) z).
Proof.
  intros Hx Hy Hn. assert (E : days_back (show_day x) n = show_day (before n x)).
  { unfold days_back. rewrite parse_show by done. destruct (civil_before n x Hx) as [Hv Hc].
    destruct x as [[y m] d], (before n (y, m, d)) as [[y' m'] d'] eqn:Eb. assert ((Z.of_N n <=? i64_max) = true) as -> by lia.
    rewrite <-Hc, from_civil_civil; done. }
  split; [done|]. intros H1 H2 z Hz. rewrite E. apply show_order; [|done]. pose proof (year_before n x Hx). split; [apply civil_before, Hx|lia].
Qed.

Lemma days_back_exact_witness :
  days_back "2000-03-01" 1462 = "1996-02-29" /\ str_le (days_back "2026-01-03" 7) "2025-12-27" = true.
Proof.
  assert (V1 : valid_day (2000, 3, 1)) by (cbn; lia). assert (V2 : valid_day (2026, 1, 3)) by (cbn; lia).
  destruct (days_back_exact (2000, 3, 1) 1462 V1) as [E _]; [cbn; unfold i64_max; lia..|].
  destruct (days_back_exact (2026, 1, 3) 7 V2) as [_ H]; [cbn; unfold i64_max; lia..|].
  split; [etrans; [exact E|vm_compute; reflexivity]|].
  apply (H ltac:(cbn; lia) ltac:(vm_compute; discriminate) (2025, 12, 27)); [split; cbn; lia|vm_compute; right; split; [reflexivity|right; split; [reflexivity|discriminate]]].
Defined.
