(* ===== verification/Brakes.v ===== *)
(** * The self-tuning brakes

    [application/src/metrics_brakes.rs] with the evals and the policy of [metrics.rs],
    the burn-down of [metrics_burndown.rs], the daily pass of [cycle/ceremonies.rs] and
    the endpoints of [server/tunecockpit.rs]: when features pause for bugs, when the BA
    pauses, and how a person overrides either for a bounded time. [now] is
    [now_rfc3339()], [rfc3339] the parser of a stamp, [fixed2] the text of an f64 with
    two decimals. *)
From Stdlib Require Import SpecFloat.
From S2P Require Import Prelude RustStr Kinds TestCase Ticket State StateOps Ports Channels Titles Selection Auth Calendar.

(** ** The bug burn-down *)

Definition MAX_BUG_SNAPSHOT_DAYS : nat := 366.
Definition BURNDOWN_WINDOW_DAYS : nat := 30.

Definition bugs_in (s : Status) (st : ProjectState) : N :=
  N.of_nat (length (List.filter (fun t => bool_decide (t_kind t = Bug) && bool_decide (t_status t = s)) (tickets st))).

Definition bug_status_counts (st : ProjectState) : BugSnapshot :=
  mkBugSnapshot (bugs_in Open st) (bugs_in Fixed st) (bugs_in Verified st).

Definition record_burndown_snapshot (day : string) (st : ProjectState) : ProjectState :=
  match bug_snapshots st !! day with
  | Some _ => st
  | None =>
      let m := <[day := bug_status_counts st]> (bug_snapshots st) in
      let overflow := size m - MAX_BUG_SNAPSHOT_DAYS in
      st <| bug_snapshots := fold_left (fun m day => delete day m) (take overflow (btree_keys m)) m |>
  end.

Record BurndownDay := mkBurndownDay { bd_day : string; bd_counts : BugSnapshot }.
Record Burndown := mkBurndown { bd_series : list BurndownDay; bd_delta_24h : Z }.

Definition burndown_day (now_day day : string) (st : ProjectState) : option BurndownDay :=
  mkBurndownDay day <$>
    match bug_snapshots st !! day with
    | Some s => Some s
    | None => if decide (day = now_day) then Some (bug_status_counts st) else None
    end.

Definition delta_of (series : list BurndownDay) : Z :=
  match rev series with
  | latest :: prev :: _ => Z.of_N (bs_open (bd_counts prev)) - Z.of_N (bs_open (bd_counts latest))
  | _ => 0
  end.

Definition compute_burndown (now_day : string) (days : nat) (st : ProjectState) : Burndown :=
  let series := omap (fun i => burndown_day now_day (days_back now_day (N.of_nat i)) st) (rev (seq 0 (Nat.max days 1))) in
  mkBurndown series (delta_of series).

(** ** The evals *)

Record RoleEval := mkRoleEval { re_role : string; re_runs : N; re_cost_usd : f64; re_avg_cost_usd : f64 }.

Record AgentEvals := mkAgentEvals {
  ev_per_role : list RoleEval;
  ev_shipped_total : N;
  ev_shipped_7d : N;
  ev_parked : N;
  ev_failed_attempts : N;
  ev_churn_per_ship : f64;
  ev_prs_stuck : N;
  ev_cost_per_ship_usd : f64;
}.

Definition role_eval (sp : Spend) (role : string) : RoleEval :=
  let runs := default 0%N (sp_runs_by_role sp !! role) in
  let metered := default f64_zero (sp_metered_cost_by_role sp !! role) in
  mkRoleEval role runs (default f64_zero (sp_by_role sp !! role)) (if (runs =? 0)%N then f64_zero else f64_div metered (f64_of_N runs)).

Definition day_in (at_ : string) : string := default "" (str_get_to 10 at_).

(** The values of a map with the property. *)
Definition count_values {K} `{Countable K} (p : N -> bool) (m : gmap K N) : N :=
  N.of_nat (length (List.filter p (map_to_list m).*2)).

Definition agent_evals (now : string) (st : ProjectState) : AgentEvals :=
  let shipped := N.of_nat (length (history st)) in
  let week_ago := days_back (day_in now) 7 in
  let failed := foldr N.add 0%N (map_to_list (ticket_fail_attempts st)).*2 in
  mkAgentEvals (role_eval (spend st) <$> btree_keys (sp_by_role (spend st))) shipped
    (N.of_nat (length (List.filter (fun r => str_le week_ago (day_in (dep_at r))) (history st))))
    (count_values (fun n => 3 <=? n)%N (ticket_fail_attempts st)) failed
    (if (shipped =? 0)%N then f64_of_N failed else f64_div (f64_of_N failed) (f64_of_N shipped))
    (count_values (fun n => 2 <=? n)%N (pr_fix_attempts st))
    (if (shipped =? 0)%N then f64_zero else f64_div (sp_total_cost_usd (spend st)) (f64_of_N shipped)).

(** ** The policy *)

(** [1.5] and the [f64] nearest to [0.8]. *)
Definition CHURN_BRAKE_ON : f64 := S754_finite false 6755399441055744 (-52).
Definition CHURN_BRAKE_OFF : f64 := S754_finite false 7205759403792794 (-53).
Definition BACKLOG_BRAKE_ON : nat := 25.
Definition BACKLOG_BRAKE_OFF : nat := 12.

Definition set_bugs_first (v : bool) (t : Tuning) : Tuning :=
  mkTuning v (tn_skip_ba t) (tn_burn_mode t) (tn_burn_until_bugs_le t) (tn_last_eval_day t).
Definition set_skip_ba (v : bool) (t : Tuning) : Tuning :=
  mkTuning (tn_bugs_first t) v (tn_burn_mode t) (tn_burn_until_bugs_le t) (tn_last_eval_day t).

Definition quality_brake (ev : AgentEvals) (bug_delta_24h : Z) (current : bool) : bool :=
  let churned :=
    if (3 <=? ev_shipped_total ev)%N then
      if f64_ltb CHURN_BRAKE_ON (ev_churn_per_ship ev) then true
      else if f64_ltb (ev_churn_per_ship ev) CHURN_BRAKE_OFF then false else current
    else current in
  if (bug_delta_24h <? 0)%Z then true else churned.

Definition intake_brake (ev : AgentEvals) (backlog : nat) (current : bool) : bool :=
  if (ev_shipped_7d ev =? 0)%N then
    if BACKLOG_BRAKE_ON <? backlog then true else if backlog <? BACKLOG_BRAKE_OFF then false else current
  else false.

Definition decide_tuning (ev : AgentEvals) (backlog : nat) (bug_delta_24h : Z) (current : Tuning) : Tuning :=
  set_skip_ba (intake_brake ev backlog (tn_skip_ba current))
    (set_bugs_first (quality_brake ev bug_delta_24h (tn_bugs_first current)) current).

(** ** The table of brakes *)

Definition BRAKES : list (string * string) := [("quality", "bugs_first"); ("intake", "skip_ba")].

Definition is_brake_field (brake : string) : bool := existsb (fun b => String.eqb b.2 brake) BRAKES.

Definition brake_value (t : Tuning) (field : string) : bool :=
  if String.eqb field "bugs_first" then tn_bugs_first t else if String.eqb field "skip_ba" then tn_skip_ba t else false.

Definition set_brake_value (field : string) (v : bool) (t : Tuning) : Tuning :=
  if String.eqb field "bugs_first" then set_bugs_first v t else if String.eqb field "skip_ba" then set_skip_ba v t else t.

Definition brake_backlog (st : ProjectState) : nat :=
  length (List.filter (fun t => one_of (t_status t) [Pending; Ready; Open]) (tickets st)).

Section Brakes.
Context (rfc3339 : string -> option Z) (fixed2 : f64 -> string).

(** ** Holds *)

(** The bound of the hold is ahead of [t]; one that cannot be read is behind. *)
Definition outlives (t : Z) (h : BrakeHold) : bool :=
  match rfc3339 (bh_expires_at h) with Some bound => (t <? bound)%Z | None => false end.

Definition split_expired_holds (holds : gmap string BrakeHold) (now : string) : gmap string BrakeHold * gmap string BrakeHold :=
  match rfc3339 now with
  | None => (∅, holds)
  | Some t => (filter (fun kv => outlives t kv.2 = true) holds, filter (fun kv => outlives t kv.2 = false) holds)
  end.

(** A pinned brake is forced to its value, a frozen one keeps the current one. *)
Definition apply_hold (holds : gmap string BrakeHold) (current effective : Tuning) (field : string) : Tuning :=
  match holds !! field with
  | Some h => set_brake_value field (default (brake_value current field) (bh_pinned_value h)) effective
  | None => effective
  end.

Definition apply_brake_holds (raw : Tuning) (holds : gmap string BrakeHold) (current : Tuning) : Tuning :=
  fold_left (apply_hold holds current) BRAKES.*2 raw.

Definition audited_entry (now actor source brake : string) (from to : bool) (reason : string) (until : option string)
  : TuningAuditEntry := mkTuningAuditEntry now actor source brake from to reason until.

(** The autonomous decision of today over the state, under the holds. *)
Definition recompose_autonomous (now : string) (st : ProjectState) (holds : gmap string BrakeHold) : Tuning :=
  let delta := bd_delta_24h (compute_burndown (day_in now) BURNDOWN_WINDOW_DAYS st) in
  apply_brake_holds (decide_tuning (agent_evals now st) (brake_backlog st) delta (tuning st)) holds (tuning st).

Definition audit_expiry (now : string) (effective : Tuning) (expired : gmap string BrakeHold) (st : ProjectState) (brake : string)
  : ProjectState :=
  record_tuning_change
    (audited_entry now "SM" "expiry" brake (brake_value (tuning st) brake) (brake_value effective brake)
       "hold expired — autonomous tuning resumed" (bh_expires_at <$> expired !! brake)) st.

Definition reconcile_brake_holds (now : string) (st : ProjectState) : ProjectState * bool :=
  let '(active, expired) := split_expired_holds (tuning_overrides st) now in
  if decide (expired = ∅) then (st, false)
  else
    let effective := recompose_autonomous now st active in
    let st := fold_left (audit_expiry now effective expired) (btree_keys expired) st in
    (st <| tuning_overrides := active |> <| tuning := effective |>, true).

Definition clear_brake_hold (now brake actor : string) (st : ProjectState) : ProjectState * bool :=
  match tuning_overrides st !! brake with
  | None => (st, false)
  | Some h =>
      let st := st <| tuning_overrides ::= delete brake |> in
      let effective := recompose_autonomous now st (tuning_overrides st) in
      let st := record_tuning_change
                  (audited_entry now actor "clear" brake (brake_value (tuning st) brake) (brake_value effective brake)
                     "hold cleared — autonomous tuning resumed" (Some (bh_expires_at h))) st in
      (st <| tuning := effective |>, true)
  end.

Definition set_brake_hold (now brake : string) (h : BrakeHold) (st : ProjectState) : ProjectState * bool :=
  if negb (is_brake_field brake) then (st, false)
  else
    let from := brake_value (tuning st) brake in
    let to := default from (bh_pinned_value h) in
    let st := st <| tuning_overrides ::= insert brake h |> in
    let st := match bh_pinned_value h with
              | Some v => st <| tuning ::= set_brake_value brake v |>
              | None => st
              end in
    (record_tuning_change
       (audited_entry now (bh_actor h) "hold" brake from to (bh_reason h) (Some (bh_expires_at h))) st, true).

(** ** The cockpit *)

Record BrakeCard := mkBrakeCard {
  bc_id : string;
  bc_field_name : string;
  bc_effective_value : bool;
  bc_mode : string;
  bc_auto_would_be : bool;
}.

Record BrakeCockpit := mkBrakeCockpit {
  ck_as_of : string;
  ck_eval_day : string;
  ck_churn_per_ship : option f64;
  ck_shipped_last7_days : N;
  ck_backlog : nat;
  ck_cards : list BrakeCard;
  ck_active_holds : list (string * BrakeHold);
  ck_history : list TuningAuditEntry;
}.

Definition COCKPIT_HISTORY_SHOWN : nat := 50.

Definition hold_mode (h : option BrakeHold) : string :=
  match bh_pinned_value <$> h with
  | Some (Some _) => "overridden"
  | Some None => "held-freeze"
  | None => "auto"
  end.

Definition brake_cockpit (now : string) (st : ProjectState) : BrakeCockpit :=
  let ev := agent_evals now st in
  let backlog := brake_backlog st in
  let delta := bd_delta_24h (compute_burndown (default now (str_get_to 10 now)) BURNDOWN_WINDOW_DAYS st) in
  let raw := decide_tuning ev backlog delta (tuning st) in
  let active := (split_expired_holds (tuning_overrides st) now).1 in
  mkBrakeCockpit now (tn_last_eval_day (tuning st)) (Some (ev_churn_per_ship ev)) (ev_shipped_7d ev) backlog
    ((fun b => mkBrakeCard b.1 b.2 (brake_value (tuning st) b.2) (hold_mode (active !! b.2)) (brake_value raw b.2)) <$> BRAKES)
    (omap (fun brake => pair brake <$> active !! brake) (btree_keys active))
    (take COCKPIT_HISTORY_SHOWN (rev (tuning_history st))).

(** ** The daily pass *)

Definition audit_brake_write (now brake : string) (effective was : bool) (wording : string) (expired : option BrakeHold)
    (st : ProjectState) : ProjectState * list string :=
  if Bool.eqb effective was then (st, [])
  else (record_tuning_change
          (audited_entry now "SM" (match expired with Some _ => "expiry" | None => "self_tune" end) brake was effective wording
             (bh_expires_at <$> expired)) st, [wording]).

(** What the pass decides on the state it loads; nothing when the day is done. *)
Record TunePlan := mkTunePlan { tp_today : string; tp_churn : f64; tp_backlog : nat; tp_next : Tuning }.

Definition plan_tuning (now : string) (snap : ProjectState) : option TunePlan :=
  let today := day_in now in
  if decide (tn_last_eval_day (tuning snap) = today) then None
  else
    let ev := agent_evals now snap in
    let backlog := brake_backlog snap in
    let delta := bd_delta_24h (compute_burndown today BURNDOWN_WINDOW_DAYS snap) in
    Some (mkTunePlan today (ev_churn_per_ship ev) backlog (decide_tuning ev backlog delta (tuning snap))).

Definition quality_wording (churn : f64) (on : bool) : string :=
  if on then "quality brake ON — retry churn " +:+ fixed2 churn +:+ "/ship; features pause, bugs first"
  else "quality brake OFF — churn recovered, features resume".

Definition intake_wording (backlog : nat) (on : bool) : string :=
  if on then "intake brake ON — backlog " +:+ dec_nat backlog +:+ " tickets; BA pauses until it drains"
  else "intake brake OFF — backlog drained, BA resumes".

(** [doc_category_of] ([state/docs.rs]) *)
Definition doc_category_of (folder : string) : string :=
  let space := ascii_lowercase (trim (split_first "/" folder)) in
  if one_of space ["architecture"; "technical"; "engineering"] then "technical"
  else if one_of space ["design"; "flows"] then "flows"
  else if one_of space ["qa"; "testing"; "test"; "tests"] then "qa"
  else if one_of space ["operations"; "ops"; "release notes"; "releases"] then "ops"
  else if one_of space ["product"; "features"] then "product"
  else "general".

Definition mirror_lessons (now hub : string) (st : ProjectState) : ProjectState :=
  if decide (trim hub = "") then st
  else
    (upsert_doc "" now "hub-lessons" "Team" (doc_category_of "Team") "Hub lessons (all projects)"
       ("Lessons learned across EVERY project on this hub — auto-synced daily; agents also receive the most recent ones in their prompts." +:+
        newline +:+ newline +:+ hub) "SM" (ensure_standard_folders st)).1.

Fixpoint announce_tuning (ids : nat -> string) (now : string) (i : nat) (lines : list string) (st : ProjectState) : ProjectState :=
  match lines with
  | [] => st
  | a :: lines =>
      let msg := "🎛️ Self-tuning: " +:+ a in
      let st := post_comment (ids i) now "SM" msg None st in
      announce_tuning ids now (S (S i)) lines (post_chat_in (ids (S i)) now "SM" msg AGENTS_CHANNEL [] st)
  end.

(** The closure the pass hands to [mutate_state], with the plan of the earlier load. *)
Definition commit_tuning (ids : nat -> string) (now hub : string) (plan : TunePlan) (st : ProjectState) : ProjectState :=
  if decide (tn_last_eval_day (tuning st) = tp_today plan) then st
  else
    let '(holds, expired) := split_expired_holds (tuning_overrides st) now in
    let effective := apply_brake_holds (tp_next plan) holds (tuning st) in
    let '(st, said) :=
      audit_brake_write now "bugs_first" (tn_bugs_first effective) (tn_bugs_first (tuning st))
        (quality_wording (tp_churn plan) (tn_bugs_first effective)) (expired !! "bugs_first") st in
    let '(st, said') :=
      audit_brake_write now "skip_ba" (tn_skip_ba effective) (tn_skip_ba (tuning st))
        (intake_wording (tp_backlog plan) (tn_skip_ba effective)) (expired !! "skip_ba") st in
    let st := st <| tuning := mkTuning (tn_bugs_first effective) (tn_skip_ba effective) (tn_burn_mode effective)
                                (tn_burn_until_bugs_le effective) (tp_today plan) |> <| tuning_overrides := holds |> in
    announce_tuning ids now 0 (said ++ said') (mirror_lessons now hub st).

Definition self_tune (ids : nat -> string) (planned committed hub : string) (snap st : ProjectState) : ProjectState :=
  match plan_tuning planned snap with
  | Some plan => commit_tuning ids committed hub plan st
  | None => st
  end.

(** The pass of every cycle: skipped when the state it loads has no holds. *)
Definition reconcile_pass (now : string) (snap st : ProjectState) : ProjectState :=
  if decide (tuning_overrides snap = ∅) then st else (reconcile_brake_holds now st).1.

(** ** The endpoints *)

Inductive BrakeRefusal := SignIn | NotAllowed (why : string) | BadRequest (why : string) | NoHold (why : string).

(** [None] is a hub without accounts; [Some None] a caller who is nobody. *)
Definition authorize_brake_call (caller : option (option AuthUser)) (pid : string) (write : bool) : result BrakeRefusal string :=
  match caller with
  | None => Ok "operator"
  | Some None => Err SignIn
  | Some (Some u) =>
      if write && negb (can_write (au_role u)) then Err (NotAllowed "write role required")
      else if negb (one_of (au_role u) [Super; Admin]) && negb (one_of pid (au_projects u))
      then Err (NotAllowed "not a member of this project")
      else Ok (au_username u)
  end.

Record BrakeHoldReq := mkBrakeHoldReq { hq_pinned_value : option bool; hq_reason : string; hq_expires_at : string }.

Definition known_brake (brake : string) : result BrakeRefusal unit :=
  if is_brake_field brake then Ok tt else Err (BadRequest "unknown brake — use bugs_first or skip_ba").

(** [clock] is the time of the check, [now] the stamp of the write. *)
Definition brake_hold_ep (caller : option (option AuthUser)) (pid brake : string) (req : BrakeHoldReq) (clock : Z) (now : string)
    (st : ProjectState) : result BrakeRefusal ProjectState :=
  let? actor := authorize_brake_call caller pid true in
  let? _ := known_brake brake in
  let reason := trim (hq_reason req) in
  if decide (reason = "") then Err (BadRequest "a hold needs a reason — it is the audit trail")
  else
    match rfc3339 (hq_expires_at req) with
    | None => Err (BadRequest "expiresAt must be an RFC3339 timestamp")
    | Some bound =>
        if (bound <=? clock)%Z then Err (BadRequest "expiresAt must be in the future — a hold is always bounded")
        else Ok (set_brake_hold now brake (mkBrakeHold (hq_pinned_value req) reason actor now (hq_expires_at req)) st).1
    end.

Definition brake_hold_clear_ep (caller : option (option AuthUser)) (pid brake now : string) (st : ProjectState)
    : result BrakeRefusal ProjectState :=
  let? actor := authorize_brake_call caller pid true in
  let? _ := known_brake brake in
  let '(st, cleared) := clear_brake_hold now brake actor st in
  if cleared : bool then Ok st else Err (NoHold ("no active hold on " +:+ brake)).

(** [burn_mode_ep] ([server/work.rs]) *)
Definition burn_mode_ep (enabled : bool) (target : option N) (st : ProjectState) : ProjectState :=
  st <| tuning ::= fun t => mkTuning (tn_bugs_first t) (tn_skip_ba t) enabled target (tn_last_eval_day t) |>.
End Brakes.

(** ** A hold rules its brake *)

Inductive BrakeOp :=
| OHold (caller : option (option AuthUser)) (pid brake : string) (req : BrakeHoldReq) (clock : Z) (now : string)
| OClear (caller : option (option AuthUser)) (pid brake now : string)
| OReconcile (now : string) (snap : ProjectState)
| ODaily (ids : nat -> string) (planned committed hub : string) (snap : ProjectState)
| OBurn (enabled : bool) (target : option N)
| OElse (st' : ProjectState).

Section Rule.
Context (rfc3339 : string -> option Z) (fixed2 : f64 -> string).

(** What happens to the state: the endpoints, the passes of a cycle on whatever
    snapshot they loaded, and anything else, which leaves the brakes alone. *)
Definition brake_op (op : BrakeOp) (st : ProjectState) : ProjectState :=
  match op with
  | OHold caller pid brake req clock now => default st (result_ok (brake_hold_ep rfc3339 caller pid brake req clock now st))
  | OClear caller pid brake now => default st (result_ok (brake_hold_clear_ep caller pid brake now st))
  | OReconcile now snap => reconcile_pass rfc3339 now snap st
  | ODaily ids planned committed hub snap => self_tune rfc3339 fixed2 ids planned committed hub snap st
  | OBurn enabled target => burn_mode_ep enabled target st
  | OElse st' => st' <| tuning := tuning st |> <| tuning_overrides := tuning_overrides st |>
  end.

(** The steps that neither replace nor clear the hold on [b] nor come after its bound. *)
Definition spares (b : string) (bound : Z) (op : BrakeOp) : Prop :=
  match op with
  | OHold _ _ brake _ _ _ | OClear _ _ brake _ => brake <> b
  | OReconcile now _ | ODaily _ _ now _ _ => exists t, rfc3339 now = Some t /\ (t < bound)%Z
  | _ => True
  end.

Definition may_steer (caller : option (option AuthUser)) (pid : string) : Prop :=
  match caller with
  | None => True
  | Some None => False
  | Some (Some u) => can_write (au_role u) = true /\ (one_of (au_role u) [Super; Admin] = true \/ one_of pid (au_projects u) = true)
  end.

Lemma brake_field b : is_brake_field b = true <-> b = "bugs_first" \/ b = "skip_ba".
Proof.
  unfold is_brake_field, BRAKES. cbn [existsb snd]. rewrite !orb_true_iff, !String.eqb_eq.
  split; [intros [H|[H|H]]; auto; done|]. intros [->| ->]; auto.
Qed.

Lemma value_set b v t : is_brake_field b = true -> brake_value (set_brake_value b v t) b = v.
Proof. rewrite brake_field. by intros [->| ->]. Qed.

Lemma value_set_ne b b' v t : b' <> b -> brake_value (set_brake_value b' v t) b = brake_value t b.
Proof.
  intros H. unfold set_brake_value, brake_value.
  destruct (String.eqb_spec b' "bugs_first") as [->|]; [|destruct (String.eqb_spec b' "skip_ba") as [->|]; [|done]];
    destruct (String.eqb_spec b "bugs_first"); try done; by destruct (String.eqb_spec b "skip_ba").
Qed.

Lemma apply_holds_value raw holds cur b : is_brake_field b = true ->
  brake_value (apply_brake_holds raw holds cur) b =
  match holds !! b with Some h => default (brake_value cur b) (bh_pinned_value h) | None => brake_value raw b end.
Proof.
  rewrite brake_field. unfold apply_brake_holds, apply_hold. cbn [BRAKES fmap list_fmap fold_left snd].
  intros [->| ->]; destruct (holds !! "bugs_first"), (holds !! "skip_ba"); done.
Qed.

(** [b] is held by [h] at the value [v]. *)
Definition held (b : string) (h : BrakeHold) (v : bool) (st : ProjectState) : Prop :=
  tuning_overrides st !! b = Some h /\ brake_value (tuning st) b = v /\ default v (bh_pinned_value h) = v.

Definition brakes_of (st : ProjectState) : Tuning * gmap string BrakeHold := (tuning st, tuning_overrides st).

Lemma held_core b h v st st' : brakes_of st' = brakes_of st -> held b h v st -> held b h v st'.
Proof. unfold held, brakes_of. by intros [= -> ->]. Qed.

Lemma recompose_held b h v now st holds : is_brake_field b = true -> held b h v st -> holds !! b = Some h ->
  brake_value (recompose_autonomous now st holds) b = v.
Proof. intros Hb (_ & Hv & Hp) Hh. unfold recompose_autonomous. by rewrite apply_holds_value, Hh, Hv. Qed.

Lemma split_active holds now t b h : rfc3339 now = Some t -> holds !! b = Some h ->
  (split_expired_holds rfc3339 holds now).1 !! b = if outlives rfc3339 t h then Some h else None.
Proof.
  intros Ht Hh. unfold split_expired_holds. rewrite Ht. cbn [fst]. destruct (outlives rfc3339 t h) eqn:E.
  - by apply map_lookup_filter_Some.
  - apply map_lookup_filter_None. right. intros h' Hh'. cbn. congruence.
Qed.

(** *** What the writers leave alone *)

Lemma announce_core ids now i lines st : brakes_of (announce_tuning ids now i lines st) = brakes_of st.
Proof. revert i st. induction lines as [|a lines IH]; intros i st; [done|]. cbn [announce_tuning]. by rewrite IH. Qed.

Lemma folders_core l st : brakes_of (fold_left (fun st f => add_doc_folder f st) l st) = brakes_of st.
Proof.
  revert st. induction l as [|f l IH]; intros st; [done|]. cbn [fold_left]. rewrite IH. unfold add_doc_folder. by destruct (_ || _).
Qed.

Lemma upsert_core new_id now id folder category title body author st :
  brakes_of (upsert_doc new_id now id folder category title body author st).1 = brakes_of st.
Proof. unfold upsert_doc. by destruct (List.find _ _). Qed.

Lemma mirror_core now hub st : brakes_of (mirror_lessons now hub st) = brakes_of st.
Proof. unfold mirror_lessons. destruct (decide _); [done|]. rewrite upsert_core. apply folders_core. Qed.

Lemma audit_write_core now brake e w wording x st : brakes_of (audit_brake_write now brake e w wording x st).1 = brakes_of st.
Proof. unfold audit_brake_write. by destruct (Bool.eqb e w). Qed.

(** *** Every step keeps the hold *)

Lemma value_of_fields b e day bm bu : brake_value (mkTuning (tn_bugs_first e) (tn_skip_ba e) bm bu day) b = brake_value e b.
Proof. done. Qed.

Lemma commit_held b h v bound ids now t hub plan st :
  is_brake_field b = true -> rfc3339 (bh_expires_at h) = Some bound -> rfc3339 now = Some t -> (t < bound)%Z ->
  held b h v st -> held b h v (commit_tuning rfc3339 fixed2 ids now hub plan st).
Proof.
  intros Hb Hbound Ht Hlt Hh. unfold commit_tuning. destruct (decide _); [done|].
  pose proof Hh as (Hl & Hv & Hp). pose proof (split_active _ _ _ _ _ Ht Hl) as Ha.
  assert (outlives rfc3339 t h = true) as Eo by (unfold outlives; rewrite Hbound; lia). rewrite Eo in Ha.
  destruct (split_expired_holds _ _ _) as [holds expired]. cbn [fst] in Ha.
  set (e := apply_brake_holds _ _ _). assert (He : brake_value e b = v) by (unfold e; by rewrite apply_holds_value, Ha, Hv).
  clearbody e. destruct (audit_brake_write _ "bugs_first" _ _ _ _ st) as [st1 said1]. destruct (audit_brake_write _ "skip_ba" _ _ _ _ st1) as [st2 said2].
  eapply held_core; [rewrite announce_core; apply mirror_core|]. by split_and!.
Qed.

Lemma reconcile_held b h v bound now t st :
  is_brake_field b = true -> rfc3339 (bh_expires_at h) = Some bound -> rfc3339 now = Some t -> (t < bound)%Z ->
  held b h v st -> held b h v (reconcile_brake_holds rfc3339 now st).1.
Proof.
  intros Hb Hbound Ht Hlt Hh. unfold reconcile_brake_holds. pose proof Hh as (Hl & Hv & Hp).
  pose proof (split_active _ _ _ _ _ Ht Hl) as Ha.
  assert (outlives rfc3339 t h = true) as Eo by (unfold outlives; rewrite Hbound; lia). rewrite Eo in Ha.
  destruct (split_expired_holds _ _ _) as [active expired]. cbn [fst] in Ha. destruct (decide _); [done|].
  split_and!; [exact Ha|by apply (recompose_held b h)|done].
Qed.

Lemma clear_held b h v now brake actor st :
  is_brake_field b = true -> brake <> b -> held b h v st -> held b h v (clear_brake_hold now brake actor st).1.
Proof.
  intros Hb Hne Hh. unfold clear_brake_hold. destruct (tuning_overrides st !! brake) as [h'|]; [|done].
  set (st1 := st <| tuning_overrides ::= delete brake |>).
  assert (H1 : held b h v st1) by (destruct Hh as (Hl & Hv & Hp); split_and!; [cbn; by rewrite lookup_delete_ne|done..]).
  split_and!; [apply H1| |apply H1]. apply (recompose_held b h); [done..|apply H1].
Qed.

Lemma set_held b h v now brake h' st : brake <> b -> held b h v st -> held b h v (set_brake_hold now brake h' st).1.
Proof.
  intros Hne (Hl & Hv & Hp). unfold set_brake_hold. destruct (negb _); [done|].
  destruct (bh_pinned_value h') as [w|]; (split_and!; [cbn; by rewrite lookup_insert_ne| |done]); [|done].
  cbn [fst]. transitivity (brake_value (set_brake_value brake w (tuning st)) b); [done|]. by rewrite value_set_ne.
Qed.

Lemma op_held b h v bound op st :
  is_brake_field b = true -> rfc3339 (bh_expires_at h) = Some bound -> spares b bound op -> held b h v st -> held b h v (brake_op op st).
Proof.
  intros Hb Hbound Hs Hh. destruct op as [c pid brake req clock now|c pid brake now|now snap|ids planned now hub snap|en tg|st'];
    cbn [brake_op spares] in *.
  - unfold brake_hold_ep. destruct (authorize_brake_call _ _ _); [|done]. cbn [result_bind]. destruct (known_brake brake); [|done].
    cbn [result_bind]. destruct (decide _); [done|].
    destruct (rfc3339 (hq_expires_at req)) as [z|]; [|done]. destruct (z <=? clock)%Z; [done|]. by apply set_held.
  - unfold brake_hold_clear_ep. destruct (authorize_brake_call _ _ _) as [actor|]; [|done]. cbn [result_bind].
    destruct (known_brake brake); [|done]. cbn [result_bind]. pose proof (clear_held b h v now brake actor st Hb Hs Hh) as Hc.
    by destruct (clear_brake_hold _ _ _ _) as [st' []].
  - destruct Hs as (t & Ht & Hlt). unfold reconcile_pass. destruct (decide _); [done|]. by apply (reconcile_held b h v bound now t).
  - destruct Hs as (t & Ht & Hlt). unfold self_tune. destruct (plan_tuning _ _); [|done]. by apply (commit_held b h v bound ids now t).
  - destruct Hh as (Hl & Hv & Hp). split_and!; [exact Hl|exact Hv|done].
  - destruct Hh as (Hl & Hv & Hp). split_and!; [exact Hl|exact Hv|done].
Qed.

Lemma ops_held b h v bound ops st :
  is_brake_field b = true -> rfc3339 (bh_expires_at h) = Some bound -> Forall (spares b bound) ops -> held b h v st ->
  held b h v (fold_left (fun st op => brake_op op st) ops st).
Proof.
  intros Hb Hbound Hs. revert st. induction Hs as [|op ops Ho Hops IH]; intros st Hh; [done|].
  cbn [fold_left]. apply IH. by apply (op_held b h v bound).
Qed.

(** *** Taking and ending a hold *)

Lemma hold_taken caller pid b req clock now st st1 bound :
  rfc3339 (hq_expires_at req) = Some bound -> brake_hold_ep rfc3339 caller pid b req clock now st = Ok st1 ->
  (clock < bound)%Z /\ trim (hq_reason req) <> "" /\ may_steer caller pid /\ is_brake_field b = true /\
  exists h, bh_pinned_value h = hq_pinned_value req /\ bh_expires_at h = hq_expires_at req /\
    held b h (default (brake_value (tuning st) b) (hq_pinned_value req)) st1.
Proof.
  intros Hbound. unfold brake_hold_ep.
  assert (Hm : is_ok (authorize_brake_call caller pid true) = true -> may_steer caller pid).
  { unfold authorize_brake_call, may_steer. destruct caller as [[u|]|]; [|done..].
    destruct (can_write (au_role u)); [|done]. destruct (one_of (au_role u) _); [by auto|]. destruct (one_of pid _); [by auto|done]. }
  destruct (authorize_brake_call caller pid true) as [actor|]; [|done]. cbn [result_bind].
  destruct (known_brake b) eqn:Hk; [|done]. cbn [result_bind]. destruct (decide _) as [|Hr]; [done|]. rewrite Hbound.
  destruct (Z.leb_spec bound clock); [done|]. unfold known_brake in Hk. destruct (is_brake_field b) eqn:Hb; [|done].
  intros [= <-]. split_and!; [done..|by apply Hm|done|]. set (h := mkBrakeHold _ _ _ _ _). exists h. split_and!; [done..|].
  unfold set_brake_hold. rewrite Hb. cbn [negb]. change (bh_pinned_value h) with (hq_pinned_value req).
  destruct (hq_pinned_value req) as [v|] eqn:Ev; split_and!.
  - cbn. by rewrite lookup_insert_eq.
  - cbn [fst]. transitivity (brake_value (set_brake_value b v (tuning st)) b); [done|]. by apply value_set.
  - done.
  - cbn. by rewrite lookup_insert_eq.
  - done.
  - done.
Qed.

Lemma bound_ends b h v bound later t st :
  rfc3339 (bh_expires_at h) = Some bound -> rfc3339 later = Some t -> (bound <= t)%Z -> held b h v st ->
  tuning_overrides (reconcile_pass rfc3339 later st st) !! b = None.
Proof.
  intros Hbound Ht Hle (Hl & _). unfold reconcile_pass. destruct (decide _) as [E|_]; [rewrite E in Hl; done|].
  unfold reconcile_brake_holds. pose proof (split_active _ _ _ _ _ Ht Hl) as Ha.
  assert (outlives rfc3339 t h = false) as Eo by (unfold outlives; rewrite Hbound; lia). rewrite Eo in Ha.
  assert (Hx : (split_expired_holds rfc3339 (tuning_overrides st) later).2 !! b = Some h).
  { unfold split_expired_holds. rewrite Ht. by apply map_lookup_filter_Some. }
  destruct (split_expired_holds _ _ _) as [active expired]. cbn [fst snd] in *.
  destruct (decide _) as [E|_]; [rewrite E in Hx; done|]. exact Ha.
Qed.

(** C29: an operator's hold rules its brake until its bound. A hold is accepted only
    with a reason, a bound ahead of the clock, and from a caller who may write in
    the project; from then on the brake has the pinned value (or, frozen, the value
    it had) after every pass of every cycle, every daily re-evaluation whatever
    snapshot it was planned on, every hold or clear of the other brake and every
    switch of burn mode, as long as nobody replaces or clears it and the clock is
    before its bound. The first reconciliation at or after the bound removes the
    hold's entry; what value the brake has from then on is not claimed. *)
Theorem hold_rules_brake caller pid b req clock now st st1 ops bound :
  rfc3339 (hq_expires_at req) = Some bound ->
  brake_hold_ep rfc3339 caller pid b req clock now st = Ok st1 ->
  Forall (spares b bound) ops ->
  let st2 := fold_left (fun st op => brake_op op st) ops st1 in
  (clock < bound)%Z /\ trim (hq_reason req) <> "" /\ may_steer caller pid /\
  (exists h, tuning_overrides st2 !! b = Some h /\ bh_pinned_value h = hq_pinned_value req) /\
  brake_value (tuning st2) b = default (brake_value (tuning st) b) (hq_pinned_value req) /\
  (forall later t, rfc3339 later = Some t -> (bound <= t)%Z -> tuning_overrides (reconcile_pass rfc3339 later st2 st2) !! b = None).
Proof.
  intros Hbound Hok Hops st2. destruct (hold_taken _ _ _ _ _ _ _ _ _ Hbound Hok) as (Hc & Hr & Hm & Hb & h & Hp & He & Hh).
  assert (Hbd : rfc3339 (bh_expires_at h) = Some bound) by congruence.
  pose proof (ops_held b h _ bound ops st1 Hb Hbd Hops Hh) as H2. fold st2 in H2.
  split_and!; [done..|exists h; split; [apply H2|done]|apply H2|]. intros later t Ht Hle. by apply (bound_ends b h _ bound later t st2 Hbd Ht Hle H2).
Qed.
End Rule.

(** ** Scripted runs *)

(** A clock that reads the hour of a stamp. *)
Definition hour_of (s : string) : option Z := Z.of_N <$> parse_u64 (String.substring 11 2 s).

Definition pin_intake : BrakeHoldReq := mkBrakeHoldReq (Some true) "release week" "2026-01-05T12:00:00Z".

Definition pinned_from : ProjectState :=
  default ProjectState_default
    (result_ok (brake_hold_ep hour_of None "p" "skip_ba" pin_intake 10 "2026-01-05T10:00:00Z" ProjectState_default)).

Definition loop_steps : list BrakeOp :=
  [ODaily (fun _ => "id") "2026-01-05T10:00:00Z" "2026-01-05T10:00:00Z" "" ProjectState_default;
   OReconcile "2026-01-05T11:00:00Z" pinned_from; OBurn true None].

Lemma hold_rules_brake_witness :
  let st2 := fold_left (fun st op => brake_op hour_of (fun _ => "") op st) loop_steps pinned_from in
  brake_value (tuning st2) "skip_ba" = true /\
  tuning_overrides (reconcile_pass hour_of "2026-01-05T12:00:00Z" st2 st2) !! "skip_ba" = None.
Proof.
  assert (Hops : Forall (spares hour_of "skip_ba" 12) loop_steps).
  { repeat constructor; [exists 10%Z|exists 11%Z]; by split. }
  pose proof (hold_rules_brake hour_of (fun _ => "") None "p" "skip_ba" pin_intake 10 "2026-01-05T10:00:00Z" ProjectState_default
                pinned_from loop_steps 12 eq_refl ltac:(vm_compute; reflexivity) Hops) as (_ & _ & _ & _ & Hv & He).
  split; [exact Hv|]. by apply (He "2026-01-05T12:00:00Z" 12%Z).
Defined.

(** The daily pass writes the whole tuning it planned on an earlier load: a burn mode
    that a person switched on in between is switched off. *)
Theorem self_tune_erases_burn_mode :
  let snap := ProjectState_default in
  let st := burn_mode_ep true (Some 3%N) snap in
  let now := "2026-01-05T10:00:00Z" in
  let st' := self_tune hour_of (fun _ => "") (fun _ => "id") now now "" snap st in
  tn_burn_mode (tuning st) = true /\ tn_burn_mode (tuning st') = false /\ tn_burn_until_bugs_le (tuning st') = None.
Proof. vm_compute. done. Qed.

Definition shipped_at (at_ : string) : DeployRecord := mkDeployRecord (SemVer_new 0 1 0) "CXA-F001" "t" at_.

(** Three shipped tickets and [n] failed attempts. *)
Definition churning (n : N) : ProjectState :=
  ProjectState_default <| history := replicate 3 (shipped_at "2026-01-04T10:00:00Z") |> <| ticket_fail_attempts := {["CXA-B001" := n]} |>.

(** Clearing one brake re-evaluates both, and only the cleared one is audited. *)
Theorem other_brake_moves_unaudited :
  let st := (churning 6) <| tuning_overrides := {["skip_ba" := mkBrakeHold None "r" "ann" "" "2026-01-05T12:00:00Z"]} |> in
  let '(st', cleared) := clear_brake_hold "2026-01-05T10:00:00Z" "skip_ba" "ann" st in
  cleared = true /\ tn_bugs_first (tuning st) = false /\ tn_bugs_first (tuning st') = true /\
  tu_brake <$> tuning_history st' = ["skip_ba"].
Proof. vm_compute. done. Qed.

(** Between the two bars the policy keeps the value it finds, and what it finds after a
    pin is the pin: the override goes on after its bound. *)
Theorem pin_outlives_its_bound :
  let free := churning 3 in
  let st := free <| tuning := set_bugs_first true (tuning free) |>
                 <| tuning_overrides := {["bugs_first" := mkBrakeHold (Some true) "r" "ann" "" "2026-01-05T12:00:00Z"]} |> in
  let now := "2026-01-05T12:00:00Z" in
  let '(st', released) := reconcile_brake_holds hour_of now st in
  released = true /\ tuning_overrides st' = ∅ /\ tn_bugs_first (tuning st') = true /\
  tn_bugs_first (recompose_autonomous now free ∅) = false.
Proof. vm_compute. split_and!; reflexivity. Qed.

(** The trail of the bug counts keeps to its days. *)
Example first_snapshot :
  bug_snapshots (record_burndown_snapshot "2026-01-05" ProjectState_default) !! "2026-01-05" = Some (mkBugSnapshot 0 0 0).
Proof. vm_compute. done. Qed.
